(* ===== verification/_CoqProject ===== *)
-Q . S2P
Prelude.v
GoStrings.v
GoURL.v
GoQuery.v
RuntimeCfg.v
World.v
GoNumbers.v
GoFloat.v
GoJSON.v
GoTime.v
GoStruct.v
Session.v
Token.v
TokenThreads.v
Auth.v
Policy.v
Metrics.v
Http.v
Middleware.v
Mux.v
AuthHTTP.v
Redis.v
RedisCodec.v
RedisLock.v
Limits.v
Router.v
MockServices.v
Capability.v
Capacity.v
StorageContract.v
StorageRole.v
AppConfig.v
Outbound.v
Signer.v
OIDC.v
AppAPI.v
App.v
RoleServer.v
Gateway.v
Program.v
Portal.v
