(* ===== verification/Prelude.v ===== *)
(** * gateway-runtime: a verification library

    gateway-runtime is a Go backend-for-frontend and gateway: it logs browsers in
    through an identity provider, keeps sessions and tokens on the server, guards
    application routes with permissions and CSRF checks, calls upstream services
    with the user's token, and, in other roles, hands out presigned storage
    operations.  This library models its core in Rocq, close to the source, and
    proves what makes each part correct.

    ** How the program is modelled

    - A Go string is its bytes ([String.string]); an error is a [goerr]; a
      function that returns [(T, error)] returns a [result T] (Prelude.v).
    - What the process mutates is the record [World] (World.v): flows, sessions,
      tokens, cache, held locks, audit trail, metrics, log, the variables of the
      rate and concurrency limits, the circuit breakers, and the keys of the Redis
      server.  Operations are computations in the state monad [M]; [do] sequences
      them, [try] also returns early on an error, as [if err != nil] does.
    - Every reading of the clock or of random bytes and every answer of a remote
      party is an event; its value is an arbitrary function of the event's number
      (class [Env], [oracle]).  Theorems thus hold for every clock and every
      behaviour of the identity provider, the signer, the policy service and the
      upstream, including ones that change from call to call.
    - Times are nanoseconds since Go's zero time as integers; durations are int64,
      with wrap-around written out where the source multiplies them.
    - A Go map is a [gmap]; where the source ranges over a map, the order is an
      argument or a list and the theorems hold for every order.
    - Stores are records of operations (the Go interfaces) with a class that
      states their contract ([SessionStoreSpec], [TokenStoreSpec], [LockerSpec]);
      the in-memory and the Redis stores are instances and the clients are proved
      against the contract.
    - A handler is a function of the request and of what was written to the
      response so far; a middleware is a function on handlers, composed as the
      source composes them.
    - Concurrency is a step relation over the threads of one component
      (TokenThreads.v, RedisLock.v, Outbound.v, Limits.v); everything else is one
      request at a time.
    - A float64 is a [spec_float] of the Standard Library with 53 bits.  JSON is
      text: GoJSON.v parses and prints it, GoStruct.v decodes it into records by
      the field tags of the source.

    - A panic is an [Err]: at start-up one of the registration of routes ends the
      process ([panicking] in Gateway.v).

    Parameters stand for what is not in the repository or is a table of the Go
    library: Unicode case folding outside ASCII ([UnicodeCase]) and printable
    characters ([PrintTable]), the parsing of IP addresses and networks ([Net],
    [IPLiteral]), decimal text of floats ([FloatText]), the conversion of a float
    that is no int ([FloatInt]), the local time zone ([Zone]), the status of
    redirects and the letters of wildcard names ([MuxVersion]), the order of a [range] over a map that the loop
    changes ([RangeOrder]), the bytes of a body on the wire ([WireSize], only
    logged), the host name ([Host]), the Redis commands ([Redis], with their
    documented behaviour in [RedisSpec]; [RedisStart]), go-oidc and oauth2
    ([OIDCLib], [Discovery]), and the services behind outbound clients
    ([Network]).

    ** Files

    - Prelude.v: errors, results, automation, 64-bit integers.
    - GoStrings.v, GoURL.v, GoQuery.v, GoNumbers.v, GoFloat.v, GoJSON.v, GoTime.v,
      GoStruct.v: the parts of strings, utf8, net/url, path, strconv, time,
      encoding/json and float64 that the source uses.
    - RuntimeCfg.v: internal/runtimecfg.  Roles and capabilities: the parsers
      accept only selections that [Validate] accepts, and [Validate] accepts
      exactly the well-formed ones.
    - World.v: the process state, the monad and frame reasoning ([Keeps]).
    - Session.v: internal/session.  The store contract, [MemoryStore], and
      [LifecycleStore]: absolute and idle life times in every reachable state.
    - Token.v: internal/token.  [MemoryStore], [MemoryLocker] and
      [StoreManager.AccessToken]: no expired token is handed out, a refused or
      unusable refresh removes the login from the in-memory stores, the lock is
      always released.
    - TokenThreads.v: concurrent [AccessToken] calls exclude each other, and where
      one refresh settles the matter (record [settles]) they refresh once.
    - Auth.v: internal/auth (service.go, flow_store.go, contracts.go).  Login,
      callback and logout: flows are single-use, logins are stored completely or
      not at all, return addresses stay local, logouts remove everything.
    - Policy.v: internal/policy, internal/cache, internal/usercontext.  The cached
      resolver answers as the resolver behind it did.
    - Metrics.v: internal/observability.  Counters and histograms are what the
      recorded calls say; the Prometheus text.
    - Http.v: requests, response writers and handlers.
    - Middleware.v: internal/httpx/middleware and internal/audit.  CSRF,
      authorisation with its audit trail, client identity, request ids, the sinks.
    - Mux.v: net/http's ServeMux and StripPrefix: parsing of patterns, conflicts and
      the panics over them, matching and redirects; and the mounting below the base
      path, which both servers share.
    - AuthHTTP.v: internal/auth/http.go, the four authentication endpoints.  A logout
      is refused or removes the login from any stores that meet their contracts.
    - Redis.v, RedisCodec.v, RedisLock.v: internal/store/redis.  The stores refine
      the contracts of Session.v, Token.v and Auth.v, records survive the way to the
      server and back, and the refresh lock is exclusive, ends with the request's
      context and is taken over when its holder is gone.
    - Limits.v: rate_limit.go and concurrency.go.  The rate limiter's table is
      bounded and keeps clients apart, and a request passes exactly with a token;
      the concurrency limiter, step by step on its channel and its gauge, never loses
      a slot and refuses only when all are taken, and the handler takes these steps.
    - Router.v: the remaining middlewares, the system routes and [NewRouter]: every
      route is behind the whole chain; secrets in addresses are not logged.
    - MockServices.v: examples/asset-portal/cmd/mock-services, the demo upstreams of
      the example: an asset is given only to a principal of its province.
    - Capability.v, Capacity.v: internal/capability/registry.go and
      internal/capacity.
    - StorageContract.v: internal/capability/storage.go, internal/storagecontract.
      Verification of uploads.
    - StorageRole.v: internal/roleruntime/server.go with internal/storagetarget,
      storageprovider, requestidentity, workloadauth and accesspolicy.  All storage
      routes fail closed, requests are bounded, readiness is sound.
    - AppConfig.v: internal/app/config.go.  [LoadConfig] and [Validate], which
      accepts exactly the configurations described by [valid_config]; the base
      path and the public addresses.
    - Outbound.v: internal/outbound.  Bounded retries; the bulkhead and the circuit
      breaker under concurrent calls, which the sequential call refines.
    - Signer.v: internal/storage/remote_signer.go and the remote access policy, as
      JSON calls through Outbound.v.
    - OIDC.v: internal/auth/oidc, as an identity provider of Auth.v: a login has a
      verified ID token with the nonce of its flow.
    - AppAPI.v: internal/appapi and internal/domainapi.  Upload addresses stay below
      the configured prefixes.
    - App.v: internal/app/app.go up to the start of the storage role: what
      [LoadConfig] accepts gives a runtime with everything in place that guards the
      storage routes of StorageRole.v.
    - RoleServer.v: roleruntime's [Run]: its routes register for every validated
      selection, and with targets configured no request to it, whatever its path,
      gets past the guards of StorageRole.v.
    - Gateway.v: internal/app/app.go for the browser-facing role and core/core.go.
      From the configuration to the application's handlers: what a request must
      show.
    - Program.v: [RunWith] as a whole, for every environment: what it serves, and all
      the reasons for which it ends before it listens, panics included.
    - Portal.v: examples/asset-portal, an application on this gateway, followed
      from the browser's request to the call of the upstream service.

    The files from Http.v on build on each other as the packages do; the last four
    compose all components, and their theorems are proved from the case lemmas
    ([permission_cases], [CSRF_cases], [router_cases], [gateway_cases]) of the
    files below.

    ** Bounds and fuel

    Most recursions are structural (over lists, or the number of attempts of the
    outbound client, which is the loop's own bound).  On fuel run: the terms of
    [ParseDuration], with the length of the text (every term consumes a byte,
    [duration_terms_fuel]); the digits of [FormatInt], with the number of bits
    ([ParseInt_FormatInt]); the JSON parser, with the nesting depth that
    encoding/json allows ([max_depth]) and the length of the text
    ([Parse_Marshal]); the search for the month of a date; and the polling loop of
    the Redis lock, for which [redis_lock_terminates] gives fuel that is enough
    whenever the request's context ends.

    ** Not modelled

    The HTTP server itself (listening, time limits, shutdown), goroutines other than
    those of the step relations, panics of handlers (net/http recovers them), hosts in
    the patterns of routes (parsed, but no request is for one), and reading flags and
    printing in the command-line tools.

    ** Scope of the theorems on stores

    Theorems on session life times, on the token handed out, on the release of the
    lock and on logout hold for all stores that meet the contracts, the Redis stores
    included.  Those that need deletes and writes to succeed are stated for the
    in-memory stores and say so, since the code ignores the errors of some deletes:
    complete logins, failed logins and failed refreshes, and for the
    cached user context of a logout.

    Where the code and its documentation differ, a lemma shows it:
    [undeclared_role_gets_defaults], [touch_resurrects_deleted_session],
    [backslash_return_accepted], [single_backslash_key_accepted],
    [ttl_multiplication_wraps], [no_targets_no_workload_auth], [nan_rate_locks_out],
    [two_probes_in_flight], [token_error_is_circuit_failure],
    [dotdot_item_id_accepted], [session_id_other_cookie],
    [first_forwarded_line_decides] and [malformed_base_path]. *)

From Stdlib Require Export Ascii String.
From stdpp Require Export strings gmap numbers option list base.

#[export] Set Default Goal Selector "!".

(** ** Go errors

    An [error] value of Go is [None] (nil) or one of these.  Sentinel errors
    are the package variables that the code compares with [errors.Is];
    [ErrMsg f args] is [fmt.Errorf(f, args...)] or [errors.New(f)];
    [ErrOutbound] is the [*outbound.Error] struct found by [errors.As];
    [ErrWrap] is [fmt.Errorf("ctx: %w", err)], [ErrWrapSuffix] is
    [fmt.Errorf("%w: text", err)]. *)
Inductive sentinel :=
  | SessionNotFound | TokenNotFound | FlowNotFound | InvalidReturnTo
  | RefreshUnavailable | RefreshFailed | ProviderUnconfigured
  | ContextCanceled | ContextDeadlineExceeded.

Inductive ErrorKind :=
  | ErrBadRequest | ErrUnauthorized | ErrForbidden | ErrNotFound
  | ErrConflict | ErrRateLimited | ErrUnavailable | ErrUpstream.

#[export] Instance sentinel_eq_dec : EqDecision sentinel.
Proof. solve_decision. Defined.
#[export] Instance ErrorKind_eq_dec : EqDecision ErrorKind.
Proof. solve_decision. Defined.

Inductive goerr :=
  | ErrMsg (format : string) (args : list string)
  | ErrIs (s : sentinel)
  | ErrOutbound (kind : ErrorKind) (status : Z) (message : string)
  | ErrWrap (context : string) (inner : goerr)
  | ErrWrapSuffix (inner : goerr) (detail : string).

#[export] Instance goerr_eq_dec : EqDecision goerr.
Proof. solve_decision. Defined.

(** [fmt.Errorf] with a constant message. *)
Abbreviation errorf f := (ErrMsg f []).

(** [errors.Is(err, sentinel)]: walks the chain of wrapped errors. *)
Fixpoint errors_Is (e : goerr) (s : sentinel) : bool :=
  match e with
  | ErrIs s' => bool_decide (s' = s)
  | ErrWrap _ e' | ErrWrapSuffix e' _ => errors_Is e' s
  | _ => false
  end.

(** [errors.As(err, &target)] with [target *outbound.Error]. *)
Fixpoint errors_As (e : goerr) : option (ErrorKind * Z * string) :=
  match e with
  | ErrOutbound k st m => Some (k, st, m)
  | ErrWrap _ e' | ErrWrapSuffix e' _ => errors_As e'
  | _ => None
  end.

(** ** Results: the [(value, error)] pairs of Go *)
Inductive result (A : Type) :=
  | Ok (a : A)
  | Err (e : goerr).
Arguments Ok {A} a.
Arguments Err {A} e.

Definition result_bind {A B} (m : result A) (k : A → result B) : result B :=
  match m with Ok a => k a | Err e => Err e end.

Declare Scope go_scope.
Delimit Scope go_scope with go.

(** [let? x := m in k] is [x, err := m; if err != nil { return err }; k]. *)
Notation "'let?' x ':=' m 'in' k" := (result_bind m (fun x => k))
  (at level 10, x pattern, m at level 99, k at level 200) : go_scope.

(** [guard b e k] is [if b { return e }; k]. *)
Definition reject_if {A} (b : bool) (e : goerr) (k : result A) : result A :=
  if b then Err e else k.
Notation "'reject' b 'with' e ';;' k" := (reject_if b e k)
  (at level 10, b at level 99, e at level 99, k at level 200) : go_scope.

Definition to_option {A} (r : result A) : option A :=
  match r with Ok a => Some a | Err _ => None end.
Definition is_ok {A} (r : result A) : bool :=
  match r with Ok _ => true | Err _ => false end.

Lemma result_bind_ok {A B} (m : result A) (k : A → result B) b :
  result_bind m k = Ok b ↔ ∃ a, m = Ok a ∧ k a = Ok b.
Proof. destruct m; simpl; naive_solver. Qed.

Lemma result_bind_check {B} (m : result unit) (k : result B) b :
  result_bind m (λ _, k) = Ok b ↔ m = Ok tt ∧ k = Ok b.
Proof. destruct m as [[]|]; simpl; naive_solver. Qed.

Lemma result_bind_err {A B} (m : result A) (k : A → result B) e :
  result_bind m k = Err e ↔ m = Err e ∨ ∃ a, m = Ok a ∧ k a = Err e.
Proof. destruct m; simpl; naive_solver. Qed.

Lemma reject_if_ok {A} b e (k : result A) a :
  reject_if b e k = Ok a ↔ b = false ∧ k = Ok a.
Proof. destruct b; simpl; naive_solver. Qed.

(** ** Automation *)

(** Unfold a chain of Go early returns that ended in success. *)
Ltac ok_inv :=
  repeat match goal with
  | H : result_bind _ _ = Ok _ |- _ =>
      apply result_bind_ok in H; destruct H as (? & ? & H)
  | H : reject_if _ _ _ = Ok _ |- _ =>
      apply reject_if_ok in H; destruct H as [? H]
  | H : Ok _ = Ok _ |- _ => injection H as H
  | H : Err _ = Ok _ |- _ => discriminate H
  end; simplify_eq/=.

(** Turn boolean tests of the code into propositions. *)
Ltac bool_inv :=
  repeat match goal with
  | H : negb _ = true |- _ => apply negb_true_iff in H
  | H : negb _ = false |- _ => apply negb_false_iff in H
  | H : _ || _ = false |- _ => apply orb_false_iff in H; destruct H
  | H : _ && _ = true |- _ => apply andb_true_iff in H; destruct H
  | H : bool_decide _ = true |- _ => apply bool_decide_eq_true in H
  | H : bool_decide _ = false |- _ => apply bool_decide_eq_false in H
  | H : (_ <? _)%Z = true |- _ => apply Z.ltb_lt in H
  | H : (_ <? _)%Z = false |- _ => apply Z.ltb_ge in H
  | H : (_ <=? _)%Z = true |- _ => apply Z.leb_le in H
  | H : (_ <=? _)%Z = false |- _ => apply Z.leb_gt in H
  end.

(** Close a ground goal by evaluation. *)
Ltac run := vm_compute; reflexivity.

Create HintDb go.

(** ** First-occurrence deduplication

    The pattern [if !seen[x] { seen[x] = true; out = append(out, x) }]. *)
Section dedup.
Context {A : Type} `{EqDecision A}.

(** One iteration: [out] doubles as the [seen] set, since an element is in
    [seen] exactly when it was appended. *)
Definition append_unseen (out : list A) (x : A) : list A :=
  if bool_decide (x ∈ out) then out else out ++ [x].

Lemma append_unseen_NoDup out x : NoDup out → NoDup (append_unseen out x).
Proof.
  unfold append_unseen. case_bool_decide as Hin; [done|]. intros Hnd.
  apply list.NoDup_app; repeat split; [done| |apply NoDup_singleton].
  intros y Hy ->%list_elem_of_singleton. done.
Qed.

Lemma elem_of_append_unseen out x y :
  y ∈ append_unseen out x ↔ y ∈ out ∨ y = x.
Proof. unfold append_unseen. case_bool_decide; set_solver. Qed.

Lemma append_unseen_nonempty out x : append_unseen out x ≠ [].
Proof. unfold append_unseen. case_bool_decide; [by destruct out; set_solver|by destruct out]. Qed.
End dedup.
#[export] Hint Resolve append_unseen_NoDup append_unseen_nonempty : go.

(** ** 64-bit integers *)
Definition int64_wrap (z : Z) : Z := ((z + 2 ^ 63) `mod` 2 ^ 64 - 2 ^ 63)%Z.
Definition int64_min : Z := (- 2 ^ 63)%Z.
Definition int64_max : Z := (2 ^ 63 - 1)%Z.
Definition is_int64 (z : Z) : Prop := (int64_min ≤ z ≤ int64_max)%Z.

Lemma int64_wrap_range z : is_int64 (int64_wrap z).
Proof.
  unfold is_int64, int64_wrap, int64_min, int64_max.
  pose proof (Z.mod_pos_bound (z + 2 ^ 63) (2 ^ 64)). lia.
Qed.

Lemma int64_wrap_id z : is_int64 z → int64_wrap z = z.
Proof.
  unfold is_int64, int64_wrap, int64_min, int64_max. intros.
  rewrite Z.mod_small; lia.
Qed.
#[export] Hint Resolve int64_wrap_range : go.

(** ** Counting the elements of a list that satisfy a test *)
Definition b2z (b : bool) : Z := if b then 1%Z else 0%Z.
Fixpoint count {A} (P : A → bool) (l : list A) : Z :=
  match l with [] => 0 | k :: l => b2z (P k) + count P l end%Z.

Lemma count_insert {A} (P : A → bool) l i a b :
  l !! i = Some a → count P (<[i := b]> l) = (count P l - b2z (P a) + b2z (P b))%Z.
Proof.
  revert i. induction l as [|k l IH]; intros [|i]; simpl; [done..| |].
  - intros [= ->]. lia.
  - intros Hi. rewrite (IH i) by done. lia.
Qed.

Lemma count_replicate {A} (P : A → bool) n k : P k = false → count P (replicate n k) = 0%Z.
Proof. intros Hk. induction n as [|n IH]; simpl; [done|]. rewrite Hk, IH. done. Qed.

Lemma count_nonneg {A} (P : A → bool) l : (0 ≤ count P l)%Z.
Proof. induction l as [|k l IH]; simpl; [done|]. destruct (P k); simpl; lia. Qed.
