(* ===== verification/GoStrings.v ===== *)
(** * Go strings

    What the program uses of Go's [strings] package.  A Go string is a byte
    sequence, which is what [String.string] is; the functions below work on
    its list of bytes.

    - [TrimSpace] strips the UTF-8 encodings of every code point of
      [unicode.IsSpace] (the list is closed: one, two or three bytes each).
    - [ToLower], [ToUpper] and [EqualFold] are exact on ASCII strings; on a
      string with a byte >= 0x80 Go uses the Unicode case tables, which are the
      operations of the class [UnicodeCase].
    - Separators are single bytes, as in every call of the program. *)

From stdpp Require Import sorting.
From S2P Require Import Prelude.

Abbreviation bytes := list_ascii_of_string.
Abbreviation of_bytes := string_of_list_ascii.

Lemma of_bytes_bytes s : of_bytes (bytes s) = s.
Proof. apply string_of_list_ascii_of_string. Qed.
Lemma bytes_of_bytes l : bytes (of_bytes l) = l.
Proof. apply list_ascii_of_string_of_list_ascii. Qed.
Lemma bytes_app s t : bytes (s +:+ t) = bytes s ++ bytes t.
Proof. induction s as [|c s IH]; simpl; [done|by f_equal]. Qed.
Lemma bytes_inj s t : bytes s = bytes t → s = t.
Proof. intros H. by rewrite <-(of_bytes_bytes s), H, of_bytes_bytes. Qed.
Lemma of_bytes_inj l k : of_bytes l = of_bytes k → l = k.
Proof. intros H. by rewrite <-(bytes_of_bytes l), H, bytes_of_bytes. Qed.
Lemma bytes_nil s : bytes s = [] ↔ s = "".
Proof. split; [|by intros ->]. by destruct s. Qed.
Lemma str_app_assoc s t u : (s +:+ t) +:+ u = s +:+ (t +:+ u).
Proof. apply bytes_inj. by rewrite !bytes_app, app_assoc. Qed.
Create Rewrite HintDb go_str.
#[export] Hint Rewrite of_bytes_bytes bytes_of_bytes bytes_app : go_str.

(** The number of a byte. *)
Definition byte (c : ascii) : Z := Z.of_N (N_of_ascii c).

(** [len(s)] *)
Definition len (s : string) : Z := Z.of_nat (String.length s).

(** ** Searching *)

Fixpoint prefixb (p l : list ascii) : bool :=
  match p, l with
  | [], _ => true
  | a :: p', b :: l' => Ascii.eqb a b && prefixb p' l'
  | _ :: _, [] => false
  end.

Fixpoint infixb (p l : list ascii) : bool :=
  prefixb p l || match l with [] => false | _ :: l' => infixb p l' end.

Definition HasPrefix (s p : string) : bool := prefixb (bytes p) (bytes s).
Definition HasSuffix (s p : string) : bool := prefixb (rev (bytes p)) (rev (bytes s)).
Definition Contains (s sub : string) : bool := infixb (bytes sub) (bytes s).

Lemma prefixb_spec p l : prefixb p l = true ↔ ∃ k, l = p ++ k.
Proof.
  revert l; induction p as [|a p IH]; intros [|b l]; simpl.
  - split; [by exists []|done].
  - split; [by exists (b :: l)|done].
  - split; [done|by intros [? ?]].
  - rewrite andb_true_iff, Ascii.eqb_eq, IH. naive_solver.
Qed.

Lemma infixb_spec p l : infixb p l = true ↔ ∃ a b, l = a ++ p ++ b.
Proof.
  induction l as [|c l IH]; simpl; rewrite orb_true_iff, prefixb_spec.
  - split; [intros [[k Hk]|?]; [by exists [], k|done]|].
    intros (a & b & Heq). left. destruct a; [|done]. by exists b.
  - rewrite IH. split.
    + intros [[k Hk]|(a & b & ->)]; [by exists [], k|by exists (c :: a), b].
    + intros ([|x a] & b & Heq); simplify_eq/=; [left; by exists b|right; by exists a, b].
Qed.

Lemma HasPrefix_spec s p : HasPrefix s p = true ↔ ∃ t, s = p +:+ t.
Proof.
  unfold HasPrefix. rewrite prefixb_spec. split.
  - intros [k Hk]. exists (of_bytes k). apply bytes_inj.
    by rewrite bytes_app, bytes_of_bytes.
  - intros [t ->]. exists (bytes t). apply bytes_app.
Qed.

Lemma HasSuffix_spec s p : HasSuffix s p = true ↔ ∃ t, s = t +:+ p.
Proof.
  unfold HasSuffix. rewrite prefixb_spec. split.
  - intros [k Hk]. exists (of_bytes (rev k)). apply bytes_inj.
    rewrite bytes_app, bytes_of_bytes.
    by rewrite <-(rev_involutive (bytes s)), Hk, rev_app_distr, rev_involutive.
  - intros [t ->]. exists (rev (bytes t)). by rewrite bytes_app, rev_app_distr.
Qed.

Lemma Contains_spec s sub : Contains s sub = true ↔ ∃ a b, s = a +:+ sub +:+ b.
Proof.
  unfold Contains. rewrite infixb_spec. split.
  - intros (a & b & Heq). exists (of_bytes a), (of_bytes b). apply bytes_inj.
    by rewrite !bytes_app, !bytes_of_bytes.
  - intros (a & b & ->). exists (bytes a), (bytes b). by rewrite !bytes_app.
Qed.

(** ** Splitting and joining on a byte *)

Fixpoint split_bytes (sep : ascii) (l : list ascii) : list (list ascii) :=
  match l with
  | [] => [[]]
  | c :: l' =>
      if Ascii.eqb c sep then [] :: split_bytes sep l'
      else match split_bytes sep l' with
           | [] => [[c]]
           | w :: ws => (c :: w) :: ws
           end
  end.

Fixpoint cut_bytes (sep : ascii) (l : list ascii) : option (list ascii * list ascii) :=
  match l with
  | [] => None
  | c :: l' =>
      if Ascii.eqb c sep then Some ([], l')
      else match cut_bytes sep l' with
           | Some (a, b) => Some (c :: a, b)
           | None => None
           end
  end.

(** [strings.Split(s, sep)] *)
Definition Split (s : string) (sep : ascii) : list string :=
  of_bytes <$> split_bytes sep (bytes s).
(** [strings.Cut(s, sep)]: [(before, after, found)] *)
Definition Cut (s : string) (sep : ascii) : string * string * bool :=
  match cut_bytes sep (bytes s) with
  | Some (a, b) => (of_bytes a, of_bytes b, true)
  | None => (s, "", false)
  end.
(** [strings.ReplaceAll(s, a, b)] for one-byte [a] and [b] *)
Definition ReplaceAll (s : string) (a b : ascii) : string :=
  of_bytes ((λ c, if Ascii.eqb c a then b else c) <$> bytes s).
(** [strings.Join(l, sep)] *)
Fixpoint Join (l : list string) (sep : string) : string :=
  match l with
  | [] => ""
  | [s] => s
  | s :: l' => s +:+ sep +:+ Join l' sep
  end.

Lemma split_bytes_nonempty sep l : split_bytes sep l ≠ [].
Proof.
  destruct l as [|c l]; simpl; [done|]. destruct (Ascii.eqb _ _); [done|].
  by destruct (split_bytes sep l).
Qed.

Lemma split_bytes_no_sep sep l w : w ∈ split_bytes sep l → sep ∉ w.
Proof.
  revert w; induction l as [|c l IH]; intros w; simpl.
  - intros ->%list_elem_of_singleton. set_solver.
  - destruct (Ascii.eqb_spec c sep) as [->|Hne].
    + intros [->|Hw]%elem_of_cons; [set_solver|by apply IH].
    + destruct (split_bytes sep l) as [|w' ws] eqn:Es.
      * intros ->%list_elem_of_singleton. set_solver.
      * intros [->|Hw]%elem_of_cons.
        -- intros [->|Hin]%elem_of_cons; [done|].
           by eapply (IH w'); [left|].
        -- apply IH. by right.
Qed.

Lemma Split_nonempty s sep : Split s sep ≠ [].
Proof.
  unfold Split. pose proof (split_bytes_nonempty sep (bytes s)).
  by destruct (split_bytes _ _).
Qed.

(** Splitting and joining back is the identity. *)
Lemma Join_Split s sep : Join (Split s sep) (String sep "") = s.
Proof.
  unfold Split. apply bytes_inj. generalize (bytes s) as l. intros l.
  induction l as [|c l IH]; simpl; [done|].
  pose proof (split_bytes_nonempty sep l) as Hne.
  destruct (Ascii.eqb_spec c sep) as [->|_];
    destruct (split_bytes sep l) as [|w ws]; try done; simpl in *.
  - by destruct ws; simpl in *; rewrite ?bytes_app in *; simpl in *; rewrite IH.
  - by destruct ws; simpl in *; rewrite ?bytes_app in *; simpl in *; rewrite IH.
Qed.

Lemma split_bytes_first sep l k :
  sep ∉ l →
  split_bytes sep (l ++ k) =
  match split_bytes sep k with [] => [l] | w :: ws => (l ++ w) :: ws end.
Proof.
  induction l as [|c l IH]; intros Hl; simpl.
  - pose proof (split_bytes_nonempty sep k). by destruct (split_bytes sep k).
  - destruct (Ascii.eqb_spec c sep) as [->|_]; [set_solver|]. rewrite IH by set_solver.
    by destruct (split_bytes sep k).
Qed.

Lemma cut_bytes_Some sep l a b :
  cut_bytes sep l = Some (a, b) → l = a ++ sep :: b ∧ sep ∉ a.
Proof.
  revert a; induction l as [|c l IH]; intros a; simpl; [done|].
  destruct (Ascii.eqb_spec c sep) as [->|Hne]; [intros; simplify_eq/=; set_solver|].
  destruct (cut_bytes sep l) as [[a' b']|]; [|done].
  intros; simplify_eq/=. destruct (IH a') as [-> ?]; [done|]. set_solver.
Qed.

Lemma cut_bytes_None sep l : cut_bytes sep l = None ↔ sep ∉ l.
Proof.
  induction l as [|c l IH]; simpl; [set_solver|].
  destruct (Ascii.eqb_spec c sep) as [->|Hne]; [set_solver|].
  destruct (cut_bytes sep l) as [[a b]|]; set_solver.
Qed.

Lemma cut_bytes_app sep l k a b : cut_bytes sep l = Some (a, b) → cut_bytes sep (l ++ k) = Some (a, b ++ k).
Proof.
  revert a; induction l as [|c l IH]; intros a; simpl; [done|].
  destruct (Ascii.eqb c sep); [by intros [= <- <-]|].
  destruct (cut_bytes sep l) as [[x y]|]; [|done]. intros [= <- <-]. by rewrite (IH x).
Qed.

(** ** Trimming *)

(** The one-, two- and three-byte UTF-8 encodings of [unicode.IsSpace]. *)
Definition space1 (a : ascii) : bool :=
  ((9 <=? byte a) && (byte a <=? 13) || (byte a =? 32))%Z.
Definition space2 (a b : ascii) : bool :=
  ((byte a =? 0xC2) && ((byte b =? 0x85) || (byte b =? 0xA0)))%Z.
Definition space3 (a b c : ascii) : bool :=
  ((byte a =? 0xE1) && (byte b =? 0x9A) && (byte c =? 0x80)
   || (byte a =? 0xE2) && (byte b =? 0x80)
      && ((0x80 <=? byte c) && (byte c <=? 0x8A) || (byte c =? 0xA8)
          || (byte c =? 0xA9) || (byte c =? 0xAF))
   || (byte a =? 0xE2) && (byte b =? 0x81) && (byte c =? 0x9F)
   || (byte a =? 0xE3) && (byte b =? 0x80) && (byte c =? 0x80))%Z.

Section strip.
Context (s1 : ascii → bool) (s2 : ascii → ascii → bool)
        (s3 : ascii → ascii → ascii → bool).

(** The list starts with an encoded space. *)
Definition starts_space (l : list ascii) : bool :=
  match l with
  | [] => false
  | [a] => s1 a
  | [a; b] => s1 a || s2 a b
  | a :: b :: c :: _ => s1 a || s2 a b || s3 a b c
  end.

(** Drop encoded spaces from the front. *)
Fixpoint strip (l : list ascii) : list ascii :=
  match l with
  | [] => []
  | a :: l1 =>
      if s1 a then strip l1 else
      match l1 with
      | [] => l
      | b :: l2 =>
          if s2 a b then strip l2 else
          match l2 with
          | [] => l
          | c :: l3 => if s3 a b c then strip l3 else l
          end
      end
  end.

Lemma strip_stop l : starts_space l = false → strip l = l.
Proof.
  destruct l as [|a [|b [|c l]]]; simpl; [done|..].
  - by intros ->.
  - by intros [-> ->]%orb_false_iff.
  - by intros [[-> ->]%orb_false_iff ->]%orb_false_iff.
Qed.

Lemma strip_go l :
  starts_space l = true → ∃ a p l', l = a :: p ++ l' ∧ strip l = strip l'.
Proof.
  destruct l as [|a [|b [|c l]]]; simpl; [done|..].
  - intros ->. by exists a, [], [].
  - destruct (s1 a); [by exists a, [], [b]|]. intros H; simpl in H.
    rewrite H. by exists a, [b], [].
  - destruct (s1 a); [by exists a, [], (b :: c :: l)|].
    destruct (s2 a b); [by exists a, [b], (c :: l)|].
    intros H; simpl in H. rewrite H. by exists a, [b; c], l.
Qed.

Lemma strip_spec l : starts_space (strip l) = false ∧ ∃ p, l = p ++ strip l.
Proof.
  induction (Nat.lt_wf_0_projected (@length ascii) l) as [l _ IH].
  destruct (starts_space l) eqn:Es.
  - destruct (strip_go l Es) as (a & p & l' & -> & ->).
    destruct (IH l') as [? [q Hq]]; [simpl; rewrite length_app; lia|].
    split; [done|]. exists (a :: p ++ q). simpl. rewrite <-app_assoc. by f_equal; f_equal.
  - rewrite strip_stop by done. split; [done|by exists []].
Qed.

Lemma starts_space_app l k : starts_space l = true → starts_space (l ++ k) = true.
Proof.
  destruct l as [|a [|b [|c l]]], k as [|x [|y k]]; simpl;
    rewrite ?orb_true_iff; naive_solver.
Qed.
End strip.

Definition flip3 {A B C D} (f : A → B → C → D) (c : C) (b : B) (a : A) : D := f a b c.
Definition trim_left_bytes : list ascii → list ascii := strip space1 space2 space3.
Definition trim_right_bytes (l : list ascii) : list ascii :=
  rev (strip space1 (flip space2) (flip3 space3) (rev l)).

(** [strings.TrimSpace] *)
Definition TrimSpace (s : string) : string :=
  of_bytes (trim_right_bytes (trim_left_bytes (bytes s))).

(** [strings.TrimRight(s, cutset)], [TrimLeft], [Trim] with a one-byte cutset *)
Fixpoint strip_byte (c : ascii) (l : list ascii) : list ascii :=
  match l with
  | a :: l' => if Ascii.eqb a c then strip_byte c l' else l
  | [] => []
  end.
Definition TrimLeft (s : string) (c : ascii) : string := of_bytes (strip_byte c (bytes s)).
Definition TrimRight (s : string) (c : ascii) : string :=
  of_bytes (rev (strip_byte c (rev (bytes s)))).
Definition Trim (s : string) (c : ascii) : string := TrimRight (TrimLeft s c) c.

Lemma strip_byte_spec c l : ∃ n, l = replicate n c ++ strip_byte c l.
Proof.
  induction l as [|a l [n Hn]]; simpl; [by exists 0%nat|].
  destruct (Ascii.eqb_spec a c) as [->|_]; [|by exists 0%nat]. exists (S n). simpl. by f_equal.
Qed.

(** [TrimRight] removes copies of the byte at the end. *)
Lemma TrimRight_spec s c : ∃ n, bytes s = bytes (TrimRight s c) ++ replicate n c.
Proof.
  destruct (strip_byte_spec c (rev (bytes s))) as [n Hn]. exists n. unfold TrimRight.
  rewrite bytes_of_bytes. apply (f_equal (@rev ascii)) in Hn.
  rewrite rev_involutive, rev_app_distr in Hn. rewrite Hn at 1. f_equal.
  clear. induction n as [|n IH]; [done|]. rewrite replicate_S_end at 1. by rewrite rev_app_distr, IH.
Qed.

Lemma TrimRight_stop s c l a : bytes s = l ++ [a] → a ≠ c → TrimRight s c = s.
Proof.
  intros Hs Ha. apply bytes_inj. unfold TrimRight. rewrite bytes_of_bytes, Hs, rev_app_distr. simpl.
  destruct (Ascii.eqb_spec a c); [done|]. simpl. by rewrite rev_involutive.
Qed.

Lemma trim_right_bytes_prefix l : ∃ k, l = trim_right_bytes l ++ k.
Proof.
  unfold trim_right_bytes.
  destruct (strip_spec space1 (flip space2) (flip3 space3) (rev l)) as [_ [p Hp]].
  exists (rev p). by rewrite <-rev_app_distr, <-Hp, rev_involutive.
Qed.

(** Trimming twice is trimming once: handlers re-trim values that other
    functions already trimmed. *)
Lemma TrimSpace_idemp s : TrimSpace (TrimSpace s) = TrimSpace s.
Proof.
  unfold TrimSpace. rewrite bytes_of_bytes.
  set (l := trim_left_bytes (bytes s)).
  assert (trim_left_bytes (trim_right_bytes l) = trim_right_bytes l) as ->.
  { apply strip_stop. destruct (starts_space _ _ _ (trim_right_bytes l)) eqn:E; [|done].
    destruct (trim_right_bytes_prefix l) as [k Hk].
    pose proof (starts_space_app _ _ _ _ k E) as E'. rewrite <-Hk in E'.
    unfold l, trim_left_bytes in E'.
    by rewrite (proj1 (strip_spec _ _ _ _)) in E'. }
  unfold trim_right_bytes at 1. rewrite (strip_stop _ _ _ (rev (trim_right_bytes l))).
  - by rewrite rev_involutive.
  - unfold trim_right_bytes. rewrite rev_involutive. apply strip_spec.
Qed.
#[export] Hint Rewrite TrimSpace_idemp : go_str.

Lemma TrimSpace_infix s : ∃ a b, s = a +:+ TrimSpace s +:+ b.
Proof.
  destruct (strip_spec space1 space2 space3 (bytes s)) as [_ [p Hp]].
  destruct (trim_right_bytes_prefix (trim_left_bytes (bytes s))) as [q Hq].
  exists (of_bytes p), (of_bytes q). apply bytes_inj.
  rewrite !bytes_app, !bytes_of_bytes. unfold TrimSpace. rewrite bytes_of_bytes.
  by rewrite <-Hq.
Qed.

(** ** Letter case *)

Definition is_ascii (s : string) : bool := forallb (λ c, byte c <? 0x80)%Z (bytes s).
Definition lower_byte (c : ascii) : ascii :=
  if ((65 <=? byte c) && (byte c <=? 90))%Z then ascii_of_N (N_of_ascii c + 32) else c.
Definition upper_byte (c : ascii) : ascii :=
  if ((97 <=? byte c) && (byte c <=? 122))%Z then ascii_of_N (N_of_ascii c - 32) else c.

(** The Unicode case tables, used by Go only on strings with a byte >= 0x80. *)
Class UnicodeCase := {
  to_lower_wide : string → string;
  to_upper_wide : string → string;
  equal_fold_wide : string → string → bool;
}.

(** Tables that leave wide strings alone; enough to run the model on ASCII input. *)
Definition ascii_case : UnicodeCase := {|
  to_lower_wide := λ s, s;
  to_upper_wide := λ s, s;
  equal_fold_wide := String.eqb;
|}.

Section case.
Context `{UnicodeCase}.

Definition ToLower (s : string) : string :=
  if is_ascii s then of_bytes (lower_byte <$> bytes s) else to_lower_wide s.
Definition ToUpper (s : string) : string :=
  if is_ascii s then of_bytes (upper_byte <$> bytes s) else to_upper_wide s.
Definition EqualFold (s t : string) : bool :=
  if is_ascii s && is_ascii t
  then bool_decide (lower_byte <$> bytes s = lower_byte <$> bytes t)
  else equal_fold_wide s t.

Lemma EqualFold_refl_ascii s : is_ascii s = true → EqualFold s s = true.
Proof. intros Hs. unfold EqualFold. rewrite Hs. simpl. by apply bool_decide_eq_true. Qed.
End case.

(** ** strings.TrimSuffix, strings.TrimPrefix *)
Definition TrimSuffix (s suffix : string) : string :=
  if HasSuffix s suffix then of_bytes (take (String.length s - String.length suffix) (bytes s)) else s.
Definition TrimPrefix (s prefix : string) : string :=
  if HasPrefix s prefix then of_bytes (drop (String.length prefix) (bytes s)) else s.

(** The rest of [s] after [p], if [s] starts with it. *)
Definition strip_prefix (p s : string) : option string :=
  if HasPrefix s p then Some (of_bytes (drop (String.length p) (bytes s))) else None.

Lemma length_bytes s : length (bytes s) = String.length s.
Proof. unfold bytes. induction s; simpl; congruence. Qed.

Lemma strip_prefix_app p s : strip_prefix p (p +:+ s) = Some s.
Proof.
  unfold strip_prefix. assert (HasPrefix (p +:+ s) p = true) as -> by (apply HasPrefix_spec; eauto).
  by rewrite bytes_app, <-length_bytes, drop_app_length, of_bytes_bytes.
Qed.

Lemma strip_prefix_Some p s t : strip_prefix p s = Some t ↔ s = p +:+ t.
Proof.
  split; [|intros ->; apply strip_prefix_app]. intros Hs. pose proof Hs as Hs'.
  unfold strip_prefix in Hs'. destruct (HasPrefix s p) eqn:Hp; [|done].
  apply HasPrefix_spec in Hp as [u ->]. rewrite strip_prefix_app in Hs. congruence.
Qed.

(** ** UTF-8: the decoding loop of [range s] and [utf8.DecodeRune]

    A text is a sequence of ASCII bytes, well-formed longer sequences, and bytes
    that are not part of any of these (each read as U+FFFD, of width one). *)
Inductive rune :=
  | RAscii (c : ascii)
  | RWide (l : list ascii)
  | RError (c : ascii).

Definition in_range (lo hi : Z) (c : ascii) : bool := (lo <=? byte c)%Z && (byte c <=? hi)%Z.
Definition continuation : ascii → bool := in_range 0x80 0xBF.
Definition wide2 (a b : ascii) : bool := in_range 0xC2 0xDF a && continuation b.
Definition wide3 (a b c : ascii) : bool :=
  in_range 0xE0 0xEF a
  && in_range (if byte a =? 0xE0 then 0xA0 else 0x80)%Z (if byte a =? 0xED then 0x9F else 0xBF)%Z b
  && continuation c.
Definition wide4 (a b c d : ascii) : bool :=
  in_range 0xF0 0xF4 a
  && in_range (if byte a =? 0xF0 then 0x90 else 0x80)%Z (if byte a =? 0xF4 then 0x8F else 0xBF)%Z b
  && continuation c && continuation d.

Fixpoint runes (l : list ascii) : list rune :=
  match l with
  | [] => []
  | a :: l1 =>
      if in_range 0 0x7F a then RAscii a :: runes l1 else
      match l1 with
      | [] => RError a :: runes l1
      | b :: l2 =>
          if wide2 a b then RWide [a; b] :: runes l2 else
          match l2 with
          | [] => RError a :: runes l1
          | c :: l3 =>
              if wide3 a b c then RWide [a; b; c] :: runes l3 else
              match l3 with
              | [] => RError a :: runes l1
              | d :: l4 =>
                  if wide4 a b c d then RWide [a; b; c; d] :: runes l4 else RError a :: runes l1
              end
          end
      end
  end.

Definition rune_bytes (r : rune) : list ascii :=
  match r with RAscii c => [c] | RWide l => l | RError c => [c] end.
Definition text (rs : list rune) : list ascii := concat (rune_bytes <$> rs).

Definition good_rune (r : rune) : bool :=
  match r with
  | RAscii c => in_range 0 0x7F c
  | RWide [a; b] => wide2 a b
  | RWide [a; b; c] => wide3 a b c
  | RWide [a; b; c; d] => wide4 a b c d
  | _ => false
  end.

(** [utf8.ValidString] *)
Definition ValidString (s : string) : bool := forallb good_rune (runes (bytes s)).
(** The strings that JSON text represents exactly. *)
Definition utf8 (s : string) : Prop := ValidString s = true.

Lemma text_app rs rs' : text (rs ++ rs') = text rs ++ text rs'.
Proof. unfold text. by rewrite fmap_app, concat_app. Qed.

Lemma text_runes l : text (runes l) = l.
Proof.
  induction l as [l IH] using (induction_ltof1 _ (@length ascii)). unfold ltof in IH.
  destruct l as [|a [|b [|c [|d l]]]]; cbn [runes]; repeat case_match; try done;
    unfold text; cbn [fmap list_fmap concat rune_bytes app];
    repeat f_equal; apply IH; simpl; lia.
Qed.

(** Well-formed runes are read back as they were written. *)
Lemma wide_not_ascii a b c d :
  wide2 a b = true ∨ wide3 a b c = true ∨ wide4 a b c d = true → in_range 0 0x7F a = false.
Proof. unfold wide2, wide3, wide4, in_range. intros; bool_inv. apply andb_false_iff. right. lia. Qed.

Lemma runes_cons r l : good_rune r = true → runes (rune_bytes r ++ l) = r :: runes l.
Proof.
  destruct r as [c|[|a [|b [|c [|d []]]]]|c]; cbn [good_rune rune_bytes app runes]; try done.
  - by intros ->.
  - intros Hw. assert (in_range 0 0x7F a = false) as -> by (eapply (wide_not_ascii a b a a); auto).
    by rewrite Hw.
  - intros Hw. assert (in_range 0 0x7F a = false) as -> by (eapply (wide_not_ascii a b c a); auto).
    assert (wide2 a b = false) as ->; [|by rewrite Hw].
    unfold wide2, wide3, in_range in *. bool_inv. apply andb_false_iff. left. lia.
  - intros Hw. assert (in_range 0 0x7F a = false) as -> by (eapply (wide_not_ascii a b c d); auto).
    assert (wide2 a b = false) as ->.
    { unfold wide2, wide4, in_range in *. bool_inv. apply andb_false_iff. left. lia. }
    assert (wide3 a b c = false) as ->; [|by rewrite Hw].
    unfold wide3, wide4, in_range in *. bool_inv. apply andb_false_iff. left.
    apply andb_false_iff. left. lia.
Qed.

Lemma runes_app rs l : forallb good_rune rs = true → runes (text rs ++ l) = rs ++ runes l.
Proof.
  induction rs as [|r rs IH]; simpl; [done|]. intros [Hr Hrs]%andb_true_iff.
  unfold text in *. cbn [fmap list_fmap concat]. rewrite <-app_assoc, runes_cons by done.
  by rewrite IH.
Qed.

Lemma runes_text rs : forallb good_rune rs = true → runes (text rs) = rs.
Proof. intros Hrs. pose proof (runes_app rs [] Hrs) as Hr. by rewrite !app_nil_r in Hr. Qed.

Lemma utf8_of_text rs : forallb good_rune rs = true → utf8 (of_bytes (text rs)).
Proof. intros Hrs. unfold utf8, ValidString. by rewrite bytes_of_bytes, runes_text. Qed.

(** ** Sorted sets of strings: the keys of a map, collected and sorted *)

(** The byte order of [sort.Strings]. *)
Definition string_le (s t : string) : Prop := String.leb s t = true.
#[export] Instance string_le_dec s t : base.Decision (string_le s t).
Proof. unfold string_le. apply _. Defined.

Definition keysSorted (values : gset string) : list string :=
  merge_sort string_le (elements values).

Lemma elem_of_keysSorted s v : v ∈ keysSorted s ↔ v ∈ s.
Proof. unfold keysSorted. rewrite merge_sort_Permutation. apply elem_of_elements. Qed.

Lemma keysSorted_NoDup s : NoDup (keysSorted s).
Proof. unfold keysSorted. rewrite merge_sort_Permutation. apply NoDup_elements. Qed.

Lemma keysSorted_sorted s : Sorted string_le (keysSorted s).
Proof. apply Sorted_merge_sort. intros x y. apply String.leb_total. Qed.
