(* ===== verification/GoURL.v ===== *)
(** * net/url and path

    [url.Parse] with the fields the program reads, and [path.Clean].  The parser
    follows the standard library: split off the fragment, the scheme, the query
    and the authority, then unescape the path.  The check of a bracketed host
    ([netip.ParseAddr]) is the operation of the class [IPLiteral]. *)

From S2P Require Import Prelude GoStrings.
Open Scope go_scope.

Class IPLiteral := { valid_ip_literal : string → bool }.

Record URL := mkURL {
  u_Scheme : string;
  u_Opaque : string;
  u_User : option (string * option string);
  u_Host : string;
  u_Path : string;
  u_RawPath : string;
  u_OmitHost : bool;
  u_ForceQuery : bool;
  u_RawQuery : string;
  u_Fragment : string;
  u_RawFragment : string;
}.

(** ** Bytes *)
Definition between_bytes (lo hi c : ascii) : bool :=
  (byte lo <=? byte c)%Z && (byte c <=? byte hi)%Z.
Definition is_alpha (c : ascii) : bool := between_bytes "a" "z" c || between_bytes "A" "Z" c.
Definition is_digit (c : ascii) : bool := between_bytes "0" "9" c.
Definition one_of (s : string) (c : ascii) : bool := existsb (Ascii.eqb c) (bytes s).
Definition is_ctl (c : ascii) : bool := (byte c <? 32)%Z || (byte c =? 127)%Z.
Definition ishex (c : ascii) : bool := is_digit c || between_bytes "a" "f" c || between_bytes "A" "F" c.
Definition unhex (c : ascii) : N :=
  (if is_digit c then N_of_ascii c - 48
   else if between_bytes "a" "f" c then N_of_ascii c - 87 else N_of_ascii c - 55)%N.

(** The position of the last [c]: what precedes it and what follows. *)
Definition last_cut (c : ascii) (l : list ascii) : option (list ascii * list ascii) :=
  match cut_bytes c (rev l) with
  | Some (after, before) => Some (rev before, rev after)
  | None => None
  end.

(** What precedes the first "%25", and the rest from there on. *)
Fixpoint zone_cut (l : list ascii) : list ascii * list ascii :=
  match l with
  | [] => ([], [])
  | c :: rest =>
      if prefixb (bytes "%25") l then ([], l)
      else let '(a, z) := zone_cut rest in (c :: a, z)
  end.

(** ** Unescaping *)
Inductive encoding := encodePath | encodeUserPassword | encodeFragment | encodeHost | encodeZone.
Definition is_host_mode (m : encoding) : bool :=
  match m with encodeHost | encodeZone => true | _ => false end.

(** [shouldEscape] for the host modes. *)
Definition escape_in_host (c : ascii) : bool :=
  negb (is_alpha c || is_digit c || one_of "!$&'()*+,;=:[]<>-_.~" c || (byte c =? 34)%Z).

(** [shouldEscape]: the unreserved bytes are never escaped, the reserved ones
    depending on the part, and every other byte always. *)
Definition shouldEscape (m : encoding) (c : ascii) : bool :=
  if is_host_mode m then escape_in_host c else
  if is_alpha c || is_digit c || one_of "-_.~" c then false else
  if one_of "$&+,/:;=?@" c then
    match m with
    | encodePath => Ascii.eqb c "?"
    | encodeUserPassword => one_of "@/?:" c
    | _ => false
    end
  else
    match m with
    | encodeFragment => negb (one_of "!()*" c)
    | _ => true
    end.

Definition upper_hex (n : N) : ascii := ascii_of_N (if (n <? 10)%N then 48 + n else 55 + n)%N.
(** [escape] *)
Definition escape_byte (m : encoding) (c : ascii) : list ascii :=
  if shouldEscape m c
  then ["%"%char; upper_hex (N_of_ascii c / 16); upper_hex (N_of_ascii c mod 16)] else [c].
Definition escape (m : encoding) (s : string) : string :=
  of_bytes (concat (escape_byte m <$> bytes s)).

(** [validEncoded] *)
Definition validEncoded (m : encoding) (s : string) : bool :=
  forallb (λ c, one_of "!$&'()*+,;=:@[]%" c || negb (shouldEscape m c)) (bytes s).

Definition bad_escape : goerr := errorf "invalid URL escape".
Definition bad_host : goerr := errorf "invalid character in host name".

(** [unescape]; a '%' must be followed by two hexadecimal digits. *)
Fixpoint unescape_bytes (m : encoding) (l : list ascii) : result (list ascii) :=
  match l with
  | [] => Ok []
  | "%"%char :: rest =>
      match rest with
      | a :: b :: rest =>
          if negb (ishex a && ishex b) then Err bad_escape else
          let v := ascii_of_N (16 * unhex a + unhex b) in
          let is25 := Ascii.eqb a "2" && Ascii.eqb b "5" in
          let bad :=
            match m with
            | encodeHost => (unhex a <? 8)%N && negb is25
            | encodeZone => negb is25 && negb (Ascii.eqb v " ") && escape_in_host v
            | _ => false
            end in
          if bad then Err bad_escape
          else let? r := unescape_bytes m rest in Ok (v :: r)
      | _ => Err bad_escape
      end
  | c :: rest =>
      if is_host_mode m && (byte c <? 0x80)%Z && escape_in_host c then Err bad_host
      else let? r := unescape_bytes m rest in Ok (c :: r)
  end.

Definition unescape (m : encoding) (s : string) : result string :=
  let? l := unescape_bytes m (bytes s) in Ok (of_bytes l).

(** ** The parser *)

(** [getScheme]: the scheme, "" if there is none, and the rest. *)
Fixpoint scheme_bytes (first : bool) (l : list ascii) : option (result (list ascii * list ascii)) :=
  match l with
  | [] => None
  | c :: rest =>
      if Ascii.eqb c ":" then
        Some (if first then Err (errorf "missing protocol scheme") else Ok ([], rest))
      else if is_alpha c || (negb first && (is_digit c || one_of "+-." c)) then
        match scheme_bytes false rest with
        | Some (Ok (s, r)) => Some (Ok (c :: s, r))
        | other => other
        end
      else None
  end.

Definition getScheme (l : list ascii) : result (list ascii * list ascii) :=
  match scheme_bytes true l with Some r => r | None => Ok ([], l) end.

(** [validOptionalPort] *)
Definition validOptionalPort (l : list ascii) : bool :=
  match l with
  | [] => true
  | c :: digits => Ascii.eqb c ":" && forallb is_digit digits
  end.

Definition valid_userinfo (l : list ascii) : bool :=
  forallb (λ c, is_alpha c || is_digit c || one_of "-._:~!$&'()*+,;=%@" c) l.

Section parser.
Context `{UnicodeCase} `{IPLiteral}.

(** [parseHost] *)
Definition parseHost (l : list ascii) : result string :=
  match last_cut "["%char l with
  | Some (_, inner) =>
      match last_cut "]"%char inner with
      | None => Err (errorf "missing ']' in host")
      | Some (literal, port) =>
          reject negb (validOptionalPort port) with errorf "invalid port after host";;
          let? port := unescape encodeHost (of_bytes port) in
          let '(addr, zone) := zone_cut literal in
          let? addr := unescape encodeHost (of_bytes addr) in
          let? zone := unescape encodeZone (of_bytes zone) in
          reject negb (valid_ip_literal (addr +:+ zone)) with errorf "invalid host";;
          Ok ("[" +:+ addr +:+ zone +:+ "]" +:+ port)
      end
  | None =>
      reject match last_cut ":"%char l with
             | Some (_, digits) => negb (forallb is_digit digits)
             | None => false
             end with errorf "invalid port after host";;
      unescape encodeHost (of_bytes l)
  end.

(** [parseAuthority] *)
Definition parseAuthority (l : list ascii) : result (option (string * option string) * string) :=
  match last_cut "@"%char l with
  | None => let? h := parseHost l in Ok (None, h)
  | Some (user, host) =>
      let? h := parseHost host in
      reject negb (valid_userinfo user) with errorf "net/url: invalid userinfo";;
      let '(name, pass, found) := Cut (of_bytes user) ":" in
      let? name := unescape encodeUserPassword name in
      let? pass := unescape encodeUserPassword pass in
      Ok (Some (name, if found then Some pass else None), h)
  end.

(** The raw form that [setPath] and [setFragment] keep beside the decoded one:
    only when it is not the default encoding. *)
Definition raw_unless_default (m : encoding) (raw decoded : string) : string :=
  if bool_decide (raw = escape m decoded) then "" else raw.

(** The rest of [parse], from the path on. *)
Definition parse_hier (scheme query : string) (force : bool) (l : list ascii) : result URL :=
  if prefixb (bytes "//") l && (negb (bool_decide (scheme = "")) || negb (prefixb (bytes "///") l)) then
    let rest := drop 2 l in
    let authority := match cut_bytes "/" rest with Some (a, _) => a | None => rest end in
    let path := drop (length authority) rest in
    let? (user, host) := parseAuthority authority in
    let? p := unescape encodePath (of_bytes path) in
    Ok (mkURL scheme "" user host p (raw_unless_default encodePath (of_bytes path) p) false force query "" "")
  else
    let? p := unescape encodePath (of_bytes l) in
    Ok (mkURL scheme "" None "" p (raw_unless_default encodePath (of_bytes l) p)
          (negb (bool_decide (scheme = "")) && prefixb (bytes "/") l) force query "" "").

(** [parse(rawURL, false)] *)
Definition parse (raw : string) : result URL :=
  reject existsb is_ctl (bytes raw) with errorf "net/url: invalid control character in URL";;
  if bool_decide (raw = "*") then Ok (mkURL "" "" None "" "*" "" false false "" "" "") else
  let? (scheme, rest) := getScheme (bytes raw) in
  let scheme := ToLower (of_bytes scheme) in
  let '(rest, query, found) := Cut (of_bytes rest) "?" in
  let force := found && bool_decide (query = "") in
  let rest := bytes rest in
  if negb (prefixb (bytes "/") rest) then
    if negb (bool_decide (scheme = "")) then Ok (mkURL scheme (of_bytes rest) None "" "" "" false force query "" "") else
    let '(segment, _, _) := Cut (of_bytes rest) "/" in
    reject Contains segment ":" with errorf "first path segment in URL cannot contain colon";;
    parse_hier scheme query force rest
  else parse_hier scheme query force rest.

(** [url.Parse] *)
Definition Parse (raw : string) : result URL :=
  let '(u, frag, _) := Cut raw "#" in
  let? url := parse u in
  let? f := unescape encodeFragment frag in
  Ok (mkURL (u_Scheme url) (u_Opaque url) (u_User url) (u_Host url) (u_Path url) (u_RawPath url)
        (u_OmitHost url) (u_ForceQuery url) (u_RawQuery url) f (raw_unless_default encodeFragment frag f)).

Definition IsAbs (u : URL) : bool := negb (bool_decide (u_Scheme u = "")).

(** [EscapedPath], [EscapedFragment]: the raw form if it still encodes the decoded one. *)
Definition escaped_part (m : encoding) (raw decoded : string) : string :=
  if negb (bool_decide (raw = "")) && validEncoded m raw
     && match unescape m raw with Ok p => bool_decide (p = decoded) | Err _ => false end
  then raw
  else escape m decoded.
Definition EscapedPath (u : URL) : string :=
  if negb (bool_decide (u_RawPath u = "")) && validEncoded encodePath (u_RawPath u)
     && match unescape encodePath (u_RawPath u) with Ok p => bool_decide (p = u_Path u) | Err _ => false end
  then u_RawPath u
  else if bool_decide (u_Path u = "*") then "*" else escape encodePath (u_Path u).

Definition Userinfo_String (ui : string * option string) : string :=
  escape encodeUserPassword ui.1 +:+
  match ui.2 with Some p => ":" +:+ escape encodeUserPassword p | None => "" end.

(** The authority as [String] writes it. *)
Definition authority_string (u : URL) : string :=
  if bool_decide (u_Scheme u = "") && bool_decide (u_Host u = "") && bool_decide (u_User u = None)
     || u_OmitHost u && bool_decide (u_Host u = "") && bool_decide (u_User u = None)
  then ""
  else
    (if bool_decide (u_Host u = "") && bool_decide (u_Path u = "") && bool_decide (u_User u = None)
     then "" else "//") +:+
    match u_User u with Some ui => Userinfo_String ui +:+ "@" | None => "" end +:+
    escape encodeHost (u_Host u).

(** [URL.String] *)
Definition URL_String (u : URL) : string :=
  let scheme := if bool_decide (u_Scheme u = "") then "" else u_Scheme u +:+ ":" in
  let main :=
    if negb (bool_decide (u_Opaque u = "")) then u_Opaque u else
    let authority := authority_string u in
    let path := EscapedPath u in
    let slash := if negb (bool_decide (path = "")) && negb (HasPrefix path "/")
                    && negb (bool_decide (u_Host u = "")) then "/" else "" in
    let dot := if bool_decide (scheme +:+ authority +:+ slash = "")
                  && Contains (Cut path "/").1.1 ":" then "./" else "" in
    authority +:+ slash +:+ dot +:+ path in
  let query := if u_ForceQuery u || negb (bool_decide (u_RawQuery u = ""))
               then "?" +:+ u_RawQuery u else "" in
  let frag := if bool_decide (u_Fragment u = "") then ""
              else "#" +:+ escaped_part encodeFragment (u_RawFragment u) (u_Fragment u) in
  scheme +:+ main +:+ query +:+ frag.
End parser.

(** ** path.Clean *)
Definition clean_push (rooted : bool) (stack : list string) (seg : string) : list string :=
  if bool_decide (seg = "" ∨ seg = ".") then stack
  else if bool_decide (seg = "..") then
    match stack with
    | [] => if rooted then [] else [".."]
    | top :: rest => if bool_decide (top = "..") then ".." :: stack else rest
    end
  else seg :: stack.

(** The stack of kept segments has the last one first. *)
Definition path_Clean (p : string) : string :=
  if bool_decide (p = "") then "." else
  let rooted := HasPrefix p "/" in
  let stack := fold_left (clean_push rooted) (Split p "/") [] in
  let body := Join (rev stack) "/" in
  if rooted then "/" +:+ body else if bool_decide (body = "") then "." else body.

(** [path.Join]: the elements that are not empty, joined and cleaned. *)
Fixpoint join_elems (buf : string) (elems : list string) : string :=
  match elems with
  | [] => buf
  | e :: elems =>
      join_elems (if bool_decide (buf = "") then e else buf +:+ "/" +:+ e) elems
  end.
Definition path_Join (elems : list string) : string :=
  let buf := join_elems "" elems in
  if bool_decide (buf = "") then "" else path_Clean buf.

(** [path.Base]: the last element, "." for the empty path and "/" for slashes only *)
Definition path_Base (p : string) : string :=
  if bool_decide (p = "") then "." else
  let base := default "" (list.last (Split (TrimRight p "/") "/")) in
  if bool_decide (base = "") then "/" else base.
Example path_Base_examples :
  path_Base "" = "." ∧ path_Base "//" = "/" ∧ path_Base "/a/b.pdf/" = "b.pdf" ∧ path_Base "x/.." = "..".
Proof. by vm_compute. Qed.

Example path_Clean_examples :
  path_Clean "/a//b/./../c/" = "/a/c" ∧ path_Clean "/../x" = "/x" ∧
  path_Clean "../../a" = "../../a" ∧ path_Clean "a/.." = ".".
Proof. by vm_compute. Qed.

(** A segment that [path.Clean] keeps. *)
Definition good_segment (seg : string) : Prop :=
  seg ≠ "" ∧ seg ≠ "." ∧ seg ≠ ".." ∧ "/"%char ∉ bytes seg.

Lemma clean_fold r segs stack :
  Forall (λ s, s ≠ "." ∧ s ≠ "..") segs →
  fold_left (clean_push r) segs stack = rev (filter (.≠ "") segs) ++ stack.
Proof.
  intros Hd. revert stack; induction Hd as [|s segs [H1 H2] Hd IH]; intros stack; [done|].
  cbn [fold_left]. rewrite IH. unfold clean_push. rewrite filter_cons. destruct (decide (s = "")) as [->|Hs].
  - by rewrite bool_decide_eq_true_2 by naive_solver; rewrite decide_False by naive_solver.
  - rewrite bool_decide_eq_false_2 by naive_solver. rewrite bool_decide_eq_false_2 by done.
    rewrite decide_True by done. simpl. by rewrite <-app_assoc.
Qed.

(** The literals of the examples below are ASCII and have no brackets. *)
Definition no_literal : IPLiteral := {| valid_ip_literal _ := false |}.

Example Parse_examples :
  let _ := ascii_case in let _ := no_literal in
  Parse "HTTPS://alice:pw@idp.example:8443/a%20b?q=1#top" =
    Ok (mkURL "https" "" (Some ("alice", Some "pw")) "idp.example:8443" "/a b" "" false false "q=1" "top" "") ∧
  Parse "/app?x=1" = Ok (mkURL "" "" None "" "/app" "" false false "x=1" "" "") ∧
  Parse "//evil.example/x" = Ok (mkURL "" "" None "evil.example" "/x" "" false false "" "" "") ∧
  Parse "mailto:a@b" = Ok (mkURL "mailto" "a@b" None "" "" "" false false "" "" "") ∧
  Parse "http://u@h/a%2Fb?" = Ok (mkURL "http" "" (Some ("u", None)) "h" "/a/b" "/a%2Fb" false true "" "" "") ∧
  is_ok (Parse "a:b/%zz") = true ∧ is_ok (Parse "1:b") = false ∧ is_ok (Parse "/%zz") = false.
Proof. by vm_compute. Qed.

(** Printing what was parsed gives the text back, up to the case of the scheme. *)
Example URL_String_examples :
  let _ := ascii_case in let _ := no_literal in
  ∀ v, v ∈ ["https://u:p@h:1/a%2Fb?x=1#f"; "/a/b%20c"; "//h/x?"; "mailto:a@b"; "file:/etc/x"; "*"; "https://h"] →
  match Parse v with Ok u => URL_String u = v | Err _ => False end.
Proof. intros ?? v Hv. repeat (apply elem_of_cons in Hv as [->|Hv]; [by vm_compute|]). by apply elem_of_nil in Hv. Qed.

(** ** Lemmas *)
Section lemmas.
Context `{UnicodeCase} `{IPLiteral}.

(** An unescaped string starts with [c] when the escaped one does, or when it
    starts with an escape of [c]. *)
Lemma unescape_bytes_head l r :
  unescape_bytes encodePath l = Ok r →
  match r with
  | [] => l = []
  | c :: _ => (∃ l', l = c :: l') ∨
      ∃ a b l', l = "%"%char :: a :: b :: l' ∧ c = ascii_of_N (16 * unhex a + unhex b)
  end.
Proof.
  destruct l as [|c l]; [by intros [= <-]|].
  assert (unescape_bytes encodePath (c :: l) = Ok r → c ≠ "%"%char →
    ∃ r', r = c :: r') as Hplain.
  { simpl. intros Hu Hc. destruct c as [[] [] [] [] [] [] [] []]; try done; ok_inv; eauto. }
  intros Hu. destruct (decide (c = "%"%char)) as [->|Hne].
  - destruct l as [|a [|b l]]; [done..|]. simpl in Hu.
    destruct (negb _); [done|]. ok_inv. right. by exists a, b, l.
  - apply Hplain in Hu as [r' ->]; [|done]. left. eauto.
Qed.

Lemma Cut_prefix s c a b f : Cut s c = (a, b, f) → ∃ t, bytes s = bytes a ++ t.
Proof.
  unfold Cut. destruct (cut_bytes c (bytes s)) as [[x y]|] eqn:Hc; intros [= <- <- <-].
  - apply cut_bytes_Some in Hc as [-> _]. rewrite bytes_of_bytes. eauto.
  - exists []. by rewrite app_nil_r.
Qed.

Lemma scheme_bytes_ok first l s r :
  scheme_bytes first l = Some (Ok (s, r)) →
  forallb (λ c, byte c <? 0x80)%Z s = true ∧ (first = true → s ≠ []).
Proof.
  revert first s. induction l as [|c l IH]; intros first s; simpl; [done|].
  destruct (Ascii.eqb c ":"); [by destruct first; intros [= <- <-]|].
  destruct (_ || _) eqn:Hc; [|done].
  destruct (scheme_bytes false l) as [[[s' r']|e]|] eqn:Hs; [|done..]. intros [= <- <-].
  apply IH in Hs as [Hs _]. simpl. rewrite Hs, andb_true_r. split; [|done].
  clear -Hc. by destruct c as [[] [] [] [] [] [] [] []], first.
Qed.

Lemma ToLower_empty s : is_ascii s = true → ToLower s = "" → s = "".
Proof. unfold ToLower. intros ->. by destruct s. Qed.

(** Without a scheme the whole reference is left after [getScheme]. *)
Lemma getScheme_none l s r :
  getScheme l = Ok (s, r) → ToLower (of_bytes s) = "" → s = [] ∧ r = l.
Proof.
  unfold getScheme. destruct (scheme_bytes true l) as [res|] eqn:Hsb; [|by intros [= <- <-]].
  intros ->. apply scheme_bytes_ok in Hsb as [Hasc Hne]. intros Hl%ToLower_empty.
  - destruct Hne; [done|]. apply of_bytes_inj. by rewrite Hl.
  - unfold is_ascii. by rewrite bytes_of_bytes.
Qed.

(** The first byte of a rooted path, or its escape, starts [l]. *)
Definition rooted_bytes (l : list ascii) : Prop :=
  (∃ t, l = "/"%char :: t) ∨
  ∃ a b t, l = "%"%char :: a :: b :: t ∧ "/"%char = ascii_of_N (16 * unhex a + unhex b).

Lemma rooted_bytes_app l t : rooted_bytes l → rooted_bytes (l ++ t).
Proof. intros [[k ->]|(a & b & k & -> & Hv)]; [left|right]; simpl; eauto 6. Qed.

Lemma parse_hier_rooted scheme q fq l u :
  parse_hier scheme q fq l = Ok u → HasPrefix (u_Path u) "/" = true → rooted_bytes l.
Proof.
  unfold parse_hier. destruct (prefixb (bytes "//") l) eqn:Hp.
  { intros _ _. left. apply prefixb_spec in Hp as [k ->]. simpl. eauto. }
  simpl. intros Hu Hpath. apply result_bind_ok in Hu as (p & Hun & [= <-]). simpl in Hpath.
  unfold unescape in Hun. apply result_bind_ok in Hun as (r & Hr & [= <-]).
  rewrite bytes_of_bytes in Hr. apply unescape_bytes_head in Hr.
  apply HasPrefix_spec in Hpath as [k Hk]. apply (f_equal bytes) in Hk.
  rewrite bytes_of_bytes in Hk. simpl in Hk. subst r. unfold rooted_bytes. naive_solver.
Qed.

Lemma parse_rooted raw u :
  parse raw = Ok u → u_Scheme u = "" → HasPrefix (u_Path u) "/" = true → rooted_bytes (bytes raw).
Proof.
  unfold parse. intros Hp Hs Hpath. apply reject_if_ok in Hp as [_ Hp].
  case_bool_decide; [by simplify_eq|]. apply result_bind_ok in Hp as ([s rest] & Hsch & Hp).
  destruct (Cut (of_bytes rest) "?") as [[r q] f] eqn:Hcut. apply Cut_prefix in Hcut as [t Ht].
  rewrite bytes_of_bytes in Ht.
  assert (ToLower (of_bytes s) = "" → rooted_bytes (bytes r) → rooted_bytes (bytes raw)) as Hlift.
  { intros Hl Hr. apply getScheme_none in Hsch as [_ <-]; [|done]. rewrite Ht. by apply rooted_bytes_app. }
  assert (∀ sc q fq l u, parse_hier sc q fq l = Ok u → u_Scheme u = sc) as Hscheme.
  { clear. unfold parse_hier. intros sc q fq l u Hu. case_match; ok_inv; [|done]. destruct x; ok_inv. done. }
  destruct (negb (prefixb (bytes "/") (bytes r))).
  - case_bool_decide; simpl in Hp; [|by simplify_eq/=].
    destruct (Cut (of_bytes (bytes r)) "/") as [[seg ?] ?]. apply reject_if_ok in Hp as [_ Hp].
    eapply Hlift, parse_hier_rooted; eauto.
  - eapply Hlift, parse_hier_rooted; eauto. by rewrite <-(Hscheme _ _ _ _ _ Hp).
Qed.

(** A relative reference with a rooted path is written with a '/' in front, or
    with an escape of it. *)
Lemma Parse_rooted v u :
  Parse v = Ok u → IsAbs u = false → HasPrefix (u_Path u) "/" = true → rooted_bytes (bytes v).
Proof.
  unfold Parse, IsAbs. destruct (Cut v "#") as [[u0 frag] f0] eqn:Hcut. intros Hp Habs Hpath.
  apply result_bind_ok in Hp as (url & Hurl & Hp). apply result_bind_ok in Hp as (f & _ & [= <-]).
  simpl in *. bool_inv. apply Cut_prefix in Hcut as [t0 ->]. apply rooted_bytes_app.
  by eapply parse_rooted.
Qed.

(** *** A trailing slash *)

Lemma unescape_bytes_plain m c l :
  is_host_mode m = false → c ≠ "%"%char →
  unescape_bytes m (c :: l) = let? r := unescape_bytes m l in Ok (c :: r).
Proof. intros Hm Hc. destruct c as [[] [] [] [] [] [] [] []]; try done; simpl; by rewrite Hm. Qed.

Lemma unescape_bytes_slash m l r :
  is_host_mode m = false →
  unescape_bytes m (l ++ ["/"%char]) = Ok r → ∃ r', unescape_bytes m l = Ok r'.
Proof.
  intros Hm. revert r; induction (Nat.lt_wf_0_projected (@length ascii) l) as [l _ IH]; intros r.
  destruct l as [|c l]; [by eexists|]. destruct (decide (c = "%"%char)) as [->|Hc].
  - destruct l as [|a [|b l]]; [done| |].
    + simpl. by destruct (ishex a).
    + cbn [unescape_bytes app]. destruct (negb (ishex a && ishex b)); [done|].
      case_match eqn:Hbad; [done|].
      intros Hu. apply result_bind_ok in Hu as (r1 & H1 & _).
      destruct (IH l) with r1 as [r' Hr']; [simpl; lia|done|]. rewrite Hr'. by eexists.
  - cbn [app]. rewrite !unescape_bytes_plain by done.
    intros Hu. apply result_bind_ok in Hu as (r1 & H1 & _).
    destruct (IH l) with r1 as [r' Hr']; [simpl; lia|done|]. rewrite Hr'. by eexists.
Qed.

Lemma unescape_slash m s r :
  is_host_mode m = false → unescape m (s +:+ "/") = Ok r → ∃ r', unescape m s = Ok r'.
Proof.
  unfold unescape. rewrite bytes_app. intros Hm Hu. apply result_bind_ok in Hu as (l & Hl & _).
  apply unescape_bytes_slash in Hl as [r' ->]; [|done]. by eexists.
Qed.

Lemma scheme_bytes_slash first l s r :
  scheme_bytes first (l ++ ["/"%char]) = Some (Ok (s, r)) →
  ∃ r', r = r' ++ ["/"%char] ∧ scheme_bytes first l = Some (Ok (s, r')).
Proof.
  revert first s; induction l as [|c l IH]; intros first s; simpl; [by destruct first|].
  destruct (Ascii.eqb c ":"); [destruct first; [done|]; intros [= <- <-]; eauto|].
  destruct (_ || _); [|done].
  destruct (scheme_bytes false (l ++ _)) as [[[s' r']|e]|] eqn:Hs; [|done..]. intros [= <- <-].
  apply IH in Hs as (r2 & -> & ->). eauto.
Qed.

Lemma cut_slash sep s :
  sep ≠ "/"%char →
  (∃ a b, Cut (s +:+ "/") sep = (a, b +:+ "/", true) ∧ Cut s sep = (a, b, true)) ∨
  (Cut (s +:+ "/") sep = (s +:+ "/", "", false) ∧ Cut s sep = (s, "", false)).
Proof.
  unfold Cut. intros Hsep. rewrite bytes_app. change (bytes "/") with ["/"%char].
  destruct (cut_bytes sep (bytes s)) as [[a b]|] eqn:Hc.
  - left. rewrite (cut_bytes_app _ _ _ _ _ Hc). exists (of_bytes a), (of_bytes b). split; [|done].
    do 2 f_equal. apply bytes_inj. by rewrite bytes_app, !bytes_of_bytes.
  - right. apply cut_bytes_None in Hc.
    assert (cut_bytes sep (bytes s ++ ["/"%char]) = None) as -> by (apply cut_bytes_None; set_solver).
    done.
Qed.

(** The parts of a URL that name the server. *)
Definition same_origin (u v : URL) : Prop :=
  u_Scheme v = u_Scheme u ∧ u_User v = u_User u ∧ u_Host v = u_Host u.
#[export] Instance same_origin_equivalence : Equivalence same_origin.
Proof.
  split; unfold same_origin; [done|by intros u v (-> & -> & ->)|].
  intros u v w (?&?&?) (?&?&?). repeat split; congruence.
Qed.

Lemma parse_hier_query scheme q q' force force' l u :
  parse_hier scheme q force l = Ok u → ∃ v, parse_hier scheme q' force' l = Ok v ∧ same_origin u v.
Proof.
  unfold parse_hier. case_match; intros Hu.
  - apply result_bind_ok in Hu as ([user host] & -> & Hu). apply result_bind_ok in Hu as (p & Hp & [= <-]).
    simpl. rewrite Hp. simpl. by eexists.
  - apply result_bind_ok in Hu as (p & Hp & [= <-]). simpl. rewrite Hp. simpl. by eexists.
Qed.

Lemma parse_hier_slash scheme q force l u :
  scheme ≠ "" → u_Host u ≠ "" → parse_hier scheme q force (l ++ ["/"%char]) = Ok u →
  prefixb (bytes "//") l = true ∧ ∃ v, parse_hier scheme q force l = Ok v ∧ same_origin u v.
Proof.
  intros Hs Hh. unfold parse_hier. rewrite !bool_decide_eq_false_2 by done. cbn [negb orb]. rewrite !andb_true_r.
  destruct (prefixb (bytes "//") (l ++ _)) eqn:Hp; [|intros Hu; by ok_inv].
  apply prefixb_spec in Hp as [k Hk]. destruct l as [|a [|b t]]; [done| |].
  { simpl in Hk. simplify_eq. intros Hu. simpl in Hu. by ok_inv. }
  rewrite <-!app_comm_cons in Hk |- *. injection Hk as -> -> _. rewrite !skipn_cons, !skipn_O.
  assert (prefixb (bytes "//") ("/"%char :: "/"%char :: t) = true) as -> by done. intros Hu. split; [done|].
  set (auth := match cut_bytes "/" t with Some (x, _) => x | None => t end).
  assert (match cut_bytes "/" (t ++ ["/"%char]) with Some (x, _) => x | None => t ++ ["/"%char] end = auth) as Hauth.
  { unfold auth. destruct (cut_bytes "/" t) as [[x y]|] eqn:Hc; [by rewrite (cut_bytes_app _ _ _ _ _ Hc)|].
    apply cut_bytes_None in Hc. clear -Hc. induction t as [|c t IH]; simpl; [done|].
    destruct (Ascii.eqb_spec c "/") as [->|_]; [set_solver|].
    specialize (IH ltac:(set_solver)). destruct (cut_bytes "/" (t ++ _)) as [[x y]|] eqn:Hx; [by f_equal|].
    apply cut_bytes_None in Hx. set_solver. }
  rewrite Hauth in Hu. apply result_bind_ok in Hu as ([user host] & Ha & Hu). rewrite Ha. simpl.
  apply result_bind_ok in Hu as (p & Hun & [= <-]). simpl in Hh.
  assert (length auth ≤ length t)%nat as Hlen.
  { unfold auth. destruct (cut_bytes "/" t) as [[x y]|] eqn:Hc; [|done].
    apply cut_bytes_Some in Hc as [-> _]. rewrite length_app. lia. }
  rewrite drop_app_le in Hun by done.
  assert (of_bytes (drop (length auth) t ++ ["/"%char]) = of_bytes (drop (length auth) t) +:+ "/") as Hd
    by (apply bytes_inj; by rewrite bytes_app, !bytes_of_bytes).
  rewrite Hd in Hun. apply unescape_slash in Hun as [r' Hr']; [|done]. rewrite Hr'. simpl. by eexists.
Qed.

(** [parse] of a URL with a scheme and a host. *)
Definition parse_steps (raw : string) (u : URL) : Prop :=
  existsb is_ctl (bytes raw) = false ∧ raw ≠ "*" ∧
  ∃ s rest r q fq, scheme_bytes true (bytes raw) = Some (Ok (s, rest)) ∧ Cut (of_bytes rest) "?" = (r, q, fq) ∧
    ToLower (of_bytes s) ≠ "" ∧ prefixb (bytes "/") (bytes r) = true ∧
    parse_hier (ToLower (of_bytes s)) q (fq && bool_decide (q = "")) (bytes r) = Ok u.

Lemma parse_hier_fields sc q fq l u :
  parse_hier sc q fq l = Ok u → u_Scheme u = sc ∧ u_RawQuery u = q ∧ u_Fragment u = "" ∧ u_Opaque u = "".
Proof. unfold parse_hier. case_match; intros Hu; ok_inv; [destruct x; ok_inv|]; done. Qed.

Lemma parse_steps_inv raw u : parse raw = Ok u → u_Scheme u ≠ "" → u_Host u ≠ "" → parse_steps raw u.
Proof.
  unfold parse, parse_steps, getScheme. intros Hp Hs Hh. apply reject_if_ok in Hp as [Hctl Hp].
  case_bool_decide as Hstar; [by simplify_eq/=|]. split; [done|]. split; [done|].
  apply result_bind_ok in Hp as ([s rest] & Hsch & Hp).
  destruct (Cut (of_bytes rest) "?") as [[r q] fq] eqn:Hcut.
  assert (ToLower (of_bytes s) ≠ "" ∧ prefixb (bytes "/") (bytes r) = true ∧
          parse_hier (ToLower (of_bytes s)) q (fq && bool_decide (q = "")) (bytes r) = Ok u) as (Hsc & Hpre & Hh').
  { destruct (prefixb (bytes "/") (bytes r)); simpl in Hp.
    - split; [|done]. by apply parse_hier_fields in Hp as [<- _].
    - case_bool_decide; simpl in Hp; [|by simplify_eq/=]. destruct (Cut (of_bytes (bytes r)) "/") as [[? ?] ?].
      apply reject_if_ok in Hp as [_ Hp]. by apply parse_hier_fields in Hp as [? _]; congruence. }
  exists s, rest, r, q, fq. destruct (scheme_bytes true (bytes raw)) as [res|]; [by subst|].
  by simplify_eq.
Qed.

Lemma parse_steps_run raw u : parse_steps raw u → parse raw = Ok u.
Proof.
  intros (Hctl & Hstar & s & rest & r & q & fq & Hsch & Hcut & Hsc & Hpre & Hh). unfold parse, getScheme.
  rewrite Hctl. cbn [reject_if]. rewrite bool_decide_eq_false_2 by done. rewrite Hsch. cbn [result_bind].
  by rewrite Hcut, Hpre.
Qed.

Lemma parse_drop_slash v u :
  parse (v +:+ "/") = Ok u → u_Scheme u ≠ "" → u_Host u ≠ "" → ∃ w, parse v = Ok w ∧ same_origin u w.
Proof.
  intros Hu Hs Hh.
  destruct (parse_steps_inv _ _ Hu Hs Hh) as (Hctl & _ & s & rest & r & q & fq & Hsch & Hcq & Hsc & Hpre & Hhier).
  rewrite bytes_app in Hsch, Hctl. rewrite existsb_app in Hctl. apply orb_false_iff in Hctl as [Hctl _].
  apply scheme_bytes_slash in Hsch as (rest' & -> & Hsch).
  assert (of_bytes (rest' ++ ["/"%char]) = of_bytes rest' +:+ "/") as Hr
    by (apply bytes_inj; by rewrite bytes_app, !bytes_of_bytes).
  assert (v ≠ "*") as Hstar by by intros ->. rewrite Hr in Hcq.
  destruct (cut_slash "?" (of_bytes rest')) as [(a & b & Hc & Hc')|[Hc Hc']]; [done| |];
    rewrite Hc in Hcq; injection Hcq as <- <- <-.
  - apply (parse_hier_query _ _ b _ (true && bool_decide (b = ""))) in Hhier as (w & Hw & Hsame).
    exists w. split; [|done]. apply parse_steps_run. split; [done|]. split; [done|].
    by exists s, rest', a, b, true.
  - rewrite bytes_app, bytes_of_bytes in Hhier.
    apply parse_hier_slash in Hhier as (Hp2 & w & Hw & Hsame); [|done|done].
    exists w. split; [|done]. apply parse_steps_run. split; [done|]. split; [done|].
    exists s, rest', (of_bytes rest'), "", false. rewrite bytes_of_bytes.
    repeat (split; [done|]). split; [|done]. apply prefixb_spec in Hp2 as [k ->]. done.
Qed.

(** A slash at the end of an absolute URL can be dropped: the server named by the
    URL stays the same. *)
Lemma Parse_drop_slash v u :
  Parse (v +:+ "/") = Ok u → u_Scheme u ≠ "" → u_Host u ≠ "" → ∃ w, Parse v = Ok w ∧ same_origin u w.
Proof.
  unfold Parse. intros Hp Hs Hh. destruct (cut_slash "#" v) as [(a & b & Hc & Hc')|[Hc Hc']]; [done| |];
    rewrite Hc in Hp; rewrite Hc';
    apply result_bind_ok in Hp as (u1 & Hu1 & Hp); apply result_bind_ok in Hp as (fr & Hfr & [= <-]); simpl in Hs, Hh.
  - rewrite Hu1. simpl. apply unescape_slash in Hfr as [r' ->]; [|done]. simpl. by eexists.
  - apply parse_drop_slash in Hu1 as (w & -> & Hw); [|done|done]. simpl. by eexists.
Qed.

(** A URL with a host has no opaque part. *)
Lemma Parse_opaque v u : Parse v = Ok u → u_Scheme u ≠ "" → u_Host u ≠ "" → u_Opaque u = "".
Proof.
  unfold Parse. destruct (Cut v "#") as [[u0 frag] f0]. intros Hp Hs Hh. ok_inv.
  match goal with H : parse _ = Ok _ |- _ => apply parse_steps_inv in H as (_&_&?&?&?&?&?&_&_&_&_&H) end; [|done..].
  by match goal with H : parse_hier _ _ _ _ = Ok _ |- _ => apply parse_hier_fields in H as (_&_&_&?) end.
Qed.

(** [strings.TrimRight(v, "/")] of an absolute URL *)
Lemma Parse_TrimRight v u :
  Parse v = Ok u → u_Scheme u ≠ "" → u_Host u ≠ "" →
  ∃ w, Parse (TrimRight v "/") = Ok w ∧ same_origin u w.
Proof.
  destruct (TrimRight_spec v "/") as [n Hn]. set (t := TrimRight v "/") in *. clearbody t.
  revert v u Hn; induction n as [|n IH]; intros v u Hn Hp Hs Hh.
  - rewrite app_nil_r in Hn. apply bytes_inj in Hn as ->. by exists u.
  - rewrite replicate_S_end, app_assoc in Hn.
    assert (v = of_bytes (bytes t ++ replicate n "/"%char) +:+ "/") as ->
      by (apply bytes_inj; by rewrite bytes_app, bytes_of_bytes).
    apply Parse_drop_slash in Hp as (w & Hw & Hsame); [|done..].
    pose proof Hsame as (?&?&?).
    apply IH in Hw as (x & Hx & Hxw); [|by rewrite bytes_of_bytes|congruence..].
    exists x. split; [done|]. by etransitivity.
Qed.
End lemmas.
