(* ===== verification/GoQuery.v ===== *)
(** * Query strings: url.Values

    [url.ParseQuery] (without the limit on the number of parameters),
    [Values.Set] and [Values.Encode], with the escapes of query components.
    Encoding and parsing values gives them back. *)

From stdpp Require Import sorting.
From S2P Require Import Prelude GoStrings GoURL.
Open Scope go_scope.

(** [type Values map[string][]string] *)
Abbreviation Values := (gmap string (list string)).

(** ** Escaping: mode encodeQueryComponent *)
Definition query_plain (c : ascii) : bool := is_alpha c || is_digit c || one_of "-_.~" c.
Definition query_escape_byte (c : ascii) : list ascii :=
  if query_plain c then [c] else
  if Ascii.eqb c " " then ["+"%char] else
  ["%"%char; upper_hex (N_of_ascii c / 16); upper_hex (N_of_ascii c mod 16)].
(** [url.QueryEscape] *)
Definition QueryEscape (s : string) : string := of_bytes (concat (query_escape_byte <$> bytes s)).

Fixpoint query_unescape_bytes (l : list ascii) : result (list ascii) :=
  match l with
  | [] => Ok []
  | c :: rest =>
      if Ascii.eqb c "%" then
        match rest with
        | a :: b :: rest =>
            if negb (ishex a && ishex b) then Err bad_escape
            else let? r := query_unescape_bytes rest in Ok (ascii_of_N (16 * unhex a + unhex b) :: r)
        | _ => Err bad_escape
        end
      else let? r := query_unescape_bytes rest in Ok ((if Ascii.eqb c "+" then " "%char else c) :: r)
  end.
(** [url.QueryUnescape] *)
Definition QueryUnescape (s : string) : result string :=
  let? l := query_unescape_bytes (bytes s) in Ok (of_bytes l).

(** ** Values *)
Definition add_value (m : Values) (k v : string) : Values := <[k := default [] (m !! k) ++ [v]]> m.

(** One pair of [parseQuery]; pairs that are malformed are left out (the error
    that reports them is dropped by [URL.Query]). *)
Definition parse_pair (m : Values) (pair : string) : Values :=
  if Contains pair ";" then m else
  if bool_decide (pair = "") then m else
  let '(k, v, _) := Cut pair "=" in
  match QueryUnescape k, QueryUnescape v with
  | Ok k, Ok v => add_value m k v
  | _, _ => m
  end.
(** [url.ParseQuery], [URL.Query] *)
Definition ParseQuery (query : string) : Values := fold_left parse_pair (Split query "&") ∅.

(** [Values.Set] *)
Definition Values_Set (k v : string) (m : Values) : Values := <[k := [v]]> m.

Definition pairs (m : Values) : list (string * string) :=
  concat ((λ k, (λ v, (k, v)) <$> default [] (m !! k)) <$> keysSorted (dom m)).
Definition encode_pair (p : string * string) : string := QueryEscape p.1 +:+ "=" +:+ QueryEscape p.2.
(** [Values.Encode] *)
Definition Values_Encode (m : Values) : string := Join (encode_pair <$> pairs m) "&".

Example encode_sample :
  Values_Encode (Values_Set "b" "x y&z" (Values_Set "a" "1/2" ∅)) = "a=1%2F2&b=x+y%26z".
Proof. run. Qed.

(** ** Encoding and parsing *)
Definition separator (c : ascii) : bool := one_of "&=;" c.

Lemma query_escape_byte_no_sep c : forallb (λ x, negb (separator x)) (query_escape_byte c) = true.
Proof. by destruct c as [[] [] [] [] [] [] [] []]; vm_compute. Qed.

Lemma QueryEscape_no_sep s c : separator c = true → c ∉ bytes (QueryEscape s).
Proof.
  intros Hc. unfold QueryEscape. rewrite bytes_of_bytes.
  induction (bytes s) as [|x l IH]; cbn [fmap list_fmap concat]; [apply not_elem_of_nil|].
  rewrite not_elem_of_app. split; [|done]. intros Hin.
  pose proof (query_escape_byte_no_sep x) as Hf. rewrite forallb_forall in Hf.
  apply list_elem_of_In, Hf in Hin. by rewrite Hc in Hin.
Qed.

Lemma query_unescape_escape_byte c l :
  query_unescape_bytes (query_escape_byte c ++ l) = let? r := query_unescape_bytes l in Ok (c :: r).
Proof. by destruct c as [[] [] [] [] [] [] [] []]. Qed.

Lemma QueryUnescape_QueryEscape s : QueryUnescape (QueryEscape s) = Ok s.
Proof.
  unfold QueryUnescape, QueryEscape. rewrite bytes_of_bytes.
  assert (query_unescape_bytes (concat (query_escape_byte <$> bytes s)) = Ok (bytes s)) as ->.
  { induction (bytes s) as [|x l IH]; [done|]. cbn [fmap list_fmap concat].
    by rewrite query_unescape_escape_byte, IH. }
  simpl. by rewrite of_bytes_bytes.
Qed.

Lemma encode_pair_bytes p :
  bytes (encode_pair p) = bytes (QueryEscape p.1) ++ "="%char :: bytes (QueryEscape p.2).
Proof. unfold encode_pair. by rewrite !bytes_app. Qed.

Lemma cut_bytes_cons sep a b : sep ∉ a → cut_bytes sep (a ++ sep :: b) = Some (a, b).
Proof.
  induction a as [|c a IH]; intros Ha; simpl; [by rewrite Ascii.eqb_refl|].
  apply not_elem_of_cons in Ha as [Hc Ha]. destruct (Ascii.eqb_spec c sep); [done|]. by rewrite IH.
Qed.

Lemma parse_encode_pair m p : parse_pair m (encode_pair p) = add_value m p.1 p.2.
Proof.
  unfold parse_pair. assert (Contains (encode_pair p) ";" = false) as ->.
  { apply not_true_iff_false. intros (a & b & Heq)%Contains_spec.
    assert (";"%char ∈ bytes (encode_pair p)) as Hin by (rewrite Heq, !bytes_app; set_solver).
    rewrite encode_pair_bytes, elem_of_app, elem_of_cons in Hin.
    destruct Hin as [Hin|[[=]|Hin]]; by apply QueryEscape_no_sep in Hin. }
  rewrite bool_decide_eq_false_2.
  2: { intros Heq. apply (f_equal bytes) in Heq. rewrite encode_pair_bytes in Heq.
       by destruct (bytes (QueryEscape p.1)). }
  unfold Cut. assert (cut_bytes "=" (bytes (encode_pair p))
    = Some (bytes (QueryEscape p.1), bytes (QueryEscape p.2))) as ->.
  { rewrite encode_pair_bytes. apply cut_bytes_cons. by apply QueryEscape_no_sep. }
  by rewrite !of_bytes_bytes, !QueryUnescape_QueryEscape.
Qed.

(** Joined strings without the separator are split again. *)
Lemma split_bytes_cons_sep sep a l :
  sep ∉ a → split_bytes sep (a ++ sep :: l) = a :: split_bytes sep l.
Proof.
  induction a as [|c a IH]; intros Ha; simpl; [by rewrite Ascii.eqb_refl|].
  apply not_elem_of_cons in Ha as [Hc Ha]. destruct (Ascii.eqb_spec c sep); [done|]. by rewrite IH.
Qed.
Lemma split_bytes_single sep a : sep ∉ a → split_bytes sep a = [a].
Proof.
  induction a as [|c a IH]; intros Ha; simpl; [done|].
  apply not_elem_of_cons in Ha as [Hc Ha]. destruct (Ascii.eqb_spec c sep); [done|]. by rewrite IH.
Qed.

Lemma Split_Join l sep :
  l ≠ [] → Forall (λ s, sep ∉ bytes s) l → Split (Join l (String sep "")) sep = l.
Proof.
  intros Hne Hl. unfold Split. induction Hl as [|s l Hs Hl IH]; [done|]. destruct l as [|t l].
  - cbn [Join]. rewrite split_bytes_single by done. cbn [fmap list_fmap]. by rewrite of_bytes_bytes.
  - cbn [Join]. rewrite !bytes_app. cbn [app].
    change (bytes (String sep "")) with [sep]. cbn [app]. rewrite split_bytes_cons_sep by done.
    cbn [fmap list_fmap]. rewrite of_bytes_bytes. f_equal. by apply IH.
Qed.

(** *** The map that a list of pairs builds *)
Definition values_for (k : string) (ps : list (string * string)) : list string :=
  omap (λ p, if bool_decide (p.1 = k) then Some p.2 else None) ps.

Lemma fold_add_value ps m k :
  fold_left (λ m p, add_value m p.1 p.2) ps m !! k =
  match values_for k ps with [] => m !! k | vs => Some (default [] (m !! k) ++ vs) end.
Proof.
  revert m. induction ps as [|[k' v] ps IH]; intros m; [done|]. cbn [fold_left]. rewrite IH.
  unfold values_for. cbn [omap list_omap fst snd]. unfold add_value.
  destruct (decide (k' = k)) as [->|Hne].
  - rewrite bool_decide_eq_true_2 by done. rewrite lookup_insert_eq. simpl.
    destruct (omap _ ps); [done|]. by rewrite <-app_assoc.
  - rewrite bool_decide_eq_false_2 by done. by rewrite lookup_insert_ne.
Qed.

Lemma values_for_app k ps qs : values_for k (ps ++ qs) = values_for k ps ++ values_for k qs.
Proof. unfold values_for. by rewrite omap_app. Qed.

Lemma values_for_key k k' vs :
  values_for k ((λ v, (k', v)) <$> vs) = if bool_decide (k' = k) then vs else [].
Proof.
  unfold values_for. induction vs as [|v vs IH]; cbn [fmap list_fmap omap list_omap fst snd]; [by case_bool_decide|].
  rewrite IH. by case_bool_decide.
Qed.

Lemma values_for_pairs m k : values_for k (pairs m) = default [] (m !! k).
Proof.
  unfold pairs. assert (k ∈ keysSorted (dom m) ∨ m !! k = None) as Hk.
  { rewrite elem_of_keysSorted, elem_of_dom. destruct (m !! k); eauto. }
  assert (∀ ks, NoDup ks →
    values_for k (concat ((λ k, (λ v, (k, v)) <$> default [] (m !! k)) <$> ks))
    = if bool_decide (k ∈ ks) then default [] (m !! k) else []) as Hgen.
  { induction 1 as [|k' ks Hn _ IH]; [done|]. cbn [fmap list_fmap concat].
    rewrite values_for_app, values_for_key, IH. destruct (decide (k' = k)) as [->|Hne].
    - rewrite (bool_decide_eq_true_2 (k = k)), (bool_decide_eq_false_2 (k ∈ ks)),
        (bool_decide_eq_true_2 (k ∈ k :: ks)) by set_solver. apply app_nil_r.
    - rewrite (bool_decide_eq_false_2 (k' = k)) by done.
      by rewrite (bool_decide_ext (k ∈ k' :: ks) (k ∈ ks)) by set_solver. }
  rewrite Hgen by apply keysSorted_NoDup. case_bool_decide as Hin; [done|]. by destruct Hk as [?| ->].
Qed.

(** Values that were encoded are parsed back: every key with its values in
    order, keys without values excepted. *)
Lemma ParseQuery_Encode (m : Values) :
  map_Forall (λ _ vs, vs ≠ []) m → ParseQuery (Values_Encode m) = m.
Proof.
  intros Hm. unfold ParseQuery, Values_Encode.
  assert (∀ ps m0, fold_left parse_pair (encode_pair <$> ps) m0 = fold_left (λ m p, add_value m p.1 p.2) ps m0) as Hfold.
  { induction ps as [|p ps IH]; intros m0; [done|]. cbn [fmap list_fmap fold_left].
    by rewrite parse_encode_pair, IH. }
  assert (fold_left (λ m p, add_value m p.1 p.2) (pairs m) ∅ = m) as Heq.
  { apply map_eq. intros k. rewrite fold_add_value, values_for_pairs, lookup_empty.
    destruct (m !! k) as [vs|] eqn:Hk; [|done]. apply Hm in Hk. by destruct vs. }
  destruct (pairs m) as [|p ps] eqn:Hp; [exact Heq|]. rewrite <-Hp in *.
  rewrite (Split_Join (encode_pair <$> pairs m) "&"); [by rewrite Hfold|by rewrite Hp|].
  apply list.Forall_fmap, list.Forall_forall. intros q _. simpl. rewrite encode_pair_bytes.
  rewrite not_elem_of_app, not_elem_of_cons.
  split; [by apply QueryEscape_no_sep|split; [done|by apply QueryEscape_no_sep]].
Qed.

Lemma ParseQuery_nonempty q : map_Forall (λ _ vs, vs ≠ []) (ParseQuery q).
Proof.
  unfold ParseQuery. assert (∀ l (m : Values), map_Forall (λ _ vs, vs ≠ []) m →
    map_Forall (λ _ vs, vs ≠ []) (fold_left parse_pair l m)) as Hgen; [|apply Hgen, map_Forall_empty].
  induction l as [|x l IH]; intros m Hm; [done|]. cbn [fold_left]. apply IH. unfold parse_pair.
  destruct (Contains x ";"); [done|]. case_bool_decide; [done|]. destruct (Cut x "=") as [[k v] b].
  destruct (QueryUnescape k), (QueryUnescape v); try done. unfold add_value.
  apply map_Forall_insert_2; [|done]. by destruct (default [] (m !! a)).
Qed.
