(* ===== verification/RuntimeCfg.v ===== *)
(** * Runtime roles and capabilities: internal/runtimecfg

    [ParseRoles] and [ParseCapabilities] turn the GATEWAY_ROLE and
    GATEWAY_CAPABILITIES variables into a [Selection], which [Validate] checks.
    A Go map [map[Role][]string] is a [gmap]; a missing key reads as the nil
    slice.  The abstract specification of a good selection is
    [valid_selection]. *)

From S2P Require Import Prelude GoStrings.
Open Scope go_scope.

Module RuntimeCfg.

(** [type Role string] *)
Abbreviation Role := string.
Definition RoleREBFF : Role := "rebff".
Definition RoleStorage : Role := "storage".
Definition RoleStreaming : Role := "streaming".
Definition RoleWebSocket : Role := "websocket".

Record Selection := mkSelection {
  Roles : list Role;
  Capabilities : gmap Role (list string);
}.

Definition rebff_caps : list string :=
  ["oidc"; "session"; "token-refresh"; "csrf"; "user-context"; "api-proxy";
   "coarse-authz"; "audit"; "trace-propagation"].
Definition storage_caps : list string :=
  ["upload"; "download"; "multipart"; "presign"; "metadata"; "audit"].
Definition streaming_caps : list string :=
  ["playback"; "manifest"; "token"; "origin-select"; "audit"].
Definition websocket_caps : list string :=
  ["connect"; "publish"; "subscribe"; "presence"; "heartbeat"; "audit"].

(** [var allowed]: a set of capabilities per role *)
Definition allowed : gmap Role (gset string) :=
  list_to_map [(RoleREBFF, list_to_set rebff_caps);
               (RoleStorage, list_to_set storage_caps);
               (RoleStreaming, list_to_set streaming_caps);
               (RoleWebSocket, list_to_set websocket_caps)].

(** [var defaults]: the capabilities of a role that names none *)
Definition defaults : gmap Role (list string) :=
  list_to_map [(RoleREBFF, rebff_caps); (RoleStorage, storage_caps);
               (RoleStreaming, streaming_caps); (RoleWebSocket, websocket_caps)].

(** [allowed[role]] and [defaults[role]], nil when absent *)
Definition allowed_for (role : Role) : gset string := default ∅ (allowed !! role).
Definition defaults_for (role : Role) : list string := default [] (defaults !! role).
Definition caps_of (m : gmap Role (list string)) (role : Role) : list string :=
  default [] (m !! role).
Definition SupportedCapabilities (role : Role) : list string := keysSorted (allowed_for role).
Definition role_supported (role : Role) : bool := bool_decide (is_Some (allowed !! role)).

Section parse.
Context `{UnicodeCase}.

Definition normalize (part : string) : string := ToLower (TrimSpace part).

Fixpoint ParseRoles_loop (parts : list string) (out : list Role) : result (list Role) :=
  match parts with
  | [] => Ok out
  | part :: rest =>
      let role := normalize part in
      reject negb (role_supported role) with ErrMsg "unsupported runtime role %q" [role];;
      ParseRoles_loop rest (append_unseen out role)
  end.

Definition ParseRoles (raw : string) : result (list Role) :=
  if bool_decide (TrimSpace raw = "") then Ok [RoleREBFF] else
  let? out := ParseRoles_loop (Split raw ",") [] in
  reject bool_decide (out = []) with errorf "at least one runtime role is required";;
  Ok out.

Fixpoint parseCapList_loop (role : Role) (parts out : list string) : result (list string) :=
  match parts with
  | [] => Ok out
  | part :: rest =>
      let cap := normalize part in
      if bool_decide (cap = "") then parseCapList_loop role rest out else
      reject negb (bool_decide (cap ∈ allowed_for role))
        with ErrMsg "unsupported capability %q for role %q" [cap; role];;
      parseCapList_loop role rest (append_unseen out cap)
  end.

Definition parseCapList (role : Role) (raw : string) : result (list string) :=
  let? out := parseCapList_loop role (Split raw ",") [] in
  reject bool_decide (out = []) with ErrMsg "role %q requires at least one capability" [role];;
  Ok out.

(** [for _, group := range strings.Split(raw, ";")] *)
Fixpoint ParseCapabilities_groups (roles : list Role) (groups : list string)
    (out : gmap Role (list string)) : result (gmap Role (list string)) :=
  match groups with
  | [] => Ok out
  | group :: rest =>
      let group := TrimSpace group in
      if bool_decide (group = "") then ParseCapabilities_groups roles rest out else
      let '(before, after, found) := Cut group ":" in
      reject negb found
        with errorf "multi-role capabilities must use role:capability|capability syntax";;
      let role := normalize before in
      reject negb (bool_decide (role ∈ roles))
        with ErrMsg "capabilities configured for unselected role %q" [role];;
      let? caps := parseCapList role (ReplaceAll after "|" ",") in
      ParseCapabilities_groups roles rest (<[role := caps]> out)
  end.

(** [out[role] = append([]string(nil), defaults[role]...)] *)
Definition set_default (out : gmap Role (list string)) (role : Role) :=
  <[role := defaults_for role]> out.
Definition fill_default (out : gmap Role (list string)) (role : Role) :=
  if bool_decide (caps_of out role = []) then set_default out role else out.

Definition ParseCapabilities (roles : list Role) (raw : string)
    : result (gmap Role (list string)) :=
  if bool_decide (TrimSpace raw = "") then Ok (foldl set_default ∅ roles) else
  match roles with
  | [role] =>
      if negb (Contains raw ":") then
        let? caps := parseCapList role (ReplaceAll raw "|" ",") in
        Ok {[role := caps]}
      else
        let? out := ParseCapabilities_groups roles (Split raw ";") ∅ in
        Ok (foldl fill_default out roles)
  | _ =>
      let? out := ParseCapabilities_groups roles (Split raw ";") ∅ in
      Ok (foldl fill_default out roles)
  end.
End parse.

(** [for _, cap := range sel.Capabilities[role]] *)
Fixpoint Validate_caps (role : Role) (caps : list string) : result unit :=
  match caps with
  | [] => Ok tt
  | cap :: rest =>
      reject negb (bool_decide (cap ∈ allowed_for role))
        with ErrMsg "unsupported capability %q for role %q" [cap; role];;
      Validate_caps role rest
  end.

Fixpoint Validate_roles (m : gmap Role (list string)) (roles seen : list Role)
    : result (list Role) :=
  match roles with
  | [] => Ok seen
  | role :: rest =>
      reject negb (role_supported role) with ErrMsg "unsupported runtime role %q" [role];;
      reject bool_decide (role ∈ seen) with ErrMsg "duplicate runtime role %q" [role];;
      reject bool_decide (caps_of m role = [])
        with ErrMsg "role %q requires at least one capability" [role];;
      let? _ := Validate_caps role (caps_of m role) in
      Validate_roles m rest (seen ++ [role])
  end.

(** [for role := range sel.Capabilities]: the map's order is unspecified in Go
    and only picks the role named in the message. *)
Fixpoint Validate_keys (keys seen : list Role) : result unit :=
  match keys with
  | [] => Ok tt
  | role :: rest =>
      reject negb (bool_decide (role ∈ seen))
        with ErrMsg "capabilities configured for unselected role %q" [role];;
      Validate_keys rest seen
  end.

Definition Validate (sel : Selection) : result unit :=
  reject bool_decide (Roles sel = []) with errorf "at least one runtime role is required";;
  let? seen := Validate_roles (Capabilities sel) (Roles sel) [] in
  Validate_keys (map_to_list (Capabilities sel)).*1 seen.

Fixpoint has_role (roles : list Role) (role : Role) : bool :=
  match roles with
  | [] => false
  | r :: rest => if String.eqb r role then true else has_role rest role
  end.
Definition HasRole (s : Selection) (role : Role) : bool := has_role (Roles s) role.
Definition RoleNames (s : Selection) : list string := Roles s.

(** ** Specification *)

(** What [Validate] promises: at least one role, no role twice, every role
    known, every selected role with some capabilities, all of them known for
    that role, and no capabilities for a role that is not selected. *)
Record valid_selection (sel : Selection) : Prop := {
  vs_nonempty : Roles sel ≠ [];
  vs_nodup : NoDup (Roles sel);
  vs_supported : ∀ r, r ∈ Roles sel → is_Some (allowed !! r);
  vs_caps_nonempty : ∀ r, r ∈ Roles sel → caps_of (Capabilities sel) r ≠ [];
  vs_caps_allowed : ∀ r c, r ∈ Roles sel → c ∈ caps_of (Capabilities sel) r → c ∈ allowed_for r;
  vs_selected : ∀ r, is_Some (Capabilities sel !! r) → r ∈ Roles sel;
}.

(** ** Lemmas *)

Lemma has_role_spec roles role : has_role roles role = true ↔ role ∈ roles.
Proof.
  induction roles as [|r rest IH]; simpl; [by rewrite elem_of_nil|].
  destruct (String.eqb_spec r role) as [->|Hne]; set_solver.
Qed.

Lemma Validate_caps_ok role caps u :
  Validate_caps role caps = Ok u ↔ ∀ c, c ∈ caps → c ∈ allowed_for role.
Proof.
  induction caps as [|c caps IH]; simpl; [destruct u; split; [set_solver|done]|].
  rewrite reject_if_ok, IH, negb_false_iff, bool_decide_eq_true. set_solver.
Qed.

Lemma Validate_keys_ok keys seen u :
  Validate_keys keys seen = Ok u ↔ ∀ k, k ∈ keys → k ∈ seen.
Proof.
  induction keys as [|k keys IH]; simpl; [destruct u; split; [set_solver|done]|].
  rewrite reject_if_ok, IH, negb_false_iff, bool_decide_eq_true. set_solver.
Qed.

Lemma role_supported_spec r : role_supported r = true ↔ is_Some (allowed !! r).
Proof. apply bool_decide_eq_true. Qed.

Lemma Validate_roles_ok m roles seen seen' :
  NoDup seen →
  Validate_roles m roles seen = Ok seen' ↔
    seen' = seen ++ roles ∧ NoDup (seen ++ roles) ∧
    ∀ r, r ∈ roles → is_Some (allowed !! r) ∧ caps_of m r ≠ [] ∧
                     ∀ c, c ∈ caps_of m r → c ∈ allowed_for r.
Proof.
  revert seen; induction roles as [|r roles IH]; intros seen Hnd; simpl.
  - rewrite app_nil_r. split; [intros [=->]; repeat split; [done|..]; set_solver|].
    by intros (-> & _).
  - rewrite !reject_if_ok, result_bind_ok, negb_false_iff, role_supported_spec,
      !bool_decide_eq_false.
    split.
    + intros (Hs & Hni & Hne & [] & Hc & Hrec). rewrite Validate_caps_ok in Hc.
      apply IH in Hrec; [|apply list.NoDup_app; split; [done|];
                          split; [set_solver|apply NoDup_singleton]].
      destruct Hrec as (-> & Hnd' & Hall). rewrite <-app_assoc in *.
      split; [done|]. split; [done|]. set_solver.
    + intros (-> & Hnd' & Hall). destruct (Hall r) as (Hs & Hne & Hc); [set_solver|].
      split; [done|]. assert (r ∉ seen) as Hni.
      { apply list.NoDup_app in Hnd' as (_ & Hd & _). intros Hin. apply (Hd r Hin). set_solver. }
      split; [done|]. split; [done|]. exists tt. rewrite Validate_caps_ok.
      split; [done|]. apply IH.
      { apply list.NoDup_app. split; [done|]. split; [set_solver|apply NoDup_singleton]. }
      rewrite <-app_assoc. split; [done|]. split; [done|]. set_solver.
Qed.

Lemma elem_of_keys (m : gmap Role (list string)) r :
  r ∈ (map_to_list m).*1 ↔ is_Some (m !! r).
Proof.
  rewrite list_elem_of_fmap. split.
  - intros ([k v] & -> & Hkv%elem_of_map_to_list). by exists v.
  - intros [v Hv]. exists (r, v). split; [done|by apply elem_of_map_to_list].
Qed.

(** The entries a parser may put in the capability map. *)
Definition good_entry (roles : list Role) (r : Role) (caps : list string) : Prop :=
  r ∈ roles ∧ caps ≠ [] ∧ NoDup caps ∧ ∀ c, c ∈ caps → c ∈ allowed_for r.

Lemma supported_defaults r :
  is_Some (allowed !! r) →
  defaults_for r ≠ [] ∧ NoDup (defaults_for r) ∧ ∀ c, c ∈ defaults_for r → c ∈ allowed_for r.
Proof.
  intros [x Hx]. unfold allowed in Hx. apply elem_of_list_to_map_2 in Hx.
  rewrite !elem_of_cons, elem_of_nil in Hx.
  destruct Hx as [[= -> _]|[[= -> _]|[[= -> _]|[[= -> _]|[]]]]];
    (split; [by vm_compute|]; split; [|apply list.Forall_forall];
     apply (bool_decide_eq_true_1 _); vm_compute; reflexivity).
Qed.

Section parse_lemmas.
Context `{UnicodeCase}.

Lemma ParseRoles_loop_ok parts out out' :
  ParseRoles_loop parts out = Ok out' →
  NoDup out → (∀ r, r ∈ out → is_Some (allowed !! r)) →
  NoDup out' ∧ (∀ r, r ∈ out' → is_Some (allowed !! r)).
Proof.
  revert out; induction parts as [|p parts IH]; intros out; simpl; [intros; ok_inv; auto|].
  intros Hp Hnd Hs. ok_inv. bool_inv. apply IH in Hp; [done|by apply append_unseen_NoDup|].
  intros r [?| ->]%elem_of_append_unseen; [auto|by apply role_supported_spec].
Qed.

Lemma ParseRoles_ok raw roles :
  ParseRoles raw = Ok roles →
  roles ≠ [] ∧ NoDup roles ∧ ∀ r, r ∈ roles → is_Some (allowed !! r).
Proof.
  unfold ParseRoles. case_bool_decide; intros; ok_inv; bool_inv.
  - split; [done|]. split; [apply NoDup_singleton|].
    intros r ->%list_elem_of_singleton. apply role_supported_spec. vm_compute. reflexivity.
  - split; [done|]. eapply ParseRoles_loop_ok; [done|apply NoDup_nil_2|set_solver].
Qed.

Lemma parseCapList_loop_ok role parts out caps :
  parseCapList_loop role parts out = Ok caps →
  NoDup out → (∀ c, c ∈ out → c ∈ allowed_for role) →
  NoDup caps ∧ (∀ c, c ∈ caps → c ∈ allowed_for role) ∧
  (∀ c, c ∈ caps ↔ c ∈ out ∨ c ≠ "" ∧ ∃ p, p ∈ parts ∧ c = normalize p).
Proof.
  revert out; induction parts as [|p parts IH]; intros out; simpl.
  { intros Hp Hn Ho. ok_inv. split; [done|]. split; [done|]. set_solver. }
  case_bool_decide as Hempty; intros Hp Hn Ho.
  - apply IH in Hp as (Hc & Ha & He); [|done..]. split; [done|]. split; [done|]. intros c. rewrite He.
    setoid_rewrite elem_of_cons. naive_solver.
  - ok_inv. bool_inv. apply IH in Hp as (Hc & Ha & He).
    + split; [done|]. split; [done|]. intros c. rewrite He, elem_of_append_unseen.
      setoid_rewrite elem_of_cons. naive_solver.
    + by apply append_unseen_NoDup.
    + intros c [?| ->]%elem_of_append_unseen; auto.
Qed.

Lemma parseCapList_ok role raw caps :
  parseCapList role raw = Ok caps →
  caps ≠ [] ∧ NoDup caps ∧ (∀ c, c ∈ caps → c ∈ allowed_for role) ∧
  (∀ c, c ∈ caps ↔ c ≠ "" ∧ ∃ p, p ∈ Split raw "," ∧ c = normalize p).
Proof.
  unfold parseCapList. intros; ok_inv; bool_inv. split; [done|].
  edestruct parseCapList_loop_ok as (Hn & Ha & He); [done|apply NoDup_nil_2|set_solver|].
  split; [done|]. split; [done|].
  intros c. rewrite He. set_solver.
Qed.

Lemma ParseCapabilities_groups_ok roles groups out out' :
  ParseCapabilities_groups roles groups out = Ok out' →
  map_Forall (good_entry roles) out → map_Forall (good_entry roles) out'.
Proof.
  revert out; induction groups as [|g groups IH]; intros out; simpl; [intros; ok_inv; done|].
  case_bool_decide; [by apply IH|]. destruct (Cut _ _) as [[before after] found].
  intros Hg Hm. ok_inv. bool_inv.
  match goal with Hc : parseCapList _ _ = _ |- _ => apply parseCapList_ok in Hc as (?&?&?&?) end.
  eapply IH; [done|]. apply map_Forall_insert_2; [by repeat split|done].
Qed.

Lemma set_default_good roles out r :
  r ∈ roles → is_Some (allowed !! r) →
  map_Forall (good_entry roles) out → map_Forall (good_entry roles) (set_default out r).
Proof.
  intros Hr (? & ? & ?)%supported_defaults Hm. apply map_Forall_insert_2; [by repeat split|done].
Qed.

(** Folding either default filler over selected roles gives every role a
    good entry. *)
Lemma foldl_fill_good (f : gmap Role (list string) → Role → gmap Role (list string)) roles rs out :
  (∀ m r, f m r = set_default m r ∨ f m r = m ∧ caps_of m r ≠ []) →
  rs ⊆ roles → (∀ r, r ∈ rs → is_Some (allowed !! r)) →
  map_Forall (good_entry roles) out →
  map_Forall (good_entry roles) (foldl f out rs) ∧
  ∀ r, r ∈ rs ∨ is_Some (out !! r) → is_Some (foldl f out rs !! r).
Proof.
  intros Hf. revert out; induction rs as [|r rs IH]; intros out Hsub Hsup Hm; simpl; [set_solver|].
  assert (map_Forall (good_entry roles) (f out r) ∧ is_Some (f out r !! r) ∧
          ∀ x, is_Some (out !! x) → is_Some (f out r !! x)) as (Hm' & Hr & Hmono).
  { destruct (Hf out r) as [->|[-> Hne]].
    - split; [apply set_default_good; set_solver|]. unfold set_default.
      split; [by rewrite lookup_insert_eq|]. intros x ?. rewrite lookup_insert.
      by case_decide.
    - split; [done|]. split; [|done]. unfold caps_of in Hne. by destruct (out !! r). }
  destruct (IH (f out r)) as [Hg Hin]; [set_solver..|done|]. split; [done|].
  intros x [Hx|Hx]; apply Hin; [|by right; apply Hmono].
  apply elem_of_cons in Hx as [->|?]; auto.
Qed.

Lemma fill_default_cases m r :
  fill_default m r = set_default m r ∨ fill_default m r = m ∧ caps_of m r ≠ [].
Proof. unfold fill_default. case_bool_decide; auto. Qed.

Lemma ParseCapabilities_ok roles raw caps :
  (∀ r, r ∈ roles → is_Some (allowed !! r)) →
  ParseCapabilities roles raw = Ok caps →
  map_Forall (good_entry roles) caps ∧ ∀ r, r ∈ roles → is_Some (caps !! r).
Proof.
  intros Hsup. unfold ParseCapabilities. case_bool_decide.
  { intros; ok_inv. edestruct (foldl_fill_good set_default roles roles ∅) as [? Hin];
      [by auto|done|done|apply map_Forall_empty|]. split; [done|]. auto. }
  assert (∀ out, map_Forall (good_entry roles) out →
    map_Forall (good_entry roles) (foldl fill_default out roles) ∧
    ∀ r, r ∈ roles → is_Some (foldl fill_default out roles !! r)) as Hfill.
  { intros out Ho. edestruct (foldl_fill_good fill_default roles roles out) as [? Hin];
      [apply fill_default_cases|done|done|done|]. split; [done|]. auto. }
  repeat case_match; intros; ok_inv;
    try (apply Hfill; eapply ParseCapabilities_groups_ok; [done|apply map_Forall_empty]).
  match goal with Hc : parseCapList _ _ = _ |- _ => apply parseCapList_ok in Hc as (?&?&?&?) end.
  split.
  - apply map_Forall_singleton. repeat split; set_solver.
  - intros r ->%list_elem_of_singleton. by rewrite lookup_singleton_eq.
Qed.

(** No capability of a parsed selection is listed twice. *)
Lemma parsed_caps_NoDup rawRoles rawCaps roles caps r :
  ParseRoles rawRoles = Ok roles → ParseCapabilities roles rawCaps = Ok caps → NoDup (caps_of caps r).
Proof.
  intros (_ & _ & Hsup)%ParseRoles_ok [Hgood _]%ParseCapabilities_ok; [|done].
  unfold caps_of. destruct (caps !! r) as [cs|] eqn:Hr; [|apply NoDup_nil_2].
  by destruct (Hgood r cs Hr) as (_ & _ & Hn & _).
Qed.
End parse_lemmas.

Lemma Validate_spec sel : Validate sel = Ok tt ↔ valid_selection sel.
Proof.
  unfold Validate. rewrite reject_if_ok, result_bind_ok, bool_decide_eq_false. split.
  - intros (Hne & seen & Hr & Hk).
    apply Validate_roles_ok in Hr as (-> & Hnd & Hall); [|apply NoDup_nil_2].
    rewrite Validate_keys_ok in Hk. setoid_rewrite elem_of_keys in Hk.
    split; naive_solver.
  - intros [Hne Hnd Hs Hcn Hca Hsel]. split; [done|]. exists (Roles sel).
    rewrite Validate_roles_ok, Validate_keys_ok by apply NoDup_nil_2.
    setoid_rewrite elem_of_keys. naive_solver.
Qed.

(** ** Properties *)

(** [Validate] accepts exactly the well-formed selections: its chain of
    early returns is equivalent to the declarative [valid_selection]. *)
Theorem Validate_iff_valid_selection sel : Validate sel = Ok tt ↔ valid_selection sel.
Proof. apply Validate_spec. Qed.

(** C39: whatever the GATEWAY_ROLE and GATEWAY_CAPABILITIES strings are, a
    selection that the two parsers produce passes [Validate]: start-up cannot
    fail between parsing and validation, and nothing the parsers accept is
    outside the allowed tables. *)
Theorem parsed_selection_valid `{UnicodeCase} rawRoles rawCaps roles caps :
  ParseRoles rawRoles = Ok roles →
  ParseCapabilities roles rawCaps = Ok caps →
  Validate (mkSelection roles caps) = Ok tt.
Proof.
  intros (Hne & Hnd & Hsup)%ParseRoles_ok Hcaps.
  apply ParseCapabilities_ok in Hcaps as [Hgood Hin]; [|done].
  apply Validate_spec.
  assert (∀ r, r ∈ roles → ∃ cs, caps !! r = Some cs ∧ good_entry roles r cs) as Hentry.
  { intros r [cs Hcs]%Hin. exists cs. split; [done|by apply Hgood]. }
  split; simpl; try done; unfold caps_of.
  - intros r (cs & -> & _ & ? & _)%Hentry. done.
  - intros r c (cs & -> & _ & _ & _ & Hc)%Hentry. apply Hc.
  - intros r [cs Hcs]. by destruct (Hgood r cs Hcs).
Qed.

Lemma parsed_selection_valid_witness :
  let caps := <["storage" := ["upload"; "presign"]]> {["streaming" := ["token"]]} in
  Validate (mkSelection ["storage"; "streaming"] caps) = Ok tt.
Proof.
  apply (@parsed_selection_valid ascii_case " Storage, streaming,storage"
           "storage:upload|presign; streaming:token"); run.
Defined.

(** With one role and an explicit list, exactly the declared capabilities
    are enabled: a capability is in the result iff it is one of the listed
    names, trimmed and lower-cased; nothing is added. *)
Theorem single_role_capabilities_exact `{UnicodeCase} role raw caps :
  TrimSpace raw ≠ "" →
  Contains raw ":" = false →
  ParseCapabilities [role] raw = Ok caps →
  dom caps = {[role]} ∧
  ∀ c, c ∈ caps_of caps role ↔
       c ≠ "" ∧ ∃ p, p ∈ Split (ReplaceAll raw "|" ",") "," ∧ c = normalize p.
Proof.
  intros Hraw Hcolon. unfold ParseCapabilities. rewrite bool_decide_false, Hcolon by done.
  simpl. intros; ok_inv. split; [apply dom_singleton_L|].
  unfold caps_of. rewrite lookup_singleton_eq. by eapply parseCapList_ok.
Qed.

Lemma single_role_capabilities_exact_witness :
  dom ({["storage" := ["upload"; "presign"]]} : gmap string (list string)) = {["storage"]}.
Proof.
  apply (@single_role_capabilities_exact ascii_case "storage" "Upload|presign,upload");
    [by vm_compute|run|run].
Defined.

(** With several roles, a role that the capability string does not mention is
    given all of its default capabilities. *)
Lemma undeclared_role_gets_defaults :
  @ParseCapabilities ascii_case ["storage"; "streaming"] "storage:upload" =
    Ok (<["storage" := ["upload"]]> {["streaming" := streaming_caps]}).
Proof. run. Qed.

End RuntimeCfg.
