(* ===== verification/World.v ===== *)
(** * The process: time, data records, stores and the state monad

    The Go types of the state that the components share, the record [World] of
    everything a process mutates, and the monad [M] in which operations are
    written.

    Time is an integer number of nanoseconds since Go's zero [time.Time];
    every read of the clock, of the random source or of a remote party is an
    event, numbered by [w_tick], whose answer is an arbitrary function of that
    number (class [Env]).  Two reads of the clock in one operation may thus
    give different times, and a remote party may answer the same call
    differently each time. *)

From Stdlib Require SpecFloat.
From S2P Require Import Prelude GoStrings.
Open Scope Z_scope.

(** ** time.Time and time.Duration *)

Abbreviation Time := Z.
Abbreviation Duration := Z.

Definition Second : Duration := 10 ^ 9.
Definition Minute : Duration := 60 * Second.
Definition Hour : Duration := 60 * Minute.
Definition Millisecond : Duration := 10 ^ 6.

Definition zero_time : Time := 0.
Definition IsZero (t : Time) : bool := t =? 0.
Definition After (t u : Time) : bool := u <? t.
Definition Add (t : Time) (d : Duration) : Time := t + d.
(** [t.Sub(u)] saturates at the limits of int64. *)
Definition Sub (t u : Time) : Duration := Z.max int64_min (Z.min int64_max (t - u)).
(** Seconds between year 1 and 1970. *)
Definition unix_epoch : Z := 62135596800.
Definition Unix (t : Time) : Z := t / Second - unix_epoch.
(** [Time.UnixNano], as int64 *)
Definition UnixNano (t : Time) : Z := int64_wrap (t - unix_epoch * Second).
Definition unix_time (sec : Z) : Time := (sec + unix_epoch) * Second.

Lemma Sub_lt t u d : is_int64 d → Sub t u < d → t - u < d.
Proof. unfold is_int64, Sub, int64_min, int64_max. lia. Qed.
Lemma Sub_ge t u d : is_int64 d → d ≤ Sub t u → d ≤ t - u ∨ d = int64_min.
Proof. unfold is_int64, Sub, int64_min, int64_max. lia. Qed.
Lemma Unix_unix_time s : Unix (unix_time s) = s.
Proof. unfold Unix, unix_time, Second. rewrite Z.div_mul by lia. lia. Qed.

(** ** Data *)

(** internal/session/store.go *)
Record Session := mkSession {
  ses_ID : string;
  ses_Subject : string;
  ses_Issuer : string;
  ses_Username : string;
  ses_DisplayName : string;
  ses_Email : string;
  ses_Roles : list string;
  ses_CreatedAt : Time;
  ses_ExpiresAt : Time;
  ses_LastSeen : Time;
}.

(** internal/token/store.go, memory.go *)
Record TokenSet := mkTokenSet {
  tok_AccessToken : string;
  tok_RefreshToken : string;
  tok_IDToken : string;
  tok_ExpiryUnix : Z;
}.
Record TokenEntry := mkTokenEntry {
  te_Set : TokenSet;
  te_ExpiresAt : Time;
}.

(** internal/auth/flow_store.go *)
Record Flow := mkFlow {
  flow_State : string;
  flow_Nonce : string;
  flow_CodeVerifier : string;
  flow_ReturnTo : string;
  flow_ExpiresAt : Time;
}.

(** internal/cache/memory.go *)
Record CacheEntry := mkCacheEntry {
  ce_Data : string;
  ce_ExpiresAt : Time;
}.

(** internal/audit/audit.go *)
Record Event := mkEvent {
  ev_ID : string;
  ev_OccurredAt : Time;
  ev_Actor : string;
  ev_ActorUsername : string;
  ev_ClientIP : string;
  ev_ClientIPSource : string;
  ev_CFRay : string;
  ev_Action : string;
  ev_Target : string;
  ev_ResourceID : string;
  ev_Outcome : string;
  ev_HTTPStatus : Z;
  ev_CorrelationID : string;
  ev_TraceID : string;
  ev_Attributes : gmap string string;
}.

(** Calls of the metrics recorder (internal/observability), in order. *)
Inductive Metric :=
  | RecordAuth (outcome : string)
  | RecordAuthorization (outcome permission : string)
  | RecordRejected (reason : string)
  | RecordOutboundRejected (service reason : string)
  | RecordOutbound (service method outcome : string) (d : Duration)
  | RecordHTTPRequest (method route : string) (status : Z) (d : Duration)
  | AddInflight (delta : Z).

(** ** The buckets of a rate limiter (middleware/rate_limit.go) *)
Record rateBucket := mkBucket {
  rb_tokens : SpecFloat.spec_float;
  rb_last : Time;
}.
(** The variables captured by the handler. *)
Record Limiter := mkLimiter {
  buckets : gmap string rateBucket;
  lastSweep : Time;
}.
Definition new_limiter : Limiter := mkLimiter ∅ 0.

(** ** The circuit breaker of an outbound client (internal/outbound/protected.go) *)
Record breaker := mkBreaker {
  failures : Z;
  openedAt : Time;
  halfOpen : bool;
}.

(** ** Log records: calls of slog.Info, with the values of the attributes *)
Inductive logval :=
  | LStr (s : string)
  | LInt (n : Z)
  | LTime (t : Time)
  | LMap (m : gmap string string)
  (** map[string]any with strings and numbers *)
  | LAny (m : list (string * (string + Z))).
Record LogRecord := mkLogRecord {
  log_Message : string;
  log_Attrs : list (string * logval);
}.

#[export] Instance Session_eq_dec : EqDecision Session.
Proof. solve_decision. Defined.
#[export] Instance TokenSet_eq_dec : EqDecision TokenSet.
Proof. solve_decision. Defined.
#[export] Instance Flow_eq_dec : EqDecision Flow.
Proof. solve_decision. Defined.

(** ** The process state *)

Record World := mkWorld {
  w_flows : gmap string Flow;
  w_sessions : gmap string Session;
  w_tokens : gmap string TokenEntry;
  w_cache : gmap string CacheEntry;
  (** semaphores of token.MemoryLocker that are taken *)
  w_locks : gset string;
  w_audit : list Event;
  w_metrics : list Metric;
  (** refresh tokens presented to the identity provider, in order *)
  w_refreshes : list string;
  (** what was written to the Redis server and has not been seen to be gone, with
      the time at which the server may drop it *)
  w_redis : gmap string (string * option Time);
  w_logs : list LogRecord;
  (** the variables of the rate limiters, by the reason they give for a refusal *)
  w_limiters : gmap string Limiter;
  (** elements in the channel of the concurrency limit *)
  w_sem : Z;
  (** the breakers of the protected clients and the slots that other calls hold, by
      the name of the service *)
  w_breakers : gmap string (breaker * Z);
  w_tick : nat;
}.

Definition empty_world : World := mkWorld ∅ ∅ ∅ ∅ ∅ [] [] [] ∅ [] ∅ 0 ∅ 0.

Definition set_flows (f : gmap string Flow → gmap string Flow) (w : World) : World :=
  mkWorld (f (w_flows w)) (w_sessions w) (w_tokens w) (w_cache w) (w_locks w)
    (w_audit w) (w_metrics w) (w_refreshes w) (w_redis w) (w_logs w) (w_limiters w) (w_sem w) (w_breakers w) (w_tick w).
Definition set_sessions (f : gmap string Session → gmap string Session) (w : World) : World :=
  mkWorld (w_flows w) (f (w_sessions w)) (w_tokens w) (w_cache w) (w_locks w)
    (w_audit w) (w_metrics w) (w_refreshes w) (w_redis w) (w_logs w) (w_limiters w) (w_sem w) (w_breakers w) (w_tick w).
Definition set_tokens (f : gmap string TokenEntry → gmap string TokenEntry) (w : World) : World :=
  mkWorld (w_flows w) (w_sessions w) (f (w_tokens w)) (w_cache w) (w_locks w)
    (w_audit w) (w_metrics w) (w_refreshes w) (w_redis w) (w_logs w) (w_limiters w) (w_sem w) (w_breakers w) (w_tick w).
Definition set_cache (f : gmap string CacheEntry → gmap string CacheEntry) (w : World) : World :=
  mkWorld (w_flows w) (w_sessions w) (w_tokens w) (f (w_cache w)) (w_locks w)
    (w_audit w) (w_metrics w) (w_refreshes w) (w_redis w) (w_logs w) (w_limiters w) (w_sem w) (w_breakers w) (w_tick w).
Definition set_locks (f : gset string → gset string) (w : World) : World :=
  mkWorld (w_flows w) (w_sessions w) (w_tokens w) (w_cache w) (f (w_locks w))
    (w_audit w) (w_metrics w) (w_refreshes w) (w_redis w) (w_logs w) (w_limiters w) (w_sem w) (w_breakers w) (w_tick w).
Definition add_audit (e : Event) (w : World) : World :=
  mkWorld (w_flows w) (w_sessions w) (w_tokens w) (w_cache w) (w_locks w) (w_audit w ++ [e]) (w_metrics w) (w_refreshes w) (w_redis w) (w_logs w) (w_limiters w) (w_sem w) (w_breakers w) (w_tick w).
Definition add_metric (m : Metric) (w : World) : World :=
  mkWorld (w_flows w) (w_sessions w) (w_tokens w) (w_cache w) (w_locks w) (w_audit w) (w_metrics w ++ [m]) (w_refreshes w) (w_redis w) (w_logs w) (w_limiters w) (w_sem w) (w_breakers w) (w_tick w).
Definition add_refresh (t : string) (w : World) : World :=
  mkWorld (w_flows w) (w_sessions w) (w_tokens w) (w_cache w) (w_locks w) (w_audit w) (w_metrics w) (w_refreshes w ++ [t]) (w_redis w) (w_logs w) (w_limiters w) (w_sem w) (w_breakers w) (w_tick w).
Definition set_redis (f : gmap string (string * option Time) → gmap string (string * option Time)) (w : World) : World :=
  mkWorld (w_flows w) (w_sessions w) (w_tokens w) (w_cache w) (w_locks w) (w_audit w) (w_metrics w) (w_refreshes w)
    (f (w_redis w)) (w_logs w) (w_limiters w) (w_sem w) (w_breakers w) (w_tick w).
Definition add_log (r : LogRecord) (w : World) : World :=
  mkWorld (w_flows w) (w_sessions w) (w_tokens w) (w_cache w) (w_locks w) (w_audit w) (w_metrics w) (w_refreshes w)
    (w_redis w) (w_logs w ++ [r]) (w_limiters w) (w_sem w) (w_breakers w) (w_tick w).
Definition set_limiters (f : gmap string Limiter → gmap string Limiter) (w : World) : World :=
  mkWorld (w_flows w) (w_sessions w) (w_tokens w) (w_cache w) (w_locks w) (w_audit w) (w_metrics w) (w_refreshes w)
    (w_redis w) (w_logs w) (f (w_limiters w)) (w_sem w) (w_breakers w) (w_tick w).
Definition set_sem (f : Z → Z) (w : World) : World :=
  mkWorld (w_flows w) (w_sessions w) (w_tokens w) (w_cache w) (w_locks w) (w_audit w) (w_metrics w) (w_refreshes w)
    (w_redis w) (w_logs w) (w_limiters w) (f (w_sem w)) (w_breakers w) (w_tick w).
Definition set_breakers (f : gmap string (breaker * Z) → gmap string (breaker * Z)) (w : World) : World :=
  mkWorld (w_flows w) (w_sessions w) (w_tokens w) (w_cache w) (w_locks w) (w_audit w) (w_metrics w) (w_refreshes w)
    (w_redis w) (w_logs w) (w_limiters w) (w_sem w) (f (w_breakers w)) (w_tick w).
Definition tick (w : World) : World :=
  mkWorld (w_flows w) (w_sessions w) (w_tokens w) (w_cache w) (w_locks w) (w_audit w) (w_metrics w) (w_refreshes w) (w_redis w) (w_logs w) (w_limiters w) (w_sem w) (w_breakers w) (S (w_tick w)).

(** ** The monad of stateful operations *)

Definition M (A : Type) : Type := World → A * World.

Definition ret {A} (a : A) : M A := λ w, (a, w).
Definition bind {A B} (m : M A) (k : A → M B) : M B := λ w, let '(a, w') := m w in k a w'.
Definition modify (f : World → World) : M unit := λ w, (tt, f w).
Definition gets {A} (f : World → A) : M A := λ w, (f w, w).

(** [do x := m in k] runs [m]; [try x := m in k] also returns early on an error. *)
Definition bind_ok {A B} (m : M (result A)) (k : A → M (result B)) : M (result B) :=
  bind m (λ r, match r with Ok a => k a | Err e => ret (Err e) end).

Notation "'do' x ':=' m 'in' k" := (bind m (fun x => k))
  (at level 10, x pattern, m at level 99, k at level 200) : go_scope.
Notation "'try' x ':=' m 'in' k" := (bind_ok m (fun x => k))
  (at level 10, x pattern, m at level 99, k at level 200) : go_scope.
Open Scope go_scope.

(** ** The environment *)

Class Env := {
  (** successive readings of [time.Now] *)
  clock : nat → Time;
  (** [rand.Read] of [n] bytes: the bytes, or an error *)
  rand_read : nat → nat → result (list ascii);
  (** [sha256.Sum256] *)
  sha256 : string → list ascii;
}.

Section env.
Context `{Env}.

(** An interaction with the outside: the answer depends on the event number. *)
Definition oracle {A} (f : nat → A) : M A := λ w, (f (w_tick w), tick w).
Definition now : M Time := oracle clock.
Definition rand (n : nat) : M (result (list ascii)) := oracle (λ i, rand_read i n).

(** The clock never goes back. *)
Definition monotone_clock : Prop := ∀ i j : nat, (i ≤ j)%nat → clock i ≤ clock j.
End env.

(** ** Encodings of random bytes *)

Definition hex_digit (n : N) : ascii :=
  ascii_of_N (if (n <? 10)%N then 48 + n else 87 + n)%N.
(** [hex.EncodeToString] *)
Definition hex_encode (l : list ascii) : string :=
  of_bytes (concat ((λ c, [hex_digit (N_of_ascii c / 16)%N; hex_digit (N_of_ascii c `mod` 16)%N]) <$> l)).

Definition base64_digit (n : N) : ascii :=
  ascii_of_N (if n <? 26 then 65 + n else if n <? 52 then 71 + n
              else if n <? 62 then n - 4 else if n =? 62 then 45 else 95)%N.
(** [base64.RawURLEncoding.EncodeToString]: no padding, '-' and '_'. *)
Fixpoint base64_bytes (l : list ascii) : list ascii :=
  match l with
  | a :: b :: c :: l' =>
      let n := (N_of_ascii a * 65536 + N_of_ascii b * 256 + N_of_ascii c)%N in
      base64_digit (n / 262144)%N :: base64_digit ((n / 4096) `mod` 64)%N
        :: base64_digit ((n / 64) `mod` 64)%N :: base64_digit (n `mod` 64)%N :: base64_bytes l'
  | [a; b] =>
      let n := (N_of_ascii a * 1024 + N_of_ascii b * 4)%N in
      [base64_digit (n / 4096)%N; base64_digit ((n / 64) `mod` 64)%N; base64_digit (n `mod` 64)%N]
  | [a] =>
      let n := (N_of_ascii a * 16)%N in
      [base64_digit (n / 64)%N; base64_digit (n `mod` 64)%N]
  | [] => []
  end.
Definition base64url (l : list ascii) : string := of_bytes (base64_bytes l).

Example base64url_example : base64url (bytes "hello??>") = "aGVsbG8_Pz4".
Proof. reflexivity. Qed.
Example hex_example : hex_encode (bytes "Az~") = "417a7e".
Proof. reflexivity. Qed.

(** The encodings never produce the empty string from a non-empty input. *)
Lemma base64url_nonempty l : l ≠ [] → base64url l ≠ "".
Proof. by destruct l as [|a [|b [|c l]]]. Qed.

(** ** Reasoning about [M] *)

Lemma bind_inv {A B} (m : M A) (k : A → M B) w r :
  bind m k w = r → ∃ a w', m w = (a, w') ∧ k a w' = r.
Proof. unfold bind. destruct (m w) as [a w'] eqn:E. eauto. Qed.

Lemma bind_ok_inv {A B} (m : M (result A)) (k : A → M (result B)) w r w' :
  bind_ok m k w = (r, w') →
  (∃ e, m w = (Err e, w') ∧ r = Err e) ∨ ∃ a w1, m w = (Ok a, w1) ∧ k a w1 = (r, w').
Proof.
  unfold bind_ok, bind, ret. destruct (m w) as [[a|e] w1] eqn:E; [by eauto|].
  intros [= <- <-]. eauto.
Qed.

(** Decompose runs of monadic code in the hypotheses. *)
Ltac m_inv :=
  repeat match goal with
  | H : bind _ _ _ = _ |- _ =>
      apply bind_inv in H; destruct H as (? & ? & ? & H)
  | H : ret _ _ = _ |- _ => unfold ret in H
  | H : modify _ _ = _ |- _ => unfold modify in H
  | H : gets _ _ = _ |- _ => unfold gets in H
  | H : oracle _ _ = _ |- _ => unfold oracle in H
  | H : now _ = _ |- _ => unfold now in H
  | H : rand _ _ = _ |- _ => unfold rand in H
  | H : (_, _) = (_, _) |- _ => injection H as ? ?
  end; simplify_eq/=.

(** ** Frame reasoning

    [Keeps R c]: the computation [c] takes every world to a world related by
    [R].  With [R] a preorder the lemmas below decompose any operation; frames
    ("[c] does not change the field [f]") and monotonicity of the event counter
    are instances. *)
Definition Keeps {A} (R : relation World) (c : M A) : Prop := ∀ w, R w (c w).2.

(** Worlds with the same [f]. *)
Definition same {T} (f : World → T) : relation World := λ w w', f w' = f w.
(** Time does not go back. *)
Definition later : relation World := λ w w', (w_tick w ≤ w_tick w')%nat.

#[export] Instance same_preorder {T} (f : World → T) : PreOrder (same f).
Proof. split; [by intros w|]. intros w1 w2 w3. unfold same. congruence. Qed.
#[export] Instance later_preorder : PreOrder later.
Proof. split; unfold later; [intros w; lia|]. intros w1 w2 w3. lia. Qed.

Section keeps.
Context (R : relation World) `{!PreOrder R}.

Lemma keeps_ret {A} (a : A) : Keeps R (ret a).
Proof. intros w. simpl. reflexivity. Qed.
Lemma keeps_gets {A} (f : World → A) : Keeps R (gets f).
Proof. intros w. simpl. reflexivity. Qed.
Lemma keeps_bind {A B} (c : M A) (k : A → M B) :
  Keeps R c → (∀ a, Keeps R (k a)) → Keeps R (bind c k).
Proof.
  intros Hc Hk w. unfold bind. specialize (Hc w). destruct (c w) as [a w1]. simpl in Hc.
  etransitivity; [done|apply Hk].
Qed.
Lemma keeps_bind_ok {A B} (c : M (result A)) (k : A → M (result B)) :
  Keeps R c → (∀ a, Keeps R (k a)) → Keeps R (bind_ok c k).
Proof. intros Hc Hk. apply keeps_bind; [done|]. intros [a|e]; [done|apply keeps_ret]. Qed.
Lemma keeps_modify g : (∀ w, R w (g w)) → Keeps R (modify g).
Proof. intros Hg w. exact (Hg w). Qed.
Lemma keeps_oracle {A} (f : nat → A) : (∀ w, R w (tick w)) → Keeps R (oracle f).
Proof. intros Hg w. exact (Hg w). Qed.
Lemma keeps_run {A} (c : M A) w a w' : Keeps R c → c w = (a, w') → R w w'.
Proof. intros Hc Hr. specialize (Hc w). by rewrite Hr in Hc. Qed.
End keeps.
Create HintDb keeps.
#[export] Hint Resolve keeps_ret keeps_gets : keeps.

(** Decompose the code of an operation; leaves the primitive steps. *)
Ltac keeps :=
  repeat first
    [ done
    | apply keeps_ret; apply _ | apply keeps_gets; apply _
    | apply keeps_bind; [apply _| |intros ?]
    | apply keeps_bind_ok; [apply _| |intros ?]
    | apply keeps_modify; intros ?; done
    | apply keeps_oracle; intros ?; unfold later, tick; simpl; solve [done|lia]
    | progress unfold now, rand
    | progress cbn beta iota
    | solve [eauto with keeps]
    | case_match ].

(** ** A concrete environment, for examples

    The clock ticks once a second from 2023-11-14; random bytes repeat the event
    number; the digest is the input itself. *)
Definition sample_env : Env := {|
  clock i := unix_time (1700000000 + Z.of_nat i);
  rand_read i n := Ok (replicate n (ascii_of_nat i));
  sha256 s := bytes s;
|}.

Lemma sample_clock_nonzero i : @clock sample_env i ≠ 0.
Proof. simpl. unfold unix_time, unix_epoch, Second. lia. Qed.

Lemma sample_clock_monotone : @monotone_clock sample_env.
Proof. intros i j Hij. simpl. unfold unix_time, unix_epoch, Second. lia. Qed.

(** ** Ranging over a map *)

(** The keys of a map in the order in which [range] visits them. *)
Class RangeOrder := {
  range_keys : ∀ {A}, gmap string A → list string;
  range_keys_spec : ∀ A (m : gmap string A) k, k ∈ range_keys m ↔ is_Some (m !! k);
  range_keys_once : ∀ A (m : gmap string A), NoDup (range_keys m);
}.
Definition range_entries `{RangeOrder} {A} (m : gmap string A) : list (string * A) :=
  omap (λ k, pair k <$> m !! k) (range_keys m).

Lemma sample_order_spec A (m : gmap string A) k : k ∈ (map_to_list m).*1 ↔ is_Some (m !! k).
Proof.
  rewrite list_elem_of_fmap. split.
  - intros ([k' v] & -> & Hv%elem_of_map_to_list). by eexists.
  - intros [v Hv]. exists (k, v). by rewrite elem_of_map_to_list.
Qed.
Definition sample_order : RangeOrder := {|
  range_keys A m := (map_to_list m).*1;
  range_keys_spec := sample_order_spec;
  range_keys_once A m := NoDup_fst_map_to_list m;
|}.
