(* ===== verification/GoNumbers.v ===== *)
(** * Numbers as text: strconv, time.Duration, float64

    What the program uses of [strconv] ([ParseInt], [Atoi], [ParseBool] and their
    inverses), of [time] ([ParseDuration], [Duration.String]) and of IEEE 754
    double precision (the Standard Library's [spec_float] with 53 bits of
    precision).  The conversion between decimal text and float64 is the class
    [FloatText]. *)

From Stdlib Require Import SpecFloat.
From S2P Require Import Prelude GoStrings GoURL World.
Open Scope Z_scope.

(** ** Decimal integers *)

Fixpoint parse_digits (acc : Z) (l : list ascii) : option Z :=
  match l with
  | [] => Some acc
  | c :: l => if is_digit c then parse_digits (10 * acc + (byte c - 48)) l else None
  end.

(** [strconv.ParseInt(s, 10, 64)]; [strconv.Atoi] is the same on a 64-bit machine. *)
Definition ParseInt (s : string) : result Z :=
  let '(neg, digits) := match bytes s with
                        | "-"%char :: l => (true, l)
                        | "+"%char :: l => (false, l)
                        | l => (false, l)
                        end in
  match digits, parse_digits 0 digits with
  | _ :: _, Some n =>
      let n := if (neg : bool) then - n else n in
      reject (n <? int64_min) || (int64_max <? n) with errorf "value out of range";; Ok n
  | _, _ => Err (errorf "invalid syntax")
  end.
Definition Atoi (s : string) : result Z := ParseInt s.

Definition digit (n : Z) : ascii := ascii_of_N (Z.to_N (48 + n)).

(** The decimal digits of [n], in front of [acc]; [fuel] bounds their number. *)
Fixpoint format_digits (fuel : nat) (n : Z) (acc : list ascii) : list ascii :=
  match fuel with
  | O => acc
  | S fuel =>
      let acc := digit (n mod 10) :: acc in
      if n <? 10 then acc else format_digits fuel (n / 10) acc
  end.
Definition format_nat (n : Z) : list ascii := format_digits (S (Z.to_nat (Z.log2 n))) n [].

(** [strconv.FormatInt(n, 10)], [strconv.Itoa] *)
Definition FormatInt (n : Z) : string :=
  of_bytes (if n <? 0 then "-"%char :: format_nat (- n) else format_nat n).
Definition Itoa (n : Z) : string := FormatInt n.

Lemma digit_props d : 0 ≤ d < 10 → is_digit (digit d) = true ∧ byte (digit d) - 48 = d.
Proof.
  intros Hd. assert (d = 0 ∨ d = 1 ∨ d = 2 ∨ d = 3 ∨ d = 4 ∨ d = 5 ∨ d = 6 ∨ d = 7 ∨ d = 8 ∨ d = 9) as Hc by lia.
  by repeat (destruct Hc as [->|Hc]; [by vm_compute|]); subst.
Qed.

Lemma parse_digits_app acc l k :
  parse_digits acc (l ++ k) = match parse_digits acc l with Some a => parse_digits a k | None => None end.
Proof. revert acc; induction l as [|c l IH]; intros acc; simpl; [done|]. by destruct (is_digit c). Qed.

Lemma format_digits_spec fuel n acc :
  (0 < fuel)%nat → 0 ≤ n < 2 ^ Z.of_nat fuel →
  ∃ c l, format_digits fuel n acc = c :: l ++ acc ∧ is_digit c = true ∧ parse_digits 0 (c :: l) = Some n.
Proof.
  revert n acc; induction fuel as [|fuel IH]; intros n acc Hf Hn; [lia|]. cbn [format_digits].
  pose proof (Z.mod_pos_bound n 10 ltac:(lia)). destruct (digit_props (n mod 10)) as [Hd Hv]; [lia|].
  destruct (n <? 10) eqn:Hlt; bool_inv.
  - exists (digit (n mod 10)), []. split; [done|]. split; [done|].
    cbn [parse_digits]. rewrite Hd, Hv, Z.mod_small; [f_equal|]; lia.
  - rewrite Nat2Z.inj_succ, Z.pow_succ_r in Hn by lia.
    pose proof (Z.div_mod n 10 ltac:(lia)).
    destruct (IH (n / 10) (digit (n mod 10) :: acc)) as (c & l & -> & Hc & Hp).
    + destruct fuel; [simpl in Hn; lia|lia].
    + split; [apply Z.div_pos; lia|lia].
    + exists c, (l ++ [digit (n mod 10)]). split; [by rewrite <-app_assoc|]. split; [done|].
      change (c :: l ++ ?k) with ((c :: l) ++ k). rewrite parse_digits_app, Hp.
      cbn [parse_digits]. rewrite Hd, Hv. f_equal. lia.
Qed.

Lemma format_nat_spec n :
  0 ≤ n → ∃ c l, format_nat n = c :: l ∧ is_digit c = true ∧ parse_digits 0 (c :: l) = Some n.
Proof.
  intros Hn. unfold format_nat.
  destruct (format_digits_spec (S (Z.to_nat (Z.log2 n))) n []) as (c & l & -> & Hc & Hp); [lia| |].
  - split; [done|]. rewrite Nat2Z.inj_succ, Z2Nat.id by apply Z.log2_nonneg.
    destruct (decide (n = 0)) as [->|]; [done|]. apply Z.log2_spec. lia.
  - exists c, l. by rewrite app_nil_r.
Qed.

(** The defaults of the configuration are written with [FormatInt] and read back
    with [ParseInt]. *)
Lemma ParseInt_FormatInt n : is_int64 n → ParseInt (FormatInt n) = Ok n.
Proof.
  intros Hn. assert (∀ m, m = n → (reject (m <? int64_min) || (int64_max <? m)
    with errorf "value out of range";; Ok m)%go = Ok n) as Hok.
  { intros m ->. unfold is_int64 in Hn. apply reject_if_ok. split; [|done].
    apply orb_false_iff. rewrite !Z.ltb_ge. lia. }
  unfold ParseInt, FormatInt. rewrite bytes_of_bytes. destruct (n <? 0) eqn:Hs; bool_inv.
  - destruct (format_nat_spec (- n)) as (c & l & -> & _ & ->); [lia|]. apply Hok. lia.
  - destruct (format_nat_spec n) as (c & l & -> & Hc & Hp); [lia|].
    assert (c ≠ "-"%char ∧ c ≠ "+"%char) as [Hm Hpl] by (split; intros ->; done).
    destruct c as [[] [] [] [] [] [] [] []]; try done; rewrite Hp; by apply Hok.
Qed.

(** ** Booleans *)

Definition ParseBool (s : string) : result bool :=
  if bool_decide (s ∈ ["1"; "t"; "T"; "TRUE"; "true"; "True"]) then Ok true
  else if bool_decide (s ∈ ["0"; "f"; "F"; "FALSE"; "false"; "False"]) then Ok false
  else Err (errorf "invalid syntax").
Definition FormatBool (b : bool) : string := if b then "true" else "false".

(** ** float64 *)

Abbreviation float64 := spec_float.
(** [float64(n)] of an integer *)
Definition f64_of_Z (n : Z) : float64 := binary_normalize 53 1024 n 0 false.
Definition f64_add : float64 → float64 → float64 := SFadd 53 1024.
Definition f64_sub : float64 → float64 → float64 := SFsub 53 1024.
Definition f64_mul : float64 → float64 → float64 := SFmul 53 1024.
Definition f64_div : float64 → float64 → float64 := SFdiv 53 1024.
Definition f64_lt : float64 → float64 → bool := SFltb.
Definition f64_le : float64 → float64 → bool := SFleb.
(** [uint64(f)] of a non-negative finite number below 2^64 *)
Definition f64_trunc (f : float64) : Z :=
  match f with
  | S754_finite false m e => Z.shiftl (Z.pos m) e
  | _ => 0
  end.

(** [Duration.Seconds] *)
Definition Seconds (d : Duration) : float64 :=
  f64_add (f64_of_Z (Z.quot d Second)) (f64_div (f64_of_Z (Z.rem d Second)) (f64_of_Z (10 ^ 9))).

(** [strconv.ParseFloat(s, 64)] and [strconv.FormatFloat(f, 'g', -1, 64)] *)
Class FloatText := {
  ParseFloat : string → result float64;
  FormatFloat : float64 → string;
}.

(** ** time.Duration as text *)

Definition Microsecond : Duration := 1000.

(** [fmtFrac]: the last [prec] digits of [v] as a fraction without trailing
    zeros, and the rest of [v]. *)
Fixpoint fmtFrac (p : nat) (v : Z) (printed : bool) (acc : list ascii) : list ascii * Z :=
  match p with
  | O => (if printed then "."%char :: acc else acc, v)
  | S p =>
      let d := v mod 10 in
      let printed := printed || negb (d =? 0) in
      fmtFrac p (v / 10) printed (if printed then digit d :: acc else acc)
  end.

(** [Duration.String] *)
Definition Duration_String (d : Duration) : string :=
  let u := Z.abs d in
  let body :=
    if u =? 0 then bytes "0s" else
    if u <? Second then
      let '(p, suffix) :=
        if u <? Microsecond then (0%nat, bytes "ns")
        else if u <? Millisecond then (3%nat, [ascii_of_N 0xC2; ascii_of_N 0xB5; "s"%char])
        else (6%nat, bytes "ms") in
      let '(frac, u) := fmtFrac p u false suffix in
      format_nat u ++ frac
    else
      let '(frac, u) := fmtFrac 9 u false (bytes "s") in
      let seconds := format_nat (u mod 60) ++ frac in
      let u := u / 60 in
      if u <=? 0 then seconds else
      let minutes := format_nat (u mod 60) ++ "m"%char :: seconds in
      let u := u / 60 in
      if u <=? 0 then minutes else format_nat u ++ "h"%char :: minutes in
  of_bytes (if d <? 0 then "-"%char :: body else body).

Definition unit_of (u : string) : option Z :=
  if bool_decide (u = "ns") then Some 1
  else if bool_decide (u = "us") then Some Microsecond
  else if bool_decide (u = of_bytes [ascii_of_N 0xC2; ascii_of_N 0xB5; "s"%char]) then Some Microsecond
  else if bool_decide (u = of_bytes [ascii_of_N 0xCE; ascii_of_N 0xBC; "s"%char]) then Some Microsecond
  else if bool_decide (u = "ms") then Some Millisecond
  else if bool_decide (u = "s") then Some Second
  else if bool_decide (u = "m") then Some Minute
  else if bool_decide (u = "h") then Some Hour
  else None.

Definition invalid_duration : goerr := errorf "time: invalid duration".

(** [leadingInt]: a run of digits up to 2^63. *)
Fixpoint leadingInt (x : Z) (l : list ascii) : result (Z * list ascii) :=
  match l with
  | c :: l' =>
      if is_digit c then
        if 2 ^ 63 / 10 <? x then Err invalid_duration else
        let x := x * 10 + (byte c - 48) in
        if 2 ^ 63 <? x then Err invalid_duration else leadingInt x l'
      else Ok (x, l)
  | [] => Ok (x, [])
  end.

(** [leadingFraction]: digits that no longer fit are skipped. *)
Fixpoint leadingFraction (x : Z) (scale : float64) (overflow : bool) (l : list ascii)
    : Z * float64 * list ascii :=
  match l with
  | c :: l' =>
      if is_digit c then
        if overflow || ((2 ^ 63 - 1) / 10 <? x) then leadingFraction x scale true l' else
        let y := x * 10 + (byte c - 48) in
        if 2 ^ 63 <? y then leadingFraction x scale true l'
        else leadingFraction y (f64_mul scale (f64_of_Z 10)) false l'
      else (x, scale, l)
  | [] => (x, scale, [])
  end.

(** The bytes up to the next digit or point. *)
Fixpoint leadingUnit (l : list ascii) : list ascii * list ascii :=
  match l with
  | c :: l' =>
      if is_digit c || Ascii.eqb c "." then ([], l)
      else let '(u, r) := leadingUnit l' in (c :: u, r)
  | [] => ([], [])
  end.

(** One term of a duration: its nanoseconds and the rest of the text. *)
Definition duration_term (l : list ascii) : result (Z * list ascii) :=
  reject match l with c :: _ => negb (Ascii.eqb c "." || is_digit c) | [] => true end
    with invalid_duration;;
  let? (v, l1) := leadingInt 0 l in
  let pre := negb (length l1 =? length l)%nat in
  let '(f, scale, l2, post) :=
    match l1 with
    | "."%char :: l1 =>
        let '(f, scale, l2) := leadingFraction 0 (f64_of_Z 1) false l1 in
        (f, scale, l2, negb (length l2 =? length l1)%nat)
    | _ => (0, f64_of_Z 1, l1, false)
    end in
  reject negb pre && negb post with invalid_duration;;
  let '(u, rest) := leadingUnit l2 in
  reject bool_decide (u = []) with errorf "time: missing unit in duration";;
  match unit_of (of_bytes u) with
  | None => Err (errorf "time: unknown unit in duration")
  | Some unit =>
      reject 2 ^ 63 / unit <? v with invalid_duration;;
      let v := v * unit in
      let v := if 0 <? f
               then v + f64_trunc (f64_mul (f64_of_Z f) (f64_div (f64_of_Z unit) scale)) else v in
      reject 2 ^ 63 <? v with invalid_duration;;
      Ok (v, rest)
  end.

(** The loop of [ParseDuration]: every term consumes its unit, so the length of
    the text is enough fuel. *)
Fixpoint duration_terms (fuel : nat) (d : Z) (l : list ascii) : result Z :=
  match l, fuel with
  | [], _ => Ok d
  | _, O => Err invalid_duration
  | _, S fuel =>
      let? (v, rest) := duration_term l in
      let d := d + v in
      reject 2 ^ 63 <? d with invalid_duration;;
      duration_terms fuel d rest
  end.

Definition ParseDuration (s : string) : result Duration :=
  let '(neg, l) := match bytes s with
                   | "-"%char :: l => (true, l)
                   | "+"%char :: l => (false, l)
                   | l => (false, l)
                   end in
  if bool_decide (l = ["0"%char]) then Ok 0 else
  reject bool_decide (l = []) with invalid_duration;;
  let? d := duration_terms (length l) 0 l in
  if (neg : bool) then Ok (int64_wrap (- d)) else
  reject 2 ^ 63 - 1 <? d with invalid_duration;; Ok d.

(** Every term shortens the text: the fuel of [ParseDuration] is enough. *)
Lemma leadingInt_length x l v r : leadingInt x l = Ok (v, r) → (length r ≤ length l)%nat.
Proof.
  revert x; induction l as [|c l IH]; intros x; simpl; [by intros [= <- <-]|].
  destruct (is_digit c); [|by intros [= <- <-]]. do 2 (case_match; [done|]).
  intros Hr%IH. lia.
Qed.
Lemma leadingFraction_length x sc o l f sc' r :
  leadingFraction x sc o l = (f, sc', r) → (length r ≤ length l)%nat.
Proof.
  revert x sc o; induction l as [|c l IH]; intros x sc o; simpl; [by intros [= <- <- <-]|].
  destruct (is_digit c); [|by intros [= <- <- <-]].
  case_match; [intros Hr%IH; lia|]. case_match; intros Hr%IH; lia.
Qed.
Lemma leadingUnit_length l u r : leadingUnit l = (u, r) → length l = (length u + length r)%nat.
Proof.
  revert u; induction l as [|c l IH]; intros u; simpl; [by intros [= <- <-]|].
  case_match; [by intros [= <- <-]|]. destruct (leadingUnit l) as [u' r'].
  intros [= <- <-]. simpl. f_equal. by apply IH.
Qed.

Lemma duration_term_length l v r : duration_term l = Ok (v, r) → (length r < length l)%nat.
Proof.
  unfold duration_term. intros Hd. apply reject_if_ok in Hd as [_ Hd].
  apply result_bind_ok in Hd as ([v1 l1] & H1%leadingInt_length & Hd).
  match type of Hd with context [match ?m with pair _ _ => _ end] =>
    destruct m as [[[f sc] l2] post] eqn:Hm end.
  assert (length l2 ≤ length l1)%nat as H2.
  { destruct l1 as [|c l1]; [by simplify_eq|].
    destruct c as [[] [] [] [] [] [] [] []]; try by simplify_eq.
    destruct (leadingFraction _ _ _ l1) as [[f' sc'] l2'] eqn:Hf. apply leadingFraction_length in Hf.
    simplify_eq/=. lia. }
  apply reject_if_ok in Hd as [_ Hd]. destruct (leadingUnit l2) as [u rest] eqn:Hu.
  apply leadingUnit_length in Hu. apply reject_if_ok in Hd as [Hne Hd]. bool_inv.
  destruct (unit_of _); [|done]. ok_inv. destruct u; [done|]. simpl in Hu. lia.
Qed.

Lemma duration_terms_fuel fuel1 fuel2 d l :
  (length l ≤ fuel1)%nat → (length l ≤ fuel2)%nat → duration_terms fuel1 d l = duration_terms fuel2 d l.
Proof.
  revert fuel2 d l; induction fuel1 as [|fuel1 IH]; intros [|fuel2] d [|c l] H1 H2; simpl in H1, H2; try lia; try done.
  cbn [duration_terms]. destruct (duration_term (c :: l)) as [[v r]|] eqn:Ht; [|done]. simpl.
  apply duration_term_length in Ht. simpl in Ht. unfold reject_if. case_match; [done|]. apply IH; lia.
Qed.

Example durations_as_text :
  (Duration_String <$> [8 * Hour; 30 * Minute; 5 * Second; 0; -1500 * Millisecond; 1500]) =
    ["8h0m0s"; "30m0s"; "5s"; "0s"; "-1.5s"; of_bytes (bytes "1.5" ++ [ascii_of_N 0xC2; ascii_of_N 0xB5; "s"%char])] ∧
  (ParseDuration <$> ["8h0m0s"; "1.5h"; "-.5s"; "0"; "1h30"; ""; "9223372036854775808ns"]) =
    [Ok (8 * Hour); Ok (90 * Minute); Ok (-500 * Millisecond); Ok 0;
     Err (errorf "time: missing unit in duration"); Err invalid_duration; Err invalid_duration].
Proof. by vm_compute. Qed.
