(* ===== verification/GoFloat.v ===== *)
(** * Integers in a float64

    Every integer below 2^53 has an exact float64, and subtracting one, adding
    zero and comparing are exact on these.  The token buckets of the rate limiter
    (Limits.v) rest on this. *)

From S2P Require Import Prelude GoStrings World GoNumbers.
From Stdlib Require Import SpecFloat.
Open Scope Z_scope.

Lemma digits_log2 p : Z.pos (digits2_pos p) = Z.log2 (Z.pos p) + 1.
Proof.
  induction p as [p IH|p IH|]; cbn [digits2_pos]; [| |done]; rewrite Pos2Z.inj_succ, IH.
  - rewrite Pos2Z.inj_xI, Z.log2_succ_double; lia.
  - rewrite Pos2Z.inj_xO, Z.log2_double; lia.
Qed.

Lemma iter_xO m d : Z.pos (Pos.iter xO m d) = Z.pos m * 2 ^ Z.pos d.
Proof.
  induction d as [|d IH] using Pos.peano_ind; [change (2 ^ 1) with 2; simpl; lia|].
  rewrite Pos.iter_succ, Pos2Z.inj_xO, IH, Pos2Z.inj_succ, Z.pow_succ_r by lia. lia.
Qed.

Lemma shl_align_down m e k : 0 ≤ k → Z.pos (shl_align m e (e - k)).1 = Z.pos m * 2 ^ k ∧ (shl_align m e (e - k)).2 = e - k.
Proof.
  intros Hk. unfold shl_align. replace (e - k - e) with (- k) by lia.
  destruct k as [|k|k]; [simpl; lia| |lia]. cbn [Z.opp]. cbn [fst snd]. split; [apply iter_xO|done].
Qed.

Definition exactly (m : Z) : shr_record := Build_shr_record m false false.

Lemma shr_iter k a : 0 < a → iter_pos shr_1 k (exactly (a * 2 ^ Z.pos k)) = exactly a.
Proof.
  assert (∀ b, 0 < b → shr_1 (exactly (b * 2)) = exactly b) as H1.
  { intros b Hb. destruct b as [|b|b]; [lia| |lia]. rewrite Z.mul_comm. done. }
  revert a. induction k as [k IH|k IH|]; intros a Ha; cbn [iter_pos].
  - replace (a * 2 ^ Z.pos k~1) with (a * 2 ^ Z.pos k * 2 ^ Z.pos k * 2).
    2: { rewrite (Pos2Z.inj_xI k). replace (2 * Z.pos k + 1) with (Z.pos k + Z.pos k + 1) by lia.
         rewrite !Z.pow_add_r by lia. lia. }
    rewrite H1, IH, IH; [done|lia|..]; repeat apply Z.mul_pos_pos; try lia.
  - replace (a * 2 ^ Z.pos k~0) with (a * 2 ^ Z.pos k * 2 ^ Z.pos k).
    2: { rewrite (Pos2Z.inj_xO k). replace (2 * Z.pos k) with (Z.pos k + Z.pos k) by lia.
         rewrite !Z.pow_add_r by lia. lia. }
    rewrite IH, IH; [done|lia|]; apply Z.mul_pos_pos; lia.
  - by apply H1.
Qed.

(** The float64 of an integer below 2^53. *)
Definition f64_int (n : Z) : float64 :=
  if n =? 0 then S754_zero false
  else S754_finite false (Z.to_pos (n * 2 ^ (52 - Z.log2 n))) (Z.log2 n - 52).

Lemma binary_round_exact a k m :
  0 < a < 2 ^ 53 → 0 ≤ k ≤ 52 → Z.pos m = a * 2 ^ k → binary_round 53 1024 false m (- k) = f64_int a.
Proof.
  intros Ha Hk Hm. unfold binary_round. rewrite digits_log2, Hm.
  assert (0 ≤ Z.log2 a < 53) as Hl by (split; [apply Z.log2_nonneg|apply Z.log2_lt_pow2; lia]).
  assert (Z.log2 (a * 2 ^ k) = Z.log2 a + k) as Hlog by (rewrite Z.log2_mul_pow2 by lia; lia). rewrite Hlog.
  assert (∀ x, 0 ≤ x < 53 → fexp 53 1024 (x + 1) = x - 52) as Hfexp by (intros; unfold fexp, emin; lia).
  replace (Z.log2 a + k + 1 + - k) with (Z.log2 a + 1) by lia. rewrite Hfexp by done.
  set (M := a * 2 ^ (52 - Z.log2 a)).
  assert (0 < M) as HM by (apply Z.mul_pos_pos; lia).
  assert (Z.log2 M = 52) as HlM by (unfold M; rewrite Z.log2_mul_pow2 by lia; lia).
  assert (binary_round_aux 53 1024 false M (Z.log2 a - 52) loc_Exact = f64_int a) as Hfinal.
  { unfold binary_round_aux, shr_fexp. destruct M as [|q|q] eqn:EM; [lia| |lia]. cbn [Zdigits2].
    rewrite digits_log2, HlM. replace (52 + 1 + (Z.log2 a - 52)) with (Z.log2 a + 1) by lia. rewrite Hfexp by done.
    rewrite Z.sub_diag. cbn [shr shr_record_of_loc shr_m loc_of_shr_record round_nearest_even Zdigits2].
    rewrite digits_log2, HlM. replace (52 + 1 + (Z.log2 a - 52)) with (Z.log2 a + 1) by lia. rewrite Hfexp by done.
    rewrite Z.sub_diag. cbn [shr shr_m]. unfold f64_int.
    rewrite (proj2 (Z.eqb_neq a 0)) by lia. fold M. rewrite EM. rewrite (proj2 (Z.leb_le _ _)) by lia. done. }
  destruct (Z_lt_le_dec (Z.log2 a - 52) (- k)) as [Hlt|Hge].
  - replace (Z.log2 a - 52) with (- k - (52 - Z.log2 a - k)) at 1 by lia.
    destruct (shl_align_down m (- k) (52 - Z.log2 a - k)) as [H1 H2]; [lia|].
    destruct (shl_align m (- k) _) as [mz ez]. cbn [fst snd] in *. subst ez. rewrite H1, Hm.
    replace (- k - (52 - Z.log2 a - k)) with (Z.log2 a - 52) by lia.
    rewrite <-Z.mul_assoc, <-Z.pow_add_r by lia. replace (k + (52 - Z.log2 a - k)) with (52 - Z.log2 a) by lia.
    exact Hfinal.
  - unfold shl_align. destruct (Z.log2 a - 52 - - k) as [|p|p] eqn:Ep; [| |lia].
    + replace (- k) with (Z.log2 a - 52) by lia. replace (Z.pos m) with M; [exact Hfinal|].
      rewrite Hm. unfold M. do 2 f_equal. lia.
    + assert (Z.pos m = M * 2 ^ Z.pos p) as HmM.
      { rewrite Hm. unfold M. rewrite <-Z.mul_assoc, <-Z.pow_add_r by lia. do 2 f_equal. lia. }
      rewrite <-Hfinal. unfold binary_round_aux at 1, shr_fexp at 1. cbn [Zdigits2 shr_record_of_loc].
      rewrite digits_log2, Hm, Hlog. replace (Z.log2 a + k + 1 + - k) with (Z.log2 a + 1) by lia.
      rewrite Hfexp, Ep by done. cbn [shr]. replace (- k + Z.pos p) with (Z.log2 a - 52) by lia.
      rewrite <-Hm, HmM. fold (exactly (M * 2 ^ Z.pos p)). rewrite shr_iter by done.
      unfold binary_round_aux. unfold shr_fexp at 2. destruct M as [|q|q] eqn:EM; [lia| |lia]. cbn [Zdigits2].
      rewrite digits_log2, HlM. replace (52 + 1 + (Z.log2 a - 52)) with (Z.log2 a + 1) by lia. rewrite Hfexp by done.
      rewrite Z.sub_diag. done.
Qed.

Lemma f64_of_int n : 0 ≤ n < 2 ^ 53 → f64_of_Z n = f64_int n.
Proof.
  intros Hn. unfold f64_of_Z. destruct n as [|p|p]; [done| |lia].
  apply (binary_round_exact _ 0); lia.
Qed.

Lemma f64_int_pos n : 0 < n → f64_int n = S754_finite false (Z.to_pos (n * 2 ^ (52 - Z.log2 n))) (Z.log2 n - 52).
Proof. intros Hn. unfold f64_int. by rewrite (proj2 (Z.eqb_neq n 0)) by lia. Qed.

Lemma f64_int_sub1 n : 1 ≤ n < 2 ^ 53 → f64_sub (f64_int n) (f64_of_Z 1) = f64_int (n - 1).
Proof.
  intros Hn. rewrite (f64_of_int 1), !(f64_int_pos n), !(f64_int_pos 1) by lia.
  assert (0 ≤ Z.log2 n < 53) as Hl by (split; [apply Z.log2_nonneg|apply Z.log2_lt_pow2; lia]).
  change (Z.log2 1) with 0. unfold f64_sub, SFsub.
  replace (Z.min (Z.log2 n - 52) (0 - 52)) with (Z.log2 n - 52 - Z.log2 n) by lia.
  destruct (shl_align_down (Z.to_pos (n * 2 ^ (52 - Z.log2 n))) (Z.log2 n - 52) (Z.log2 n)) as [-> _]; [lia|].
  replace (Z.log2 n - 52 - Z.log2 n) with (0 - 52 - 0) by lia.
  destruct (shl_align_down (Z.to_pos (1 * 2 ^ (52 - 0))) (0 - 52) 0) as [-> _]; [lia|].
  unfold cond_Zopp. rewrite !Z2Pos.id by (try apply Z.mul_pos_pos; lia).
  rewrite <-(Z.mul_assoc n), <-Z.pow_add_r by lia. replace (52 - Z.log2 n + Z.log2 n) with 52 by lia.
  replace (n * 2 ^ 52 - 1 * 2 ^ (52 - 0) * 2 ^ 0) with ((n - 1) * 2 ^ 52) by (change (52 - 0) with 52; lia).
  unfold binary_normalize. destruct (decide (n = 1)) as [->|Hne]; [done|].
  destruct ((n - 1) * 2 ^ 52) as [|p|p] eqn:Ep; [lia| |lia].
  apply (binary_round_exact (n - 1) 52); lia.
Qed.

Lemma f64_int_add0 n s : f64_add (f64_int n) (S754_zero s) = f64_int n.
Proof. unfold f64_int. case_match; [by destruct s|done]. Qed.

Lemma f64_int_compare a b :
  0 < a < 2 ^ 53 → 0 < b < 2 ^ 53 → SFcompare (f64_int a) (f64_int b) = Some (a ?= b).
Proof.
  intros Ha Hb. rewrite !f64_int_pos by lia. cbn [SFcompare]. f_equal.
  assert (0 ≤ Z.log2 a < 53 ∧ 0 ≤ Z.log2 b < 53) as [Hla Hlb].
  { split; (split; [apply Z.log2_nonneg|apply Z.log2_lt_pow2; lia]). }
  destruct (Z.compare_spec (Z.log2 a - 52) (Z.log2 b - 52)) as [He|Hlt|Hgt]; symmetry.
  - change (Pos.compare_cont Eq ?x ?y) with (Z.pos x ?= Z.pos y).
    rewrite !Z2Pos.id by (apply Z.mul_pos_pos; lia).
    replace (Z.log2 b) with (Z.log2 a) by lia. apply Zmult_compare_compat_r. lia.
  - apply Z.compare_lt_iff, Z.log2_lt_cancel. lia.
  - apply Z.compare_gt_iff, Z.log2_lt_cancel. lia.
Qed.

Lemma f64_int_le1 n : 0 ≤ n < 2 ^ 53 → f64_le (f64_of_Z 1) (f64_int n) = (1 <=? n).
Proof.
  intros Hn. rewrite f64_of_int by lia. unfold f64_le, SFleb. destruct (decide (n = 0)) as [->|Hne]; [done|].
  rewrite f64_int_compare by lia. unfold Z.leb. by destruct (1 ?= n).
Qed.

Lemma f64_int_capped b n : 0 ≤ n ≤ b → b < 2 ^ 53 → f64_lt (f64_int b) (f64_int n) = false.
Proof.
  intros Hn Hb. unfold f64_lt, SFltb. destruct (decide (n = 0)) as [->|Hne].
  { unfold f64_int. by destruct (b =? 0). }
  rewrite f64_int_compare by lia. destruct (Z.compare_spec b n); [done|lia|done].
Qed.
