(* ===== verification/GoJSON.v ===== *)
(** * JSON text: what the program uses of encoding/json

    The printer and the parser of JSON texts, over the runes of a text: strings
    with Go's escapes (HTML characters included) on the way out, all of JSON's
    on the way in; numbers as their literals; objects as lists of members in
    order.  A text nested deeper than 10000 levels, which Go refuses, is not
    treated apart.  The main result is that printing and parsing a value of
    well-formed strings and integers gives it back. *)

From S2P Require Import Prelude GoStrings GoURL World GoNumbers.
Open Scope Z_scope.

#[local] Set Warnings "-register-all".

(** A string keeps whether its text was the string itself, without escapes. *)
Inductive jval :=
  | VNull
  | VBool (b : bool)
  | VNum (literal : string)
  | VStr (s : string) (plain : bool)
  | VArr (l : list jval)
  | VObj (members : list (string * jval)).

(** ** Printing *)
Definition ascii_runes (s : string) : list rune := RAscii <$> bytes s.
Definition hex_rune (n : N) : rune := RAscii (hex_digit n).

Definition dquote : ascii := "034".
Definition backslash : ascii := "092".
(** [htmlSafeSet] *)
Definition html_safe (c : ascii) : bool :=
  (32 <=? byte c) && (byte c <? 128) && negb (one_of "&<>" c) && negb (Ascii.eqb c dquote)
  && negb (Ascii.eqb c backslash).

Definition escape_ascii (c : ascii) : list rune :=
  if html_safe c then [RAscii c] else
  if Ascii.eqb c backslash || Ascii.eqb c dquote then [RAscii backslash; RAscii c] else
  if byte c =? 8 then ascii_runes "\b" else
  if byte c =? 12 then ascii_runes "\f" else
  if byte c =? 10 then ascii_runes "\n" else
  if byte c =? 13 then ascii_runes "\r" else
  if byte c =? 9 then ascii_runes "\t" else
  ascii_runes "\u00" ++ [hex_rune (N_of_ascii c / 16)%N; hex_rune (N_of_ascii c `mod` 16)%N].

(** The bytes of U+2028, U+2029. *)
Definition line_separator (last : N) : list ascii := ascii_of_N <$> [226; 128; last]%N.

Definition escape_rune (r : rune) : list rune :=
  match r with
  | RAscii c => escape_ascii c
  | RWide l =>
      if bool_decide (l = line_separator 168) then ascii_runes "\u2028" else
      if bool_decide (l = line_separator 169) then ascii_runes "\u2029" else [RWide l]
  | RError _ => ascii_runes "\ufffd"
  end.

Definition print_string (s : string) : list rune :=
  RAscii dquote :: concat (escape_rune <$> runes (bytes s)) ++ [RAscii dquote].

Fixpoint comma_separated (l : list (list rune)) : list rune :=
  match l with
  | [] => []
  | [x] => x
  | x :: l' => x ++ RAscii "," :: comma_separated l'
  end.

Fixpoint print (v : jval) : list rune :=
  match v with
  | VNull => ascii_runes "null"
  | VBool b => ascii_runes (if b then "true" else "false")
  | VNum lit => ascii_runes lit
  | VStr s _ => print_string s
  | VArr l => RAscii "[" :: comma_separated (print <$> l) ++ [RAscii "]"]
  | VObj ms =>
      RAscii "{" :: comma_separated ((λ m, print_string m.1 ++ RAscii ":" :: print m.2) <$> ms)
        ++ [RAscii "}"]
  end.

Definition Marshal (v : jval) : string := of_bytes (text (print v)).

(** ** Parsing *)

(** [utf8.EncodeRune] *)
Definition bytes3 (a b c : N) : list ascii := ascii_of_N <$> [a; b; c].
Definition replacement : list ascii := bytes3 239 191 189.
Definition surrogate (u : N) : bool := (0xD800 <=? u)%N && (u <=? 0xDFFF)%N.
Definition encode_rune (u : N) : rune :=
  if (u <? 128)%N then RAscii (ascii_of_N u) else
  if (u <? 0x800)%N then RWide (ascii_of_N <$> [192 + u / 64; 128 + u `mod` 64]%N) else
  if surrogate u || (0x10FFFF <? u)%N then RWide replacement else
  if (u <? 0x10000)%N
  then RWide (bytes3 (224 + u / 4096) (128 + (u / 64) `mod` 64) (128 + u `mod` 64))%N
  else RWide (ascii_of_N <$>
    [240 + u / 262144; 128 + (u / 4096) `mod` 64; 128 + (u / 64) `mod` 64; 128 + u `mod` 64]%N).

(** [getu4] without the backslash and the letter *)
Definition hex4 (a b c d : ascii) : option N :=
  if ishex a && ishex b && ishex c && ishex d
  then Some (unhex a * 4096 + unhex b * 256 + unhex c * 16 + unhex d)%N else None.

(** [utf16.DecodeRune] on two surrogates *)
Definition decode_pair (u v : N) : option N :=
  if ((0xD800 <=? u) && (u <? 0xDC00) && (0xDC00 <=? v) && (v <? 0xE000))%N
  then Some ((u - 0xD800) * 1024 + (v - 0xDC00) + 0x10000)%N else None.

Definition simple_escape (c : ascii) : option ascii :=
  if Ascii.eqb c backslash || Ascii.eqb c "/" || Ascii.eqb c dquote then Some c else
  if Ascii.eqb c "b" then Some "008"%char else
  if Ascii.eqb c "f" then Some "012"%char else
  if Ascii.eqb c "n" then Some "010"%char else
  if Ascii.eqb c "r" then Some "013"%char else
  if Ascii.eqb c "t" then Some "009"%char else None.

Definition push_rune (plain : bool) (r : rune) (k : option (list rune * bool * list rune))
    : option (list rune * bool * list rune) :=
  match k with Some (rs, p, rest) => Some (r :: rs, plain && p, rest) | None => None end.

(** The rest of a string literal after its opening quote: the string, whether
    the text was plain, and what follows the closing quote. *)
Fixpoint unquote (l : list rune) : option (list rune * bool * list rune) :=
  match l with
  | [] => None
  | RAscii c :: l1 =>
      if Ascii.eqb c dquote then Some ([], true, l1) else
      if Ascii.eqb c backslash then
        match l1 with
        | RAscii e :: l2 =>
            if Ascii.eqb e "u" then
              match l2 with
              | RAscii a :: RAscii b :: RAscii c :: RAscii d :: l3 =>
                  match hex4 a b c d with
                  | None => None
                  | Some u =>
                      if surrogate u then
                        match l3 with
                        | RAscii s :: RAscii e' :: RAscii a' :: RAscii b' :: RAscii c' :: RAscii d' :: l4 =>
                            match (if Ascii.eqb s backslash && Ascii.eqb e' "u"
                                   then hex4 a' b' c' d' ≫= decode_pair u else None) with
                            | Some v => push_rune false (encode_rune v) (unquote l4)
                            | None => push_rune false (RWide replacement) (unquote l3)
                            end
                        | _ => push_rune false (RWide replacement) (unquote l3)
                        end
                      else push_rune false (encode_rune u) (unquote l3)
                  end
              | _ => None
              end
            else
              match simple_escape e with
              | Some b => push_rune false (RAscii b) (unquote l2)
              | None => None
              end
        | _ => None
        end
      else if byte c <? 32 then None
      else push_rune true (RAscii c) (unquote l1)
  | RWide w :: l1 => push_rune true (RWide w) (unquote l1)
  | RError _ :: l1 => push_rune false (RWide replacement) (unquote l1)
  end.

Definition is_ws (c : ascii) : bool := one_of " " c || (byte c =? 9) || (byte c =? 10) || (byte c =? 13).
Fixpoint skip_ws (l : list rune) : list rune :=
  match l with
  | RAscii c :: l' => if is_ws c then skip_ws l' else l
  | _ => l
  end.

(** ASCII digits at the front. *)
Fixpoint span_digits (l : list rune) : list ascii * list rune :=
  match l with
  | RAscii c :: l' => if is_digit c then let '(d, r) := span_digits l' in (c :: d, r) else ([], l)
  | _ => ([], l)
  end.

(** Number literals: [-] int [frac] [exp]. *)
Definition number_int (l : list rune) : option (list ascii * list rune) :=
  match span_digits l with
  | ([], _) => None
  | (d :: ds, r) =>
      if Ascii.eqb d "0" then
        match l with _ :: l' => Some ([d], l') | [] => None end
      else Some (d :: ds, r)
  end.
Definition number_frac (l : list rune) : option (list ascii * list rune) :=
  match l with
  | RAscii c :: l' =>
      if Ascii.eqb c "." then
        match span_digits l' with ([], _) => None | (ds, r) => Some (c :: ds, r) end
      else Some ([], l)
  | _ => Some ([], l)
  end.
Definition number_exp (l : list rune) : option (list ascii * list rune) :=
  match l with
  | RAscii c :: l' =>
      if one_of "eE" c then
        let '(sign, l'') := match l' with
          | RAscii s :: r => if one_of "+-" s then ([s], r) else ([], l')
          | _ => ([], l') end in
        match span_digits l'' with ([], _) => None | (ds, r) => Some (c :: sign ++ ds, r) end
      else Some ([], l)
  | _ => Some ([], l)
  end.
Definition number (l : list rune) : option (list ascii * list rune) :=
  let '(sign, l0) := match l with
    | RAscii c :: r => if Ascii.eqb c "-" then ([c], r) else ([], l)
    | _ => ([], l) end in
  i ← number_int l0; f ← number_frac i.2; e ← number_exp f.2;
  Some (sign ++ i.1 ++ f.1 ++ e.1, e.2).

(** A keyword. *)
Fixpoint expect (s : list ascii) (l : list rune) : option (list rune) :=
  match s, l with
  | [], _ => Some l
  | c :: s', RAscii c' :: l' => if Ascii.eqb c c' then expect s' l' else None
  | _, _ => None
  end.

Definition string_of (rs : list rune) : string := of_bytes (text rs).

(** Values, the elements of an array after its opening bracket or a comma, the
    members of an object after its opening brace or a comma. *)
Fixpoint parse_value (fuel : nat) (l : list rune) : option (jval * list rune) :=
  match fuel with
  | O => None
  | S fuel =>
      match skip_ws l with
      | RAscii c :: r =>
          if Ascii.eqb c "{" then
            match skip_ws r with
            | RAscii c' :: r' =>
                if Ascii.eqb c' "}" then Some (VObj [], r')
                else p ← parse_members fuel r; Some (VObj p.1, p.2)
            | _ => None
            end
          else if Ascii.eqb c "[" then
            match skip_ws r with
            | RAscii c' :: r' =>
                if Ascii.eqb c' "]" then Some (VArr [], r')
                else p ← parse_elements fuel r; Some (VArr p.1, p.2)
            | _ => None
            end
          else if Ascii.eqb c dquote then
            p ← unquote r; Some (VStr (string_of p.1.1) p.1.2, p.2)
          else if Ascii.eqb c "t" then r' ← expect (bytes "rue") r; Some (VBool true, r')
          else if Ascii.eqb c "f" then r' ← expect (bytes "alse") r; Some (VBool false, r')
          else if Ascii.eqb c "n" then r' ← expect (bytes "ull") r; Some (VNull, r')
          else p ← number (RAscii c :: r); Some (VNum (of_bytes p.1), p.2)
      | _ => None
      end
  end
with parse_elements (fuel : nat) (l : list rune) : option (list jval * list rune) :=
  match fuel with
  | O => None
  | S fuel =>
      v ← parse_value fuel l;
      match skip_ws v.2 with
      | RAscii c :: r =>
          if Ascii.eqb c "," then p ← parse_elements fuel r; Some (v.1 :: p.1, p.2)
          else if Ascii.eqb c "]" then Some ([v.1], r) else None
      | _ => None
      end
  end
with parse_members (fuel : nat) (l : list rune) : option (list (string * jval) * list rune) :=
  match fuel with
  | O => None
  | S fuel =>
      match skip_ws l with
      | RAscii q :: r0 =>
          if negb (Ascii.eqb q dquote) then None else
          n ← unquote r0;
          match skip_ws n.2 with
          | RAscii c :: r =>
              if negb (Ascii.eqb c ":") then None else
              v ← parse_value fuel r;
              match skip_ws v.2 with
              | RAscii c' :: r' =>
                  if Ascii.eqb c' "," then
                    p ← parse_members fuel r'; Some ((string_of n.1.1, v.1) :: p.1, p.2)
                  else if Ascii.eqb c' "}" then Some ([(string_of n.1.1, v.1)], r') else None
              | _ => None
              end
          | _ => None
          end
      | _ => None
      end
  end.

Definition syntax_error : goerr := errorf "invalid JSON".

(** [maxNestingDepth] of the scanner *)
Definition max_depth : Z := 10000.
Fixpoint jdepth (v : jval) : Z :=
  match v with
  | VArr l => 1 + foldr (λ v n, Z.max (jdepth v) n) 0 l
  | VObj ms => 1 + foldr (λ m n, Z.max (jdepth m.2) n) 0 ms
  | _ => 0
  end.

(** The value at the start of a text and what follows it. *)
Definition scan_value (s : string) : option (jval * list rune) :=
  let l := runes (bytes s) in
  match parse_value (S (length l)) l with
  | Some (v, r) => if jdepth v <=? max_depth then Some (v, r) else None
  | None => None
  end.

(** The value of a whole text. *)
Definition Parse_json (s : string) : result jval :=
  match scan_value s with
  | Some (v, r) => match skip_ws r with [] => Ok v | _ => Err syntax_error end
  | None => Err syntax_error
  end.

(** A text written with single quotes, for examples. *)
Definition quoted (s : string) : string := ReplaceAll s "'" dquote.
Example parse_sample :
  Parse_json (quoted " {'a' : [1, -2.5e+3,null] , 'b':'x\u00e9\ud83d\ude00'}")
  = Ok (VObj [("a", VArr [VNum "1"; VNum "-2.5e+3"; VNull]);
              ("b", VStr (of_bytes (ascii_of_nat <$> [120; 195; 169; 240; 159; 152; 128]%nat)) false)]).
Proof. run. Qed.
Example print_sample :
  Marshal (VObj [("a<b", VStr "x&y" true)]) = quoted "{'a\u003cb':'x\u0026y'}".
Proof. run. Qed.

(** ** Strings are read back as they were written *)

(** Runes that are printed as themselves. *)
Definition plain_rune (r : rune) : bool := bool_decide (length (escape_rune r) = 1%nat).
Definition plain_string (s : string) : bool := forallb plain_rune (runes (bytes s)).

Lemma unquote_escape_ascii c l :
  in_range 0 0x7F c = true →
  unquote (escape_ascii c ++ l) = push_rune (plain_rune (RAscii c)) (RAscii c) (unquote l).
Proof.
  unfold in_range, byte.
  destruct c as [[] [] [] [] [] [] [] []]; intros Hc; try discriminate Hc; clear Hc; reflexivity.
Qed.

Lemma unquote_escape r l :
  good_rune r = true → unquote (escape_rune r ++ l) = push_rune (plain_rune r) r (unquote l).
Proof.
  destruct r as [c|w|c]; [apply unquote_escape_ascii| |done].
  intros _. unfold plain_rune. cbn [escape_rune].
  case_bool_decide as H1; [by rewrite H1|]. case_bool_decide as H2; [by rewrite H2|]. done.
Qed.

Lemma unquote_escapes rs l :
  forallb good_rune rs = true →
  unquote (concat (escape_rune <$> rs) ++ RAscii dquote :: l) = Some (rs, forallb plain_rune rs, l).
Proof.
  induction rs as [|r rs IH]; [done|]. intros [Hr Hrs]%andb_true_iff.
  cbn [fmap list_fmap concat forallb]. rewrite <-app_assoc, unquote_escape by done. by rewrite IH.
Qed.

Lemma unquote_string s l :
  utf8 s →
  unquote (concat (escape_rune <$> runes (bytes s)) ++ RAscii dquote :: l)
  = Some (runes (bytes s), plain_string s, l).
Proof. intros Hs. by apply unquote_escapes. Qed.

Lemma string_of_runes s : string_of (runes (bytes s)) = s.
Proof. unfold string_of. by rewrite text_runes, of_bytes_bytes. Qed.

(** ** Numbers *)

(** What may follow a value. *)
Definition stops (l : list rune) : Prop :=
  match l with [] => True | RAscii c :: _ => one_of ",]}" c = true | _ => False end.

Lemma stops_not c l : stops (RAscii c :: l) →
  is_digit c = false ∧ Ascii.eqb c "." = false ∧ one_of "eE" c = false ∧ is_ws c = false.
Proof.
  unfold stops, one_of. cbn [bytes String.list_ascii_of_string existsb].
  rewrite !orb_true_iff, !Ascii.eqb_eq. intros [->|[->|[->|[=]]]]; done.
Qed.

Lemma stops_skip_ws l : stops l → skip_ws l = l.
Proof.
  destruct l as [|[c|w|c] l]; try done. intros (_&_&_&Hc)%stops_not. simpl. by rewrite Hc.
Qed.

Lemma span_digits_app ds l :
  Forall (λ c, is_digit c = true) ds → stops l → span_digits ((RAscii <$> ds) ++ l) = (ds, l).
Proof.
  intros Hds Hl. induction Hds as [|c ds Hc _ IH]; cbn [fmap list_fmap app span_digits].
  - destruct l as [|[c|w|c] l]; try done. apply stops_not in Hl as [Hc _]. simpl. by rewrite Hc.
  - by rewrite Hc, IH.
Qed.

Lemma stops_frac l : stops l → number_frac l = Some ([], l).
Proof.
  destruct l as [|[c|w|c] l]; try done. intros (_&Hc&_)%stops_not. unfold number_frac. by rewrite Hc.
Qed.
Lemma stops_exp l : stops l → number_exp l = Some ([], l).
Proof.
  destruct l as [|[c|w|c] l]; try done. intros (_&_&Hc&_)%stops_not. unfold number_exp. by rewrite Hc.
Qed.

(** Digits without a leading zero. *)
Definition numeral (ds : list ascii) : Prop :=
  Forall (λ c, is_digit c = true) ds ∧ ds ≠ [] ∧ (∀ ds', ds = "0"%char :: ds' → ds' = []).

Lemma number_int_app ds l :
  numeral ds → stops l → number_int ((RAscii <$> ds) ++ l) = Some (ds, l).
Proof.
  intros (Hds & Hne & Hz) Hl. unfold number_int. rewrite span_digits_app by done.
  destruct ds as [|d ds]; [done|]. destruct (Ascii.eqb_spec d "0") as [->|]; [|done].
  by rewrite (Hz ds eq_refl).
Qed.

Lemma number_numeral neg ds l :
  numeral ds → stops l →
  number ((RAscii <$> (if neg : bool then ["-"%char] else [])) ++ (RAscii <$> ds) ++ l)
  = Some ((if neg then ["-"%char] else []) ++ ds, l).
Proof.
  intros Hds Hl. unfold number. destruct neg; cbn [fmap list_fmap app].
  - change (Ascii.eqb "-" "-") with true. cbn iota. rewrite number_int_app by done. simpl.
    rewrite stops_frac by done. simpl. rewrite stops_exp by done. simpl. by rewrite !app_nil_r.
  - assert (match (RAscii <$> ds) ++ l with
      | RAscii c :: r => if Ascii.eqb c "-" then ([c], r) else ([], (RAscii <$> ds) ++ l)
      | _ => ([], (RAscii <$> ds) ++ l) end = (@nil ascii, (RAscii <$> ds) ++ l)) as ->.
    { destruct Hds as (Hd & Hne & _). destruct ds as [|d ds]; [done|].
      apply list.Forall_cons in Hd as [Hd _]. simpl. by destruct (Ascii.eqb_spec d "-") as [->|]. }
    rewrite number_int_app by done. simpl.
    rewrite stops_frac by done. simpl. rewrite stops_exp by done. simpl. by rewrite !app_nil_r.
Qed.

Lemma format_digits_numeral fuel n acc :
  0 < n → (Z.to_nat (Z.log2 n) < fuel)%nat → Forall (λ c, is_digit c = true) acc →
  Forall (λ c, is_digit c = true) (format_digits fuel n acc) ∧
  ∃ d ds, format_digits fuel n acc = d :: ds ∧ d ≠ "0"%char.
Proof.
  revert n acc. induction fuel as [|fuel IH]; intros n acc Hn Hf Hacc; [lia|]. simpl.
  destruct (digit_props (n mod 10)) as [Hd Hb]; [by apply Z.mod_pos_bound|].
  destruct (Z.ltb_spec n 10).
  - split; [by constructor|]. eexists _, _. split; [done|]. intros Hz. rewrite Hz in Hb.
    change (byte "0" - 48) with 0 in Hb. rewrite Z.mod_small in Hb by lia. lia.
  - apply IH; [| |by constructor]; [apply Z.div_str_pos; lia|].
    assert (Z.log2 (n / 10) < Z.log2 n) as Hlog.
    { apply Z.log2_lt_pow2; [apply Z.div_str_pos; lia|].
      pose proof (Z.log2_spec n Hn) as [_ Hs]. rewrite Z.pow_succ_r in Hs by apply Z.log2_nonneg.
      apply Z.div_lt_upper_bound; lia. }
    pose proof (Z.log2_nonneg (n / 10)). lia.
Qed.

Lemma format_nat_numeral n : 0 ≤ n → numeral (format_nat n).
Proof.
  intros Hn. destruct (decide (n = 0)) as [->|Hne].
  { split; [by repeat constructor|]. split; [done|]. by intros ds' [= <-]. }
  destruct (format_digits_numeral (S (Z.to_nat (Z.log2 n))) n []) as (Hall & d & ds & Heq & Hd);
    [lia|lia|done|]. unfold format_nat, numeral. rewrite Heq in *.
  split; [done|]. split; [done|]. by intros ds' [= -> _].
Qed.

Lemma number_FormatInt n l :
  stops l → number (ascii_runes (FormatInt n) ++ l) = Some (bytes (FormatInt n), l).
Proof.
  intros Hl. unfold ascii_runes, FormatInt. rewrite bytes_of_bytes. destruct (Z.ltb_spec n 0).
  - apply (number_numeral true (format_nat (- n)) l); [|done]. apply format_nat_numeral. lia.
  - apply (number_numeral false (format_nat n) l); [|done]. by apply format_nat_numeral.
Qed.

(** ** Values *)

(** The values that are printed: well-formed strings, marked plain when they
    are, and integers. *)
Fixpoint printable (v : jval) : Prop :=
  match v with
  | VNull | VBool _ => True
  | VNum lit => ∃ n, lit = FormatInt n
  | VStr s p => utf8 s ∧ p = plain_string s
  | VArr l => foldr (λ v P, printable v ∧ P) True l
  | VObj ms => foldr (λ m P, utf8 m.1 ∧ printable m.2 ∧ P) True ms
  end.

(** Fuel that is enough to read a value, the elements of an array, the members
    of an object. *)
Fixpoint jsize (v : jval) : nat :=
  match v with
  | VArr l => S (foldr (λ v n, S (jsize v + n)) 0 l)
  | VObj ms => S (foldr (λ m n, S (jsize m.2 + n)) 0 ms)
  | _ => 1
  end%nat.
Definition esize (l : list jval) : nat := foldr (λ v n, S (jsize v + n))%nat 0%nat l.
Definition msize (ms : list (string * jval)) : nat := foldr (λ m n, S (jsize m.2 + n))%nat 0%nat ms.
Definition printables (l : list jval) : Prop := foldr (λ v P, printable v ∧ P) True l.
Definition printable_members (ms : list (string * jval)) : Prop :=
  foldr (λ m P, utf8 m.1 ∧ printable m.2 ∧ P) True ms.

(** A value begins with a character that is neither space nor a bracket that
    closes. *)
Definition begins (l : list rune) : Prop :=
  match l with
  | RAscii c :: _ => is_ws c = false ∧ Ascii.eqb c "]" = false ∧ Ascii.eqb c "}" = false
  | _ => False
  end.

Lemma begins_app l k : begins l → begins (l ++ k).
Proof. by destruct l as [|[] l]. Qed.
Lemma begins_skip_ws l : begins l → skip_ws l = l.
Proof. destruct l as [|[c|w|c] l]; try done. intros [Hc _]. simpl. by rewrite Hc. Qed.

Lemma digit_begins c : is_digit c = true → is_ws c = false ∧ Ascii.eqb c "]" = false ∧ Ascii.eqb c "}" = false.
Proof. destruct c as [[] [] [] [] [] [] [] []]; try discriminate 1; done. Qed.

Lemma print_begins v : printable v → begins (print v).
Proof.
  destruct v as [|[]|lit|s p|l|ms]; try done. intros [n ->]. cbn [print].
  unfold ascii_runes, FormatInt. rewrite bytes_of_bytes. destruct (Z.ltb_spec n 0); [done|].
  destruct (format_nat_spec n) as (c & l & -> & Hc & _); [done|]. by apply digit_begins.
Qed.

Lemma comma_cons x y l :
  comma_separated (x :: y :: l) = x ++ RAscii "," :: comma_separated (y :: l).
Proof. done. Qed.

Definition print_member (m : string * jval) : list rune :=
  print_string m.1 ++ RAscii ":" :: print m.2.

(** A digit or a minus sign starts a number. *)
Definition starts_number (c : ascii) : bool := is_digit c || Ascii.eqb c "-".
Lemma parse_number_value fuel c l lit r :
  starts_number c = true → number (RAscii c :: l) = Some (lit, r) →
  parse_value (S fuel) (RAscii c :: l) = Some (VNum (of_bytes lit), r).
Proof.
  intros Hc Hn. cbn [parse_value].
  rewrite begins_skip_ws.
  2: { unfold starts_number in Hc. apply orb_true_iff in Hc as [Hc|Hc]; [by apply digit_begins|].
       apply Ascii.eqb_eq in Hc as ->. done. }
  destruct c as [[] [] [] [] [] [] [] []]; try discriminate Hc; simpl; simpl in Hn; by rewrite Hn.
Qed.

Section roundtrip.
(** The three statements, for one amount of fuel. *)
Definition reads_value (fuel : nat) : Prop := ∀ v rest,
  (jsize v ≤ fuel)%nat → printable v → stops rest → parse_value fuel (print v ++ rest) = Some (v, rest).
Definition reads_elements (fuel : nat) : Prop := ∀ v l rest,
  (esize (v :: l) ≤ fuel)%nat → printables (v :: l) →
  parse_elements fuel (comma_separated (print <$> v :: l) ++ RAscii "]" :: rest) = Some (v :: l, rest).
Definition reads_members (fuel : nat) : Prop := ∀ m l rest,
  (msize (m :: l) ≤ fuel)%nat → printable_members (m :: l) →
  parse_members fuel (comma_separated (print_member <$> m :: l) ++ RAscii "}" :: rest) = Some (m :: l, rest).

Lemma reads_elements_S fuel : reads_value fuel → reads_elements fuel → reads_elements (S fuel).
Proof.
  intros HP HE v l rest Hf [Hv Hl]. cbn [esize foldr] in Hf. cbn [parse_elements].
  destruct l as [|v' l]; cbn [fmap list_fmap].
  - cbn [comma_separated]. rewrite HP by (done || lia). done.
  - assert (Hr := HE v' l rest ltac:(unfold esize; simpl in *; lia) Hl). cbn [fmap list_fmap] in Hr.
    rewrite comma_cons, <-app_assoc. cbn [app]. set (k := comma_separated (print v' :: _)) in *. clearbody k.
    rewrite HP by (done || lia). simpl. by rewrite Hr.
Qed.

Lemma reads_member fuel m rest :
  reads_value fuel → (jsize m.2 ≤ fuel)%nat → utf8 m.1 → printable m.2 → stops rest →
  parse_members (S fuel) (print_member m ++ rest) =
  match rest with
  | RAscii c' :: r' =>
      if Ascii.eqb c' "," then p ← parse_members fuel r'; Some (m :: p.1, p.2)
      else if Ascii.eqb c' "}" then Some ([m], r') else None
  | _ => None
  end.
Proof.
  intros HP Hf Hu Hp Hs. destruct m as [name v]. simpl in *. unfold print_member, print_string. cbn [fst snd].
  rewrite <-app_assoc. cbn [app parse_members skip_ws]. change (is_ws dquote) with false. cbn iota.
  change (Ascii.eqb dquote dquote) with true. cbn [negb]. rewrite <-app_assoc. cbn [app].
  rewrite unquote_string by done. cbn [mbind option_bind fst snd skip_ws].
  change (is_ws ":") with false. cbn iota. change (Ascii.eqb ":" ":") with true. cbn [negb].
  rewrite HP by done. cbn [mbind option_bind fst snd]. rewrite stops_skip_ws, string_of_runes by done. done.
Qed.

Lemma reads_members_S fuel : reads_value fuel → reads_members fuel → reads_members (S fuel).
Proof.
  intros HP HM m l rest Hf (Hu & Hv & Hl). cbn [msize foldr] in Hf.
  destruct l as [|m' l]; cbn [fmap list_fmap].
  - cbn [comma_separated]. rewrite reads_member by (done || lia). done.
  - assert (Hr := HM m' l rest ltac:(unfold msize; simpl in *; lia) Hl). cbn [fmap list_fmap] in Hr.
    rewrite comma_cons, <-app_assoc. cbn [app]. set (k := comma_separated (print_member m' :: _)) in *. clearbody k.
    rewrite reads_member by (done || lia). simpl. by rewrite Hr.
Qed.
Lemma comma_begins l : l ≠ [] → Forall begins l → begins (comma_separated l).
Proof.
  intros Hne Hl. destruct Hl as [|x l Hx _]; [done|]. destruct l; [done|]. by apply begins_app.
Qed.

Lemma elements_begin v l : printable v → begins (comma_separated (print <$> v :: l)).
Proof.
  intros Hv. apply print_begins in Hv. destruct l; cbn [fmap list_fmap]; [done|]. by apply begins_app.
Qed.
Lemma members_begin m l : begins (comma_separated (print_member <$> m :: l)).
Proof. destruct l; cbn [fmap list_fmap]; [done|]. by apply begins_app. Qed.

Lemma reads_array fuel l rest :
  reads_elements fuel → (esize l ≤ fuel)%nat → printables l →
  parse_value (S fuel) (print (VArr l) ++ rest) = Some (VArr l, rest).
Proof.
  intros HE Hf Hl. cbn [print parse_value app]. rewrite <-app_assoc. cbn [app skip_ws].
  change (is_ws "[") with false. cbn iota. change (Ascii.eqb "[" "{") with false.
  change (Ascii.eqb "[" "[") with true. cbn iota. destruct l as [|v l]; [done|].
  pose proof Hl as [Hv _]. pose proof (elements_begin v l Hv) as Hb.
  assert (Hr := HE v l rest Hf Hl). set (k := comma_separated (print <$> v :: l)) in *. clearbody k.
  rewrite (begins_skip_ws (k ++ _)) by by apply begins_app.
  destruct k as [|[c| |] k]; try done. destruct Hb as (_ & Hc & _). cbn [app] in *.
  rewrite Hc, Hr. done.
Qed.

Lemma reads_object fuel ms rest :
  reads_members fuel → (msize ms ≤ fuel)%nat → printable_members ms →
  parse_value (S fuel) (print (VObj ms) ++ rest) = Some (VObj ms, rest).
Proof.
  intros HM Hf Hl. cbn [print parse_value app]. rewrite <-app_assoc. cbn [app skip_ws].
  change (is_ws "{") with false. cbn iota. change (Ascii.eqb "{" "{") with true. cbn iota.
  destruct ms as [|m l]; [done|]. pose proof (members_begin m l) as Hb.
  assert (Hr := HM m l rest Hf Hl).
  change (λ m0, print_string m0.1 ++ RAscii ":" :: print m0.2) with print_member.
  set (k := comma_separated (print_member <$> m :: l)) in *. clearbody k.
  rewrite (begins_skip_ws (k ++ _)) by by apply begins_app.
  destruct k as [|[c| |] k]; try done. destruct Hb as (_ & _ & Hc). cbn [app] in *.
  rewrite Hc, Hr. done.
Qed.

Lemma FormatInt_starts n : ∃ c l, bytes (FormatInt n) = c :: l ∧ starts_number c = true.
Proof.
  unfold FormatInt. rewrite bytes_of_bytes. destruct (Z.ltb_spec n 0); [by eexists _, _|].
  destruct (format_nat_spec n) as (c & l & -> & Hc & _); [done|]. eexists _, _. split; [done|].
  unfold starts_number. by rewrite Hc.
Qed.

Lemma reads_all fuel : reads_value fuel ∧ reads_elements fuel ∧ reads_members fuel.
Proof.
  induction fuel as [|fuel (HP & HE & HM)].
  { split; [|split]; [intros [] rest Hf; simpl in Hf; lia|intros v l rest Hf; simpl in Hf; lia|].
    intros m l rest Hf; simpl in Hf; lia. }
  split; [|by split; [apply reads_elements_S|apply reads_members_S]].
  intros v rest Hf Hv Hs. destruct v as [|b|lit|s p|l|ms].
  - done.
  - by destruct b.
  - destruct Hv as [n ->]. pose proof (number_FormatInt n rest Hs) as Hn. cbn [print].
    unfold ascii_runes in *. destruct (FormatInt_starts n) as (c & l & Heq & Hc).
    rewrite <-(of_bytes_bytes (FormatInt n)) at 2. rewrite Heq in *. cbn [fmap list_fmap app] in *.
    by apply parse_number_value.
  - destruct Hv as [Hu ->]. cbn [print]. unfold print_string. cbn [app parse_value skip_ws].
    change (is_ws dquote) with false. cbn iota. change (Ascii.eqb dquote "{") with false.
    change (Ascii.eqb dquote "[") with false. change (Ascii.eqb dquote dquote) with true. cbn iota.
    rewrite <-app_assoc. cbn [app]. rewrite unquote_string by done.
    cbn [mbind option_bind fst snd]. by rewrite string_of_runes.
  - apply reads_array; [done| |done]. simpl in Hf. unfold esize. lia.
  - apply reads_object; [done| |done]. simpl in Hf. unfold msize. lia.
Qed.
End roundtrip.

(** A induction principle for values. *)
Section induction.
Context (P : jval → Prop).
Context (Hnull : P VNull) (Hbool : ∀ b, P (VBool b)) (Hnum : ∀ l, P (VNum l)) (Hstr : ∀ s p, P (VStr s p)).
Context (Harr : ∀ l, Forall P l → P (VArr l)).
Context (Hobj : ∀ ms, Forall (λ m, P m.2) ms → P (VObj ms)).

Fixpoint jval_induction (v : jval) : P v :=
  match v with
  | VNull => Hnull
  | VBool b => Hbool b
  | VNum l => Hnum l
  | VStr s p => Hstr s p
  | VArr l => Harr l ((fix all l : Forall P l :=
      match l with [] => list.Forall_nil_2 _ | v :: l => list.Forall_cons_2 _ _ _ (jval_induction v) (all l) end) l)
  | VObj ms => Hobj ms ((fix all ms : Forall (λ m, P m.2) ms :=
      match ms with [] => list.Forall_nil_2 _ | m :: l => list.Forall_cons_2 _ _ _ (jval_induction m.2) (all l) end) ms)
  end.
End induction.

Lemma jsize_length v : printable v → (jsize v ≤ length (print v))%nat.
Proof.
  induction v as [|[]|lit|s p|l IH|ms IH] using jval_induction; try (simpl; lia).
  - intros [n ->]. cbn [jsize print]. unfold ascii_runes. destruct (FormatInt_starts n) as (c & l & -> & _).
    simpl. lia.
  - intros Hl. cbn [jsize print length]. rewrite length_app. cbn [length].
    assert (foldr (λ v n, S (jsize v + n)) 0 l ≤ length (comma_separated (print <$> l)) + 1)%nat; [|lia].
    induction IH as [|v l Hv _ IHl]; [simpl; lia|]. destruct Hl as [Hpv Hl].
    specialize (Hv Hpv). specialize (IHl Hl). destruct l as [|v' l]; cbn [fmap list_fmap foldr] in *.
    + cbn [comma_separated]. lia.
    + rewrite comma_cons, length_app. cbn [length]. lia.
  - intros Hl. cbn [jsize print length]. rewrite length_app. cbn [length].
    change (λ m0, print_string m0.1 ++ RAscii ":" :: print m0.2) with print_member.
    assert (foldr (λ m n, S (jsize m.2 + n)) 0 ms ≤ length (comma_separated (print_member <$> ms)) + 1)%nat; [|lia].
    induction IH as [|m l Hv _ IHl]; [simpl; lia|]. destruct Hl as (_ & Hpv & Hl).
    specialize (Hv Hpv). specialize (IHl Hl).
    assert (length (print m.2) ≤ length (print_member m))%nat.
    { unfold print_member. rewrite length_app. simpl. lia. }
    destruct l as [|v' l]; cbn [fmap list_fmap foldr] in *.
    + cbn [comma_separated]. lia.
    + rewrite comma_cons, length_app. cbn [length]. lia.
Qed.

(** *** Only well-formed text is printed *)
Definition good_text (l : list rune) : Prop := forallb good_rune l = true.

Lemma good_app l k : good_text l → good_text k → good_text (l ++ k).
Proof. unfold good_text. rewrite forallb_app. by intros -> ->. Qed.
Lemma good_cons r l : good_rune r = true → good_text l → good_text (r :: l).
Proof. unfold good_text. simpl. by intros -> ->. Qed.
Lemma good_comma l : Forall good_text l → good_text (comma_separated l).
Proof.
  induction 1 as [|x l Hx Hl IH]; [done|]. destruct l; [done|]. rewrite comma_cons.
  apply good_app; [done|]. by apply good_cons.
Qed.

Lemma good_escape r : good_rune r = true → good_text (escape_rune r).
Proof.
  destruct r as [c|w|c]; [| |done].
  - destruct c as [[] [] [] [] [] [] [] []]; intros Hc; try discriminate Hc; done.
  - intros Hw. cbn [escape_rune]. repeat case_bool_decide; [done|done|]. by apply good_cons.
Qed.

Lemma good_print_string s : utf8 s → good_text (print_string s).
Proof.
  unfold utf8, ValidString, print_string. intros Hs. apply good_cons; [done|]. apply good_app; [|done].
  induction (runes (bytes s)) as [|r rs IH]; [done|]. apply andb_true_iff in Hs as [Hr Hrs].
  cbn [fmap list_fmap concat]. apply good_app; [by apply good_escape|by apply IH].
Qed.

Lemma good_FormatInt n : good_text (ascii_runes (FormatInt n)).
Proof.
  assert (∀ m, 0 ≤ m → good_text (RAscii <$> format_nat m)) as Hm.
  { intros m Hm. destruct (format_nat_numeral m Hm) as [Hd _].
    induction Hd as [|c l Hc _ IH]; [done|]. cbn [fmap list_fmap]. apply good_cons; [|done].
    destruct c as [[] [] [] [] [] [] [] []]; try discriminate Hc; done. }
  unfold ascii_runes, FormatInt. rewrite bytes_of_bytes. destruct (Z.ltb_spec n 0); [|by apply Hm].
  cbn [fmap list_fmap]. apply good_cons; [done|]. apply Hm. lia.
Qed.

Lemma good_print v : printable v → good_text (print v).
Proof.
  induction v as [|[]|lit|s p|l IH|ms IH] using jval_induction; try done.
  - intros [n ->]. apply good_FormatInt.
  - intros [Hs _]. by apply good_print_string.
  - intros Hl. cbn [print]. apply good_cons; [done|]. apply good_app; [|done]. apply good_comma.
    induction IH as [|v l Hv _ IHl]; [done|]. destruct Hl. cbn [fmap list_fmap]. constructor; auto.
  - intros Hl. cbn [print]. apply good_cons; [done|]. apply good_app; [|done]. apply good_comma.
    induction IH as [|v l Hv _ IHl]; [done|]. destruct Hl as (?&?&?). cbn [fmap list_fmap]. constructor; [|auto].
    apply good_app; [by apply good_print_string|]. apply good_cons; [done|auto].
Qed.

(** A value that is printed is read back. *)
Lemma Parse_Marshal v : printable v → jdepth v ≤ max_depth → Parse_json (Marshal v) = Ok v.
Proof.
  intros Hv Hd. unfold Parse_json, scan_value, Marshal. rewrite bytes_of_bytes, runes_text by by apply good_print.
  destruct (reads_all (S (length (print v)))) as (HP & _).
  specialize (HP v [] (Nat.le_trans _ _ _ (jsize_length v Hv) (Nat.le_succ_diag_r _)) Hv I).
  rewrite app_nil_r in HP. rewrite HP. apply Z.leb_le in Hd. by rewrite Hd.
Qed.

(** ** What is read is well-formed *)
Definition readable (r : rune) : bool := match r with RError _ => true | _ => good_rune r end.
Definition readable_text (l : list rune) : Prop := forallb readable l = true.

Lemma runes_step a l :
  ∃ r k, runes (a :: l) = r :: runes k ∧ readable r = true ∧ (length k ≤ length l)%nat.
Proof.
  cbn [runes]. destruct (in_range 0 0x7F a) eqn:Ha; [by exists (RAscii a), l|].
  destruct l as [|b l]; [by exists (RError a), []|].
  destruct (wide2 a b) eqn:H2; [exists (RWide [a; b]), l; split; [done|split; [done|simpl; lia]]|].
  destruct l as [|c l]; [by exists (RError a), [b]|].
  destruct (wide3 a b c) eqn:H3; [exists (RWide [a; b; c]), l; split; [done|split; [done|simpl; lia]]|].
  destruct l as [|d l]; [by exists (RError a), [b; c]|].
  destruct (wide4 a b c d) eqn:H4; [exists (RWide [a; b; c; d]), l; split; [done|split; [done|simpl; lia]]|].
  by exists (RError a), (b :: c :: d :: l).
Qed.

Lemma runes_readable l : readable_text (runes l).
Proof.
  unfold readable_text. induction l as [l IH] using (induction_ltof1 _ (@length ascii)). unfold ltof in IH.
  destruct l as [|a l]; [done|]. destruct (runes_step a l) as (r & k & -> & Hr & Hk).
  cbn [forallb]. rewrite Hr. apply IH. simpl. lia.
Qed.

Lemma readable_cons r l : readable_text (r :: l) → readable r = true ∧ readable_text l.
Proof. unfold readable_text. simpl. by intros [? ?]%andb_true_iff. Qed.

Lemma byte_ascii_of_N n : (n < 256)%N → byte (ascii_of_N n) = Z.of_N n.
Proof. intros Hn. unfold byte. by rewrite N_ascii_embedding. Qed.

(** Linear arithmetic with division by constants. *)
Ltac div_lia := zify; Z.to_euclidean_division_equations; lia.
Ltac in_range_N :=
  unfold continuation, in_range; rewrite ?byte_ascii_of_N by div_lia;
  apply andb_true_iff; split; apply Z.leb_le; div_lia.

Lemma encode_rune_good u : good_rune (encode_rune u) = true.
Proof.
  unfold encode_rune, surrogate. destruct (N.ltb_spec u 128).
  { cbn [good_rune]. in_range_N. }
  destruct (N.ltb_spec u 0x800).
  { cbn [fmap list_fmap good_rune]. unfold wide2. apply andb_true_iff. split; in_range_N. }
  destruct (_ || _) eqn:Hs; [done|]. apply orb_false_iff in Hs as [Hs Hmax]. apply N.ltb_ge in Hmax.
  destruct (N.ltb_spec u 0x10000).
  - unfold bytes3. cbn [fmap list_fmap good_rune]. unfold wide3. rewrite !byte_ascii_of_N by div_lia.
    apply andb_true_iff; split; [apply andb_true_iff; split|]; [in_range_N| |in_range_N].
    apply andb_false_iff in Hs. rewrite N.leb_gt, N.leb_gt in Hs.
    destruct (Z.eqb_spec (Z.of_N (224 + u / 4096)) 224), (Z.eqb_spec (Z.of_N (224 + u / 4096)) 237);
      in_range_N.
  - cbn [fmap list_fmap good_rune]. unfold wide4. rewrite !byte_ascii_of_N by div_lia.
    apply andb_true_iff; split; [apply andb_true_iff; split; [apply andb_true_iff; split|]|];
      [in_range_N| |in_range_N|in_range_N].
    destruct (Z.eqb_spec (Z.of_N (240 + u / 262144)) 240), (Z.eqb_spec (Z.of_N (240 + u / 262144)) 244);
      in_range_N.
Qed.

Lemma push_rune_inv p r k rs q rest :
  push_rune p r k = Some (rs, q, rest) → ∃ rs' q', k = Some (rs', q', rest) ∧ rs = r :: rs'.
Proof. destruct k as [[[rs' q'] rest']|]; simpl; [|done]. intros [= <- _ <-]. eauto. Qed.

Lemma unquote_good l rs p rest :
  readable_text l → unquote l = Some (rs, p, rest) → good_text rs ∧ readable_text rest.
Proof.
  revert rs p rest. induction l as [l IH] using (induction_ltof1 _ (@length rune)). unfold ltof in IH.
  intros rs p rest Hl.
  assert (∀ p' r k, good_rune r = true → readable_text k → (length k < length l)%nat →
    push_rune p' r (unquote k) = Some (rs, p, rest) → good_text rs ∧ readable_text rest) as Hpush.
  { intros p' r k Hr Hk Hlen (rs' & q' & Hu & ->)%push_rune_inv.
    destruct (IH k Hlen _ _ _ Hk Hu). split; [by apply good_cons|done]. }
  clear IH. destruct l as [|[c|w|c] l1]; [done| | |];
    apply readable_cons in Hl as [Hc Hl]; cbn [unquote];
    [|apply Hpush; [done|done|simpl; lia]..].
  destruct (Ascii.eqb c dquote); [intros [= <- <- <-]; done|].
  destruct (Ascii.eqb c backslash);
    [|destruct (byte c <? 32); [done|]; apply Hpush; [done|done|simpl; lia]].
  destruct l1 as [|[e|w|e] l2]; [done| |done..]. apply readable_cons in Hl as [He Hl].
  destruct (Ascii.eqb e "u").
  2: { destruct (simple_escape e) as [b|] eqn:Hb; [|done]. apply Hpush; [|done|simpl; lia].
       unfold simple_escape in Hb. by repeat case_match; simplify_eq. }
  destruct l2 as [|[a| |] [|[b| |] [|[x| |] [|[d| |] l3]]]]; try done.
  do 4 apply readable_cons in Hl as [_ Hl].
  destruct (hex4 a b x d) as [u|]; [|done].
  destruct (surrogate u); [|apply Hpush; [apply encode_rune_good|done|simpl; lia]].
  destruct l3 as [|[s| |] [|[e'| |] [|[a'| |] [|[b'| |] [|[c'| |] [|[d'| |] l4]]]]]];
    try (apply Hpush; [done|done|simpl; lia]).
  match goal with |- context [match ?o with Some _ => _ | None => _ end] => destruct o end;
    [|apply Hpush; [done|done|simpl; lia]].
  do 6 apply readable_cons in Hl as [_ Hl]. apply Hpush; [apply encode_rune_good|done|simpl; lia].
Qed.

(** Every string in a value is well-formed. *)
Fixpoint utf8_value (v : jval) : Prop :=
  match v with
  | VStr s _ => utf8 s
  | VArr l => foldr (λ v P, utf8_value v ∧ P) True l
  | VObj ms => foldr (λ m P, utf8_value m.2 ∧ P) True ms
  | _ => True
  end.

Lemma skip_ws_readable l : readable_text l → readable_text (skip_ws l).
Proof.
  induction l as [|[c|w|c] l IH]; try done. intros Hl. simpl. destruct (is_ws c); [|done].
  apply IH. by apply readable_cons in Hl as [_ ?].
Qed.
Lemma span_digits_readable l ds r : readable_text l → span_digits l = (ds, r) → readable_text r.
Proof.
  revert ds r. induction l as [|[c|w|c] l IH]; intros ds r Hl; simpl; try by intros [= _ <-].
  destruct (is_digit c); [|by intros [= _ <-]]. destruct (span_digits l) as [d r'].
  intros [= _ <-]. eapply IH; [|done]. by apply readable_cons in Hl as [_ ?].
Qed.
Lemma expect_readable s l r : readable_text l → expect s l = Some r → readable_text r.
Proof.
  revert l. induction s as [|c s IH]; intros l Hl; simpl; [by intros [= <-]|].
  destruct l as [|[c'|w|c'] l]; try done. destruct (Ascii.eqb c c'); [|done].
  apply IH. by apply readable_cons in Hl as [_ ?].
Qed.

Lemma number_readable l lit r : readable_text l → number l = Some (lit, r) → readable_text r.
Proof.
  assert (∀ l i, readable_text l → number_int l = Some i → readable_text i.2) as Hint.
  { intros k i Hk. unfold number_int. destruct (span_digits k) as [[|d ds] r'] eqn:Hs; [done|].
    apply span_digits_readable in Hs; [|done]. destruct (Ascii.eqb d "0"); [|by intros [= <-]].
    destruct k as [|x k]; [done|]. intros [= <-]. by apply readable_cons in Hk as [_ ?]. }
  assert (∀ l i, readable_text l → number_frac l = Some i → readable_text i.2) as Hfrac.
  { intros k i Hk. destruct k as [|[c|w|c] k]; simpl; try by intros [= <-].
    destruct (Ascii.eqb c "."); [|by intros [= <-]]. apply readable_cons in Hk as [_ Hk].
    destruct (span_digits k) as [[|d ds] r'] eqn:Hs; [done|]. intros [= <-]. by eapply span_digits_readable. }
  assert (∀ l i, readable_text l → number_exp l = Some i → readable_text i.2) as Hexp.
  { intros k i Hk. destruct k as [|[c|w|c] k]; simpl; try by intros [= <-].
    destruct (one_of "eE" c); [|by intros [= <-]]. apply readable_cons in Hk as [_ Hk].
    destruct (match k with RAscii s :: r => if one_of "+-" s then ([s], r) else ([], k) | _ => ([], k) end)
      as [sign k'] eqn:Hk'.
    assert (readable_text k') as Hr.
    { destruct k as [|[s|w|s] k]; simplify_eq; try done. apply readable_cons in Hk as [? Hk].
      destruct (one_of "+-" s); simplify_eq; [done|]. apply andb_true_iff. done. }
    destruct (span_digits k') as [[|d ds] r'] eqn:Hs; [done|]. intros [= <-]. by eapply span_digits_readable. }
  intros Hl. unfold number.
  destruct (match l with RAscii c :: r => if Ascii.eqb c "-" then ([c], r) else ([], l) | _ => ([], l) end)
    as [sign l0] eqn:Hl0.
  assert (readable_text l0) as Hr.
  { destruct l as [|[s|w|s] k]; simplify_eq; try done. destruct (Ascii.eqb s "-"); simplify_eq; [|done].
    by apply readable_cons in Hl as [_ ?]. }
  intros (i & Hi & (f & Hf & (e & He & [= _ <-])%bind_Some)%bind_Some)%bind_Some.
  eapply Hexp; [|done]. eapply Hfrac; [|done]. by eapply Hint.
Qed.

Lemma utf8_string_of rs : good_text rs → utf8 (string_of rs).
Proof. apply utf8_of_text. Qed.

(** The head of a list of runes after spaces. *)
Lemma skip_ws_head l c r : readable_text l → skip_ws l = RAscii c :: r → readable_text r.
Proof. intros Hl Hs. apply skip_ws_readable in Hl. rewrite Hs in Hl. by apply readable_cons in Hl as [_ ?]. Qed.

Definition parses_utf8 (fuel : nat) : Prop :=
  (∀ l v r, readable_text l → parse_value fuel l = Some (v, r) → utf8_value v ∧ readable_text r) ∧
  (∀ l vs r, readable_text l → parse_elements fuel l = Some (vs, r) → utf8_value (VArr vs) ∧ readable_text r) ∧
  (∀ l ms r, readable_text l → parse_members fuel l = Some (ms, r) → utf8_value (VObj ms) ∧ readable_text r).

Lemma parse_value_utf8 fuel l v r :
  parses_utf8 fuel → readable_text l → parse_value (S fuel) l = Some (v, r) → utf8_value v ∧ readable_text r.
Proof.
  intros (HP & HE & HM) Hl. cbn [parse_value].
  destruct (skip_ws l) as [|[c|w|c] k] eqn:Hs; try done.
  pose proof (skip_ws_head _ _ _ Hl Hs) as Hk.
  assert (readable_text (RAscii c :: k)) as Hck by (rewrite <-Hs; by apply skip_ws_readable).
  destruct (Ascii.eqb c "{").
  { destruct (skip_ws k) as [|[c'|w|c'] k'] eqn:Hs'; try done. pose proof (skip_ws_head _ _ _ Hk Hs').
    destruct (Ascii.eqb c' "}"); [by intros [= <- <-]|].
    intros ([ms r'] & Hm & [= <- <-])%bind_Some. by apply HM in Hm. }
  destruct (Ascii.eqb c "[").
  { destruct (skip_ws k) as [|[c'|w|c'] k'] eqn:Hs'; try done. pose proof (skip_ws_head _ _ _ Hk Hs').
    destruct (Ascii.eqb c' "]"); [by intros [= <- <-]|].
    intros ([ms r'] & Hm & [= <- <-])%bind_Some. by apply HE in Hm. }
  destruct (Ascii.eqb c dquote).
  { intros ([[rs p] r'] & Hu & [= <- <-])%bind_Some. apply unquote_good in Hu as [Hg Hr]; [|done].
    split; [by apply utf8_string_of|done]. }
  destruct (Ascii.eqb c "t"); [intros (r' & He & [= <- <-])%bind_Some; split; [done|exact (expect_readable _ _ _ Hk He)]|].
  destruct (Ascii.eqb c "f"); [intros (r' & He & [= <- <-])%bind_Some; split; [done|exact (expect_readable _ _ _ Hk He)]|].
  destruct (Ascii.eqb c "n"); [intros (r' & He & [= <- <-])%bind_Some; split; [done|exact (expect_readable _ _ _ Hk He)]|].
  intros ([lit r'] & Hn & [= <- <-])%bind_Some. split; [done|]. exact (number_readable _ _ _ Hck Hn).
Qed.

Lemma parse_elements_utf8 fuel l vs r :
  parses_utf8 fuel → readable_text l → parse_elements (S fuel) l = Some (vs, r) →
  utf8_value (VArr vs) ∧ readable_text r.
Proof.
  intros (HP & HE & HM) Hl. cbn [parse_elements].
  intros ([v k] & Hv & Hk)%bind_Some. apply HP in Hv as [Hv Hk']; [|done]. simpl in Hk.
  destruct (skip_ws k) as [|[c|w|c] k'] eqn:Hs; try done. pose proof (skip_ws_head _ _ _ Hk' Hs).
  destruct (Ascii.eqb c ",").
  - apply bind_Some in Hk as ([vs' r'] & He & [= <- <-]). apply HE in He as [? ?]; done.
  - destruct (Ascii.eqb c "]"); [|done]. by injection Hk as <- <-.
Qed.

Lemma parse_members_utf8 fuel l ms r :
  parses_utf8 fuel → readable_text l → parse_members (S fuel) l = Some (ms, r) →
  utf8_value (VObj ms) ∧ readable_text r.
Proof.
  intros (HP & HE & HM) Hl. cbn [parse_members].
  destruct (skip_ws l) as [|[q|w|q] k] eqn:Hs; try done. pose proof (skip_ws_head _ _ _ Hl Hs) as Hk.
  destruct (negb _); [done|]. intros ([[rs p] k1] & Hu & Hrest)%bind_Some.
  apply unquote_good in Hu as [_ Hk1]; [|done]. simpl in Hrest.
  destruct (skip_ws k1) as [|[c|w|c] k2] eqn:Hs1; try done. pose proof (skip_ws_head _ _ _ Hk1 Hs1) as Hk2.
  destruct (negb _); [done|]. apply bind_Some in Hrest as ([v k3] & Hv & Hrest). simpl in Hrest.
  apply HP in Hv as [Hv Hk3]; [|done].
  destruct (skip_ws k3) as [|[c'|w|c'] k4] eqn:Hs3; try done. pose proof (skip_ws_head _ _ _ Hk3 Hs3).
  destruct (Ascii.eqb c' ",").
  - apply bind_Some in Hrest as ([ms' r'] & He & [= <- <-]). apply HM in He as [? ?]; done.
  - destruct (Ascii.eqb c' "}"); [|done]. by injection Hrest as <- <-.
Qed.

Lemma parse_all_utf8 fuel : parses_utf8 fuel.
Proof.
  induction fuel as [|fuel IH]; [by split; [|split]|].
  split; [|split]; intros *; [by apply parse_value_utf8|by apply parse_elements_utf8|by apply parse_members_utf8].
Qed.

Lemma scan_value_utf8 s v r : scan_value s = Some (v, r) → utf8_value v.
Proof.
  unfold scan_value. destruct (parse_value _ _) as [[v' r']|] eqn:Hp; [|done].
  destruct (jdepth v' <=? max_depth); [|done]. intros [= <- <-].
  eapply parse_all_utf8; [apply runes_readable|exact Hp].
Qed.
Lemma Parse_json_utf8 s v : Parse_json s = Ok v → utf8_value v.
Proof.
  unfold Parse_json. destruct (scan_value s) as [[v' r]|] eqn:Hp; [|done].
  destruct (skip_ws r); [|done]. intros [= <-]. by eapply scan_value_utf8.
Qed.
