(* ===== verification/GoTime.v ===== *)
(** * Times as text: what the program uses of time.MarshalJSON, UnmarshalJSON

    The proleptic Gregorian calendar, the RFC 3339 text of an instant with
    nanoseconds, and its parser.  The offset of the local zone is the class
    [Zone], as is the lenient parser to which Go turns when a text is not
    RFC 3339.  Writing and reading an instant gives it back. *)

From S2P Require Import Prelude GoStrings GoURL World GoNumbers.
Open Scope Z_scope.

(** ** The calendar *)

(** Days from 0001-01-01 to the first of January of [y]. *)
Definition year_start (y : Z) : Z :=
  365 * (y - 1) + (y - 1) / 4 - (y - 1) / 100 + (y - 1) / 400.
Definition is_leap (y : Z) : bool :=
  (y mod 4 =? 0) && (negb (y mod 100 =? 0) || (y mod 400 =? 0)).
(** Days of the year before the month [m]. *)
Definition month_start (leap : bool) (m : Z) : Z :=
  nth (Z.to_nat (m - 1)) [0; 31; 59; 90; 120; 151; 181; 212; 243; 273; 304; 334; 365] 0
  + (if leap && (3 <=? m) then 1 else 0).
Definition days_in (y m : Z) : Z := month_start (is_leap y) (m + 1) - month_start (is_leap y) m.
Definition days_of_civil (y m d : Z) : Z := year_start y + month_start (is_leap y) m + (d - 1).

(** Year and day of the year, by cycles of 400, 100, 4 and 1 years. *)
Definition year_of_days (n : Z) : Z * Z :=
  let c := n / 146097 in
  let r := n mod 146097 in
  let a := Z.min 3 (r / 36524) in
  let r := r - 36524 * a in
  let b := r / 1461 in
  let r := r mod 1461 in
  let e := Z.min 3 (r / 365) in
  (400 * c + 100 * a + 4 * b + e + 1, r - 365 * e).

(** The month in which a day of the year falls. *)
Fixpoint find_month (leap : bool) (yday : Z) (m : Z) (fuel : nat) : Z :=
  match fuel with
  | O => m
  | S fuel => if month_start leap (m + 1) <=? yday then find_month leap yday (m + 1) fuel else m
  end.
Definition civil_of_days (n : Z) : Z * Z * Z :=
  let '(y, yday) := year_of_days n in
  let m := find_month (is_leap y) yday 1 11 in
  (y, m, yday - month_start (is_leap y) m + 1).

(** ** Text *)
Class Zone := {
  (** seconds east of UTC *)
  local_offset : Time → Z;
  (** [time.Parse(time.RFC3339, s)], tried on texts that are not RFC 3339 *)
  parse_lenient : string → result Time;
}.
(** Zones differ from UTC by less than a day, in minutes. *)
Class ZoneSpec `{Zone} : Prop := {
  offset_minutes t : local_offset t mod 60 = 0;
  offset_day t : -86400 < local_offset t < 86400;
}.

(** [k] decimal digits of [n]. *)
Fixpoint pad (k : nat) (n : Z) : list ascii :=
  match k with O => [] | S k => pad k (n / 10) ++ [digit (n mod 10)] end.

(** Without the zeros at the end. *)
Definition trim_zeros (l : list ascii) : list ascii := rev (strip_byte "0" (rev l)).

Definition format_fraction (ns : Z) : list ascii :=
  if ns =? 0 then [] else "."%char :: trim_zeros (pad 9 ns).
Definition format_offset (off : Z) : list ascii :=
  if off =? 0 then ["Z"%char] else
  let m := Z.abs off / 60 in
  (if off <? 0 then "-"%char else "+"%char) :: pad 2 (m / 60) ++ ":"%char :: pad 2 (m mod 60).

(** Layout RFC3339Nano of the instant [t] at offset [off], its year being of at
    most four digits. *)
Definition format_time (t off : Z) : list ascii :=
  let local := t / Second + off in
  let sod := local mod 86400 in
  let '(y, m, d) := civil_of_days (local / 86400) in
  pad 4 y ++ "-"%char :: pad 2 m ++ "-"%char :: pad 2 d ++ "T"%char :: pad 2 (sod / 3600)
    ++ ":"%char :: pad 2 ((sod / 60) mod 60) ++ ":"%char :: pad 2 (sod mod 60)
    ++ format_fraction (t mod Second) ++ format_offset off.

Definition year_of (t off : Z) : Z := (year_of_days ((t / Second + off) / 86400)).1.

(** [Time.MarshalJSON], without the quotes *)
Definition MarshalText `{Zone} (t : Time) : result string :=
  let off := local_offset t in
  reject (year_of t off <? 0) || (9999 <? year_of t off)
    with errorf "Time.MarshalJSON: year outside of range [0,9999]" ;;
  Ok (of_bytes (format_time t off)).

(** ** Parsing *)
Fixpoint num (k : nat) (acc : Z) (l : list ascii) : option (Z * list ascii) :=
  match k, l with
  | O, _ => Some (acc, l)
  | S k, c :: l => if is_digit c then num k (10 * acc + (byte c - 48)) l else None
  | S _, [] => None
  end.
(** A number of [k] digits between two bounds. *)
Definition num_in (k : nat) (lo hi : Z) (l : list ascii) : option (Z * list ascii) :=
  p ← num k 0 l; if (lo <=? p.1) && (p.1 <=? hi) then Some p else None.
Definition lit (c : ascii) (l : list ascii) : option (list ascii) :=
  match l with c' :: l => if Ascii.eqb c c' then Some l else None | [] => None end.

Fixpoint span (l : list ascii) : list ascii * list ascii :=
  match l with
  | c :: l' => if is_digit c then let '(d, r) := span l' in (c :: d, r) else ([], l)
  | [] => ([], [])
  end.
(** [parseNanoseconds] after the period *)
Definition fraction (ds : list ascii) : Z :=
  let ds := take 9 ds in
  default 0 (parse_digits 0 ds) * 10 ^ (9 - Z.of_nat (length ds)).
Definition parse_fraction (l : list ascii) : Z * list ascii :=
  match l with
  | c :: l' =>
      if Ascii.eqb c "." then
        match span l' with ([], _) => (0, l) | (ds, r) => (fraction ds, r) end
      else (0, l)
  | [] => (0, l)
  end.

Definition parse_offset (l : list ascii) : option Z :=
  if bool_decide (l = ["Z"%char]) then Some 0 else
  match l with
  | c :: l =>
      if negb (one_of "+-" c) then None else
      h ← num_in 2 0 23 l; l ← lit ":" h.2; m ← num_in 2 0 59 l;
      match m.2 with
      | [] => let off := (h.1 * 60 + m.1) * 60 in Some (if Ascii.eqb c "-" then - off else off)
      | _ => None
      end
  | [] => None
  end.

(** [parseRFC3339] *)
Definition parse_rfc3339 (l : list ascii) : option Time :=
  y ← num_in 4 0 9999 l; l ← lit "-" y.2;
  m ← num_in 2 1 12 l; l ← lit "-" m.2;
  d ← num_in 2 1 (days_in y.1 m.1) l; l ← lit "T" d.2;
  h ← num_in 2 0 23 l; l ← lit ":" h.2;
  n ← num_in 2 0 59 l; l ← lit ":" n.2;
  s ← num_in 2 0 59 l;
  let '(ns, l) := parse_fraction s.2 in
  off ← parse_offset l;
  Some ((days_of_civil y.1 m.1 d.1 * 86400 + h.1 * 3600 + n.1 * 60 + s.1 - off) * Second + ns).

(** [Time.UnmarshalJSON], without the quotes *)
Definition UnmarshalText `{Zone} (s : string) : result Time :=
  match parse_rfc3339 (bytes s) with
  | Some t => Ok t
  | None => parse_lenient s
  end.

#[local] Instance utc_sample : Zone := {| local_offset _ := 7200; parse_lenient _ := Err (errorf "bad time") |}.
Example format_sample : MarshalText (unix_time 1700000000 + 120000000) = Ok "2023-11-15T00:13:20.12+02:00".
Proof. run. Qed.
Example parse_sample_time : UnmarshalText "2023-11-15T00:13:20.12+02:00" = Ok (unix_time 1700000000 + 120000000).
Proof. run. Qed.
Example zero_time_sample : of_bytes (format_time 0 0) = "0001-01-01T00:00:00Z".
Proof. run. Qed.
Example leap_day : of_bytes (format_time (days_of_civil 2024 2 29 * 86400 * Second) 0) = "2024-02-29T00:00:00Z".
Proof. run. Qed.

(** ** The calendar is a bijection *)
Lemma year_of_days_start n : year_start (year_of_days n).1 + (year_of_days n).2 = n.
Proof.
  unfold year_of_days, year_start. cbn [fst snd]. Z.to_euclidean_division_equations. lia.
Qed.

Lemma year_of_days_range n :
  0 ≤ (year_of_days n).2 < 365 + (if is_leap (year_of_days n).1 then 1 else 0).
Proof.
  unfold year_of_days, is_leap. cbn [fst snd].
  set (c := n / 146097). set (r := n mod 146097).
  assert (0 ≤ r < 146097) as Hr by (apply Z.mod_pos_bound; lia). clearbody c r.
  destruct (_ && _) eqn:Hl; [|apply andb_false_iff in Hl; rewrite orb_false_iff, negb_false_iff in Hl];
    [|rewrite !Z.eqb_neq, Z.eqb_eq in Hl]; Z.to_euclidean_division_equations; lia.
Qed.

Lemma find_month_spec leap yday :
  0 ≤ yday < 365 + (if leap : bool then 1 else 0) →
  let m := find_month leap yday 1 11 in
  1 ≤ m ≤ 12 ∧ month_start leap m ≤ yday < month_start leap (m + 1).
Proof.
  intros Hy.
  assert (forallb (λ i, let y := Z.of_nat i in let m := find_month leap y 1 11 in
    (1 <=? m) && (m <=? 12) && (month_start leap m <=? y) && (y <? month_start leap (m + 1)))
    (seq 0 (if leap then 366 else 365)) = true) as Hall by by destruct leap; vm_compute.
  rewrite forallb_forall in Hall. specialize (Hall (Z.to_nat yday)).
  rewrite Z2Nat.id in Hall by lia. cbn zeta in Hall.
  assert (In (Z.to_nat yday) (seq 0 (if leap then 366 else 365)%nat)) as Hin by (apply in_seq; destruct leap; lia).
  apply Hall in Hin. bool_inv. cbn zeta. lia.
Qed.

(** The date of a day, and the day of that date. *)
Lemma civil_of_days_spec n y m d :
  civil_of_days n = (y, m, d) →
  y = (year_of_days n).1 ∧ 1 ≤ m ≤ 12 ∧ 1 ≤ d ≤ days_in y m ∧ days_of_civil y m d = n.
Proof.
  unfold civil_of_days. pose proof (year_of_days_start n) as Hs. pose proof (year_of_days_range n) as Hr.
  destruct (year_of_days n) as [y' yday]. cbn [fst snd] in *.
  pose proof (find_month_spec (is_leap y') yday Hr) as Hm. cbn zeta in *.
  set (m' := find_month _ _ _ _) in *. clearbody m'. destruct Hm as [Hm Hd].
  intros [= <- <- <-]. unfold days_in, days_of_civil. split; [done|]. split; [done|]. lia.
Qed.

Lemma days_in_bound y m : 1 ≤ m ≤ 12 → days_in y m < 100.
Proof.
  intros Hm. unfold days_in. assert (m = 1 ∨ m = 2 ∨ m = 3 ∨ m = 4 ∨ m = 5 ∨ m = 6 ∨ m = 7 ∨ m = 8 ∨ m = 9
    ∨ m = 10 ∨ m = 11 ∨ m = 12) as Hc by lia.
  by destruct (is_leap y); repeat (destruct Hc as [->|Hc]; [by vm_compute|]); subst.
Qed.

(** ** Digits *)
Lemma num_app k1 k2 acc l l' a :
  num k1 acc l = Some (a, l') → num (k1 + k2) acc l = num k2 a l'.
Proof.
  revert acc l. induction k1 as [|k1 IH]; intros acc l; simpl; [by intros [= <- <-]|].
  destruct l as [|c l]; [done|]. destruct (is_digit c); [|done]. apply IH.
Qed.

Lemma num_pad k n l acc :
  0 ≤ n < 10 ^ Z.of_nat k → num k acc (pad k n ++ l) = Some (acc * 10 ^ Z.of_nat k + n, l).
Proof.
  revert n l acc. induction k as [|k IH]; intros n l acc Hn.
  { simpl in *. f_equal. f_equal. lia. }
  rewrite Nat2Z.inj_succ, Z.pow_succ_r in * by lia. cbn [pad]. rewrite <-app_assoc.
  assert (0 ≤ n / 10 < 10 ^ Z.of_nat k) as Hd.
  { split; [apply Z.div_pos; lia|apply Z.div_lt_upper_bound; lia]. }
  replace (S k) with (k + 1)%nat by lia. erewrite num_app by by apply IH.
  destruct (digit_props (n mod 10)) as [Hdig Hval]; [by apply Z.mod_pos_bound|].
  cbn [app num]. rewrite Hdig, Hval. f_equal. f_equal. pose proof (Z.div_mod n 10). lia.
Qed.

Lemma num_in_pad k lo hi n l :
  0 ≤ n < 10 ^ Z.of_nat k → lo ≤ n ≤ hi → num_in k lo hi (pad k n ++ l) = Some (n, l).
Proof.
  intros Hn Hb. unfold num_in. rewrite num_pad by done. cbn [mbind option_bind fst].
  rewrite Z.mul_0_l, Z.add_0_l. destruct (Z.leb_spec lo n), (Z.leb_spec n hi); [done|lia..].
Qed.

Lemma lit_cons c l : lit c (c :: l) = Some l.
Proof. simpl. by rewrite Ascii.eqb_refl. Qed.

Lemma length_pad k n : length (pad k n) = k.
Proof. revert n. induction k as [|k IH]; intros n; simpl; [done|]. rewrite length_app, IH. simpl. lia. Qed.

Lemma pad_digits k n : 0 ≤ n → Forall (λ c, is_digit c = true) (pad k n).
Proof.
  revert n. induction k as [|k IH]; intros n Hn; simpl; [done|]. apply list.Forall_app. split.
  - apply IH. by apply Z.div_pos.
  - constructor; [|done]. apply digit_props. by apply Z.mod_pos_bound.
Qed.

Lemma parse_digits_pad k n acc :
  0 ≤ n < 10 ^ Z.of_nat k → parse_digits acc (pad k n) = Some (acc * 10 ^ Z.of_nat k + n).
Proof.
  revert n acc. induction k as [|k IH]; intros n acc Hn.
  { simpl in *. f_equal. lia. }
  rewrite Nat2Z.inj_succ, Z.pow_succ_r in * by lia. cbn [pad].
  rewrite parse_digits_app, IH by (split; [apply Z.div_pos; lia|apply Z.div_lt_upper_bound; lia]).
  destruct (digit_props (n mod 10)) as [Hdig Hval]; [by apply Z.mod_pos_bound|].
  cbn [parse_digits]. rewrite Hdig, Hval. f_equal. pose proof (Z.div_mod n 10). lia.
Qed.

(** ** The fraction *)
Lemma span_digits_all ds l :
  Forall (λ c, is_digit c = true) ds → (∀ c l', l = c :: l' → is_digit c = false) → span (ds ++ l) = (ds, l).
Proof.
  intros Hds Hl. induction Hds as [|c ds Hc _ IH]; simpl.
  - destruct l as [|c l]; [done|]. simpl. by rewrite (Hl c l eq_refl).
  - by rewrite Hc, IH.
Qed.

(** Zeros at the end do not count. *)
Lemma trim_zeros_spec l : ∃ k, l = trim_zeros l ++ replicate k "0"%char.
Proof.
  unfold trim_zeros. destruct (strip_byte_spec "0" (rev l)) as [k Hk]. exists k.
  rewrite <-(rev_involutive l), Hk at 1. rewrite rev_app_distr. f_equal. rewrite rev_alt. apply reverse_replicate.
Qed.

Lemma parse_digits_zeros k acc : parse_digits acc (replicate k "0"%char) = Some (acc * 10 ^ Z.of_nat k).
Proof.
  revert acc. induction k as [|k IH]; intros acc; [simpl; f_equal; lia|].
  cbn [replicate parse_digits]. change (is_digit "0") with true. cbn iota. rewrite IH.
  rewrite Nat2Z.inj_succ, Z.pow_succ_r by lia. change (byte "0" - 48) with 0. f_equal. lia.
Qed.

Lemma fraction_trim ns :
  0 < ns < Second → trim_zeros (pad 9 ns) ≠ [] ∧ Forall (λ c, is_digit c = true) (trim_zeros (pad 9 ns))
    ∧ fraction (trim_zeros (pad 9 ns)) = ns.
Proof.
  intros Hns. pose proof (parse_digits_pad 9 ns 0 ltac:(unfold Second in *; simpl; lia)) as Hp.
  rewrite Z.mul_0_l, Z.add_0_l in Hp. pose proof (length_pad 9 ns) as Hlen.
  pose proof (pad_digits 9 ns ltac:(lia)) as Hd.
  destruct (trim_zeros_spec (pad 9 ns)) as [k Hk]. set (t := trim_zeros (pad 9 ns)) in *. clearbody t.
  rewrite Hk in Hp, Hlen, Hd. rewrite length_app, length_replicate in Hlen.
  apply list.Forall_app in Hd as [Hd _]. rewrite parse_digits_app in Hp.
  destruct (parse_digits 0 t) as [v|] eqn:Hv; [|done]. rewrite parse_digits_zeros in Hp. injection Hp as Hp.
  split; [|split; [done|]].
  - intros ->. simpl in Hv. injection Hv as <-. lia.
  - unfold fraction. rewrite take_ge by lia. rewrite Hv. simpl.
    replace (9 - Z.of_nat (length t)) with (Z.of_nat k) by lia. done.
Qed.

Lemma offset_not_digit off c l : format_offset off = c :: l → is_digit c = false ∧ Ascii.eqb c "." = false.
Proof.
  unfold format_offset. destruct (off =? 0); [by intros [= <- <-]|].
  destruct (off <? 0); by intros [= <- <-].
Qed.

Lemma parse_format_fraction ns off :
  0 ≤ ns < Second → parse_fraction (format_fraction ns ++ format_offset off) = (ns, format_offset off).
Proof.
  intros Hns. unfold format_fraction. destruct (Z.eqb_spec ns 0) as [->|Hne].
  - simpl. destruct (format_offset off) as [|c l] eqn:Hf; [done|].
    apply offset_not_digit in Hf as [_ Hc]. simpl. by rewrite Hc.
  - destruct (fraction_trim ns ltac:(lia)) as (Hne' & Hd & Hf). cbn [app parse_fraction].
    change (Ascii.eqb "." ".") with true. cbn iota.
    rewrite span_digits_all; [|done|intros c l Hc; by eapply offset_not_digit].
    destruct (trim_zeros (pad 9 ns)) eqn:E; [done|]. by rewrite Hf.
Qed.

Lemma parse_format_offset off :
  off mod 60 = 0 → -86400 < off < 86400 → parse_offset (format_offset off) = Some off.
Proof.
  intros Hm Hb. unfold format_offset. destruct (Z.eqb_spec off 0) as [->|Hne]; [done|].
  set (s := if off <? 0 then "-"%char else "+"%char). unfold parse_offset. rewrite bool_decide_eq_false_2.
  2: { unfold s. by destruct (off <? 0). }
  assert (negb (one_of "+-" s) = false) as -> by by unfold s; destruct (off <? 0).
  rewrite num_in_pad by (Z.to_euclidean_division_equations; simpl; lia).
  cbn [mbind option_bind snd fst]. rewrite lit_cons. cbn [mbind option_bind].
  rewrite <-(app_nil_r (pad 2 (Z.abs off / 60 mod 60))).
  rewrite num_in_pad by (Z.to_euclidean_division_equations; simpl; lia).
  cbn [mbind option_bind snd fst]. unfold s. destruct (Z.ltb_spec off 0).
  - change (Ascii.eqb "-" "-") with true. cbn iota. f_equal. Z.to_euclidean_division_equations. lia.
  - change (Ascii.eqb "+" "-") with false. cbn iota. f_equal. Z.to_euclidean_division_equations. lia.
Qed.

(** ** Reading back what was written *)
Lemma parse_format_time t off :
  off mod 60 = 0 → -86400 < off < 86400 → 0 ≤ year_of t off ≤ 9999 →
  parse_rfc3339 (format_time t off) = Some t.
Proof.
  intros Hm Hb Hy. unfold format_time, year_of in *. set (local := t / Second + off) in *.
  destruct (civil_of_days (local / 86400)) as [[y m] d] eqn:Hc.
  apply civil_of_days_spec in Hc as (Hyear & Hmonth & Hday & Hdays). rewrite <-Hyear in Hy.
  pose proof (days_in_bound y m Hmonth) as Hdb.
  assert (0 ≤ local mod 86400 < 86400) as Hsod by (apply Z.mod_pos_bound; lia).
  assert (0 ≤ t mod Second < Second) as Hns by (apply Z.mod_pos_bound; unfold Second; lia).
  assert (local = 86400 * (local / 86400) + local mod 86400) as Hlocal by (apply Z.div_mod; lia).
  assert (t = Second * (t / Second) + t mod Second) as Ht by (apply Z.div_mod; unfold Second; lia).
  set (sod := local mod 86400) in *. clearbody sod.
  unfold parse_rfc3339.
  rewrite num_in_pad by (simpl; lia). cbn [mbind option_bind fst snd]. rewrite lit_cons. cbn [mbind option_bind].
  rewrite num_in_pad by (simpl; lia). cbn [mbind option_bind fst snd]. rewrite lit_cons. cbn [mbind option_bind].
  rewrite num_in_pad by (simpl; lia). cbn [mbind option_bind fst snd]. rewrite lit_cons. cbn [mbind option_bind].
  rewrite num_in_pad by (Z.to_euclidean_division_equations; simpl; lia).
  cbn [mbind option_bind fst snd]. rewrite lit_cons. cbn [mbind option_bind].
  rewrite num_in_pad by (Z.to_euclidean_division_equations; simpl; lia).
  cbn [mbind option_bind fst snd]. rewrite lit_cons. cbn [mbind option_bind].
  rewrite num_in_pad by (Z.to_euclidean_division_equations; simpl; lia).
  cbn [mbind option_bind fst snd]. rewrite parse_format_fraction by done. rewrite parse_format_offset by done.
  cbn [mbind option_bind]. f_equal. rewrite Hdays.
  assert (sod / 3600 * 3600 + sod / 60 mod 60 * 60 + sod mod 60 = sod) as Hs
    by (Z.to_euclidean_division_equations; lia).
  unfold local in *. lia.
Qed.

Lemma Unmarshal_MarshalText `{ZoneSpec} t s : MarshalText t = Ok s → UnmarshalText s = Ok t.
Proof.
  unfold MarshalText, UnmarshalText. intros [Hr Hs]%reject_if_ok.
  assert (of_bytes (format_time t (local_offset t)) = s) as <- by congruence. clear Hs.
  apply orb_false_iff in Hr as [Hr1 Hr2]. bool_inv. rewrite bytes_of_bytes.
  rewrite parse_format_time; [done|apply offset_minutes|apply offset_day|lia].
Qed.

(** Coordinated universal time *)
Definition utc : Zone := {| local_offset _ := 0; parse_lenient _ := Err (errorf "bad time") |}.
