(* ===== verification/GoStruct.v ===== *)
(** * Structs and JSON: what the program uses of encoding/json's reflection

    A struct is decoded member by member: a member is matched with the first
    field of its name up to letter case, the last of several members of one name
    wins, null leaves a field alone but empties a slice, a map or a pointer, and
    members that match no field are skipped, or refused by a strict decoder.
    Slices are decoded over their old elements, as Go does for repeated members;
    elements that an earlier, shorter array has cut off count as zero here.  A nil
    slice is written as null and is not told from an empty one. *)

From S2P Require Import Prelude GoStrings GoURL World GoNumbers GoJSON GoTime.
Open Scope Z_scope.

(** ** Structs *)

(** [foldName]: upper-case letters; U+212A and U+017F are the only other runes
    that fold to a letter. *)
Definition fold_rune (r : rune) : rune :=
  match r with
  | RAscii c => RAscii (upper_byte c)
  | RWide l =>
      if bool_decide (l = ascii_of_N <$> [226; 132; 170]%N) then RAscii "K" else
      if bool_decide (l = ascii_of_N <$> [197; 191]%N) then RAscii "S" else r
  | RError _ => r
  end.
#[export] Instance rune_eq_dec : EqDecision rune.
Proof. solve_decision. Defined.
Definition same_name (n field : string) : bool :=
  bool_decide (fold_rune <$> runes (bytes n) = fold_rune <$> runes (bytes field)).

(** Decoding errors: their texts are not looked at. *)
Definition type_error : goerr := errorf "json: cannot unmarshal into Go struct field".

(** Decoders of the members of a struct [A], by field name. *)
Definition decoders (A : Type) : Type := list (string * (jval → A → result A)).

(** The first name that a member matches. *)
Fixpoint field_index (names : list string) (n : string) : option nat :=
  match names with
  | [] => None
  | f :: names => if same_name n f then Some 0%nat else S <$> field_index names n
  end.
Definition field_decoder {A} (fs : decoders A) (n : string) : option (jval → A → result A) :=
  i ← field_index (fst <$> fs) n; snd <$> fs !! i.

(** [strict] is [DisallowUnknownFields]. *)
Definition unknown_field : goerr := errorf "json: unknown field".
Fixpoint decode_members {A} (strict : bool) (fs : decoders A) (ms : list (string * jval)) (a : A) : result A :=
  match ms with
  | [] => Ok a
  | (n, v) :: ms =>
      let? a := match field_decoder fs n with
                | Some dec => dec v a
                | None => if strict then Err unknown_field else Ok a
                end in
      decode_members strict fs ms a
  end.

(** A value decoded into a struct that holds [a]. *)
Definition decode_struct {A} (strict : bool) (fs : decoders A) (v : jval) (a : A) : result A :=
  match v with
  | VObj ms => decode_members strict fs ms a
  | VNull => Ok a
  | _ => Err type_error
  end.

(** [json.Unmarshal] into a zero value *)
Definition Unmarshal {A} (fs : decoders A) (zero : A) (b : string) : result A :=
  let? v := Parse_json b in decode_struct false fs v zero.

(** [json.NewDecoder(http.MaxBytesReader(w, body, limit)).Decode]: the first value
    of the text, found within the first [limit] bytes.  An object ends with its
    brace; another value ends where the next byte or the end of the text shows
    it, which the decoder cannot read past the limit. *)
Definition Decode {A} (strict : bool) (limit : Z) (fs : decoders A) (zero : A) (body : string) : result A :=
  match scan_value (of_bytes (take (Z.to_nat limit) (bytes body))) with
  | Some (VObj ms, _) => decode_struct strict fs (VObj ms) zero
  | Some (v, rest) =>
      if bool_decide (rest = []) && (limit <? len body) then Err (errorf "http: request body too large")
      else decode_struct strict fs v zero
  | None => Err syntax_error
  end.

Section decoders.
Context `{Zone} {A : Type}.

Definition dec_string (set : A → string → A) (v : jval) (a : A) : result A :=
  match v with
  | VStr s _ => Ok (set a s)
  | VNull => Ok a
  | _ => Err type_error
  end.
Definition dec_int64 (set : A → Z → A) (v : jval) (a : A) : result A :=
  match v with
  | VNum lit => let? n := ParseInt lit in Ok (set a n)
  | VNull => Ok a
  | _ => Err type_error
  end.
Definition dec_time (set : A → Time → A) (v : jval) (a : A) : result A :=
  match v with
  | VStr s true => let? t := UnmarshalText s in Ok (set a t)
  | VNull => Ok a
  | _ => Err type_error
  end.
Definition dec_bool (set : A → bool → A) (v : jval) (a : A) : result A :=
  match v with
  | VBool b => Ok (set a b)
  | VNull => Ok a
  | _ => Err type_error
  end.
(** A field of type [*int64] *)
Definition dec_int64_ptr (set : A → option Z → A) (v : jval) (a : A) : result A :=
  match v with
  | VNull => Ok (set a None)
  | VNum lit => let? n := ParseInt lit in Ok (set a (Some n))
  | _ => Err type_error
  end.
End decoders.

(** The elements of a slice are decoded over those it has from an earlier member
    of the same name. *)
Fixpoint dec_elements {B} (dec : jval → B → result B) (zero : B) (l : list jval) (old : list B)
    : result (list B) :=
  match l with
  | [] => Ok []
  | v :: l =>
      let? b := dec v (default zero (head old)) in
      let? bs := dec_elements dec zero l (tail old) in
      Ok (b :: bs)
  end.
Definition dec_slice {A B} (dec : jval → B → result B) (zero : B) (get : A → list B) (set : A → list B → A)
    (v : jval) (a : A) : result A :=
  match v with
  | VArr l => let? bs := dec_elements dec zero l (get a) in Ok (set a bs)
  | VNull => Ok (set a [])
  | _ => Err type_error
  end.
Definition dec_strings {A} : (A → list string) → (A → list string → A) → jval → A → result A :=
  dec_slice (dec_string (λ _ x, x)) "".

(** The members of a map are added to those it has, each decoded over a zero
    value. *)
Fixpoint dec_entries {B} (dec : jval → B → result B) (zero : B) (ms : list (string * jval)) (m : gmap string B)
    : result (gmap string B) :=
  match ms with
  | [] => Ok m
  | (k, v) :: ms => let? x := dec v zero in dec_entries dec zero ms (<[k := x]> m)
  end.
Definition decode_map {B} (dec : jval → B → result B) (zero : B) (v : jval) (m : gmap string B)
    : result (gmap string B) :=
  match v with
  | VObj ms => dec_entries dec zero ms m
  | VNull => Ok ∅
  | _ => Err type_error
  end.
(** [json.Unmarshal] into a nil map *)
Definition Unmarshal_map {B} (dec : jval → B → result B) (zero : B) (b : string) : result (gmap string B) :=
  let? v := Parse_json b in decode_map dec zero v ∅.
(** A value that is itself of type string, []string, map[string]string *)
Definition string_value : jval → string → result string := dec_string (λ _ x, x).
Definition strings_value : jval → list string → result (list string) := dec_strings id (λ _ x, x).
Definition dec_map {A} (get : A → gmap string string) (set : A → gmap string string → A) (v : jval) (a : A)
    : result A :=
  let? m := decode_map string_value "" v (get a) in Ok (set a m).

Definition json_string (s : string) : jval := VStr s (plain_string s).
Definition json_strings (l : list string) : jval :=
  match l with [] => VNull | _ => VArr (json_string <$> l) end.
Definition json_int (n : Z) : jval := VNum (FormatInt n).
(** Maps are written with their keys in order. *)
Definition map_entries {B} (m : gmap string B) : list (string * B) :=
  omap (λ k, pair k <$> m !! k) (keysSorted (dom m)).
Definition json_map (m : list (string * string)) : jval := VObj (prod_map id json_string <$> m).
(** A map that is kept as its entries in the order of their keys *)
Definition dec_entries_of {A} (get : A → list (string * string)) (set : A → list (string * string) → A)
    (v : jval) (a : A) : result A :=
  let? m := decode_map string_value "" v (list_to_map (get a)) in Ok (set a (map_entries m)).
(** Members that are left out when empty. *)
Definition opt_string (n s : string) : list (string * jval) :=
  if bool_decide (s = "") then [] else [(n, json_string s)].
Definition opt_strings (n : string) (l : list string) : list (string * jval) :=
  match l with [] => [] | _ => [(n, VArr (json_string <$> l))] end.
Definition opt_map (n : string) (m : list (string * string)) : list (string * jval) :=
  match m with [] => [] | _ => [(n, json_map m)] end.

(** ** Well-formed strings stay well-formed *)

(** A decoder whose result has well-formed strings if value and record have. *)
Definition keeps_utf8 {A} (strings : A → list string) (dec : jval → A → result A) : Prop :=
  ∀ v a a', utf8_value v → Forall utf8 (strings a) → dec v a = Ok a' → Forall utf8 (strings a').

Lemma decode_members_utf8 {A} (strings : A → list string) strict fs ms a a' :
  Forall (λ f, keeps_utf8 strings f.2) fs → utf8_value (VObj ms) → Forall utf8 (strings a) →
  decode_members strict fs ms a = Ok a' → Forall utf8 (strings a').
Proof.
  intros Hfs. assert (∀ n dec, field_decoder fs n = Some dec → keeps_utf8 strings dec) as Hdec.
  { intros n dec (i & _ & ([f d] & Hi & [= <-])%fmap_Some)%bind_Some.
    by apply (list.Forall_lookup_1 _ _ _ _ Hfs Hi). }
  revert a. induction ms as [|[n v] ms IH]; intros a Hms Ha; simpl; [by intros [= <-]|].
  destruct Hms as [Hv Hms]. intros (b & Hb & Hr)%result_bind_ok. apply (IH b); [done| |done].
  destruct (field_decoder fs n) as [dec|] eqn:Hf; [by apply (Hdec n dec Hf v a b)|destruct strict; by simplify_eq].
Qed.

Lemma Unmarshal_utf8 {A} (strings : A → list string) fs zero b a :
  Forall (λ f, keeps_utf8 strings f.2) fs → Forall utf8 (strings zero) →
  Unmarshal fs zero b = Ok a → Forall utf8 (strings a).
Proof.
  intros Hfs Hz (v & Hv & Hd)%result_bind_ok. apply Parse_json_utf8 in Hv.
  destruct v; simpl in Hd; simplify_eq; [done|]. by eapply decode_members_utf8.
Qed.

Section keeps_utf8.
Context `{Zone} {A : Type} (strings : A → list string).

Lemma dec_string_utf8 set :
  (∀ a x, utf8 x → Forall utf8 (strings a) → Forall utf8 (strings (set a x))) →
  keeps_utf8 strings (dec_string set).
Proof. intros Hset v a a' Hv Ha. destruct v; simpl; try done; intros [= <-]; [done|by apply Hset]. Qed.
Lemma dec_strings_utf8 get set :
  (∀ a, Forall utf8 (strings a) → Forall utf8 (get a)) →
  (∀ a x, Forall utf8 x → Forall utf8 (strings a) → Forall utf8 (strings (set a x))) →
  keeps_utf8 strings (dec_strings get set).
Proof.
  intros Hget Hset v a a' Hv Ha. destruct v as [| | | |l|]; simpl; try done; [intros [= <-]; by apply Hset|].
  intros (ss & Hss & [= <-])%result_bind_ok. apply Hset; [|done]. specialize (Hget a Ha).
  revert ss Hss Hget. generalize (get a). clear -Hv. induction l as [|v l IH]; intros old ss; simpl; [by intros [= <-]|].
  destruct Hv as [Hv Hl]. intros (b & Hb & (bs & Hbs & [= <-])%result_bind_ok)%result_bind_ok Hold.
  constructor; [|apply (IH Hl (tail old)); [done|by destruct Hold]].
  destruct v; simpl in Hb; simplify_eq; [|done]. by destruct Hold.
Qed.
Lemma dec_time_utf8 set : (∀ a x, strings (set a x) = strings a) → keeps_utf8 strings (dec_time set).
Proof.
  intros Hset v a a' Hv Ha. destruct v as [| | |s []| |]; simpl; try done; [by intros [= <-]|].
  intros (t & _ & [= <-])%result_bind_ok. by rewrite Hset.
Qed.
Lemma dec_int64_utf8 set : (∀ a x, strings (set a x) = strings a) → keeps_utf8 strings (dec_int64 set).
Proof.
  intros Hset v a a' Hv Ha. destruct v; simpl; try done; [by intros [= <-]|].
  intros (t & _ & [= <-])%result_bind_ok. by rewrite Hset.
Qed.
End keeps_utf8.

(** ** Reading back what was written *)

(** The letters of a time need no escape. *)
Definition time_letter (c : ascii) : Prop := is_digit c = true ∨ one_of "-:TZ.+" c = true.

Lemma time_letter_plain c : time_letter c → good_rune (RAscii c) = true ∧ plain_rune (RAscii c) = true.
Proof.
  unfold time_letter. destruct c as [[] [] [] [] [] [] [] []]; intros [Hc|Hc]; try discriminate Hc; done.
Qed.

Lemma time_letters_plain l :
  Forall time_letter l → utf8 (of_bytes l) ∧ plain_string (of_bytes l) = true.
Proof.
  intros Hl. assert (forallb good_rune (RAscii <$> l) = true ∧ forallb plain_rune (RAscii <$> l) = true) as [Hg Hp].
  { induction Hl as [|c l Hc _ [IH1 IH2]]; [done|]. cbn [fmap list_fmap forallb].
    destruct (time_letter_plain c Hc) as [-> ->]. by rewrite IH1, IH2. }
  assert (text (RAscii <$> l) = l) as Ht by (clear; unfold text; induction l as [|c l IH]; [done|];
    cbn [fmap list_fmap concat rune_bytes app] in *; by rewrite IH).
  unfold utf8, ValidString, plain_string. rewrite bytes_of_bytes, <-Ht, runes_text by done. done.
Qed.

Lemma pad_letters k n : 0 ≤ n → Forall time_letter (pad k n).
Proof. intros Hn. eapply list.Forall_impl; [by apply pad_digits|]. intros c Hc. by left. Qed.

Lemma trim_zeros_letters l : Forall time_letter l → Forall time_letter (trim_zeros l).
Proof. destruct (trim_zeros_spec l) as [k Hk]. rewrite Hk at 1. by intros [? _]%list.Forall_app. Qed.

Lemma letters_sep l c k :
  Forall time_letter l → time_letter c → Forall time_letter k → Forall time_letter (l ++ c :: k).
Proof. intros. apply list.Forall_app_2; [done|]. by apply list.Forall_cons_2. Qed.

Lemma format_time_letters t off :
  -86400 < off < 86400 → 0 ≤ year_of t off → Forall time_letter (format_time t off).
Proof.
  intros Hb Hy. unfold format_time, year_of in *. set (local := t / Second + off) in *.
  destruct (civil_of_days (local / 86400)) as [[y m] d] eqn:Hc.
  apply civil_of_days_spec in Hc as (Hyear & Hmonth & Hday & _). rewrite <-Hyear in Hy.
  assert (0 ≤ local mod 86400 < 86400) as Hsod by (apply Z.mod_pos_bound; lia).
  assert (0 ≤ t mod Second < Second) as Hns by (apply Z.mod_pos_bound; unfold Second; lia).
  set (sod := local mod 86400) in *. clearbody sod.
  assert (∀ c, one_of "-:TZ.+" c = true → time_letter c) as Hsep by by right.
  do 5 (apply letters_sep; [apply pad_letters; Z.to_euclidean_division_equations; lia|by apply Hsep|]).
  apply list.Forall_app_2; [apply pad_letters; Z.to_euclidean_division_equations; lia|].
  apply list.Forall_app_2.
  - unfold format_fraction. destruct (Z.eqb _ 0); [done|]. apply list.Forall_cons_2; [by apply Hsep|].
    apply trim_zeros_letters, pad_letters. lia.
  - unfold format_offset. destruct (Z.eqb _ 0); [apply list.Forall_cons_2; [by apply Hsep|done]|].
    apply list.Forall_cons_2; [destruct (off <? 0); by apply Hsep|].
    apply letters_sep; [|by apply Hsep|]; apply pad_letters; Z.to_euclidean_division_equations; lia.
Qed.

Section zone.
Context `{ZoneSpec}.

Lemma MarshalText_plain t s : MarshalText t = Ok s → utf8 s ∧ true = plain_string s.
Proof.
  unfold MarshalText. intros [Hr Hs]%reject_if_ok.
  assert (of_bytes (format_time t (local_offset t)) = s) as <- by congruence. clear Hs.
  apply orb_false_iff in Hr as [Hr _]. bool_inv.
  destruct (time_letters_plain (format_time t (local_offset t))) as [? ?]; [|done].
  apply format_time_letters; [apply offset_day|lia].
Qed.

Lemma json_strings_printable l : Forall utf8 l → printable (json_strings l).
Proof.
  unfold json_strings. intros Hl. destruct l as [|x l]; [done|].
  induction Hl as [|y k Hy _ IH]; [done|]. by split.
Qed.

Lemma dec_json_strings {A} get (set : A → list string → A) l a :
  dec_strings get set (json_strings l) a = Ok (set a l).
Proof.
  unfold json_strings, dec_strings, dec_slice. destruct l as [|x l]; [done|].
  assert (∀ k old, dec_elements (dec_string (λ _ x, x)) "" (json_string <$> k) old = Ok k) as Hk.
  { induction k as [|y k IH]; intros old; [done|]. cbn [fmap list_fmap dec_elements]. by rewrite IH. }
  by rewrite Hk.
Qed.

Lemma dec_time_text {A} (set : A → Time → A) t s a :
  MarshalText t = Ok s → dec_time set (VStr s true) a = Ok (set a t).
Proof. intros Hm. unfold dec_time. by rewrite (Unmarshal_MarshalText t s Hm). Qed.

End zone.

Lemma members_step {A} strict (fs : decoders A) n v ms a i f dec a' :
  field_index (fst <$> fs) n = Some i → fs !! i = Some (f, dec) → dec v a = Ok a' →
  decode_members strict fs ((n, v) :: ms) a = decode_members strict fs ms a'.
Proof.
  intros Hi Hf Hd. cbn [decode_members]. unfold field_decoder. rewrite Hi. cbn [mbind option_bind].
  rewrite Hf. cbn [fmap option_fmap option_map snd]. by rewrite Hd.
Qed.

Lemma dec_json_string {A} (set : A → string → A) s a : dec_string set (json_string s) a = Ok (set a s).
Proof. done. Qed.

Lemma dec_json_int {A} (set : A → Z → A) n a :
  is_int64 n → dec_int64 set (VNum (FormatInt n)) a = Ok (set a n).
Proof. intros Hn. unfold dec_int64. by rewrite ParseInt_FormatInt. Qed.

Lemma printable_member n v ms :
  utf8 n → printable v → printable (VObj ms) → printable (VObj ((n, v) :: ms)).
Proof. by split. Qed.


(** Depths of what is written. *)
Lemma json_strings_depth l : jdepth (json_strings l) ≤ 1.
Proof.
  unfold json_strings. destruct l as [|x l]; [done|]. cbn [jdepth].
  assert (foldr (λ v n, Z.max (jdepth v) n) 0 (json_string <$> x :: l) ≤ 0); [|lia].
  induction (x :: l) as [|y k IH]; [done|]. cbn [fmap list_fmap foldr json_string jdepth]. lia.
Qed.

(** Members of a struct with [omitempty]: left out, the field keeps its zero. *)
Lemma decode_opt_string {A} fs n s ms (a a' : A) i f set :
  field_index (fst <$> fs) n = Some i → fs !! i = Some (f, dec_string set) → set a s = a' → (s = "" → a' = a) →
  decode_members false fs (opt_string n s ++ ms) a = decode_members false fs ms a'.
Proof.
  intros Hi Hf Hs Hz. unfold opt_string. case_bool_decide as He; cbn [app]; [by rewrite Hz|].
  erewrite members_step; [done|done|done|]. by rewrite dec_json_string, Hs.
Qed.
Lemma decode_opt_strings {A} fs n l ms (a a' : A) i f get set :
  field_index (fst <$> fs) n = Some i → fs !! i = Some (f, dec_strings get set) → set a l = a' →
  (l = [] → a' = a) →
  decode_members false fs (opt_strings n l ++ ms) a = decode_members false fs ms a'.
Proof.
  intros Hi Hf Hs Hz. unfold opt_strings. destruct l as [|x l]; cbn [app]; [by rewrite Hz|].
  erewrite members_step; [done|done|done|]. pose proof (dec_json_strings get set (x :: l) a) as Hd.
  cbn [json_strings] in Hd. by rewrite Hd, Hs.
Qed.

Lemma printable_opt_string n s ms :
  utf8 n → utf8 s → printable (VObj ms) → printable (VObj (opt_string n s ++ ms)).
Proof. intros. unfold opt_string. case_bool_decide; [done|]. by apply printable_member. Qed.
Lemma printable_opt_strings n l ms :
  utf8 n → Forall utf8 l → printable (VObj ms) → printable (VObj (opt_strings n l ++ ms)).
Proof.
  intros Hn Hl Hm. unfold opt_strings. destruct l as [|x l]; [done|]. apply printable_member; [done| |done].
  by apply (json_strings_printable (x :: l)).
Qed.

Lemma jdepth_members k ms : 0 ≤ k → Forall (λ m, jdepth m.2 ≤ k) ms → jdepth (VObj ms) ≤ 1 + k.
Proof.
  intros Hk Hms. cbn [jdepth]. assert (foldr (λ m n, Z.max (jdepth m.2) n) 0 ms ≤ k); [|lia].
  induction Hms as [|m ms Hm _ IH]; cbn [foldr]; lia.
Qed.
Lemma flat_opt_string n s : Forall (λ m, jdepth m.2 ≤ 1) (opt_string n s).
Proof. unfold opt_string. case_bool_decide; [done|]. by apply list.Forall_singleton. Qed.
Lemma flat_opt_strings n l : Forall (λ m, jdepth m.2 ≤ 1) (opt_strings n l).
Proof.
  unfold opt_strings. destruct l as [|x l]; [done|]. apply list.Forall_singleton.
  apply (json_strings_depth (x :: l)).
Qed.
