(* ===== verification/Session.v ===== *)
(** * Sessions: internal/session

    The [Store] interface as a record of operations, the contract
    [SessionStoreSpec] that a plain store promises (relative to a view of the
    world as a finite map), the in-memory implementation, which satisfies the
    contract, and [LifecycleStore], which wraps any store and enforces the
    absolute and the idle life time.  The theorems about the life time are
    proved against the contract. *)

From S2P Require Import Prelude GoStrings World.
Open Scope Z_scope.

(** [type Store interface] *)
Record SessionStore := mkSessionStore {
  ss_Get : string → M (result Session);
  ss_Put : Session → M (result unit);
  ss_Delete : string → M (result unit);
}.

(** A session is expired at [t] when it has an expiry that is not after [t]. *)
Definition session_expired (s : Session) (t : Time) : bool :=
  negb (IsZero (ses_ExpiresAt s)) && negb (After (ses_ExpiresAt s) t).

(** Everything that a session store must leave alone. *)
Definition but_sessions (w : World) :=
  (w_flows w, w_tokens w, w_cache w, w_locks w, w_audit w, w_metrics w, w_refreshes w).

(** [i] is an event between the worlds [w] and [w']. *)
Definition between (w w' : World) (i : nat) : Prop := (w_tick w ≤ i < w_tick w')%nat.

(** ** The contract of a plain session store

    [good] are the strings that the store represents exactly: a store that keeps
    sessions as text may change others.  An operation that fails may or may not
    have been carried out: a remote store can lose the answer to a command it
    executed. *)
Definition ses_strings (s : Session) : list string :=
  ses_ID s :: ses_Subject s :: ses_Issuer s :: ses_Username s :: ses_DisplayName s
    :: ses_Email s :: ses_Roles s.
Definition any_string (_ : string) : Prop := True.

Class SessionStoreSpec `{Env} (S : SessionStore) (view : World → gmap string Session)
    (good : string → Prop) : Prop := {
  view_good w id s : view w !! id = Some s → Forall good (ses_strings s);
  view_tick w : view (tick w) = view w;
  get_ok id w s w' :
    ss_Get S id w = (Ok s, w') →
    view w !! id = Some s ∧ view w' = view w ∧
    (IsZero (ses_ExpiresAt s) = false → ∃ i, between w w' i ∧ session_expired s (clock i) = false);
  get_err id w e w' :
    ss_Get S id w = (Err e, w') → view w' = view w ∨ view w' = delete id (view w);
  put_ok s w u w' :
    Forall good (ses_strings s) → ss_Put S s w = (Ok u, w') → view w' = <[ses_ID s := s]> (view w);
  put_err s w e w' :
    Forall good (ses_strings s) → ss_Put S s w = (Err e, w') → view w' = view w ∨ view w' = <[ses_ID s := s]> (view w);
  delete_ok id w u w' : ss_Delete S id w = (Ok u, w') → view w' = delete id (view w);
  delete_err id w e w' :
    ss_Delete S id w = (Err e, w') → view w' = view w ∨ view w' = delete id (view w);
  get_frame id w r w' :
    ss_Get S id w = (r, w') → but_sessions w' = but_sessions w ∧ (w_tick w ≤ w_tick w')%nat;
  put_frame s w r w' :
    ss_Put S s w = (r, w') → but_sessions w' = but_sessions w ∧ (w_tick w ≤ w_tick w')%nat;
  delete_frame id w r w' :
    ss_Delete S id w = (r, w') → but_sessions w' = but_sessions w ∧ (w_tick w ≤ w_tick w')%nat;
}.

(** The operations of [S] relate worlds by [R]. *)
Class SessionKeeps (S : SessionStore) (R : relation World) : Prop := {
  keeps_ss_Get id : Keeps R (ss_Get S id);
  keeps_ss_Put s : Keeps R (ss_Put S s);
  keeps_ss_Delete id : Keeps R (ss_Delete S id);
}.
#[export] Hint Resolve keeps_ss_Get keeps_ss_Put keeps_ss_Delete : keeps.

(** A plain store changes nothing but the sessions, and time does not go back. *)
Lemma session_spec_keeps `{Env} S view good (R : relation World) :
  SessionStoreSpec S view good →
  (∀ w w', but_sessions w' = but_sessions w → later w w' → R w w') → SessionKeeps S R.
Proof.
  intros HS HR. split; intros x w.
  - destruct (ss_Get S x w) eqn:Hop. apply get_frame in Hop as [? ?]. by apply HR.
  - destruct (ss_Put S x w) eqn:Hop. apply put_frame in Hop as [? ?]. by apply HR.
  - destruct (ss_Delete S x w) eqn:Hop. apply delete_frame in Hop as [? ?]. by apply HR.
Qed.

(** ** internal/session/memory.go *)
Module MemorySession.
Section memory.
Context `{Env}.

Definition Delete (id : string) : M (result unit) :=
  do _ := modify (set_sessions (delete id)) in ret (Ok tt).

Definition Put (v : Session) : M (result unit) :=
  do _ := modify (set_sessions (insert (ses_ID v) v)) in ret (Ok tt).

Definition Get (id : string) : M (result Session) :=
  do v := gets (λ w, w_sessions w !! id) in
  match v with
  | None => ret (Err (ErrIs SessionNotFound))
  | Some v =>
      if IsZero (ses_ExpiresAt v) then ret (Ok v) else
      do t := now in
      if negb (After (ses_ExpiresAt v) t) then
        do _ := Delete id in ret (Err (ErrIs SessionNotFound))
      else ret (Ok v)
  end.

Definition store : SessionStore := mkSessionStore Get Put Delete.

Lemma memory_Get_cases id w r w' :
  Get id w = (r, w') →
  (w_sessions w !! id = None ∧ r = Err (ErrIs SessionNotFound) ∧ w' = w) ∨
  (∃ s, w_sessions w !! id = Some s ∧ IsZero (ses_ExpiresAt s) = true ∧ r = Ok s ∧ w' = w) ∨
  (∃ s, w_sessions w !! id = Some s ∧ IsZero (ses_ExpiresAt s) = false ∧
        session_expired s (clock (w_tick w)) = false ∧ r = Ok s ∧ w' = tick w) ∨
  (∃ s, w_sessions w !! id = Some s ∧ session_expired s (clock (w_tick w)) = true ∧
        r = Err (ErrIs SessionNotFound) ∧ w' = set_sessions (delete id) (tick w)).
Proof.
  unfold Get, Delete, session_expired. intros Hg. m_inv.
  destruct (w_sessions _ !! id) as [s|]; [|by m_inv; left].
  destruct (IsZero _) eqn:Hz; [by m_inv; right; left; exists s|].
  apply bind_inv in Hg as (t & w1 & Ht & Hg). unfold now, oracle in Ht. simplify_eq/=.
  destruct (After _ _) eqn:Ha; simpl in Hg; m_inv.
  - right; right; left. exists s. by rewrite Hz, Ha.
  - right; right; right. exists s. by rewrite Hz, Ha.
Qed.
End memory.
End MemorySession.

#[export] Instance memory_session_spec `{Env} : SessionStoreSpec MemorySession.store w_sessions any_string.
Proof.
  split; simpl; intros *; [intros _; by apply list.Forall_true|done|..].
  - intros Hg%MemorySession.memory_Get_cases. unfold between.
    destruct Hg as [(?&?&?)|[(?&?&?&?&?)|[(?&?&?&?&?&?)|(?&?&?&?&?)]]]; simplify_eq/=;
      repeat split; try done; [congruence|].
    intros _. exists (w_tick w). split; [lia|done].
  - intros Hg%MemorySession.memory_Get_cases.
    destruct Hg as [(?&?&?)|[(?&?&?&?&?)|[(?&?&?&?&?&?)|(?&?&?&?&?)]]]; simplify_eq/=; auto.
  - unfold MemorySession.Put. intros _ ?. by m_inv.
  - unfold MemorySession.Put. intros _ ?. m_inv.
  - unfold MemorySession.Delete. intros. by m_inv.
  - unfold MemorySession.Delete. intros. m_inv.
  - intros Hg%MemorySession.memory_Get_cases.
    destruct Hg as [(?&?&?)|[(?&?&?&?&?)|[(?&?&?&?&?&?)|(?&?&?&?&?)]]]; simplify_eq/=;
      (split; [done|lia]).
  - unfold MemorySession.Put. intros. m_inv. split; [done|simpl; lia].
  - unfold MemorySession.Delete. intros. m_inv. split; [done|simpl; lia].
Qed.

(** ** internal/session/lifecycle.go *)
Module Lifecycle.

Record Config := mkConfig {
  MaxLifetime : Duration;
  IdleTimeout : Duration;
  TouchInterval : Duration;
}.

Definition with_LastSeen (v : Session) (t : Time) : Session :=
  mkSession (ses_ID v) (ses_Subject v) (ses_Issuer v) (ses_Username v) (ses_DisplayName v)
    (ses_Email v) (ses_Roles v) (ses_CreatedAt v) (ses_ExpiresAt v) t.
Definition with_CreatedAt (v : Session) (t : Time) : Session :=
  mkSession (ses_ID v) (ses_Subject v) (ses_Issuer v) (ses_Username v) (ses_DisplayName v)
    (ses_Email v) (ses_Roles v) t (ses_ExpiresAt v) (ses_LastSeen v).
Definition with_ExpiresAt (v : Session) (t : Time) : Session :=
  mkSession (ses_ID v) (ses_Subject v) (ses_Issuer v) (ses_Username v) (ses_DisplayName v)
    (ses_Email v) (ses_Roles v) (ses_CreatedAt v) t (ses_LastSeen v).

(** The conditions of [Get]. *)
Definition over_lifetime (cfg : Config) (v : Session) (t : Time) : bool :=
  (0 <? MaxLifetime cfg) && negb (IsZero (ses_CreatedAt v))
  && negb (After (Add (ses_CreatedAt v) (MaxLifetime cfg)) t).
Definition idle_too_long (cfg : Config) (v : Session) (t : Time) : bool :=
  (0 <? IdleTimeout cfg) && negb (IsZero (ses_LastSeen v))
  && negb (After (Add (ses_LastSeen v) (IdleTimeout cfg)) t).
Definition touch_interval (cfg : Config) : Duration :=
  if TouchInterval cfg <=? 0 then Minute else TouchInterval cfg.
Definition needs_touch (cfg : Config) (v : Session) (t : Time) : bool :=
  (0 <? IdleTimeout cfg)
  && (IsZero (ses_LastSeen v) || (touch_interval cfg <=? Sub t (ses_LastSeen v))).

Section lifecycle.
Context `{Env} (Next : SessionStore) (cfg : Config).

(** [Get] up to the touch: the session, and the copy to write back if any. *)
Definition Get_read (id : string) : M (result (Session * option Session)) :=
  try v := ss_Get Next id in
  do t := now in
  if over_lifetime cfg v t then
    do _ := ss_Delete Next id in ret (Err (ErrIs SessionNotFound))
  else if idle_too_long cfg v t then
    do _ := ss_Delete Next id in ret (Err (ErrIs SessionNotFound))
  else ret (Ok (v, if needs_touch cfg v t then Some (with_LastSeen v t) else None)).

(** The rest of [Get]: write the touched copy back. *)
Definition Get_write (p : Session * option Session) : M (result Session) :=
  match p.2 with
  | None => ret (Ok p.1)
  | Some v => try _ := ss_Put Next v in ret (Ok v)
  end.

Definition Get (id : string) : M (result Session) := try p := Get_read id in Get_write p.

Definition cap_expiry (v : Session) : Session :=
  if 0 <? MaxLifetime cfg then
    let absolute := Add (ses_CreatedAt v) (MaxLifetime cfg) in
    if IsZero (ses_ExpiresAt v) || After (ses_ExpiresAt v) absolute
    then with_ExpiresAt v absolute else v
  else v.

Definition Put (v : Session) : M (result unit) :=
  do t := now in
  let v := if IsZero (ses_CreatedAt v) then with_CreatedAt v t else v in
  let v := if IsZero (ses_LastSeen v) then with_LastSeen v t else v in
  ss_Put Next (cap_expiry v).

Definition Delete (id : string) : M (result unit) := ss_Delete Next id.

Definition store : SessionStore := mkSessionStore Get Put Delete.

(** One client operation on the store, or activity elsewhere that does not
    touch the sessions. *)
Inductive step (view : World → gmap string Session) (good : string → Prop) : World → World → Prop :=
  | step_get id w r w' : Get id w = (r, w') → step view good w w'
  | step_put v w r w' :
      Forall good (ses_strings v) → Put v w = (r, w') → step view good w w'
  | step_delete id w r w' : Delete id w = (r, w') → step view good w w'
  | step_other w w' :
      view w' = view w → (w_tick w ≤ w_tick w')%nat → step view good w w'.
End lifecycle.

(** Sessions are stored under their own id, have a creation time and a last use,
    and expire no later than their absolute life time. *)
Definition capped (cfg : Config) (id : string) (s : Session) : Prop :=
  ses_ID s = id ∧ ses_CreatedAt s ≠ 0 ∧ ses_LastSeen s ≠ 0 ∧
  (0 < MaxLifetime cfg → ses_ExpiresAt s ≤ ses_CreatedAt s + MaxLifetime cfg).
Definition capped_map (cfg : Config) (m : gmap string Session) : Prop :=
  map_Forall (capped cfg) m.

(** Two records of one session that differ at most in the last-seen time. *)
Definition same_session (s s' : Session) : Prop :=
  with_LastSeen s 0 = with_LastSeen s' 0.

#[global] Instance same_session_equiv : Equivalence same_session.
Proof. unfold same_session. split; congruence. Qed.

Section lemmas.
Context `{Env} (Next : SessionStore) (cfg : Config).
Context (view : World → gmap string Session) (good : string → Prop).
Context `{!SessionStoreSpec Next view good}.

Lemma same_session_fields s s' :
  same_session s s' →
  ses_ID s = ses_ID s' ∧ ses_Subject s = ses_Subject s' ∧ ses_Roles s = ses_Roles s' ∧
  ses_CreatedAt s = ses_CreatedAt s' ∧ ses_ExpiresAt s = ses_ExpiresAt s'.
Proof. destruct s, s'. unfold same_session, with_LastSeen. simpl. intros [=]. by subst. Qed.

Lemma same_session_touch v t : same_session v (with_LastSeen v t).
Proof. done. Qed.

Lemma delete_either id w r w' :
  ss_Delete Next id w = (r, w') → view w' = view w ∨ view w' = delete id (view w).
Proof. destruct r; intros Hd; [right; by eapply delete_ok|by eapply delete_err]. Qed.

(** Every way [Get_read] can end. *)
Lemma Get_read_cases id w r w' :
  Get_read Next cfg id w = (r, w') →
  (∃ e, r = Err e ∧ (view w' = view w ∨ view w' = delete id (view w))) ∨
  ∃ v i, view w !! id = Some v ∧ view w' = view w ∧ between w w' i ∧
    over_lifetime cfg v (clock i) = false ∧ idle_too_long cfg v (clock i) = false ∧
    r = Ok (v, if needs_touch cfg v (clock i) then Some (with_LastSeen v (clock i)) else None).
Proof.
  unfold Get_read. intros [(e & Hg & ->)|(v & w1 & Hg & Hk)]%bind_ok_inv.
  { left. exists e. split; [done|]. by eapply get_err. }
  pose proof (get_frame _ _ _ _ Hg) as [_ Htick].
  destruct (get_ok _ _ _ _ Hg) as (Hv & Hview & _).
  apply bind_inv in Hk as (t & w2 & Ht & Hk). unfold now, oracle in Ht. simplify_eq/=.
  assert (∀ (k : M (result (Session * option Session))) e,
    bind (ss_Delete Next id) (λ _, ret (Err e)) (tick w1) = (r, w') →
    ∃ e, r = Err e ∧ (view w' = view w ∨ view w' = delete id (view w))) as Hdel.
  { intros _ e (rd & w2 & Hd & [= <- <-])%bind_inv.
    exists e. split; [done|]. apply delete_either in Hd. by rewrite view_tick, Hview in Hd. }
  destruct (over_lifetime _ _ _) eqn:Ho; [left; by eapply Hdel|].
  destruct (idle_too_long _ _ _) eqn:Hi; [left; by eapply Hdel|].
  unfold ret in Hk. simplify_eq. right. exists v, (w_tick w1).
  rewrite view_tick. repeat split; simpl; try done; lia.
Qed.

(** Every way [Get] can end, for a store whose keys are the session ids. *)
Lemma lifecycle_Get_cases id w r w' :
  (∀ s, view w !! id = Some s → ses_ID s = id) →
  Get Next cfg id w = (r, w') →
  (∃ e, r = Err e ∧ (view w' = view w ∨ view w' = delete id (view w) ∨
     ∃ v i, view w !! id = Some v ∧ view w' = <[id := with_LastSeen v (clock i)]> (view w))) ∨
  ∃ v i s, view w !! id = Some v ∧ between w w' i ∧ same_session v s ∧
    over_lifetime cfg v (clock i) = false ∧ idle_too_long cfg v (clock i) = false ∧
    s = (if needs_touch cfg v (clock i) then with_LastSeen v (clock i) else v) ∧
    r = Ok s ∧ view w' = <[id := s]> (view w).
Proof.
  intros Hkey. unfold Get. intros [(e & Hg & ->)|(p & w1 & Hg & Hk)]%bind_ok_inv.
  { apply Get_read_cases in Hg as [(?&?&[?|?])|(?&?&?&?&?&?&?&?)]; [left; eauto..|done]. }
  apply Get_read_cases in Hg as [(?&?&?)|(v&i&Hv&Hview&Hi&Ho&Hid&Hp)]; [done|].
  simplify_eq. unfold Get_write in Hk. destruct (needs_touch _ _ _) eqn:Ht; simpl in Hk.
  - assert (Forall good (ses_strings (with_LastSeen v (clock i)))) as Hgood by exact (view_good _ _ _ Hv).
    apply bind_ok_inv in Hk as [(e & Hput & ->)|(u & w2 & Hput & Hk)].
    { left. exists e. split; [done|]. apply (put_err (view := view)) in Hput as [Hv'|Hv']; [| |done];
        rewrite Hview in Hv'; [by left|]. right; right.
      exists v, i. simpl in Hv'. by rewrite (Hkey v Hv) in Hv'. }
    unfold ret in Hk. simplify_eq. right. exists v, i, (with_LastSeen v (clock i)).
    pose proof (put_ok (view := view) _ _ _ _ Hgood Hput) as Hview'.
    rewrite Ht, Hview', Hview. simpl. rewrite (Hkey v Hv).
    apply put_frame in Hput as [_ ?]. unfold between in *. repeat split; try done; lia.
  - unfold ret in Hk. simplify_eq. right. exists v, i, v.
    rewrite Ht, Hview, insert_id by done. by repeat split; try apply Hi.
Qed.

Lemma Put_cases v w r w' :
  Forall good (ses_strings v) →
  Put Next cfg v w = (r, w') →
  view w' = view w ∨
  ∃ s, ses_ID s = ses_ID v ∧ (ses_CreatedAt s = ses_CreatedAt v ∨ ses_CreatedAt s = clock (w_tick w)) ∧
    (IsZero (ses_CreatedAt v) = true → ses_CreatedAt s = clock (w_tick w)) ∧
    ses_LastSeen s = (if IsZero (ses_LastSeen v) then clock (w_tick w) else ses_LastSeen v) ∧
    (0 < MaxLifetime cfg → ses_ExpiresAt s ≤ ses_CreatedAt s + MaxLifetime cfg) ∧
    view w' = <[ses_ID v := s]> (view w).
Proof.
  intros Hgood. unfold Put. intros (t & w1 & Ht & Hp)%bind_inv. unfold now, oracle in Ht. simplify_eq.
  match type of Hp with ss_Put Next ?v2 _ = _ =>
    assert (view w' = view w ∨ view w' = <[ses_ID v2 := v2]> (view w)) as [Hp'|Hp'] end.
  { rewrite <-(view_tick (view := view) w).
    match type of Hp with ss_Put Next ?v2 _ = _ => assert (ses_strings v2 = ses_strings v) as Heq end.
    { unfold cap_expiry. by repeat case_match. }
    rewrite <-Heq in Hgood. destruct r as [u|e]; [right; by eapply put_ok|by eapply put_err]. }
  { by left. }
  right. clear Hp. rename Hp' into Hp.
  match type of Hp with _ = <[ses_ID (cap_expiry _ ?v2) := _]> _ => set (v' := v2) in * end.
  exists (cap_expiry cfg v').
  assert (ses_ID v' = ses_ID v ∧ (ses_CreatedAt v' = ses_CreatedAt v ∨ ses_CreatedAt v' = clock (w_tick w))
    ∧ (IsZero (ses_CreatedAt v) = true → ses_CreatedAt v' = clock (w_tick w))
    ∧ ses_LastSeen v' = (if IsZero (ses_LastSeen v) then clock (w_tick w) else ses_LastSeen v))
    as (Hid & Hc & Hz & Hls).
  { unfold v'. repeat case_match; simpl in *; auto; repeat split; auto; congruence. }
  assert (ses_ID (cap_expiry cfg v') = ses_ID v' ∧ ses_CreatedAt (cap_expiry cfg v') = ses_CreatedAt v'
    ∧ ses_LastSeen (cap_expiry cfg v') = ses_LastSeen v'
    ∧ (0 < MaxLifetime cfg → ses_ExpiresAt (cap_expiry cfg v') ≤ ses_CreatedAt v' + MaxLifetime cfg))
    as (Hid' & Hc' & Hls' & Hx).
  { unfold cap_expiry, Add, After. destruct (Z.ltb_spec 0 (MaxLifetime cfg)); [|repeat split; lia].
    destruct (IsZero (ses_ExpiresAt v') || _) eqn:E; simpl; bool_inv; repeat split; lia. }
  rewrite Hid', Hid, Hc', Hls', Hls in *. by repeat split.
Qed.

Lemma capped_touch m id v t :
  capped_map cfg m → m !! id = Some v → t ≠ 0 → capped_map cfg (<[id := with_LastSeen v t]> m).
Proof.
  intros Hm Hv Ht. apply map_Forall_insert_2; [|done]. by destruct (Hm id v Hv) as (?&?&_&?).
Qed.

(** The invariant is preserved by every operation. *)
Lemma capped_step w w' :
  (∀ i, clock i ≠ 0) →
  step Next cfg view good w w' → capped_map cfg (view w) → capped_map cfg (view w').
Proof.
  intros Hclock Hstep Hm. destruct Hstep as [id w r w' Hg|v w r w' Hv Hp|id w r w' Hd|w w' Hv _].
  - apply lifecycle_Get_cases in Hg as [(e&_&[->|[->|(v&i&Hv&->)]])|(v&i&s&Hv&_&Hs&_&_&->&_&->)];
      [done|by apply map_Forall_delete|by apply capped_touch| |].
    + destruct (needs_touch _ _ _); [by apply capped_touch|by rewrite insert_id].
    + intros s Hs. by apply (Hm id s Hs).
  - apply Put_cases in Hp as [->|(s&Hid&Hc&Hz&Hls&Hx&->)]; [done| |done].
    apply map_Forall_insert_2; [|done]. repeat split; [done|..|done].
    + destruct (IsZero (ses_CreatedAt v)) eqn:E; [by rewrite Hz|].
      destruct Hc as [->| ->]; [by apply Z.eqb_neq|done].
    + rewrite Hls. destruct (IsZero (ses_LastSeen v)) eqn:E; [done|by apply Z.eqb_neq].
  - unfold Delete in Hd. apply delete_either in Hd as [->| ->]; [done|by apply map_Forall_delete].
  - by rewrite Hv.
Qed.

Lemma capped_reachable w0 w :
  (∀ i, clock i ≠ 0) → view w0 = ∅ → rtc (step Next cfg view good) w0 w → capped_map cfg (view w).
Proof.
  intros Hclock H0 Hr. assert (capped_map cfg (view w0)) as Hm.
  { rewrite H0. apply map_Forall_empty. }
  clear H0. induction Hr; eauto using capped_step.
Qed.
End lemmas.

(** ** Properties *)
Section properties.
Context `{Env} (Next : SessionStore) (cfg : Config).
Context (view : World → gmap string Session) (good : string → Prop).
Context `{!SessionStoreSpec Next view good}.

(** A use just recorded, or recorded less than a touch interval ago. *)
Lemma touched_recently v t :
  0 < IdleTimeout cfg →
  Sub t (ses_LastSeen (if needs_touch cfg v t then with_LastSeen v t else v)) < touch_interval cfg.
Proof.
  intros Hidle. assert (0 < touch_interval cfg) as Hti.
  { unfold touch_interval, Minute, Second. case_match; lia. }
  destruct (needs_touch cfg v t) eqn:Hn; simpl; [unfold Sub, int64_min, int64_max; lia|].
  unfold needs_touch in Hn. bool_inv; lia.
Qed.

(** C6: the absolute and the idle life time hold in every reachable state.
    Starting from an empty store, after any sequence of gets, puts and deletes,
    a [Get] that returns a session does so at a moment before the session's
    creation time plus MaxLifetime and before its recorded last use plus
    IdleTimeout; the recorded expiry is capped by the first bound, and the
    session returned, which is the one stored afterwards, has a last use less
    than one touch interval old. *)
Theorem lifecycle_get_sound w0 w id s w' :
  (∀ i, clock i ≠ 0) → view w0 = ∅ → rtc (step Next cfg view good) w0 w →
  Get Next cfg id w = (Ok s, w') →
  ∃ i v, between w w' i ∧ view w !! id = Some v ∧ same_session v s ∧ ses_ID s = id ∧
    (0 < MaxLifetime cfg →
       clock i < ses_CreatedAt s + MaxLifetime cfg ∧
       ses_ExpiresAt s ≤ ses_CreatedAt s + MaxLifetime cfg) ∧
    (0 < IdleTimeout cfg →
       clock i < ses_LastSeen v + IdleTimeout cfg ∧
       Sub (clock i) (ses_LastSeen s) < touch_interval cfg) ∧
    view w' !! id = Some s.
Proof.
  intros Hclock H0 Hr Hg. pose proof (capped_reachable Next cfg view good _ _ Hclock H0 Hr) as Hm.
  apply (lifecycle_Get_cases _ _ view good) in Hg as [(e&[=]&_)|(v&i&s'&Hv&Hi&Hs&Ho&Hid&Hs'&[= <-]&Hw)].
  2: { intros s' Hs'. by apply (Hm id s' Hs'). }
  destruct (Hm id v Hv) as (Hkey & Hc & Hls & Hx). exists i, v.
  pose proof (touched_recently v (clock i)) as Htouch. rewrite <-Hs' in Htouch.
  pose proof (same_session_fields _ _ Hs) as (<-&_&_&<-&<-). rewrite Hw.
  unfold over_lifetime, idle_too_long, IsZero, After, Add in *.
  repeat (split; [done|]). split; [intros HM; split; [lia|by apply Hx]|].
  split; [|apply lookup_insert_eq]. intros HI. split; [lia|by apply Htouch].
Qed.

(** Activity never extends a session.  Along any sequence of gets (of
    any ids) every session in the store is one that was there before, with
    the same owner, creation time and expiry; only the last-seen time moves. *)
Theorem activity_never_extends w w' id s' :
  (∀ k s, view w !! k = Some s → ses_ID s = k) →
  rtc (λ w1 w2, ∃ k r, Get Next cfg k w1 = (r, w2)) w w' →
  view w' !! id = Some s' →
  ∃ s, view w !! id = Some s ∧ same_session s s' ∧
       ses_Subject s' = ses_Subject s ∧ ses_ExpiresAt s' = ses_ExpiresAt s.
Proof.
  intros Hkeys Hr. assert (∀ k s2, view w' !! k = Some s2 →
    ∃ s1, view w !! k = Some s1 ∧ same_session s1 s2) as Hall.
  { induction Hr as [w|w w1 w' (k & r & Hg) Hr IH]; [by intros k s2 ?; exists s2|].
    assert (∀ j s2, view w1 !! j = Some s2 → ∃ s1, view w !! j = Some s1 ∧ same_session s1 s2) as H1.
    { intros j s2 Hj. apply (lifecycle_Get_cases _ _ view good) in Hg as [(e&_&[Hv|[Hv|(v&i&Hv&Hw)]])|(v&i&s&Hv&_&Hs&_&_&_&_&Hw)];
        [..|by auto].
      - rewrite Hv in Hj. by exists s2.
      - rewrite Hv, lookup_delete_Some in Hj. destruct Hj. by exists s2.
      - rewrite Hw, lookup_insert_Some in Hj. destruct Hj as [[<- <-]|[_ Hj]]; [by exists v|by exists s2].
      - rewrite Hw, lookup_insert_Some in Hj. destruct Hj as [[<- <-]|[_ Hj]]; [by exists v|by exists s2]. }
    assert (∀ j s2, view w1 !! j = Some s2 → ses_ID s2 = j) as Hkeys1.
    { intros j s2 (s1 & Hs1 & Hsame)%H1. apply same_session_fields in Hsame as (<-&_).
      by apply Hkeys. }
    intros j s2 (s1 & Hs1 & Hsame)%(IH Hkeys1).
    apply H1 in Hs1 as (s0 & ? & ?). exists s0. split; [done|by etransitivity]. }
  intros (s & Hs & Hsame)%Hall. exists s. split; [done|]. split; [done|].
  by apply same_session_fields in Hsame as (_&->&_&_&->).
Qed.

(** A session whose absolute or idle life time has passed is refused and
    removed: [Get] returns ErrNotFound and, when the underlying delete
    succeeds, the session is gone. *)
Theorem expired_session_removed w id v w1 w2 :
  ss_Get Next id w = (Ok v, w1) →
  over_lifetime cfg v (clock (w_tick w1)) || idle_too_long cfg v (clock (w_tick w1)) = true →
  ss_Delete Next id (tick w1) = (Ok tt, w2) →
  Get Next cfg id w = (Err (ErrIs SessionNotFound), w2) ∧ view w2 !! id = None.
Proof.
  intros Hg Hexp Hd. split.
  - unfold Get, Get_read, bind_ok, bind, now, oracle, ret. rewrite Hg.
    destruct (over_lifetime _ _ _); [by rewrite Hd|]. simpl in Hexp. by rewrite Hexp, Hd.
  - apply (delete_ok (view := view)) in Hd. rewrite Hd. apply lookup_delete_eq.
Qed.

(** Between the read and the write-back of a touch, another request may
    delete the session (a logout); the write-back then stores it again. *)
Theorem touch_resurrects_deleted_session id w v t w1 w2 w3 r :
  Get_read Next cfg id w = (Ok (v, Some (with_LastSeen v t)), w1) →
  ses_ID v = id →
  ss_Delete Next id w1 = (Ok tt, w2) →
  Get_write Next (v, Some (with_LastSeen v t)) w2 = (Ok r, w3) →
  view w2 !! id = None ∧ view w3 !! id = Some (with_LastSeen v t).
Proof.
  intros Hg Hid Hd Hw. apply (Get_read_cases _ _ view good) in Hg as [(?&[=]&_)|(v'&i&Hv&_&_&_&_&Hvi)].
  injection Hvi as <- _. pose proof (view_good _ _ _ Hv) as Hgood. split.
  { apply (delete_ok (view := view)) in Hd. rewrite Hd. apply lookup_delete_eq. }
  apply bind_ok_inv in Hw as [(e & _ & [=])|(u & w4 & Hp & [= <- <-])].
  apply (put_ok (view := view)) in Hp; [|done]. rewrite Hp. simpl. rewrite Hid. apply lookup_insert_eq.
Qed.
End properties.

(** The wrapper relates worlds as the wrapped store does. *)
#[global] Instance lifecycle_keeps `{Env} Next cfg (R : relation World) :
  PreOrder R → SessionKeeps Next R → (∀ w, R w (tick w)) → SessionKeeps (store Next cfg) R.
Proof.
  intros HR HN Ht. split; simpl; intros ?; unfold Get, Get_read, Get_write, Put, Delete; keeps.
  all: by apply keeps_oracle.
Qed.

(** *** Witnesses *)
Section witnesses.
#[local] Instance env : Env := sample_env.

Definition sample_cfg : Config := mkConfig (8 * Hour) (30 * Minute) Minute.
Definition sample_session : Session :=
  mkSession "sid" "alice" "https://idp" "alice" "Alice" "" ["user"] 0 0 0.
Definition mem : SessionStore := MemorySession.store.
Definition w_put : World := (Put mem sample_cfg sample_session empty_world).2.
Definition r_get := Get mem sample_cfg "sid" w_put.
Definition s_get : Session := match r_get.1 with Ok s => s | Err _ => sample_session end.

Lemma lifecycle_get_sound_witness :
  ∃ i v, between w_put r_get.2 i ∧ w_sessions w_put !! "sid" = Some v ∧ same_session v s_get ∧
    ses_ID s_get = "sid" ∧
    (0 < 8 * Hour → clock i < ses_CreatedAt s_get + 8 * Hour ∧
                    ses_ExpiresAt s_get ≤ ses_CreatedAt s_get + 8 * Hour) ∧
    (0 < 30 * Minute → clock i < ses_LastSeen v + 30 * Minute ∧ Sub (clock i) (ses_LastSeen s_get) < Minute) ∧
    w_sessions r_get.2 !! "sid" = Some s_get.
Proof.
  apply (lifecycle_get_sound mem sample_cfg w_sessions any_string empty_world).
  - apply sample_clock_nonzero.
  - reflexivity.
  - apply rtc_once, (step_put _ _ _ _ sample_session _ (Ok tt)); [by apply list.Forall_true|run].
  - run.
Defined.

Lemma activity_never_extends_witness :
  ∃ s, w_sessions w_put !! "sid" = Some s ∧ same_session s s_get ∧
       ses_Subject s_get = ses_Subject s ∧ ses_ExpiresAt s_get = ses_ExpiresAt s.
Proof.
  apply (activity_never_extends mem sample_cfg w_sessions any_string w_put r_get.2).
  - intros k s. replace (w_sessions w_put) with ({["sid" := s_get]} : gmap string Session) by run.
    intros [<- <-]%lookup_singleton_Some. run.
  - apply rtc_once. exists "sid", (Ok s_get). run.
  - run.
Defined.

(** A session created nine hours before the first reading of the clock. *)
Definition old_session : Session :=
  mkSession "sid" "alice" "https://idp" "alice" "Alice" "" ["user"]
    (unix_time (1700000000 - 32400)) (unix_time 1800000000) (unix_time 1700000000).
Definition w_old : World := (MemorySession.Put old_session empty_world).2.

Lemma expired_session_removed_witness :
  ∃ w2, Get mem sample_cfg "sid" w_old = (Err (ErrIs SessionNotFound), w2) ∧
        w_sessions w2 !! "sid" = None.
Proof.
  eexists. eapply (expired_session_removed mem sample_cfg w_sessions any_string w_old "sid" old_session (tick w_old));
    [run|run|reflexivity].
Defined.

(** A session last seen twenty minutes before the first reading of the clock. *)
Definition quiet_session : Session :=
  mkSession "sid" "alice" "https://idp" "alice" "Alice" "" ["user"]
    (unix_time 1699990000) (unix_time 1800000000) (unix_time 1699998800).
Definition w_quiet : World := (MemorySession.Put quiet_session empty_world).2.
Definition w_read : World := (Get_read mem sample_cfg "sid" w_quiet).2.
Definition w_deleted : World := (ss_Delete mem "sid" w_read).2.
Definition touched : Session := with_LastSeen quiet_session (unix_time 1700000001).

Lemma touch_resurrects_deleted_session_witness :
  w_sessions w_deleted !! "sid" = None ∧
  w_sessions (Get_write mem (quiet_session, Some touched) w_deleted).2 !! "sid" = Some touched.
Proof.
  apply (touch_resurrects_deleted_session mem sample_cfg w_sessions any_string "sid" w_quiet quiet_session
    (unix_time 1700000001) w_read w_deleted _ touched).
  - run.
  - reflexivity.
  - run.
  - run.
Defined.
End witnesses.
End Lifecycle.
