(* ===== verification/Token.v ===== *)
(** * Tokens: internal/token

    The token [Store] interface with its contract, the in-memory store, the
    in-memory refresh lock, and [StoreManager.AccessToken], which hands out an
    access token and refreshes it under the lock when it is about to expire.
    The last part runs any number of concurrent [AccessToken] calls as threads
    over the shared store and lock. *)

From S2P Require Import Prelude GoStrings World Session.
Open Scope Z_scope.

(** [type Store interface] *)
Record TokenStore := mkTokenStore {
  ts_Get : string → M (result TokenSet);
  ts_Put : string → TokenSet → Time → M (result unit);
  ts_Delete : string → M (result unit);
}.

Definition but_tokens (w : World) :=
  (w_flows w, w_sessions w, w_cache w, w_locks w, w_audit w, w_metrics w, w_refreshes w).

(** ** The contract of a token store

    As for sessions: strings that are [good] are kept exactly, and a failed
    operation may have been carried out. *)
Definition tok_strings (s : TokenSet) : list string :=
  [tok_AccessToken s; tok_RefreshToken s; tok_IDToken s].

Class TokenStoreSpec (S : TokenStore) (view : World → gmap string TokenSet)
    (good : string → Prop) : Prop := {
  tok_view_good w id s : view w !! id = Some s → Forall good (tok_strings s);
  tok_view_tick w : view (tick w) = view w;
  tok_view_locks f w : view (set_locks f w) = view w;
  tok_view_refresh t w : view (add_refresh t w) = view w;
  tok_get_ok id w s w' : ts_Get S id w = (Ok s, w') → view w !! id = Some s ∧ view w' = view w;
  tok_get_err id w e w' :
    ts_Get S id w = (Err e, w') → view w' = view w ∨ view w' = delete id (view w);
  tok_put_ok id s t w u w' :
    Forall good (tok_strings s) → ts_Put S id s t w = (Ok u, w') → view w' = <[id := s]> (view w);
  tok_put_err id s t w e w' :
    Forall good (tok_strings s) → ts_Put S id s t w = (Err e, w') → view w' = view w ∨ view w' = <[id := s]> (view w);
  tok_delete_ok id w u w' : ts_Delete S id w = (Ok u, w') → view w' = delete id (view w);
  tok_delete_err id w e w' :
    ts_Delete S id w = (Err e, w') → view w' = view w ∨ view w' = delete id (view w);
  tok_get_frame id w r w' :
    ts_Get S id w = (r, w') → but_tokens w' = but_tokens w ∧ (w_tick w ≤ w_tick w')%nat;
  tok_put_frame id s t w r w' :
    ts_Put S id s t w = (r, w') → but_tokens w' = but_tokens w ∧ (w_tick w ≤ w_tick w')%nat;
  tok_delete_frame id w r w' :
    ts_Delete S id w = (r, w') → but_tokens w' = but_tokens w ∧ (w_tick w ≤ w_tick w')%nat;
}.

(** The operations of [S] relate worlds by [R]. *)
Class TokenKeeps (S : TokenStore) (R : relation World) : Prop := {
  keeps_ts_Get id : Keeps R (ts_Get S id);
  keeps_ts_Put id s t : Keeps R (ts_Put S id s t);
  keeps_ts_Delete id : Keeps R (ts_Delete S id);
}.
#[export] Hint Resolve keeps_ts_Get keeps_ts_Put keeps_ts_Delete : keeps.

Lemma token_spec_keeps S view good (R : relation World) :
  TokenStoreSpec S view good →
  (∀ w w', but_tokens w' = but_tokens w → later w w' → R w w') → TokenKeeps S R.
Proof.
  intros HS HR. split; intros * w.
  - destruct (ts_Get S id w) eqn:Hop. apply tok_get_frame in Hop as [? ?]. by apply HR.
  - destruct (ts_Put S id s t w) eqn:Hop. apply tok_put_frame in Hop as [? ?]. by apply HR.
  - destruct (ts_Delete S id w) eqn:Hop. apply tok_delete_frame in Hop as [? ?]. by apply HR.
Qed.

(** ** internal/token/memory.go *)
Module MemoryToken.
Section memory.
Context `{Env}.

Definition Delete (sessionID : string) : M (result unit) :=
  do _ := modify (set_tokens (delete sessionID)) in ret (Ok tt).

Definition Put (sessionID : string) (v : TokenSet) (expiresAt : Time) : M (result unit) :=
  do _ := modify (set_tokens (insert sessionID (mkTokenEntry v expiresAt))) in ret (Ok tt).

Definition Get (sessionID : string) : M (result TokenSet) :=
  do v := gets (λ w, w_tokens w !! sessionID) in
  match v with
  | None => ret (Err (ErrIs TokenNotFound))
  | Some v =>
      if IsZero (te_ExpiresAt v) then ret (Ok (te_Set v)) else
      do t := now in
      if negb (After (te_ExpiresAt v) t) then
        do _ := Delete sessionID in ret (Err (ErrIs TokenNotFound))
      else ret (Ok (te_Set v))
  end.

Definition store : TokenStore := mkTokenStore Get Put Delete.

Definition view (w : World) : gmap string TokenSet := te_Set <$> w_tokens w.

Lemma memory_token_Get_cases id w r w' :
  Get id w = (r, w') →
  (r = Err (ErrIs TokenNotFound) ∧ w' = w) ∨
  (∃ v, w_tokens w !! id = Some v ∧ r = Ok (te_Set v) ∧ (w' = w ∨ w' = tick w)) ∨
  (r = Err (ErrIs TokenNotFound) ∧ w' = set_tokens (delete id) (tick w)).
Proof.
  unfold Get, Delete. intros Hg. m_inv.
  destruct (w_tokens _ !! id) as [v|]; [|by m_inv; left].
  destruct (IsZero _); [m_inv; right; left; eauto|].
  apply bind_inv in Hg as (t & w1 & Ht & Hg). unfold now, oracle in Ht. simplify_eq/=.
  destruct (negb _); m_inv; right; [by right|left; eauto].
Qed.
End memory.

#[global] Instance memory_token_spec `{Env} : TokenStoreSpec store view any_string.
Proof.
  unfold view. split; simpl; intros *; [intros _; by repeat constructor|done|done|done|..].
  1, 2, 7: intros Hg%memory_token_Get_cases;
    destruct Hg as [[? ?]|[(v&?&?&[?|?])|[? ?]]]; simplify_eq/=;
    rewrite ?lookup_fmap, ?fmap_delete; simplify_option_eq; auto with lia.
  all: unfold Put, Delete; intros; m_inv; rewrite ?fmap_insert, ?fmap_delete; auto with lia.
Qed.
End MemoryToken.

Lemma memory_token_keeps `{Env} {T} (f : World → T) :
  (∀ w w', but_tokens w' = but_tokens w → f w' = f w) → TokenKeeps MemoryToken.store (same f).
Proof. intros Hf. eapply token_spec_keeps; [apply _|]. intros w w' ? _. by apply Hf. Qed.

(** ** Refreshing and locking *)

(** [type Refresher interface]: the answer of the identity provider depends on
    the event number. *)
Abbreviation Refresher := (nat → string → result TokenSet).

(** [type RefreshLocker interface]: a successful [Lock] returns [unlock]. *)
Record RefreshLocker := mkLocker {
  lk_Lock : string → Duration → M (result (M (result unit)));
}.

(** What a locker promises: it changes only the locks, and unlocking after a
    successful lock gives the lock back. *)
Class LockerSpec (L : RefreshLocker) : Prop := {
  lock_err key ttl w e w' :
    lk_Lock L key ttl w = (Err e, w') → ∃ n, w' = Nat.iter n tick w;
  lock_ok key ttl w unlock w' :
    lk_Lock L key ttl w = (Ok unlock, w') →
    (key ∉ w_locks w) ∧ w' = set_locks ({[key]} ∪.) w ∧
    (∀ w1, unlock w1 = (Ok tt, set_locks (.∖ {[key]}) w1));
}.

(** Locking, and later unlocking, relates worlds by [R]. *)
Class LockerKeeps (L : RefreshLocker) (R : relation World) : Prop := {
  keeps_lock key ttl : Keeps R (lk_Lock L key ttl);
  keeps_unlock key ttl w unlock w' : lk_Lock L key ttl w = (Ok unlock, w') → Keeps R unlock;
}.

(** internal/token/lock.go.  A caller that finds the semaphore empty waits for
    a release or for the end of its context; run alone, nobody releases it, so
    the wait ends with the context's error. *)
Module MemoryLocker.
Section locker.
Context (ctx_err : nat → goerr).

Definition unlock (key : string) : M (result unit) :=
  do _ := modify (set_locks (.∖ {[key]})) in ret (Ok tt).

Definition Lock (key : string) (_ : Duration) : M (result (M (result unit))) :=
  do held := gets (λ w, bool_decide (key ∈ w_locks w)) in
  if held then do e := oracle ctx_err in ret (Err e)
  else do _ := modify (set_locks ({[key]} ∪.)) in ret (Ok (unlock key)).

Definition locker : RefreshLocker := mkLocker Lock.
End locker.

#[global] Instance memory_locker_spec ctx_err : LockerSpec (locker ctx_err).
Proof.
  split; simpl; unfold Lock; intros key ttl w r w' Hl; m_inv; case_bool_decide; m_inv.
  - by exists 1%nat.
  - done.
Qed.

Lemma memory_locker_keeps ctx_err (R : relation World) :
  PreOrder R → (∀ w, R w (tick w)) → (∀ f w, R w (set_locks f w)) → LockerKeeps (locker ctx_err) R.
Proof.
  intros HR Ht Hl. split; simpl; unfold Lock, unlock.
  - intros key ttl. keeps; solve [by apply keeps_oracle|by apply keeps_modify].
  - intros key ttl w u w' Hu. m_inv. case_bool_decide; m_inv. keeps; by apply keeps_modify.
Qed.
End MemoryLocker.

(** ** internal/token/manager.go *)
Module Manager.

Record StoreManager := mkManager {
  Store : option TokenStore;
  Sessions : option SessionStore;
  mgr_Refresher : option Refresher;
  Locker : option RefreshLocker;
  RefreshBefore : Duration;
  LockTTL : Duration;
}.

Section manager.
Context `{Env} (m : StoreManager).

Definition lockTTL : Duration := if 0 <? LockTTL m then LockTTL m else 10 * Second.

Definition refresh_before : Duration :=
  if RefreshBefore m <=? 0 then 30 * Second else RefreshBefore m.

Definition needsRefresh (set : TokenSet) : M bool :=
  if tok_ExpiryUnix set <=? 0 then ret false else
  do t := now in
  ret (negb (After (unix_time (tok_ExpiryUnix set)) (Add t refresh_before))).

Definition sessionExpiry (sessionID : string) : M (result Time) :=
  match Sessions m with
  | None => ret (Err (errorf "session store is required for token refresh"))
  | Some ss => try s := ss_Get ss sessionID in ret (Ok (ses_ExpiresAt s))
  end.

Definition invalidate (st : TokenStore) (sessionID : string) : M unit :=
  do _ := ts_Delete st sessionID in
  match Sessions m with
  | Some ss => do _ := ss_Delete ss sessionID in ret tt
  | None => ret tt
  end.

(** The defaults taken over from the previous set after a refresh. *)
Definition merge_refreshed (current refreshed : TokenSet) : TokenSet :=
  mkTokenSet (tok_AccessToken refreshed)
    (if bool_decide (tok_RefreshToken refreshed = "") then tok_RefreshToken current
     else tok_RefreshToken refreshed)
    (if bool_decide (tok_IDToken refreshed = "") then tok_IDToken current
     else tok_IDToken refreshed)
    (tok_ExpiryUnix refreshed).

(** The second read of the store, with the lock held: the final result, or the
    set to refresh. *)
Definition locked_read (st : TokenStore) (sessionID : string) : M (result string + TokenSet) :=
  do current := ts_Get st sessionID in
  match current with
  | Err e => ret (inl (Err e))
  | Ok current =>
      do needs := needsRefresh current in
      if negb needs then ret (inl (Ok (tok_AccessToken current))) else
      if bool_decide (tok_RefreshToken current = "")
      then ret (inl (Err (ErrIs RefreshUnavailable)))
      else ret (inr current)
  end.

(** The call of the identity provider. *)
Definition locked_call (refresher : Refresher) (current : TokenSet) : M (result TokenSet) :=
  do _ := modify (add_refresh (tok_RefreshToken current)) in
  oracle (λ i, refresher i (tok_RefreshToken current)).

(** What is done with its answer. *)
Definition locked_write (st : TokenStore) (sessionID : string) (current : TokenSet)
    (refreshed : result TokenSet) : M (result string) :=
  match refreshed with
  | Err e =>
      do _ := invalidate st sessionID in
      ret (Err (ErrWrapSuffix (ErrIs RefreshFailed) "%v"))
  | Ok refreshed =>
      do invalid :=
        if bool_decide (tok_AccessToken refreshed = "") then ret true
        else do t := now in ret (tok_ExpiryUnix refreshed <=? Unix t) in
      if (invalid : bool) then
        do _ := invalidate st sessionID in
        ret (Err (ErrWrapSuffix (ErrIs RefreshFailed) "invalid refreshed token set"))
      else
      let refreshed := merge_refreshed current refreshed in
      do expiresAt := sessionExpiry sessionID in
      match expiresAt with
      | Err e => do _ := invalidate st sessionID in ret (Err e)
      | Ok expiresAt =>
          do put := ts_Put st sessionID refreshed expiresAt in
          match put with
          | Err e => ret (Err (ErrWrap "persist refreshed token" e))
          | Ok _ => ret (Ok (tok_AccessToken refreshed))
          end
      end
  end.

(** [AccessToken] from the second read of the store on. *)
Definition refresh_locked (st : TokenStore) (refresher : Refresher) (sessionID : string)
    : M (result string) :=
  do r := locked_read st sessionID in
  match r with
  | inl res => ret res
  | inr current =>
      do refreshed := locked_call refresher current in
      locked_write st sessionID current refreshed
  end.

(** [AccessToken] up to the lock: the final result, or the refresher to use. *)
Definition AccessToken_fast (st : TokenStore) (sessionID : string)
    : M (result string + Refresher) :=
  do current := ts_Get st sessionID in
  match current with
  | Err e => ret (inl (Err e))
  | Ok current =>
      if bool_decide (tok_AccessToken current = "")
      then ret (inl (Err (errorf "access token missing"))) else
      do needs := needsRefresh current in
      if negb needs then ret (inl (Ok (tok_AccessToken current))) else
      match mgr_Refresher m with
      | None => ret (inl (Err (ErrIs RefreshUnavailable)))
      | Some refresher =>
          if bool_decide (tok_RefreshToken current = "")
          then ret (inl (Err (ErrIs RefreshUnavailable)))
          else ret (inr refresher)
      end
  end.

Definition lock_key (sessionID : string) : string := "token-refresh:" +:+ sessionID.

Definition AccessToken (sessionID : string) : M (result string) :=
  match Store m with
  | None => ret (Err (errorf "token store is not configured"))
  | Some st =>
      do fast := AccessToken_fast st sessionID in
      match fast with
      | inl r => ret r
      | inr refresher =>
          match Locker m with
          | None => refresh_locked st refresher sessionID
          | Some lk =>
              do lock := lk_Lock lk (lock_key sessionID) lockTTL in
              match lock with
              | Err e => ret (Err (ErrWrap "acquire refresh lock" e))
              | Ok unlock =>
                  do res := refresh_locked st refresher sessionID in
                  do _ := unlock in
                  ret res
              end
          end
      end
  end.

(** *** Lemmas *)

(** A set that [needsRefresh] leaves alone at the reading [t] of the clock. *)
Definition fresh_at (set : TokenSet) (t : Time) : Prop :=
  tok_ExpiryUnix set ≤ 0 ∨ t + refresh_before < unix_time (tok_ExpiryUnix set).

Lemma refresh_before_pos : 0 < refresh_before.
Proof. unfold refresh_before, Second. case_match eqn:E; lia. Qed.

Lemma fresh_not_expired set t :
  fresh_at set t → tok_ExpiryUnix set ≤ 0 ∨ Unix t < tok_ExpiryUnix set.
Proof.
  pose proof refresh_before_pos. unfold fresh_at, Unix, unix_time.
  intros [?|Hlt]; [by left|right]. apply Z.lt_sub_lt_add_r, Z.div_lt_upper_bound; unfold Second in *; lia.
Qed.

Lemma needsRefresh_cases set w b w' :
  needsRefresh set w = (b, w') →
  (b = false ∧ w' = w ∧ tok_ExpiryUnix set ≤ 0) ∨
  (w' = tick w ∧ 0 < tok_ExpiryUnix set ∧
   (b = false ↔ clock (w_tick w) + refresh_before < unix_time (tok_ExpiryUnix set))).
Proof.
  unfold needsRefresh, Add, After. destruct (Z.leb_spec (tok_ExpiryUnix set) 0); intros Hn; m_inv; [by left|].
  right. split; [done|]. split; [done|]. rewrite negb_false_iff, Z.ltb_lt. done.
Qed.

Lemma needsRefresh_false set w w' :
  needsRefresh set w = (false, w') → (w' = w ∨ w' = tick w) ∧ fresh_at set (clock (w_tick w)).
Proof.
  intros [(_&->&?)|(->&?&Hb)]%needsRefresh_cases; unfold fresh_at; [auto|].
  split; [auto|]. right. by apply Hb.
Qed.

Lemma needsRefresh_true set w w' :
  needsRefresh set w = (true, w') → w' = tick w ∧ ¬ fresh_at set (clock (w_tick w)).
Proof.
  intros [(?&?&?)|(->&?&Hb)]%needsRefresh_cases; [done|]. split; [done|].
  intros [?|?]; [lia|]. by apply Hb in H1.
Qed.

Section lemmas.
Context (st : TokenStore) (tview : World → gmap string TokenSet) (good : string → Prop).
Context `{!TokenStoreSpec st tview good}.

(** The view after a failed operation of the store on [sid]. *)
Definition kept_or_dropped (sid : string) (w w' : World) : Prop :=
  tview w' = tview w ∨ tview w' = delete sid (tview w).

(** Every way a read of the store ends, before and after taking the lock. *)
Lemma locked_read_cases sid w r w' :
  locked_read st sid w = (r, w') →
  (∃ e, r = inl (Err e) ∧ kept_or_dropped sid w w') ∨
  ∃ cur, tview w !! sid = Some cur ∧ tview w' = tview w ∧
    ((r = inl (Ok (tok_AccessToken cur)) ∧
      (tok_ExpiryUnix cur ≤ 0 ∨ ∃ i, between w w' i ∧ fresh_at cur (clock i))) ∨
     (r = inr cur ∧ tok_RefreshToken cur ≠ "" ∧ ∃ i, between w w' i ∧ ¬ fresh_at cur (clock i))).
Proof.
  unfold locked_read, kept_or_dropped. intros ([cur|e] & w1 & Hg & Hk)%bind_inv.
  2: { unfold ret in Hk. simplify_eq. left. exists e. split; [done|]. by eapply tok_get_err. }
  pose proof (tok_get_frame _ _ _ _ Hg) as [_ Ht1]. apply tok_get_ok in Hg as [Hcur Hv1].
  apply bind_inv in Hk as ([] & w2 & Hn & Hk); simpl in Hk.
  - apply needsRefresh_true in Hn as [-> Hnf]. case_bool_decide; unfold ret in Hk; simplify_eq.
    + left. eexists. split; [done|]. left. by rewrite tok_view_tick.
    + right. exists cur. rewrite tok_view_tick. split; [done|]. split; [done|]. right.
      split; [done|]. split; [done|]. exists (w_tick w1). split; [unfold between; simpl; lia|done].
  - unfold ret in Hk. simplify_eq. right. exists cur.
    apply needsRefresh_cases in Hn as [(_&->&?)|(->&_&Hb)]; [by auto 6|].
    rewrite tok_view_tick. split; [done|]. split; [done|]. left. split; [done|]. right.
    exists (w_tick w1). split; [unfold between; simpl; lia|]. right. by apply Hb.
Qed.

Lemma AccessToken_fast_cases sid w r w' :
  AccessToken_fast st sid w = (r, w') →
  (∃ e, r = inl (Err e) ∧ kept_or_dropped sid w w') ∨
  ∃ cur, tview w !! sid = Some cur ∧ tview w' = tview w ∧ tok_AccessToken cur ≠ "" ∧
    ((r = inl (Ok (tok_AccessToken cur)) ∧
      (tok_ExpiryUnix cur ≤ 0 ∨ ∃ i, between w w' i ∧ fresh_at cur (clock i))) ∨
     (∃ rf, r = inr rf ∧ mgr_Refresher m = Some rf ∧ tok_RefreshToken cur ≠ "" ∧
        ∃ i, between w w' i ∧ ¬ fresh_at cur (clock i))).
Proof.
  unfold AccessToken_fast, kept_or_dropped. intros ([cur|e] & w1 & Hg & Hk)%bind_inv.
  2: { unfold ret in Hk. simplify_eq. left. exists e. split; [done|]. by eapply tok_get_err. }
  pose proof (tok_get_frame _ _ _ _ Hg) as [_ Ht1]. apply tok_get_ok in Hg as [Hcur Hv1].
  case_bool_decide as Hempty; [unfold ret in Hk; simplify_eq; eauto 6|].
  apply bind_inv in Hk as ([] & w2 & Hn & Hk); simpl in Hk.
  - apply needsRefresh_true in Hn as [-> Hnf].
    destruct (mgr_Refresher m) as [rf|] eqn:Hrf; [|unfold ret in Hk; simplify_eq; rewrite tok_view_tick; eauto 6].
    case_bool_decide; unfold ret in Hk; simplify_eq; rewrite tok_view_tick; [by eauto 6|].
    right. exists cur. split; [done|]. split; [done|]. split; [done|]. right. exists rf.
    do 3 (split; [done|]). exists (w_tick w1). split; [unfold between; simpl; lia|done].
  - unfold ret in Hk. simplify_eq. right. exists cur.
    apply needsRefresh_cases in Hn as [(_&->&?)|(->&_&Hb)]; [by auto 7|].
    rewrite tok_view_tick. do 3 (split; [done|]). left. split; [done|]. right.
    exists (w_tick w1). split; [unfold between; simpl; lia|]. right. by apply Hb.
Qed.

Context (Hsess : ∀ ss, Sessions m = Some ss → SessionKeeps ss (same tview) ∧ SessionKeeps ss later).

Lemma invalidate_view sid w u w' : invalidate st sid w = (u, w') → kept_or_dropped sid w w'.
Proof.
  unfold invalidate, kept_or_dropped. intros (rd & w1 & Hd & Hk)%bind_inv.
  assert (tview w1 = tview w ∨ tview w1 = delete sid (tview w)) as Hw1.
  { destruct rd; [right; by eapply tok_delete_ok|by eapply tok_delete_err]. }
  destruct (Sessions m) as [ss|] eqn:Hss; [|unfold ret in Hk; by simplify_eq].
  apply bind_inv in Hk as (? & w2 & Hd2 & [= _ <-]). destruct (Hsess _ eq_refl) as [Hv _].
  apply (keeps_run (same tview)) in Hd2; [|apply keeps_ss_Delete]. by rewrite Hd2.
Qed.

Lemma sessionExpiry_view sid w r w' :
  sessionExpiry sid w = (r, w') → tview w' = tview w ∧ later w w'.
Proof.
  unfold sessionExpiry. destruct (Sessions m) as [ss|] eqn:Hss; [|intros [= _ <-]; split; [done|by red]].
  destruct (Hsess _ eq_refl) as [Hv Hl]. intros Hr.
  apply bind_ok_inv in Hr as [(e&Hg&_)|(sv&w8&Hg&[= _ <-])];
    split; try (eapply (keeps_run (same tview)); [apply keeps_ss_Get|done]);
    eapply (keeps_run later); [apply keeps_ss_Get|done|apply keeps_ss_Get|done].
Qed.

Lemma merge_refreshed_good cur s :
  Forall good (tok_strings cur) → Forall good (tok_strings s) →
  Forall good (tok_strings (merge_refreshed cur s)).
Proof.
  unfold tok_strings. rewrite !list.Forall_cons. simpl. intros (?&?&?&_) (?&?&?&_).
  by repeat case_bool_decide.
Qed.

Lemma locked_write_cases sid cur refreshed w r w' :
  Forall good (tok_strings cur) → (∀ s, refreshed = Ok s → Forall good (tok_strings s)) →
  locked_write st sid cur refreshed w = (r, w') →
  (∃ e, r = Err e ∧ (kept_or_dropped sid w w' ∨
     ∃ s, refreshed = Ok s ∧ tview w' = <[sid := merge_refreshed cur s]> (tview w))) ∨
  ∃ s i, refreshed = Ok s ∧ tok_AccessToken s ≠ "" ∧ r = Ok (tok_AccessToken s) ∧
    between w w' i ∧ Unix (clock i) < tok_ExpiryUnix s ∧
    tview w' = <[sid := merge_refreshed cur s]> (tview w).
Proof.
  intros Hgc Hgr. unfold locked_write. destruct refreshed as [s|e].
  2: { intros (? & w1 & Hi & [= <- <-])%bind_inv. left. eexists. split; [done|].
       left. by eapply invalidate_view. }
  intros (inv & w1 & Hinv & Hk)%bind_inv.
  assert (tview w1 = tview w ∧ later w w1 ∧
    (inv = false → tok_AccessToken s ≠ "" ∧ w1 = tick w ∧ Unix (clock (w_tick w)) < tok_ExpiryUnix s))
    as (Hv1 & Hl1 & Hvalid).
  { case_bool_decide; m_inv; [by repeat split|]. rewrite tok_view_tick. unfold later. simpl.
    split; [done|]. split; [lia|]. intros Hle. split; [done|]. split; [done|]. lia. }
  assert (∀ e w2 r w3, kept_or_dropped sid w w2 →
    bind (invalidate st sid) (λ _, ret (Err e)) w2 = (r, w3) →
    ∃ e, r = @Err string e ∧ (kept_or_dropped sid w w3 ∨
      ∃ s', Ok s = Ok s' ∧ tview w3 = <[sid := merge_refreshed cur s']> (tview w))) as Hfail.
  { intros e w2 r' w3 Hkd (? & w4 & Hi & [= <- <-])%bind_inv. exists e. split; [done|].
    left. apply invalidate_view in Hi. unfold kept_or_dropped in *.
    destruct Hkd as [Hkd|Hkd]; rewrite Hkd in Hi; [done|]. rewrite delete_delete_eq in Hi. naive_solver. }
  destruct inv; [left; eapply Hfail; [|done]; by left|]. destruct (Hvalid eq_refl) as (Hne & -> & Hlt).
  apply bind_inv in Hk as ([exp|e] & w2 & He & Hk);
    apply sessionExpiry_view in He as [Hv2 Hl2]; [|left; eapply Hfail; [|done]; left; congruence].
  apply bind_inv in Hk as ([u|e] & w3 & Hp & Hk); unfold ret in Hk; simplify_eq.
  - right. exists s, (w_tick w). pose proof (tok_put_frame _ _ _ _ _ _ Hp) as [_ Ht].
    apply tok_put_ok in Hp; [|by apply merge_refreshed_good; [|apply Hgr]]. rewrite Hp, Hv2, Hv1. do 3 (split; [done|]).
    split; [unfold between, later in *; simpl in *; lia|done].
  - left. eexists. split; [done|]. apply (tok_put_err (view := tview)) in Hp as [Hp|Hp];
      [rewrite Hv2, Hv1 in Hp; by left; left|rewrite Hv2, Hv1 in Hp; right; eauto|].
    by apply merge_refreshed_good; [|apply Hgr].
Qed.

(** Both ways of getting a token out of the locked part. *)
Lemma refresh_locked_ok rf sid w tok w' :
  (∀ i t s, rf i t = Ok s → Forall good (tok_strings s)) →
  refresh_locked st rf sid w = (Ok tok, w') →
  ∃ cur, tview w' !! sid = Some cur ∧ tok = tok_AccessToken cur ∧
    (tok_ExpiryUnix cur ≤ 0 ∨ ∃ i, between w w' i ∧ Unix (clock i) < tok_ExpiryUnix cur).
Proof.
  intros Hgr. unfold refresh_locked. intros (r & w1 & Hr & Hk)%bind_inv.
  apply locked_read_cases in Hr as [(e&->&_)|(cur&Hcur&Hv&[(->&Hexp)|(->&_&i&Hi&_)])]; [done|..].
  - unfold ret in Hk. simplify_eq. exists cur. rewrite Hv. split; [done|]. split; [done|].
    destruct Hexp as [?|(i&Hi&Hf)]; [by left|].
    apply fresh_not_expired in Hf as [?|?]; [by left|right; eauto].
  - apply bind_inv in Hk as (refreshed & w2 & Hc & Hk). unfold locked_call in Hc. m_inv.
    apply locked_write_cases in Hk as [(?&?&_)|(s&j&_&_&[= ->]&Hj&Hlt&Hw)];
      [done| |by eapply tok_view_good|by apply Hgr].
    exists (merge_refreshed cur s). rewrite Hw, lookup_insert_eq. split; [done|]. split; [done|].
    right. exists j. unfold between in *. simpl in *. split; [lia|done].
Qed.
End lemmas.

(** The manager changes the locks only through its locker. *)
Lemma refresh_locked_keeps (R : relation World) `{!PreOrder R} st rf sid :
  (∀ w, R w (tick w)) → (∀ t w, R w (add_refresh t w)) → TokenKeeps st R →
  (∀ ss, Sessions m = Some ss → SessionKeeps ss R) →
  Keeps R (refresh_locked st rf sid).
Proof.
  intros Ht Hr HT HS. assert (Keeps R (invalidate st sid)) as Hinv.
  { unfold invalidate. keeps; by apply HS. }
  assert (Keeps R (sessionExpiry sid)) as Hexp.
  { unfold sessionExpiry. keeps; by apply HS. }
  unfold refresh_locked, locked_read, locked_call, locked_write, needsRefresh.
  keeps; solve [by apply keeps_oracle|by apply keeps_modify].
Qed.

Lemma AccessToken_fast_keeps (R : relation World) `{!PreOrder R} st sid :
  (∀ w, R w (tick w)) → TokenKeeps st R → Keeps R (AccessToken_fast st sid).
Proof. intros Ht HT. unfold AccessToken_fast, needsRefresh. keeps; by apply keeps_oracle. Qed.

Lemma locked_read_keeps (R : relation World) `{!PreOrder R} st sid :
  (∀ w, R w (tick w)) → TokenKeeps st R → Keeps R (locked_read st sid).
Proof. intros Ht HT. unfold locked_read, needsRefresh. keeps; by apply keeps_oracle. Qed.

Lemma locked_write_keeps (R : relation World) `{!PreOrder R} st sid cur a :
  (∀ w, R w (tick w)) → TokenKeeps st R → (∀ ss, Sessions m = Some ss → SessionKeeps ss R) →
  Keeps R (locked_write st sid cur a).
Proof.
  intros Ht HT HS. unfold locked_write, invalidate, sessionExpiry. keeps; solve [by apply HS|by apply keeps_oracle].
Qed.

End manager.

(** What the answer [a] of the identity provider is worth at the reading [t] of
    the clock: a set with an access token that has not expired. *)
Definition usable_answer (a : result TokenSet) (t : Time) : option TokenSet :=
  match a with
  | Ok s => if bool_decide (tok_AccessToken s ≠ "" ∧ Unix t < tok_ExpiryUnix s) then Some s else None
  | Err _ => None
  end.

(** *** Properties *)
Section properties.
Context `{Env} (m : StoreManager).
Context (st : TokenStore) (tview : World → gmap string TokenSet) (good : string → Prop).
Context `{!TokenStoreSpec st tview good}.
Context (Hstore : Store m = Some st).

(** C7: a token handed out is never one the store knows to be expired: after a
    successful [AccessToken] the store holds the returned token for that
    session, and its set either has no expiry or expires after a reading of the
    clock made during the call.  In particular there is no fall-back to the old
    token when a refresh fails. *)
Theorem access_token_not_expired sid w tok w' :
  (∀ ss, Sessions m = Some ss → SessionKeeps ss (same tview) ∧ SessionKeeps ss later) →
  (∀ lk, Locker m = Some lk → LockerKeeps lk (same tview) ∧ LockerKeeps lk later) →
  (∀ rf i t s, mgr_Refresher m = Some rf → rf i t = Ok s → Forall good (tok_strings s)) →
  AccessToken m sid w = (Ok tok, w') →
  ∃ set, tview w' !! sid = Some set ∧ tok_AccessToken set = tok ∧
    (tok_ExpiryUnix set ≤ 0 ∨ ∃ i, between w w' i ∧ Unix (clock i) < tok_ExpiryUnix set).
Proof.
  intros Hsess Hlk Hgr. unfold AccessToken. rewrite Hstore.
  intros (fast & w1 & Hfast & Hk)%bind_inv.
  assert (later w w1) as Hl1.
  { eapply (keeps_run later); [|done]. apply AccessToken_fast_keeps; [apply _|unfold later; simpl; lia|].
    by eapply token_spec_keeps. }
  assert (∀ rf w2 w3, mgr_Refresher m = Some rf → later w w2 → refresh_locked m st rf sid w2 = (Ok tok, w3) →
    ∃ set, tview w3 !! sid = Some set ∧ tok_AccessToken set = tok ∧
    (tok_ExpiryUnix set ≤ 0 ∨ ∃ i, between w w3 i ∧ Unix (clock i) < tok_ExpiryUnix set)) as Hlocked.
  { intros rf w2 w3 Hrf Hl2 Hr.
    apply (refresh_locked_ok m st tview good) in Hr as (cur & Hcur & -> & Hexp); [|done|by eauto].
    exists cur. split; [done|]. split; [done|]. destruct Hexp as [?|(i & Hi & ?)]; [by left|right].
    exists i. unfold between, later in *. split; [lia|done]. }
  apply (AccessToken_fast_cases m st tview good) in Hfast as
    [(e&->&_)|(cur&Hcur&Hv&_&[(->&Hexp)|(rf&->&Hrf&_)])]; [done|..].
  { unfold ret in Hk. simplify_eq. exists cur. rewrite Hv. split; [done|]. split; [done|].
    destruct Hexp as [?|(i & Hi & Hf)]; [by left|].
    apply fresh_not_expired in Hf as [?|?]; [by left|right; eauto]. }
  destruct (Locker m) as [lk|]; [|by eapply Hlocked]. destruct (Hlk lk eq_refl) as [Hlv Hll].
  apply bind_inv in Hk as (lock & w2 & Hl & Hk).
  destruct lock as [unlock|e]; [|by unfold ret in Hk; simplify_eq].
  apply bind_inv in Hk as (res & w3 & Hres & Hk). apply bind_inv in Hk as (u & w4 & Hu & Hk).
  unfold ret in Hk. simplify_eq. apply Hlocked in Hres as (set & Hset & Htok & Hexp); [|done|].
  - exists set. pose proof (keeps_run (same tview) _ _ _ _ (keeps_unlock _ _ _ _ _ Hl) Hu) as ->.
    pose proof (keeps_run later _ _ _ _ (keeps_unlock _ _ _ _ _ Hl) Hu).
    split; [done|]. split; [done|]. destruct Hexp as [?|(i & Hi & ?)]; [by left|right].
    exists i. unfold between, later in *. split; [lia|done].
  - etransitivity; [done|]. by apply (keeps_run later _ _ _ _ (keeps_lock _ _) Hl).
Qed.

Context (Hlocker : ∀ lk, Locker m = Some lk → LockerSpec lk).

(** C23: the refresh lock is released on every path: whatever [AccessToken]
    returns, success or any error, the set of held locks is what it was. *)
Theorem refresh_lock_released sid w r w' :
  (∀ ss, Sessions m = Some ss → SessionKeeps ss (same w_locks)) →
  AccessToken m sid w = (r, w') → w_locks w' = w_locks w.
Proof.
  intros Hsess. unfold AccessToken. rewrite Hstore.
  intros (fast & w1 & Hfast & Hk)%bind_inv.
  assert (TokenKeeps st (same w_locks)) as Htok.
  { eapply token_spec_keeps; [done|]. unfold but_tokens, same. by intros ? ? [=]. }
  assert (w_locks w1 = w_locks w) as Hl1.
  { eapply (keeps_run (same w_locks)); [|done]. by apply AccessToken_fast_keeps; try apply _. }
  assert (∀ rf w2 res w3, refresh_locked m st rf sid w2 = (res, w3) → w_locks w3 = w_locks w2) as Hlocked.
  { intros rf w2 res w3 Hr. eapply (keeps_run (same w_locks)); [|done].
    apply refresh_locked_keeps; try done. apply _. }
  destruct fast as [r'|rf]; [unfold ret in Hk; by simplify_eq|].
  destruct (Locker m) as [lk|] eqn:Hlk; [|apply Hlocked in Hk; congruence].
  destruct (Hlocker lk eq_refl) as [Herr Hok].
  apply bind_inv in Hk as (lock & w2 & Hl & Hk). destruct lock as [unlock|e].
  - apply Hok in Hl as (Hni & -> & Hun).
    apply bind_inv in Hk as (res & w3 & Hres & Hk). apply bind_inv in Hk as (u & w4 & Hu & Hk).
    rewrite Hun in Hu. unfold ret in Hk. simplify_eq. apply Hlocked in Hres. simpl in *.
    rewrite Hres, <-Hl1. set_solver.
  - apply Herr in Hl as [n ->]. unfold ret in Hk. simplify_eq. rewrite <-Hl1.
    clear. by induction n.
Qed.
End properties.

(** *** The in-memory deployment *)

(** The manager over the in-memory stores, as the application wires it. *)
Definition memory_manager `{Env} (cfg : Lifecycle.Config) (ctx_err : nat → goerr) (rf : Refresher)
    (before ttl : Duration) : StoreManager :=
  mkManager (Some MemoryToken.store) (Some (Lifecycle.store MemorySession.store cfg)) (Some rf)
    (Some (MemoryLocker.locker ctx_err)) before ttl.

Section memory.
Context `{Env} (cfg : Lifecycle.Config) (ctx_err : nat → goerr) (rf : Refresher) (before ttl : Duration).
#[local] Abbreviation m := (memory_manager cfg ctx_err rf before ttl).

(** Errors that do not come from the identity provider's answer. *)
Lemma AccessToken_fast_error sid w e w' :
  AccessToken_fast m MemoryToken.store sid w = (inl (Err e), w') → errors_Is e RefreshFailed = false.
Proof.
  unfold AccessToken_fast. intros ([cur|e'] & w1 & Hg & Hk)%bind_inv.
  - case_bool_decide; [by unfold ret in Hk; simplify_eq|].
    apply bind_inv in Hk as ([] & w2 & _ & Hk); simpl in Hk; [|by unfold ret in Hk; simplify_eq].
    case_bool_decide; by unfold ret in Hk; simplify_eq.
  - unfold ret in Hk. simplify_eq. simpl in Hg. apply MemoryToken.memory_token_Get_cases in Hg.
    by destruct Hg as [[? ?]|[(v&?&?&_)|[? ?]]]; simplify_eq.
Qed.

Lemma locked_read_error sid w e w' :
  locked_read m MemoryToken.store sid w = (inl (Err e), w') → errors_Is e RefreshFailed = false.
Proof.
  unfold locked_read. intros ([cur|e'] & w1 & Hg & Hk)%bind_inv.
  - apply bind_inv in Hk as ([] & w2 & _ & Hk); simpl in Hk; [|by unfold ret in Hk; simplify_eq].
    case_bool_decide; by unfold ret in Hk; simplify_eq.
  - unfold ret in Hk. simplify_eq. simpl in Hg. apply MemoryToken.memory_token_Get_cases in Hg.
    by destruct Hg as [[? ?]|[(v&?&?&_)|[? ?]]]; simplify_eq.
Qed.

Lemma invalidate_memory sid w u w' :
  invalidate m MemoryToken.store sid w = (u, w') →
  w_tokens w' !! sid = None ∧ w_sessions w' !! sid = None.
Proof.
  unfold invalidate. simpl. unfold MemoryToken.Delete, Lifecycle.Delete. simpl. unfold MemorySession.Delete.
  intros Hi. m_inv. by rewrite !lookup_delete_eq.
Qed.

Lemma sessionExpiry_error sid w e w' :
  sessionExpiry m sid w = (Err e, w') → errors_Is e RefreshFailed = false.
Proof.
  unfold sessionExpiry. simpl. intros [(e' & Hg & [= <-])|(v & w1 & _ & [=])]%bind_ok_inv.
  unfold Lifecycle.Get in Hg.
  apply bind_ok_inv in Hg as [(e' & Hg & [= <-])|(p & w1 & _ & Hp)].
  - unfold Lifecycle.Get_read in Hg. apply bind_ok_inv in Hg as [(e' & Hg & [= <-])|(v & w2 & _ & Hg)].
    + apply MemorySession.memory_Get_cases in Hg. naive_solver.
    + apply bind_inv in Hg as (t & w3 & _ & Hg).
      repeat case_match; try (apply bind_inv in Hg as (? & ? & _ & Hg)); unfold ret in Hg; by simplify_eq.
  - unfold Lifecycle.Get_write in Hp. destruct p as [v [v'|]]; simpl in Hp; [|done].
    unfold MemorySession.Put in Hp. by m_inv.
Qed.

Lemma memory_manager_keeps (R : relation World) `{!PreOrder R} :
  (∀ w, R w (tick w)) → (∀ w w', but_sessions w' = but_sessions w → later w w' → R w w') →
  ∀ ss, Sessions m = Some ss → SessionKeeps ss R.
Proof.
  intros Ht HR ss [= <-]. apply Lifecycle.lifecycle_keeps; [done| |done].
  by eapply session_spec_keeps; [apply _|].
Qed.

(** Neither the tokens nor the session of [sid] are left. *)
Definition logged_out (sid : string) (w : World) : Prop :=
  w_tokens w !! sid = None ∧ w_sessions w !! sid = None.

(** What the call is answered with, and what is left in the stores, once the
    provider has answered [a] to the refresh token of [cur] and the clock has
    been read as [t]. *)
Definition answered (sid : string) (cur : TokenSet) (a : result TokenSet) (t : Time)
    (r : result string) (w' : World) : Prop :=
  match usable_answer a t with
  | None => (∃ e, r = Err e ∧ errors_Is e RefreshFailed = true) ∧ logged_out sid w'
  | Some s =>
      (r = Ok (tok_AccessToken s) ∧ ∃ exp, w_tokens w' !! sid = Some (mkTokenEntry (merge_refreshed cur s) exp)) ∨
      ((∃ e, r = Err e ∧ errors_Is e RefreshFailed = false) ∧ logged_out sid w')
  end.

Lemma locked_write_answered sid cur a w r w' :
  locked_write m MemoryToken.store sid cur a w = (r, w') →
  answered sid cur a (clock (w_tick w)) r w'.
Proof.
  unfold locked_write, answered. intros Hk. destruct a as [s|e']; simpl.
  2: { apply bind_inv in Hk as (u & w3 & Hi & [= <- <-]). split; [by eexists|by eapply invalidate_memory]. }
  apply bind_inv in Hk as (inv & w3 & Hinv & Hk).
  assert ((if inv then None else Some s) = usable_answer (Ok s) (clock (w_tick w))) as Hu.
  { simpl. unfold now in Hinv. repeat case_bool_decide; m_inv; simpl; try tauto; case_match; lia || naive_solver lia. }
  simpl in Hu. rewrite <-Hu. clear Hu. destruct inv; cbn iota.
  { apply bind_inv in Hk as (u & w4 & Hi & [= <- <-]). split; [by eexists|by eapply invalidate_memory]. }
  apply bind_inv in Hk as ([exp|e'] & w4 & He & Hk).
  - simpl in Hk. unfold MemoryToken.Put in Hk. m_inv. unfold ret in Hk. simplify_eq. left. split; [done|]. exists exp. apply lookup_insert_eq.
  - apply bind_inv in Hk as (u & w5 & Hi & [= <- <-]). right.
    split; [|by eapply invalidate_memory]. eexists. split; [done|]. by apply sessionExpiry_error in He.
Qed.

(** What a call of [AccessToken] started in [w] did: it did not reach the
    provider, or asked it once for the stored set that some reading of the clock
    found stale. *)
Definition refresh_outcome (sid : string) (w : World) (r : result string) (w' : World) : Prop :=
  (w_refreshes w' = w_refreshes w ∧ ∀ e, r = Err e → errors_Is e RefreshFailed = false) ∨
  ∃ i k cur, between w w' i ∧ between w w' k ∧
    MemoryToken.view w !! sid = Some cur ∧ ¬ fresh_at m cur (clock k) ∧
    w_refreshes w' = w_refreshes w ++ [tok_RefreshToken cur] ∧
    answered sid cur (rf i (tok_RefreshToken cur)) (clock (S i)) r w'.

Lemma memory_tokens_refreshes : TokenKeeps MemoryToken.store (same w_refreshes).
Proof. apply memory_token_keeps. by intros ? ? [=]. Qed.

Lemma refresh_locked_outcome sid w r w' :
  refresh_locked m MemoryToken.store rf sid w = (r, w') → refresh_outcome sid w r w'.
Proof.
  pose proof memory_tokens_refreshes as Hmt. assert (TokenKeeps MemoryToken.store later) as Hml.
  { by eapply token_spec_keeps; [apply _|]. }
  assert (∀ w : World, later w (tick w)) as Ht by (unfold later; simpl; lia).
  unfold refresh_locked, refresh_outcome. intros (rd & w1 & Hr & Hk)%bind_inv.
  assert (w_refreshes w1 = w_refreshes w) as Hrf1.
  { eapply (keeps_run (same w_refreshes)); [|exact Hr]. by apply locked_read_keeps; [apply _|..]. }
  assert (later w w1) as Hl1 by (eapply (keeps_run later); [|exact Hr]; by apply locked_read_keeps; [apply _|..]).
  destruct rd as [res|cur].
  { unfold ret in Hk. simplify_eq. left. split; [done|]. intros e ->. by eapply locked_read_error. }
  apply (locked_read_cases m MemoryToken.store MemoryToken.view any_string) in Hr
    as [(e&[=]&_)|(cur'&Hcur&_&[([=]&_)|([= <-]&_&k&Hk1&Hst)])].
  apply bind_inv in Hk as (refreshed & w2 & Hc & Hk). unfold locked_call in Hc. m_inv.
  pose proof (locked_write_answered _ _ _ _ _ _ Hk) as Hans. right. exists (w_tick w1), k, cur.
  assert (w_refreshes w' = w_refreshes w1 ++ [tok_RefreshToken cur]) as Href.
  { eapply (keeps_run (same w_refreshes)) in Hk; [exact Hk|].
    apply locked_write_keeps; [apply _|done..|]. apply memory_manager_keeps; [apply _|done|by intros ? ? [=]]. }
  assert (S (w_tick w1) ≤ w_tick w')%nat as Hl2.
  { eapply (keeps_run later) in Hk; [exact Hk|].
    apply locked_write_keeps; [apply _|done..|]. by apply memory_manager_keeps; [apply _|..]. }
  rewrite Href, Hrf1. unfold between, later in *. simpl in *. by repeat split; try lia.
Qed.

(** The outcome only depends on what is done between taking the lock and
    giving it back. *)
Lemma refresh_outcome_around sid w0 w r w' w1 :
  w_refreshes w = w_refreshes w0 → MemoryToken.view w = MemoryToken.view w0 → later w0 w →
  w_refreshes w1 = w_refreshes w' → w_tokens w1 = w_tokens w' → w_sessions w1 = w_sessions w' → later w' w1 →
  refresh_outcome sid w r w' → refresh_outcome sid w0 r w1.
Proof.
  unfold refresh_outcome, answered, logged_out, between, later. intros -> -> Hl -> -> -> Hl'.
  intros [?|(i & k & cur & Hi & Hk & Hrest)]; [by left|right]. exists i, k, cur.
  split; [lia|]. split; [lia|]. done.
Qed.
End memory.

(** C8: over the in-memory stores a refresh that the identity provider refuses,
    or answers with an unusable set (no access token, or one that has expired),
    fails closed.  A call of [AccessToken] either does not reach the provider,
    and then does not report ErrRefreshFailed, or asks it exactly once, with
    the refresh token of a stored set found stale.  In the second case an
    unusable answer is reported as ErrRefreshFailed and the tokens and the
    session of that id are gone; a usable one is stored, merged with the old
    set, and returned, or the session could not be read, and tokens and session
    are gone as well. *)
Theorem refresh_failure_fails_closed `{Env} cfg ctx_err rf before ttl sid w r w' :
  (∀ i, errors_Is (ctx_err i) RefreshFailed = false) →
  AccessToken (memory_manager cfg ctx_err rf before ttl) sid w = (r, w') →
  refresh_outcome cfg ctx_err rf before ttl sid w r w'.
Proof.
  intros Hctx. unfold AccessToken. simpl. intros (fast & w1 & Hfast & Hk)%bind_inv.
  assert (w_refreshes w1 = w_refreshes w) as Hrf1.
  { eapply (keeps_run (same w_refreshes)); [|exact Hfast].
    apply AccessToken_fast_keeps; [apply _|done|apply memory_tokens_refreshes]. }
  assert (later w w1) as Hl1.
  { eapply (keeps_run later); [|exact Hfast]. apply AccessToken_fast_keeps; [apply _|unfold later; simpl; lia|].
    by eapply token_spec_keeps; [apply _|]. }
  destruct fast as [res|rf'].
  { unfold ret in Hk. simplify_eq. left. split; [done|]. intros e ->. by eapply AccessToken_fast_error. }
  apply (AccessToken_fast_cases (memory_manager cfg ctx_err rf before ttl) _ MemoryToken.view any_string) in Hfast
    as [(e&[=]&_)|(cur&_&Hv&_&[[[=] _]|(rf2&[= <-]&[= <-]&_)])].
  apply bind_inv in Hk as ([unlock|e'] & w2 & Hl & Hk).
  - apply (lock_ok (L := MemoryLocker.locker ctx_err)) in Hl as (_ & -> & Hun).
    apply bind_inv in Hk as (res & w3 & Hres & Hk). apply bind_inv in Hk as (u & w4 & Hu & Hk).
    rewrite Hun in Hu. unfold ret in Hk. simplify_eq. apply refresh_locked_outcome in Hres.
    eapply refresh_outcome_around; [..|exact Hres]; unfold later in *; simpl; solve [done|lia].
  - unfold ret in Hk. simplify_eq. unfold MemoryLocker.Lock in Hl. m_inv. case_bool_decide; m_inv.
    left. split; [done|]. intros e [= <-]. apply Hctx.
Qed.
End Manager.
