(* ===== verification/TokenThreads.v ===== *)
(** * Concurrent calls of StoreManager.AccessToken

    Any number of goroutines call [AccessToken] for one session.  Each is a
    thread that goes through the steps of internal/token/manager.go: the
    lock-free read, the wait for the lock, and under the lock the second read,
    the call of the identity provider, the write and the release.  The steps of
    different threads interleave freely over the shared store and lock. *)

From S2P Require Import Prelude GoStrings World Session Token.
Import Manager.
Open Scope Z_scope.

Inductive thread :=
  | Start
  | Waiting (rf : Refresher)
  | Locked (rf : Refresher) (unlock : M (result unit))
  | Calling (rf : Refresher) (unlock : M (result unit)) (current : TokenSet)
  | Writing (unlock : M (result unit)) (current : TokenSet) (refreshed : result TokenSet)
  | Releasing (unlock : M (result unit)) (res : result string)
  | Finished (res : result string).

(** The threads between [Lock] and [unlock]. *)
Definition unlock_of (t : thread) : option (M (result unit)) :=
  match t with
  | Locked _ u | Calling _ u _ | Writing u _ _ | Releasing u _ => Some u
  | _ => None
  end.

Section threads.
Context `{Env} (m : StoreManager) (st : TokenStore) (lk : RefreshLocker) (sid : string).

Definition after_fast (r : result string + Refresher) : thread :=
  match r with inl res => Finished res | inr rf => Waiting rf end.
Definition after_lock (rf : Refresher) (r : result (M (result unit))) : thread :=
  match r with
  | Ok unlock => Locked rf unlock
  | Err e => Finished (Err (ErrWrap "acquire refresh lock" e))
  end.
Definition after_read (rf : Refresher) unlock (r : result string + TokenSet) : thread :=
  match r with inl res => Releasing unlock res | inr cur => Calling rf unlock cur end.

(** One step of one thread: its next state and the new world. *)
Definition thread_step (t : thread) : option (M thread) :=
  match t with
  | Start => Some (do r := AccessToken_fast m st sid in ret (after_fast r))
  | Waiting rf => Some (do r := lk_Lock lk (lock_key sid) (lockTTL m) in ret (after_lock rf r))
  | Locked rf u => Some (do r := locked_read m st sid in ret (after_read rf u r))
  | Calling rf u cur => Some (do r := locked_call rf cur in ret (Writing u cur r))
  | Writing u cur r => Some (do res := locked_write m st sid cur r in ret (Releasing u res))
  | Releasing u res => Some (do _ := u in ret (Finished res))
  | Finished _ => None
  end.

Inductive step : list thread * World → list thread * World → Prop :=
  | step_thread i ts w t c t' w' :
      ts !! i = Some t → thread_step t = Some c → c w = (t', w') →
      step (ts, w) (<[i := t']> ts, w')
  | step_time ts w : step (ts, w) (ts, tick w).

(** A thread that runs alone does what [AccessToken] does. *)
Lemma sequential_run w r w' :
  Store m = Some st → Locker m = Some lk →
  AccessToken m sid w = (r, w') → rtc step ([Start], w) ([Finished r], w').
Proof.
  assert (∀ t c t' w1 w2, thread_step t = Some c → c w1 = (t', w2) → step ([t], w1) ([t'], w2)) as Hone.
  { intros t c t' w1 w2 Ht Hc. by apply (step_thread 0 [t] w1 t c). }
  intros Hst Hlk. unfold AccessToken. rewrite Hst, Hlk. intros (fast & w1 & Hf & Hk)%bind_inv.
  eapply rtc_l; [eapply Hone; [done|]; simpl; unfold bind; by rewrite Hf|].
  destruct fast as [r'|rf]; simpl; [unfold ret in Hk; by simplify_eq|].
  apply bind_inv in Hk as (lock & w2 & Hl & Hk).
  eapply rtc_l; [eapply Hone; [done|]; simpl; unfold bind; by rewrite Hl|].
  destruct lock as [u|e]; simpl; [|unfold ret in Hk; by simplify_eq].
  apply bind_inv in Hk as (res & w3 & Hr & Hk). apply bind_inv in Hk as (x & w4 & Hu & [= <- <-]).
  unfold refresh_locked in Hr. apply bind_inv in Hr as (rd & w5 & Hrd & Hr).
  eapply rtc_l; [eapply Hone; [done|]; simpl; unfold bind; by rewrite Hrd|].
  assert (∀ w6, (u w6).2 = w4 → rtc step ([Releasing u res], w6) ([Finished res], w4)) as Hrel.
  { intros w6 Hw6. eapply rtc_once, Hone; [done|]. simpl. unfold bind. destruct (u w6). simpl in *. by subst. }
  destruct rd as [r'|cur]; simpl.
  - unfold ret in Hr. simplify_eq. apply Hrel. by rewrite Hu.
  - apply bind_inv in Hr as (rfd & w6 & Hc & Hw).
    eapply rtc_l; [eapply Hone; [done|]; simpl; unfold bind; by rewrite Hc|].
    eapply rtc_l; [eapply Hone; [done|]; simpl; unfold bind; by rewrite Hw|].
    apply Hrel. by rewrite Hu.
Qed.
End threads.

(** ** Refreshes collapse *)

(** When one refresh settles the matter for everybody: the stored set [cur] needs
    a refresh at every reading of the clock, the identity provider grants its
    refresh token with sets that need none at any reading, and the token store
    accepts writes.  Where one of these fails (an answer that lives no longer
    than RefreshBefore, a store that refuses the write, a provider that refuses)
    the goroutines that wait refresh again, one after the other. *)
Record settles `{Env} (m : StoreManager) (st : TokenStore) (good : string → Prop) (sid : string)
    (rf : Refresher) (cur : TokenSet) (answer : nat → TokenSet) : Prop := {
  settles_refresher : mgr_Refresher m = Some rf;
  settles_stale i : ¬ fresh_at m cur (clock i);
  settles_answer i : rf i (tok_RefreshToken cur) = Ok (answer i);
  settles_fresh i j : fresh_at m (answer i) (clock j);
  settles_put s t w : ∃ w', ts_Put st sid s t w = (Ok tt, w');
  settles_delete w : ∃ w', ts_Delete st sid w = (Ok tt, w');
  settles_cur_good : Forall good (tok_strings cur);
  settles_good i : Forall good (tok_strings (answer i));
}.

Section collapse.
Context `{Env} (m : StoreManager) (st : TokenStore) (lk : RefreshLocker) (sid : string).
Context (tview : World → gmap string TokenSet) (good : string → Prop).
Context `{!TokenStoreSpec st tview good, !LockerSpec lk}.
Context (ss : SessionStore) (Hss : Sessions m = Some ss).

(** What the wrapped session store must leave alone. *)
Definition token_frame (w : World) := (tview w, w_locks w, w_refreshes w).
Context (Hkeep : SessionKeeps ss (same token_frame)) (Hlater : SessionKeeps ss later).

(** At most one thread holds the lock, the lock is then taken, and the thread
    releases it properly. *)
Definition mutex (ts : list thread) (w : World) : Prop :=
  (∀ i j a b, ts !! i = Some a → ts !! j = Some b →
     is_Some (unlock_of a) → is_Some (unlock_of b) → i = j) ∧
  (∀ i a u, ts !! i = Some a → unlock_of a = Some u →
     lock_key sid ∈ w_locks w ∧ ∀ w1, u w1 = (Ok tt, set_locks (.∖ {[lock_key sid]}) w1)).

(** *** Frames *)
Definition lock_frame (w : World) := (w_locks w, w_refreshes w).

Lemma sessions_lock_frame s : Sessions m = Some s → SessionKeeps s (same lock_frame).
Proof.
  rewrite Hss. intros [= <-]. destruct Hkeep as [Hg Hp Hd]. unfold same, token_frame, lock_frame in *.
  split; intros x w; [specialize (Hg x w)|specialize (Hp x w)|specialize (Hd x w)]; simpl in *; congruence.
Qed.

Lemma sessions_view s : Sessions m = Some s → SessionKeeps s (same tview) ∧ SessionKeeps s later.
Proof.
  rewrite Hss. intros [= <-]. split; [|done]. destruct Hkeep as [Hg Hp Hd].
  unfold same, token_frame in *.
  split; intros x w; [specialize (Hg x w)|specialize (Hp x w)|specialize (Hd x w)]; simpl in *; congruence.
Qed.

Lemma store_lock_frame : TokenKeeps st (same lock_frame).
Proof.
  eapply token_spec_keeps; [done|]. unfold but_tokens, same, lock_frame. intros ? ? [=]. congruence.
Qed.

Lemma fast_frame w r w' : AccessToken_fast m st sid w = (r, w') → lock_frame w' = lock_frame w.
Proof.
  intros Hr. eapply (keeps_run (same lock_frame)); [|done].
  apply AccessToken_fast_keeps; [apply _|done|apply store_lock_frame].
Qed.

Lemma read_frame w r w' : locked_read m st sid w = (r, w') → lock_frame w' = lock_frame w.
Proof.
  intros Hr. eapply (keeps_run (same lock_frame)); [|done]. pose proof store_lock_frame.
  unfold locked_read, needsRefresh. keeps.
Qed.

Lemma write_frame c s w r w' : locked_write m st sid c s w = (r, w') → lock_frame w' = lock_frame w.
Proof.
  intros Hr. eapply (keeps_run (same lock_frame)); [|done].
  pose proof store_lock_frame. pose proof sessions_lock_frame as HS.
  unfold locked_write, invalidate, sessionExpiry. keeps; by apply HS.
Qed.

(** *** Mutual exclusion *)
Lemma mutex_insert ts w i a b w' :
  mutex ts w → ts !! i = Some a → (unlock_of b = unlock_of a ∨ unlock_of b = None) →
  w_locks w' = w_locks w → mutex (<[i := b]> ts) w'.
Proof.
  intros [Huniq Hheld] Ha Hb Hlocks. unfold mutex. rewrite Hlocks.
  assert (∀ j c u, <[i := b]> ts !! j = Some c → unlock_of c = Some u →
    ∃ c', ts !! j = Some c' ∧ unlock_of c' = Some u) as Hlift.
  { intros j c u [(->&<-&_)|[_ Hj]]%list_lookup_insert_Some Hu; [|by eauto].
    destruct Hb as [Hb|Hb]; [|congruence]. exists a. split; [done|congruence]. }
  split.
  - intros j k c d Hj Hk [u Hu] [v Hv].
    apply (Hlift _ _ _ Hj) in Hu as (c'&?&?). apply (Hlift _ _ _ Hk) in Hv as (d'&?&?). eauto.
  - intros j c u Hj Hu. apply (Hlift _ _ _ Hj) in Hu as (c'&?&?). eauto.
Qed.

(** Only the thread [i] holds the lock. *)
Lemma others_outside ts w i a :
  mutex ts w → ts !! i = Some a → is_Some (unlock_of a) →
  ∀ j b, j ≠ i → ts !! j = Some b → unlock_of b = None.
Proof.
  intros [Huniq _] Ha Hua j b Hji Hb. apply eq_None_not_Some. intros Hub. apply Hji. eauto.
Qed.

(** Taking and giving back the lock. *)
Lemma mutex_lock ts w i rf' u :
  mutex ts w → lock_key sid ∉ w_locks w →
  (∀ w1, u w1 = (Ok tt, set_locks (.∖ {[lock_key sid]}) w1)) →
  mutex (<[i := Locked rf' u]> ts) (set_locks ({[lock_key sid]} ∪.) w).
Proof.
  intros [_ Hheld] Hfree Hu. unfold mutex. simpl.
  assert (∀ j c v, <[i := Locked rf' u]> ts !! j = Some c → unlock_of c = Some v → j = i ∧ v = u) as Honly.
  { intros j c v [(->&<-&_)|[_ Hj]]%list_lookup_insert_Some Hv; [by simplify_eq/=|].
    by destruct (Hheld _ _ _ Hj Hv). }
  split.
  - intros j k a b Ha Hb [v Hv] [v' Hv']. apply (Honly _ _ _ Ha) in Hv as [-> _].
    by apply (Honly _ _ _ Hb) in Hv' as [-> _].
  - intros j a v Ha Hv. apply (Honly _ _ _ Ha) in Hv as [_ ->]. split; [set_solver|done].
Qed.

Lemma mutex_unlock ts w i a b w' :
  mutex ts w → ts !! i = Some a → is_Some (unlock_of a) → unlock_of b = None →
  mutex (<[i := b]> ts) w'.
Proof.
  intros Hm Ha Hua Hb.
  assert (∀ j c, <[i := b]> ts !! j = Some c → unlock_of c = None) as Hnone.
  { intros j c [(->&<-&_)|[Hne Hj]]%list_lookup_insert_Some; [done|]. by apply (others_outside ts w i a Hm Ha Hua j). }
  split.
  - intros j k c d Hc _ [v Hv]. apply Hnone in Hc. congruence.
  - intros j c v Hc Hv. apply Hnone in Hc. congruence.
Qed.


(** Mutual exclusion needs nothing of the provider, nor of the store's answers. *)
Lemma mutex_step c c' : step m st lk sid c c' → mutex c.1 c.2 → mutex c'.1 c'.2.
Proof.
  intros Hstep Hm. destruct Hstep as [i ts w t c t' w' Ht Hc Hrun|ts w]; simpl in *; [|done].
  destruct t as [|rf' |rf' u|rf' u c0|u c0 r|u r|r]; simpl in Hc; simplify_eq;
    apply bind_inv in Hrun as (r0 & w1 & Hr & [= <- <-]).
  - apply fast_frame in Hr as [= Hl _]. eapply (mutex_insert ts w i); eauto. right. by destruct r0.
  - destruct r0 as [u|e].
    + apply lock_ok in Hr as (Hfree & -> & Hun). by apply mutex_lock.
    + apply lock_err in Hr as [n ->]. eapply (mutex_insert ts w i); eauto. by induction n.
  - apply read_frame in Hr as [= Hl _]. eapply (mutex_insert ts w i); eauto. left. by destruct r0.
  - unfold locked_call in Hr. m_inv. eapply (mutex_insert ts w i); eauto.
  - apply write_frame in Hr as [= Hl _]. eapply (mutex_insert ts w i); eauto.
  - by eapply (mutex_unlock ts w i); eauto.
Qed.

Lemma mutex_initial n w : mutex (replicate n Start) w.
Proof.
  split; [intros i j a b [-> _]%lookup_replicate|intros i a u [-> _]%lookup_replicate]; [|done].
  intros _ [? [=]].
Qed.

Lemma mutex_reachable n w ts w' :
  rtc (step m st lk sid) (replicate n Start, w) (ts, w') → mutex ts w'.
Proof.
  intros Hrun. enough (∀ c c', rtc (step m st lk sid) c c' → mutex c.1 c.2 → mutex c'.1 c'.2) as Hall.
  { exact (Hall _ _ Hrun (mutex_initial n w)). }
  intros c c' Hr. induction Hr; eauto using mutex_step.
Qed.

(** *** One refresh that settles the matter *)
Section settled.
Context (rf : Refresher) (cur : TokenSet) (answer : nat → TokenSet).
Context (Hsettles : settles m st good sid rf cur answer).
#[local] Abbreviation Hrf := (settles_refresher _ _ _ _ _ _ _ Hsettles).
#[local] Abbreviation Hstale := (settles_stale _ _ _ _ _ _ _ Hsettles).
#[local] Abbreviation Hanswer := (settles_answer _ _ _ _ _ _ _ Hsettles).
#[local] Abbreviation Hfresh := (settles_fresh _ _ _ _ _ _ _ Hsettles).
#[local] Abbreviation Hput := (settles_put _ _ _ _ _ _ _ Hsettles).
#[local] Abbreviation Hdelete := (settles_delete _ _ _ _ _ _ _ Hsettles).
#[local] Abbreviation Hcurgood := (settles_cur_good _ _ _ _ _ _ _ Hsettles).
#[local] Abbreviation Hgood := (settles_good _ _ _ _ _ _ _ Hsettles).

Inductive phase := Before | During | Done (j : nat).

Definition stored_is (s : TokenSet) (w : World) : Prop :=
  tview w !! sid = Some s ∨ tview w !! sid = None.

Definition world_ok (ph : phase) (w : World) : Prop :=
  match ph with
  | Before => w_refreshes w = [] ∧ stored_is cur w
  | During => length (w_refreshes w) = 1%nat ∧ stored_is cur w
  | Done j => length (w_refreshes w) = 1%nat ∧ stored_is (merge_refreshed cur (answer j)) w
  end.

Definition result_ok (ph : phase) (r : result string) : Prop :=
  match r with Ok tok => ∃ j, ph = Done j ∧ tok = tok_AccessToken (answer j) | Err _ => True end.

Definition thread_ok (ph : phase) (t : thread) : Prop :=
  match t with
  | Start => True
  | Waiting rf' | Locked rf' _ => rf' = rf
  | Calling rf' _ c => rf' = rf ∧ c = cur ∧ ph = Before
  | Writing _ c r => c = cur ∧ (∃ j, r = Ok (answer j)) ∧ ph = During
  | Releasing _ r | Finished r => result_ok ph r
  end.

Definition is_Writing (t : thread) : Prop :=
  match t with Writing _ _ _ => True | _ => False end.

Definition Inv (c : list thread * World) : Prop :=
  ∃ ph, world_ok ph c.2 ∧ Forall (thread_ok ph) c.1 ∧ mutex c.1 c.2 ∧
        (ph = During → Exists is_Writing c.1).

(** *** The write, when the token store accepts writes *)
Lemma invalidate_drops w u w' : invalidate m st sid w = (u, w') → tview w' !! sid = None.
Proof.
  unfold invalidate. rewrite Hss. intros (rd & w1 & Hd & (x & w2 & Hsd & [= _ <-])%bind_inv)%bind_inv.
  destruct (Hdelete w) as [w1' Hd']. rewrite Hd' in Hd. simplify_eq. apply tok_delete_ok in Hd'.
  destruct (sessions_view ss Hss) as [Hv _].
  apply (keeps_run (same tview)) in Hsd; [|apply keeps_ss_Delete].
  rewrite Hsd, Hd'. apply lookup_delete_eq.
Qed.

Lemma write_done j w r w' :
  locked_write m st sid cur (Ok (answer j)) w = (r, w') →
  stored_is (merge_refreshed cur (answer j)) w' ∧
  (∀ tok, r = Ok tok → tok = tok_AccessToken (answer j)).
Proof.
  intros Hw. pose proof Hw as Hw2. apply (locked_write_cases m st tview good) in Hw; [|apply sessions_view|apply Hcurgood|intros s [= <-]; apply Hgood].
  unfold stored_is. destruct Hw as [(e&->&_)|(s&i&[= <-]&_&->&_&_&->)].
  2: { rewrite lookup_insert_eq. split; [by left|]. by intros tok [= <-]. }
  split; [|done]. right. unfold locked_write in Hw2.
  apply bind_inv in Hw2 as ([] & w1 & _ & Hk).
  { apply bind_inv in Hk as (? & w2 & Hi & [= _ <-]). by eapply invalidate_drops. }
  apply bind_inv in Hk as ([exp|e'] & w2 & _ & Hk).
  - destruct (Hput (merge_refreshed cur (answer j)) exp w2) as [w3 Hp].
    unfold bind in Hk. by rewrite Hp in Hk.
  - apply bind_inv in Hk as (? & w3 & Hi & [= _ <-]). by eapply invalidate_drops.
Qed.

(** Threads that do not hold the lock and have no result do not care about the
    phase. *)
Lemma thread_ok_phase ph ph' t :
  thread_ok ph t → unlock_of t = None → (∀ j, ph ≠ Done j) → thread_ok ph' t.
Proof.
  destruct t as [| | | | | |[tok|e]]; simpl; try done. intros (j & -> & _) _ Hph. by destruct (Hph j).
Qed.

Lemma Forall_insert_phase ts w i a b ph ph' :
  mutex ts w → ts !! i = Some a → is_Some (unlock_of a) → Forall (thread_ok ph) ts →
  (∀ j, ph ≠ Done j) → thread_ok ph' b → Forall (thread_ok ph') (<[i := b]> ts).
Proof.
  intros Hm Ha Hua Hall Hph Hb. apply list.Forall_lookup_2.
  intros j c [(->&<-&_)|[Hne Hj]]%list_lookup_insert_Some; [done|].
  eapply thread_ok_phase; [by eapply list.Forall_lookup_1| |done].
  by apply (others_outside ts w i a Hm Ha Hua j).
Qed.

(** A read of the store, before or under the lock, in each phase. *)
Lemma world_ok_transport ph w w' :
  world_ok ph w → w_refreshes w' = w_refreshes w →
  (tview w' = tview w ∨ tview w' = delete sid (tview w)) → world_ok ph w'.
Proof.
  unfold world_ok, stored_is. intros Hw Hr Hv. rewrite Hr.
  destruct ph, Hw as [? Hs]; (split; [done|]); destruct Hv as [->| ->]; rewrite ?lookup_delete_eq; auto.
Qed.

Lemma stale_stored ph w s :
  world_ok ph w → tview w !! sid = Some s →
  (s = cur ∧ ∀ j, ph ≠ Done j) ∨ ∃ j, ph = Done j ∧ s = merge_refreshed cur (answer j).
Proof. unfold world_ok, stored_is. destruct ph; naive_solver congruence. Qed.

Lemma fresh_stored ph w w' s :
  world_ok ph w → tview w !! sid = Some s →
  (tok_ExpiryUnix s ≤ 0 ∨ ∃ i, between w w' i ∧ fresh_at m s (clock i)) →
  result_ok ph (Ok (tok_AccessToken s)).
Proof.
  intros Hw Hs Hf. destruct (stale_stored _ _ _ Hw Hs) as [[-> _]|(j & -> & ->)].
  - exfalso. destruct Hf as [?|(i&_&?)]; [apply (Hstale 0); by left|by apply (Hstale i)].
  - by exists j.
Qed.

Lemma stale_before ph w s i :
  world_ok ph w → tview w !! sid = Some s → ¬ fresh_at m s (clock i) → s = cur ∧ ∀ j, ph ≠ Done j.
Proof.
  intros Hw Hs Hf. destruct (stale_stored _ _ _ Hw Hs) as [?|(j & -> & ->)]; [done|].
  exfalso. apply Hf, (Hfresh j i).
Qed.

Lemma exists_writing_insert ts i a b :
  Exists is_Writing ts → ts !! i = Some a → ¬ is_Writing a → Exists is_Writing (<[i := b]> ts).
Proof.
  intros (t & [j Hj]%list_elem_of_lookup & Ht)%list.Exists_exists Ha Hna.
  apply list.Exists_exists. exists t. split; [|done]. apply list_elem_of_lookup. exists j.
  rewrite list_lookup_insert_ne; [done|]. intros <-. congruence.
Qed.

Lemma writing_holds ts w i a :
  mutex ts w → Exists is_Writing ts → ts !! i = Some a → is_Some (unlock_of a) → is_Writing a.
Proof.
  intros [Huniq _] (t & [j Hj]%list_elem_of_lookup & Ht)%list.Exists_exists Ha Hua.
  assert (i = j) as <- by (eapply Huniq; eauto; by destruct t). congruence.
Qed.

(** A thread outside the phase-changing steps moves on. *)
Lemma inv_move ts w i a b w' ph :
  world_ok ph w → Forall (thread_ok ph) ts → mutex ts w → (ph = During → Exists is_Writing ts) →
  ts !! i = Some a → ¬ is_Writing a → thread_ok ph b →
  (unlock_of b = unlock_of a ∨ unlock_of b = None) → lock_frame w' = lock_frame w →
  (tview w' = tview w ∨ tview w' = delete sid (tview w)) → Inv (<[i := b]> ts, w').
Proof.
  intros Hw Hall Hm Hwr Ha Hna Hb Hu [= Hl Hr] Hv. exists ph. simpl.
  split; [by eapply world_ok_transport|]. split; [by apply Forall_insert|].
  split; [by eapply mutex_insert|]. intros Hph. apply (exists_writing_insert ts i a); auto.
Qed.

Lemma inv_step c c' : step m st lk sid c c' → Inv c → Inv c'.
Proof.
  intros Hstep (ph & Hw & Hall & Hm & Hwr). destruct Hstep as [i ts w t c t' w' Ht Hc Hrun|ts w]; simpl in *.
  2: { exists ph. simpl. split; [eapply world_ok_transport; [done..|left; apply tok_view_tick]|]. done. }
  pose proof (list.Forall_lookup_1 _ _ _ _ Hall Ht) as Hok.
  destruct t as [|rf' |rf' u|rf' u c0|u c0 r|u r|r]; simpl in Hc, Hok; simplify_eq;
    apply bind_inv in Hrun as (r0 & w1 & Hr & [= <- <-]).
  - (* the lock-free read *)
    pose proof (fast_frame _ _ _ Hr) as Hfr.
    apply (AccessToken_fast_cases m st tview good) in Hr as [(e&->&Hkd)|(s&Hs&Hv&_&Hcase)].
    { eapply (inv_move ts w i Start); eauto; simpl; auto. }
    destruct Hcase as [[-> Hf]|(rf'&->&Hrf'&_)].
    + eapply (inv_move ts w i Start); eauto; simpl; auto. by eapply fresh_stored.
    + pose proof Hrf. eapply (inv_move ts w i Start); eauto; simpl; auto. congruence.
  - (* the lock *)
    destruct r0 as [u|e].
    + apply lock_ok in Hr as (Hfree & -> & Hun). exists ph. simpl.
      split; [by eapply world_ok_transport; [..|left; apply tok_view_locks]|].
      split; [by apply Forall_insert|]. split; [by apply mutex_lock|].
      intros Hph. eapply exists_writing_insert; eauto.
    + apply lock_err in Hr as [n ->].
      eapply (inv_move ts w i (Waiting rf)); eauto; simpl; auto; [by induction n|left].
      induction n as [|n IH]; [done|]. simpl. by rewrite tok_view_tick.
  - (* the second read *)
    pose proof (read_frame _ _ _ Hr) as Hfr.
    apply (locked_read_cases m st tview good) in Hr as [(e&->&Hkd)|(s&Hs&Hv&Hcase)].
    { eapply (inv_move ts w i (Locked rf u)); eauto; simpl; auto. }
    destruct Hcase as [[-> Hf]|(->&_&k&_&Hst)].
    + eapply (inv_move ts w i (Locked rf u)); eauto; simpl; auto. by eapply fresh_stored.
    + eapply (inv_move ts w i (Locked rf u)); eauto; simpl; auto.
      destruct (stale_before _ _ _ _ Hw Hs Hst) as [-> Hph]. split; [done|]. split; [done|].
      destruct ph as [| |j]; [done| |by destruct (Hph j)].
      by destruct (writing_holds _ _ _ _ Hm (Hwr eq_refl) Ht).
  - (* the call *)
    destruct Hok as (-> & -> & ->). unfold locked_call in Hr. m_inv. rewrite Hanswer.
    destruct Hw as [Href Hst]. exists During. simpl. rewrite Href.
    split; [split; [done|]; unfold stored_is; by rewrite tok_view_tick, tok_view_refresh|].
    split; [eapply (Forall_insert_phase ts w i); eauto; simpl; eauto|].
    split; [eapply (mutex_insert ts w i); eauto|].
    intros _. apply list.Exists_exists. exists (Writing u cur (Ok (answer (w_tick w)))).
    split; [|done]. apply list_elem_of_lookup. exists i. apply list_lookup_insert_eq. by eapply lookup_lt_Some.
  - (* the write *)
    destruct Hok as (-> & [j ->] & ->). pose proof (write_frame _ _ _ _ _ Hr) as [= Hl Hrr].
    apply write_done in Hr as [Hst Htok]. destruct Hw as [Hlen _]. exists (Done j). simpl.
    rewrite Hrr. split; [done|]. split; [|split; [eapply (mutex_insert ts w i); eauto|done]].
    eapply (Forall_insert_phase ts w i); eauto; simpl. destruct r0 as [tok|e]; [|done]. exists j.
    split; [done|]. by apply Htok.
  - (* the release *)
    destruct (proj2 Hm i _ _ Ht eq_refl) as [_ Hu]. rewrite Hu in Hr. simplify_eq.
    exists ph. simpl. split; [by eapply world_ok_transport; [..|left; apply tok_view_locks]|].
    split; [by apply Forall_insert|]. split; [by eapply (mutex_unlock ts w i); eauto|].
    intros Hph. eapply exists_writing_insert; eauto.
Qed.

Lemma inv_initial n w :
  w_refreshes w = [] → tview w !! sid = Some cur → Inv (replicate n Start, w).
Proof.
  intros Hr Hv. exists Before. split; [split; [done|by left]|].
  split; [by apply Forall_replicate|]. split; [apply mutex_initial|done].
Qed.

Lemma refresh_settled n w ts w' :
  w_refreshes w = [] → tview w !! sid = Some cur →
  rtc (step m st lk sid) (replicate n Start, w) (ts, w') →
  (length (w_refreshes w') ≤ 1)%nat ∧
  ∃ j, ∀ i tok, ts !! i = Some (Finished (Ok tok)) → tok = tok_AccessToken (answer j).
Proof.
  intros Hr Hv Hrun. assert (Inv (ts, w')) as (ph & Hw & Hall & _).
  { apply (inv_initial n) in Hv; [|done]. revert Hv. induction Hrun; eauto using inv_step. }
  split; [destruct ph; destruct Hw as [Hl _]; simpl in *; [by rewrite Hl; auto|lia..]|].
  exists (match ph with Done j => j | _ => 0%nat end). intros i tok Hi.
  apply (list.Forall_lookup_1 _ _ _ _ Hall) in Hi as (j & -> & ->). done.
Qed.
End settled.

(** C1: concurrent refreshes of one session exclude each other and collapse into
    one.  Any number of goroutines run [AccessToken] over an exclusive locker
    (the in-process one; a Redis lease is exclusive while it lasts) and a token
    store that meets its contract, and their steps interleave freely.  Whatever
    the provider answers and whether writes succeed, at most one of them is
    between its second read of the store and the end of its write.  And where
    one refresh settles the matter (the stored set is stale throughout, the
    provider grants it with sets that stay fresh, the store accepts writes),
    the provider is called at most once and every call that succeeds returns
    the one token it answered. *)
Theorem concurrent_refresh_once n w ts w' :
  rtc (step m st lk sid) (replicate n Start, w) (ts, w') →
  (∀ i j a b, ts !! i = Some a → ts !! j = Some b →
     is_Some (unlock_of a) → is_Some (unlock_of b) → i = j) ∧
  ∀ rf cur answer,
    settles m st good sid rf cur answer → w_refreshes w = [] → tview w !! sid = Some cur →
    (length (w_refreshes w') ≤ 1)%nat ∧
    ∃ j, ∀ i tok, ts !! i = Some (Finished (Ok tok)) → tok = tok_AccessToken (answer j).
Proof.
  intros Hrun. split; [exact (proj1 (mutex_reachable n w ts w' Hrun))|].
  intros rf cur answer Hset Hr Hv. by eapply refresh_settled.
Qed.
End collapse.

(** ** A scheduler, for concrete runs *)
Section schedule.
Context `{Env} (m : StoreManager) (st : TokenStore) (lk : RefreshLocker) (sid : string).

(** Run the threads whose numbers are listed, one step each. *)
Fixpoint schedule (order : list nat) (c : list thread * World) : list thread * World :=
  match order with
  | [] => c
  | i :: order =>
      match c.1 !! i with
      | Some t =>
          match thread_step m st lk sid t with
          | Some k => let '(t', w') := k c.2 in schedule order (<[i := t']> c.1, w')
          | None => schedule order c
          end
      | None => schedule order c
      end
  end.

Lemma schedule_sound order c : rtc (step m st lk sid) c (schedule order c).
Proof.
  revert c. induction order as [|i order IH]; intros [ts w]; simpl; [done|].
  destruct (ts !! i) as [t|] eqn:Ht; [|done].
  destruct (thread_step m st lk sid t) as [k|] eqn:Hk; [|done].
  destruct (k w) as [t' w'] eqn:Hr. eapply rtc_l; [|apply IH]. by eapply step_thread.
Qed.
End schedule.

(** ** Witnesses *)
Section witnesses.

(** A clock that stands still. *)
#[local] Instance frozen_env : Env := {|
  clock _ := unix_time 1700000000;
  rand_read := @rand_read sample_env;
  sha256 := @sha256 sample_env;
|}.

Definition stale_set : TokenSet := mkTokenSet "old" "r1" "id1" 1700000010.
Definition new_set : TokenSet := mkTokenSet "new" "" "" 1700003600.
Definition provider : Refresher := λ _ rt, if bool_decide (rt = "r1") then Ok new_set else Err (errorf "invalid_grant").
Definition refusing : Refresher := λ _ _, Err (errorf "invalid_grant").
Definition no_ctx_err : nat → goerr := λ _, errorf "context deadline exceeded".
Definition cfg : Lifecycle.Config := Lifecycle.mkConfig (8 * Hour) (30 * Minute) Minute.
Definition mgr (rf : Refresher) : StoreManager := memory_manager cfg no_ctx_err rf (60 * Second) 0.
Definition sessions : SessionStore := Lifecycle.store MemorySession.store cfg.
Definition locker : RefreshLocker := MemoryLocker.locker no_ctx_err.

(** A world with one session and its stale tokens. *)
Definition w_stale : World :=
  set_tokens (λ _, {["sid" := mkTokenEntry stale_set (unix_time 1700009999)]})
  (set_sessions (λ _, {["sid" := mkSession "sid" "alice" "iss" "alice" "" "" []
     (unix_time 1699999000) (unix_time 1700009999) (unix_time 1699999990)]}) empty_world).

Lemma sessions_frame {T} (f : World → T) :
  (∀ w w', but_sessions w' = but_sessions w → f w' = f w) → SessionKeeps sessions (same f).
Proof.
  intros Hf. apply Lifecycle.lifecycle_keeps; [apply _| |by intros w; apply Hf].
  eapply session_spec_keeps; [apply _|]. intros w w' ? _. by apply Hf.
Qed.

Lemma sessions_later : SessionKeeps sessions later.
Proof.
  apply Lifecycle.lifecycle_keeps; [apply _| |unfold later; simpl; lia].
  eapply session_spec_keeps; [apply _|]. by intros.
Qed.

Lemma access_token_not_expired_witness :
  ∃ set, MemoryToken.view (AccessToken (mgr provider) "sid" w_stale).2 !! "sid" = Some set ∧
    tok_AccessToken set = "new" ∧
    (tok_ExpiryUnix set ≤ 0 ∨
     ∃ i, between w_stale (AccessToken (mgr provider) "sid" w_stale).2 i ∧ Unix (clock i) < tok_ExpiryUnix set).
Proof.
  apply (access_token_not_expired (mgr provider) MemoryToken.store MemoryToken.view any_string).
  - done.
  - intros ss [= <-]. split; [|apply sessions_later]. apply (sessions_frame MemoryToken.view).
    unfold but_sessions, MemoryToken.view. intros w w' [=]. congruence.
  - intros lk [= <-]. split; apply MemoryLocker.memory_locker_keeps; try done; try apply _;
      intros *; unfold later; simpl; lia.
  - intros. by repeat constructor.
  - run.
Defined.

Lemma refresh_lock_released_witness :
  w_locks (AccessToken (mgr refusing) "sid" w_stale).2 = w_locks w_stale.
Proof.
  apply (refresh_lock_released (mgr refusing) MemoryToken.store MemoryToken.view any_string) with
    (sid := "sid") (r := (AccessToken (mgr refusing) "sid" w_stale).1).
  - done.
  - intros lk [= <-]. apply _.
  - intros ss [= <-]. apply (sessions_frame w_locks). by intros w w' [=].
  - run.
Defined.

(** The provider refuses, and answers with an expired set. *)
Definition expired_set : TokenSet := mkTokenSet "new" "" "" 1699999999.
Definition late : Refresher := λ _ _, Ok expired_set.

Lemma refresh_failure_fails_closed_witness :
  refresh_outcome cfg no_ctx_err refusing (60 * Second) 0 "sid" w_stale
    (AccessToken (mgr refusing) "sid" w_stale).1 (AccessToken (mgr refusing) "sid" w_stale).2 ∧
  refresh_outcome cfg no_ctx_err late (60 * Second) 0 "sid" w_stale
    (AccessToken (mgr late) "sid" w_stale).1 (AccessToken (mgr late) "sid" w_stale).2 ∧
  usable_answer (late 1 "r1") (unix_time 1700000000) = None ∧
  w_sessions (AccessToken (mgr late) "sid" w_stale).2 !! "sid" = None.
Proof.
  split; [apply (refresh_failure_fails_closed cfg no_ctx_err refusing (60 * Second) 0 "sid" w_stale); [done|run]|].
  split; [apply (refresh_failure_fails_closed cfg no_ctx_err late (60 * Second) 0 "sid" w_stale); [done|run]|].
  split; vm_compute; reflexivity.
Defined.

(** Two calls that interleave: both find the token stale, the first refreshes
    while the second waits. *)
Definition race : list thread * World :=
  schedule (mgr provider) MemoryToken.store locker "sid"
    [0; 1; 0; 0; 0; 0; 0; 1; 1; 1]%nat (replicate 2 Start, w_stale).

Lemma provider_settles :
  settles (mgr provider) MemoryToken.store any_string "sid" provider stale_set (λ _, new_set).
Proof.
  split; try done.
  - intros i [Hx|Hx]; by vm_compute in Hx.
  - intros i j. right. run.
  - intros s t w. by eexists.
  - intros w. by eexists.
  - by repeat constructor.
  - intros i. by repeat constructor.
Qed.

Lemma concurrent_refresh_once_witness :
  (match race.1 with [Finished (Ok a); Finished (Ok b)] => a = "new" ∧ b = "new" | _ => False end) ∧
  (length (w_refreshes race.2) ≤ 1)%nat ∧
  ∃ j : nat, ∀ i tok, race.1 !! i = Some (Finished (Ok tok)) → tok = tok_AccessToken new_set.
Proof.
  split; [vm_compute; auto|].
  refine (proj2 (concurrent_refresh_once (mgr provider) MemoryToken.store locker "sid" MemoryToken.view any_string
    sessions eq_refl _ _ 2 w_stale race.1 race.2 _) provider stale_set (λ _, new_set) provider_settles eq_refl _).
  - apply (sessions_frame (token_frame MemoryToken.view)).
    unfold but_sessions, token_frame, MemoryToken.view. intros w w' [=]. congruence.
  - apply sessions_later.
  - rewrite <-surjective_pairing. apply schedule_sound.
  - run.
Defined.
End witnesses.
