(* ===== verification/Auth.v ===== *)
(** * Login: internal/auth

    The login flow store and [auth.Service]: the start of a login, the callback
    of the identity provider and the logout, over any session and token store.
    The identity provider is a remote party: each of its operations answers with
    an arbitrary function of the event number. *)

From S2P Require Import Prelude GoStrings GoURL World Session Token.
Open Scope Z_scope.

(** ** internal/auth/contracts.go *)
Record Identity := mkIdentity {
  id_Subject : string;
  id_Issuer : string;
  id_Username : string;
  id_DisplayName : string;
  id_Email : string;
  id_Roles : list string;
}.
Record AuthTokens := mkAuthTokens {
  at_AccessToken : string;
  at_RefreshToken : string;
  at_IDToken : string;
  at_Expiry : Time;
}.
Record ExchangeResult := mkExchange {
  ex_Identity : Identity;
  ex_Tokens : AuthTokens;
}.

(** [type IdentityProvider interface] *)
Record IdentityProvider := mkProvider {
  AuthorizationURL : nat → string → string → string → string → result string;
  Exchange : nat → string → string → string → string → result ExchangeResult;
  EndSessionURL : nat → string → string → result string;
}.

(** internal/auth/unconfigured.go *)
Definition UnconfiguredProvider : IdentityProvider := {|
  AuthorizationURL _ _ _ _ _ := Err (ErrIs ProviderUnconfigured);
  Exchange _ _ _ _ _ := Err (ErrIs ProviderUnconfigured);
  EndSessionURL _ _ _ := Err (ErrIs ProviderUnconfigured);
|}.

(** [type FlowStore interface] *)
Record FlowStore := mkFlowStore {
  fs_Put : Flow → M (result unit);
  fs_Take : string → M (result Flow);
}.

(** ** internal/auth/flow_store.go *)
Module MemoryFlow.
Section memory.
Context `{Env}.

Definition Put (flow : Flow) : M (result unit) :=
  do _ := modify (set_flows (insert (flow_State flow) flow)) in ret (Ok tt).

Definition Take (state : string) : M (result Flow) :=
  do flow := gets (λ w, w_flows w !! state) in
  match flow with
  | None => ret (Err (ErrIs FlowNotFound))
  | Some flow =>
      do _ := modify (set_flows (delete state)) in
      do t := now in
      if negb (After (flow_ExpiresAt flow) t) then ret (Err (ErrIs FlowNotFound))
      else ret (Ok flow)
  end.

Definition store : FlowStore := mkFlowStore Put Take.

Lemma Take_cases state w r w' :
  Take state w = (r, w') →
  (w_flows w !! state = None ∧ r = Err (ErrIs FlowNotFound) ∧ w' = w) ∨
  ∃ f, w_flows w !! state = Some f ∧ w' = tick (set_flows (delete state) w) ∧
    ((clock (w_tick w) < flow_ExpiresAt f ∧ r = Ok f) ∨
     (flow_ExpiresAt f ≤ clock (w_tick w) ∧ r = Err (ErrIs FlowNotFound))).
Proof.
  unfold Take, After. intros Ht. m_inv. destruct (w_flows _ !! state) as [f|] eqn:Hf; [|m_inv; auto].
  m_inv. destruct (Z.ltb_spec (clock (w_tick x0)) (flow_ExpiresAt f)); simpl in Ht; m_inv; right;
    exists f; auto.
Qed.
End memory.
End MemoryFlow.

(** ** internal/auth/service.go *)
Definition SessionCookieName : string := "__Host-bff_session".
Definition InsecureSessionCookieName : string := "bff_session".
Definition SessionCookieNameFor (secure : bool) : string :=
  if secure then SessionCookieName else InsecureSessionCookieName.

Definition defaultFlowTTL : Duration := 5 * Minute.
Definition defaultSessionTTL : Duration := 8 * Hour.

(** A nil interface value; calling a method on it panics. *)
Definition nil_dereference : goerr := errorf "invalid memory address or nil pointer dereference".

Record Service := mkService {
  Provider : option IdentityProvider;
  Flows : option FlowStore;
  svc_Sessions : option SessionStore;
  Tokens : option TokenStore;
  RedirectURI : string;
  LogoutReturn : string;
  FlowTTL : Duration;
  SessionTTL : Duration;
}.

Record CallbackResult := mkCallbackResult {
  cb_SessionID : string;
  cb_Subject : string;
  cb_Username : string;
  cb_ReturnTo : string;
  cb_ExpiresAt : Time;
}.

Section service.
Context `{Env} `{UnicodeCase} `{IPLiteral}.

Definition safeLocalReturnTo (v : string) : bool :=
  match Parse v with
  | Err _ => false
  | Ok u =>
      if IsAbs u || negb (bool_decide (u_Host u = "")) || negb (HasPrefix (u_Path u) "/") then false
      else negb (HasPrefix v "//")
  end.

Definition randomURLSafe (n : nat) : M (result string) :=
  try buf := rand n in ret (Ok (base64url buf)).

Definition flow_ttl (s : Service) : Duration :=
  if FlowTTL s <=? 0 then defaultFlowTTL else FlowTTL s.
Definition session_ttl (s : Service) : Duration :=
  if SessionTTL s <=? 0 then defaultSessionTTL else SessionTTL s.

Definition StartLogin (s : Service) (returnTo : string) : M (result string) :=
  match Provider s, Flows s with
  | Some provider, Some flows =>
      let returnTo := if bool_decide (returnTo = "") then "/" else returnTo in
      if negb (safeLocalReturnTo returnTo) then ret (Err (ErrIs InvalidReturnTo)) else
      try state := randomURLSafe 32 in
      try nonce := randomURLSafe 32 in
      try verifier := randomURLSafe 64 in
      let challenge := base64url (sha256 verifier) in
      do t := now in
      try _ := fs_Put flows (mkFlow state nonce verifier returnTo (Add t (flow_ttl s))) in
      try authURL := oracle (λ i, AuthorizationURL provider i state nonce challenge (RedirectURI s)) in
      ret (Ok authURL)
  | _, _ => ret (Err (errorf "auth service is not configured"))
  end.

Definition new_session (sessionID : string) (i : Identity) (t expires : Time) : Session :=
  mkSession sessionID (id_Subject i) (id_Issuer i) (id_Username i) (id_DisplayName i) (id_Email i)
    (id_Roles i) t expires t.
Definition new_tokens (a : AuthTokens) : TokenSet :=
  mkTokenSet (at_AccessToken a) (at_RefreshToken a) (at_IDToken a) (Unix (at_Expiry a)).

(** The part of [CompleteCallback] after the exchange of the code. *)
Definition store_login (s : Service) (sessions : SessionStore) (tokens : TokenStore)
    (flow : Flow) (res : ExchangeResult) : M (result CallbackResult) :=
  try sessionID := randomURLSafe 32 in
  do t := now in
  let expires := Add t (session_ttl s) in
  try _ := ss_Put sessions (new_session sessionID (ex_Identity res) t expires) in
  do put := ts_Put tokens sessionID (new_tokens (ex_Tokens res)) expires in
  match put with
  | Err e => do _ := ss_Delete sessions sessionID in ret (Err e)
  | Ok _ =>
      ret (Ok (mkCallbackResult sessionID (id_Subject (ex_Identity res)) (id_Username (ex_Identity res))
                 (flow_ReturnTo flow) expires))
  end.

Definition CompleteCallback (s : Service) (state code : string) : M (result CallbackResult) :=
  if bool_decide (state = "") || bool_decide (code = "")
  then ret (Err (errorf "missing state or code")) else
  match Flows s, Provider s, svc_Sessions s, Tokens s with
  | Some flows, Some provider, Some sessions, Some tokens =>
      try flow := fs_Take flows state in
      try res := oracle (λ i, Exchange provider i code (flow_CodeVerifier flow) (RedirectURI s) (flow_Nonce flow)) in
      if bool_decide (id_Subject (ex_Identity res) = "") || bool_decide (id_Issuer (ex_Identity res) = "")
      then ret (Err (errorf "provider returned incomplete identity")) else
      store_login s sessions tokens flow res
  | _, _, _, _ => ret (Err nil_dereference)
  end.

(** The token part of [Logout]: the ID token of the session, if any. *)
Definition logout_tokens (s : Service) (sessionID : string) : M (result string) :=
  match Tokens s with
  | None => ret (Ok "")
  | Some tokens =>
      do got := ts_Get tokens sessionID in
      try idToken :=
        match got with
        | Ok ts => ret (Ok (tok_IDToken ts))
        | Err e => if errors_Is e TokenNotFound then ret (Ok "")
                   else ret (Err (ErrWrap "load logout token" e))
        end in
      do del := ts_Delete tokens sessionID in
      match del with
      | Ok _ => ret (Ok idToken)
      | Err e => ret (Err (ErrWrap "delete logout token" e))
      end
  end.

Definition Logout (s : Service) (sessionID : string) (global : bool) : M (result string) :=
  if bool_decide (sessionID = "") then ret (Ok (LogoutReturn s)) else
  try idToken := logout_tokens s sessionID in
  match svc_Sessions s with
  | None => ret (Err (errorf "session store is not configured"))
  | Some sessions =>
      do del := ss_Delete sessions sessionID in
      match del with
      | Err e => ret (Err (ErrWrap "delete session" e))
      | Ok _ =>
          if global && negb (bool_decide (idToken = "")) then
            match Provider s with
            | None => ret (Err nil_dereference)
            | Some provider => oracle (λ i, EndSessionURL provider i idToken (LogoutReturn s))
            end
          else ret (Ok (LogoutReturn s))
      end
  end.
End service.

(** ** Lemmas *)
Section lemmas.
Context `{Env} `{UnicodeCase} `{IPLiteral}.

(** A path that a browser resolves on the same host, unless it treats a
    backslash or an escape as a slash: written with one '/' in front, or with
    an escaped one. *)
Definition local_reference (v : string) : Prop :=
  (HasPrefix v "/" = true ∧ HasPrefix v "//" = false) ∨
  ∃ a b t, bytes v = "%"%char :: a :: b :: t ∧ "/"%char = ascii_of_N (16 * unhex a + unhex b).

Lemma safe_return_local v : safeLocalReturnTo v = true → local_reference v.
Proof.
  unfold safeLocalReturnTo, local_reference. destruct (Parse v) as [u|] eqn:Hp; [|done].
  destruct (_ || _ || _) eqn:Hc; [done|]. bool_inv. intros Hslash. bool_inv.
  destruct (Parse_rooted _ _ Hp) as [[t Ht]|?]; [done|done| |by right].
  left. split; [|done]. apply HasPrefix_spec. exists (of_bytes t). apply bytes_inj.
  by rewrite bytes_app, bytes_of_bytes.
Qed.

(** A read of random bytes is one event. *)
Lemma randomURLSafe_run n w r w' :
  randomURLSafe n w = (r, w') → w' = tick w ∧
  match r with
  | Ok s => ∃ buf, rand_read (w_tick w) n = Ok buf ∧ s = base64url buf
  | Err _ => True
  end.
Proof.
  unfold randomURLSafe, rand. intros [(e & Hr & ->)|(buf & w1 & Hr & Hk)]%bind_ok_inv; m_inv; [done|].
  split; [done|]. eauto.
Qed.

(** Every successful [StartLogin] records one flow under a fresh random state,
    with a safe return address, and binds the code challenge to its verifier. *)
Lemma StartLogin_ok (s : Service) returnTo w url w' :
  Flows s = Some MemoryFlow.store →
  StartLogin s returnTo w = (Ok url, w') →
  ∃ f provider i j, Provider s = Some provider ∧
    w_flows w' = <[flow_State f := f]> (w_flows w) ∧
    w_sessions w' = w_sessions w ∧ w_tokens w' = w_tokens w ∧
    safeLocalReturnTo (flow_ReturnTo f) = true ∧
    flow_ReturnTo f = (if bool_decide (returnTo = "") then "/" else returnTo) ∧
    flow_ExpiresAt f = Add (clock j) (flow_ttl s) ∧ between w w' j ∧
    AuthorizationURL provider i (flow_State f) (flow_Nonce f)
      (base64url (sha256 (flow_CodeVerifier f))) (RedirectURI s) = Ok url.
Proof.
  intros Hfs. unfold StartLogin. destruct (Provider s) as [p|]; [|done]. rewrite Hfs.
  set (rt := if bool_decide _ then _ else _). destruct (safeLocalReturnTo rt) eqn:Hsafe; [|done]. simpl.
  intros [(e&_&[=])|(st & w1 & [-> _]%randomURLSafe_run & Hk)]%bind_ok_inv.
  apply bind_ok_inv in Hk as [(e&_&[=])|(nonce & w2 & [-> _]%randomURLSafe_run & Hk)].
  apply bind_ok_inv in Hk as [(e&_&[=])|(ver & w3 & [-> _]%randomURLSafe_run & Hk)].
  apply bind_inv in Hk as (t & w4 & [= <- <-] & Hk).
  apply bind_ok_inv in Hk as [(e&_&[=])|(u & w5 & Hput & Hk)]. simpl in Hput. unfold MemoryFlow.Put in Hput.
  m_inv. apply bind_ok_inv in Hk as [(e&_&[=])|(url' & w6 & Ho & [= <- <-])].
  unfold oracle in Ho. injection Ho as Hurl <-.
  eexists (mkFlow st nonce ver rt _), p, _, (S (S (S (w_tick w)))). simpl. unfold between. simpl.
  repeat split; eauto; lia.
Qed.

Section login.
Context (s : Service) (flows : Flows s = Some MemoryFlow.store).

(** Every way [CompleteCallback] ends, up to the storing of the login. *)
Lemma CompleteCallback_cases state code w r w' :
  CompleteCallback s state code w = (r, w') →
  (∃ e, r = Err e ∧ w_sessions w' = w_sessions w ∧ w_tokens w' = w_tokens w ∧
     (w_flows w' = w_flows w ∨ w_flows w' = delete state (w_flows w))) ∨
  ∃ f provider sessions tokens res i,
    w_flows w !! state = Some f ∧ clock (w_tick w) < flow_ExpiresAt f ∧
    Provider s = Some provider ∧ svc_Sessions s = Some sessions ∧ Tokens s = Some tokens ∧
    Exchange provider i code (flow_CodeVerifier f) (RedirectURI s) (flow_Nonce f) = Ok res ∧
    id_Subject (ex_Identity res) ≠ "" ∧ id_Issuer (ex_Identity res) ≠ "" ∧ i = S (w_tick w) ∧
    store_login s sessions tokens f res (tick (tick (set_flows (delete state) w))) = (r, w').
Proof.
  unfold CompleteCallback. rewrite flows. destruct (_ || _); [intros; m_inv; left; eauto 7|].
  destruct (Provider s) as [p|], (svc_Sessions s) as [ss|], (Tokens s) as [ts|];
    try by (intros; m_inv; left; eauto 7).
  intros [(e & Ht & ->)|(f & w1 & Ht & Hk)]%bind_ok_inv; simpl in Ht; apply MemoryFlow.Take_cases in Ht.
  { left. destruct Ht as [(_&_&->)|(f&_&->&_)]; simpl; eauto 7. }
  destruct Ht as [(?&[=]&_)|(f'&Hf&->&[[Hlt [= ->]]|[? [=]]])].
  apply bind_ok_inv in Hk as [(e & Ho & ->)|(res & w2 & Ho & Hk)]; unfold oracle in Ho;
    injection Ho as Hres <-; [left; simpl; eauto 7|].
  destruct (bool_decide _ || bool_decide _) eqn:Hid; [m_inv; left; simpl; eauto 7|]. bool_inv.
  right. exists f', p, ss, ts, res. eexists. split; [done|]. by repeat split.
Qed.
End login.

(** The storing of a login, over the life-time store and any token store. *)
Lemma store_login_cases s cfg (tokens : TokenStore) f res w r w' :
  (∀ i, clock i ≠ 0) → TokenKeeps tokens (same w_sessions) →
  store_login s (Lifecycle.store MemorySession.store cfg) tokens f res w = (r, w') →
  (∃ e, r = Err e ∧ w_sessions w' ⊆ w_sessions w) ∨
  ∃ sid t k w1 w2, let expires := Add (clock k) (session_ttl s) in
    r = Ok (mkCallbackResult sid (id_Subject (ex_Identity res)) (id_Username (ex_Identity res))
              (flow_ReturnTo f) expires) ∧
    (∃ buf, rand_read (w_tick w) 32 = Ok buf ∧ sid = base64url buf) ∧ t = clock k ∧ k = S (w_tick w) ∧
    w1 = set_sessions (insert sid (Lifecycle.cap_expiry cfg (new_session sid (ex_Identity res) t expires)))
           (tick (tick (tick w))) ∧
    ts_Put tokens sid (new_tokens (ex_Tokens res)) expires w1 = (Ok tt, w2) ∧ w' = w2.
Proof.
  intros Hclock Htok. assert (∀ i, IsZero (clock i) = false) as Hnz by (intros i; by apply Z.eqb_neq).
  unfold store_login.
  intros [(e & [-> _]%randomURLSafe_run & ->)|(sid & w1 & [-> Hsid]%randomURLSafe_run & Hk)]%bind_ok_inv.
  { left. simpl. eauto. }
  apply bind_inv in Hk as (t & w2 & [= <- <-] & Hk).
  apply bind_ok_inv in Hk as [(e & Hp & ->)|(u & w3 & Hp & Hk)]; [|revert Hk];
    simpl in Hp; unfold Lifecycle.Put in Hp; simpl in Hp;
    rewrite !Hnz in Hp; unfold MemorySession.Put in Hp; m_inv.
  intros Hk. rewrite ?Hnz in Hk.
  set (ses := Lifecycle.cap_expiry _ _) in *.
  assert (ses_ID ses = sid) as Hid by (unfold ses, Lifecycle.cap_expiry; by repeat case_match).
  rewrite Hid in Hk. apply bind_inv in Hk as ([[]|e] & w4 & Hput & Hk).
  - right. unfold ret in Hk. simplify_eq. exists sid, (clock (S (w_tick w))), (S (w_tick w)).
    eexists _, _. split; [done|]. destruct Hsid as (buf & Hb & Hsid). split; [eauto|].
    split; [done|]. split; [done|]. split; [done|]. split; [exact Hput|done].
  - left. simpl in Hk. unfold Lifecycle.Delete in Hk. simpl in Hk. unfold MemorySession.Delete in Hk. m_inv.
    eexists. split; [done|].
    apply (keeps_run (same w_sessions)) in Hput; [|apply keeps_ts_Put]. rewrite Hput. simpl.
    rewrite delete_insert_eq. apply delete_subseteq.
Qed.
End lemmas.

(** ** Properties *)
Section properties.
Context `{Env} `{UnicodeCase} `{IPLiteral}.

(** The service over the in-memory flow store and the life-time session store. *)
Definition service (provider : IdentityProvider) (cfg : Lifecycle.Config) (tokens : TokenStore)
    (redirect logout : string) (flowTTL sessionTTL : Duration) : Service :=
  mkService (Some provider) (Some MemoryFlow.store) (Some (Lifecycle.store MemorySession.store cfg))
    (Some tokens) redirect logout flowTTL sessionTTL.

Section one_service.
Context (provider : IdentityProvider) (cfg : Lifecycle.Config) (redirect logout : string).
Context (flowTTL sessionTTL : Duration).
#[local] Abbreviation svc := (λ tokens, service provider cfg tokens redirect logout flowTTL sessionTTL).

(** C4: over the in-memory stores a login only succeeds for a flow that was
    started, is unexpired and is used with its own verifier and nonce.  It then
    draws 32 random bytes after the provider has answered, and stores exactly
    one session (with the life-time cap applied) and exactly one token set, both
    under the id these bytes encode and until the session's life time from a
    reading of the clock made after that; and it consumes the flow. *)
Theorem callback_login_sound state code w r w' :
  (∀ i, clock i ≠ 0) →
  CompleteCallback (svc MemoryToken.store) state code w = (Ok r, w') →
  ∃ f res i j k buf,
    w_flows w !! state = Some f ∧ clock (w_tick w) < flow_ExpiresAt f ∧
    Exchange provider i code (flow_CodeVerifier f) redirect (flow_Nonce f) = Ok res ∧
    id_Subject (ex_Identity res) ≠ "" ∧ id_Issuer (ex_Identity res) ≠ "" ∧
    (w_tick w < i < j)%nat ∧ (j < k < w_tick w')%nat ∧
    rand_read j 32 = Ok buf ∧ cb_SessionID r = base64url buf ∧
    cb_ExpiresAt r = Add (clock k) (session_ttl (svc MemoryToken.store)) ∧
    cb_ReturnTo r = flow_ReturnTo f ∧ cb_Subject r = id_Subject (ex_Identity res) ∧
    w_flows w' = delete state (w_flows w) ∧
    w_sessions w' = <[cb_SessionID r :=
      Lifecycle.cap_expiry cfg (new_session (cb_SessionID r) (ex_Identity res) (clock k) (cb_ExpiresAt r))]>
      (w_sessions w) ∧
    w_tokens w' = <[cb_SessionID r := mkTokenEntry (new_tokens (ex_Tokens res)) (cb_ExpiresAt r)]>
      (w_tokens w).
Proof.
  intros Hclock Hc. apply CompleteCallback_cases in Hc as [(e&[=]&_)|Hc]; [|done].
  destruct Hc as (f & p & ss & ts & res & i & Hf & Hlt & [= <-] & [= <-] & [= <-] & Hex & Hs & Hi & -> & Hst).
  apply store_login_cases in Hst
    as [(e&[=]&_)|(sid & t & k & w1 & w2 & [= ->] & (buf & Hb & ->) & -> & -> & -> & Hput & ->)];
    [|done|by apply memory_token_keeps; intros ? ? [=]].
  simpl in Hput. unfold MemoryToken.Put in Hput. m_inv. simpl in Hb.
  exists f, res, (S (w_tick w)), (S (S (w_tick w))), (S (S (S (w_tick w)))), buf. simpl. by repeat split; try lia.
Qed.

(** C19: over the in-memory session store, and any token store, a login that
    fails for any reason, a failed exchange, an incomplete identity or a token
    store that refuses the tokens, leaves no new session behind: every session
    stored afterwards was stored before, unchanged. *)
Theorem failed_callback_leaves_no_session tokens state code w e w' :
  (∀ i, clock i ≠ 0) → TokenKeeps tokens (same w_sessions) →
  CompleteCallback (svc tokens) state code w = (Err e, w') →
  w_sessions w' ⊆ w_sessions w.
Proof.
  intros Hclock Htok Hc. apply CompleteCallback_cases in Hc as [(e'&_&->&_)|Hc]; [done| |done].
  destruct Hc as (f & p & ss & ts & res & i & _ & _ & [= <-] & [= <-] & [= <-] & _ & _ & _ & _ & Hst).
  apply store_login_cases in Hst as [(e'&_&Hsub)|(sid & t & k & w1 & w2 & [=] & _)]; [|done|done].
  done.
Qed.

(** C9: a flow is used once: whatever the first callback with a state
    returns, a later callback with the same state is refused and stores nothing,
    unless a login has been started in between that drew the same state. *)
Theorem callback_single_use tokens state code w r w1 code2 w2 r2 w3 :
  (∀ i, clock i ≠ 0) → TokenKeeps tokens (same w_flows) → state ≠ "" → code ≠ "" → code2 ≠ "" →
  CompleteCallback (svc tokens) state code w = (r, w1) →
  w_flows w2 !! state = w_flows w1 !! state →
  CompleteCallback (svc tokens) state code2 w2 = (r2, w3) →
  r2 = Err (ErrIs FlowNotFound) ∧ w3 = w2.
Proof.
  intros Hclock Htok Hs Hc Hc2 Hrun1 Hsame Hrun2.
  assert (w_flows w1 !! state = None) as Hnone.
  { unfold CompleteCallback in Hrun1. rewrite !bool_decide_eq_false_2 in Hrun1 by done. simpl in Hrun1.
    apply bind_ok_inv in Hrun1 as [(e & Ht & _)|(f & w4 & Ht & Hk)];
      apply MemoryFlow.Take_cases in Ht as [(?&?&->)|(f'&_&->&_)]; [done|by apply lookup_delete_eq|done|].
    assert (w_flows w1 = delete state (w_flows w)) as ->; [|by apply lookup_delete_eq].
    eapply (keeps_run (same w_flows)) in Hk; [done|].
    unfold store_login, randomURLSafe. simpl.
    unfold Lifecycle.Put, Lifecycle.Delete. simpl. unfold MemorySession.Put, MemorySession.Delete. keeps. }
  unfold CompleteCallback in Hrun2. rewrite !bool_decide_eq_false_2 in Hrun2 by done. simpl in Hrun2.
  apply bind_ok_inv in Hrun2 as [(e & Ht & ->)|(f & w4 & Ht & _)];
    apply MemoryFlow.Take_cases in Ht as [(?&Hr&->)|(f'&Hf&_)]; [by simplify_eq|congruence|done|congruence].
Qed.

(** The operations of the service, and activity that leaves the flows alone. *)
Inductive auth_step (tokens : TokenStore) : World → World → Prop :=
  | auth_login returnTo w r w' :
      StartLogin (svc tokens) returnTo w = (r, w') → auth_step tokens w w'
  | auth_callback state code w r w' :
      CompleteCallback (svc tokens) state code w = (r, w') → auth_step tokens w w'
  | auth_other w w' : w_flows w' = w_flows w → auth_step tokens w w'.

Definition safe_flows (w : World) : Prop :=
  map_Forall (λ _ f, safeLocalReturnTo (flow_ReturnTo f) = true) (w_flows w).

Lemma StartLogin_safe_flows tokens returnTo w r w' :
  StartLogin (svc tokens) returnTo w = (r, w') → safe_flows w → safe_flows w'.
Proof.
  unfold StartLogin, safe_flows. simpl. set (rt := if bool_decide _ then _ else _).
  destruct (safeLocalReturnTo rt) eqn:Hsafe; simpl; [|by intros [= _ <-]].
  intros [(e&[-> _]%randomURLSafe_run&_)|(st & w1 & [-> _]%randomURLSafe_run & Hk)]%bind_ok_inv; [done|].
  apply bind_ok_inv in Hk as [(e&[-> _]%randomURLSafe_run&_)|(nonce & w2 & [-> _]%randomURLSafe_run & Hk)]; [done|].
  apply bind_ok_inv in Hk as [(e&[-> _]%randomURLSafe_run&_)|(ver & w3 & [-> _]%randomURLSafe_run & Hk)]; [done|].
  apply bind_inv in Hk as (t & w4 & [= <- <-] & Hk).
  apply bind_ok_inv in Hk as [(e&Hp&_)|(u & w5 & Hp & Hk)]; unfold MemoryFlow.Put in Hp;
    apply bind_inv in Hp as (? & ? & [= _ <-] & [= _ <-]).
  apply bind_ok_inv in Hk as [(e&[= _ <-]&_)|(url' & w6 & [= _ <-] & [= _ <-])]; simpl;
    intros Hall; by apply map_Forall_insert_2.
Qed.

Lemma callback_flows_subset tokens state code w r w' :
  TokenKeeps tokens (same w_flows) →
  CompleteCallback (svc tokens) state code w = (r, w') → w_flows w' ⊆ w_flows w.
Proof.
  intros Htok [(e&_&_&_&[->| ->])|Hc]%CompleteCallback_cases; [done|apply delete_subseteq| |done].
  destruct Hc as (f & p & ss & ts & res & i & _ & _ & [= <-] & [= <-] & [= <-] & _ & _ & _ & _ & Hst).
  apply (keeps_run (same w_flows)) in Hst; [rewrite Hst; apply delete_subseteq|].
  unfold store_login, randomURLSafe. simpl.
  unfold Lifecycle.Put, Lifecycle.Delete. simpl. unfold MemorySession.Put, MemorySession.Delete. keeps.
Qed.

Lemma safe_flows_step tokens w w' :
  TokenKeeps tokens (same w_flows) → auth_step tokens w w' → safe_flows w → safe_flows w'.
Proof.
  intros Htok [returnTo w1 r w2 Hl|state code w1 r w2 Hc|w1 w2 Hf].
  - by eapply StartLogin_safe_flows.
  - intros Hall k f Hk. apply (Hall k). by eapply lookup_weaken, callback_flows_subset.
  - unfold safe_flows. by rewrite Hf.
Qed.

(** C22: the address to which a login returns is never another site's: in
    every state reachable from an empty flow store the return address of a
    completed login is a relative reference written with exactly one leading
    slash, or with an escaped one. *)
Theorem callback_redirect_local tokens w0 w state code r w' :
  (∀ i, clock i ≠ 0) → TokenKeeps tokens (same w_flows) → TokenKeeps tokens (same w_sessions) →
  w_flows w0 = ∅ → rtc (auth_step tokens) w0 w →
  CompleteCallback (svc tokens) state code w = (Ok r, w') →
  local_reference (cb_ReturnTo r).
Proof.
  intros Hclock Hf Hs Hempty Hrun Hc.
  assert (safe_flows w) as Hsafe.
  { assert (safe_flows w0) as Hw0 by (unfold safe_flows; rewrite Hempty; apply map_Forall_empty).
    clear Hempty Hc. induction Hrun; eauto using safe_flows_step. }
  apply CompleteCallback_cases in Hc as [(e&[=]&_)|Hc]; [|done].
  destruct Hc as (f & p & ss & ts & res & i & Hlk & _ & [= <-] & [= <-] & [= <-] & _ & _ & _ & _ & Hst).
  apply store_login_cases in Hst as [(e&[=]&_)|(sid & t & k & w1 & w2 & [= ->] & _)]; [|done..].
  simpl. apply safe_return_local. by apply (Hsafe state).
Qed.
End one_service.

(** What a successful [Logout] has done. *)
Lemma Logout_ok (s : Service) Next cfg sview sgood tokens tview tgood sid global w url w' :
  SessionStoreSpec Next sview sgood → TokenStoreSpec tokens tview tgood → SessionKeeps Next (same tview) →
  svc_Sessions s = Some (Lifecycle.store Next cfg) → Tokens s = Some tokens → sid ≠ "" →
  Logout s sid global w = (Ok url, w') →
  sview w' !! sid = None ∧ tview w' !! sid = None ∧
  (url = LogoutReturn s ∨
   global = true ∧ ∃ provider i set, Provider s = Some provider ∧ tview w !! sid = Some set ∧
     tok_IDToken set ≠ "" ∧ EndSessionURL provider i (tok_IDToken set) (LogoutReturn s) = Ok url).
Proof.
  intros HN HT HK Hss Hts Hne. unfold Logout, logout_tokens. rewrite Hts, Hss.
  rewrite bool_decide_eq_false_2 by done.
  intros [(e & _ & [=])|(idt & w1 & Hlt & Hk)]%bind_ok_inv.
  apply bind_inv in Hlt as (got & w2 & Hg & Hlt). apply bind_ok_inv in Hlt as [(e & _ & [=])|(idt' & w3 & Hid & Hlt)].
  assert (w3 = w2 ∧ (idt' ≠ "" → ∃ set, tview w !! sid = Some set ∧ tok_IDToken set = idt')) as [-> Hset].
  { destruct got as [set|e]; [m_inv|]; [apply tok_get_ok in Hg as [? _]; eauto|].
    destruct (errors_Is e TokenNotFound); m_inv; done. }
  apply bind_inv in Hlt as ([u|e] & w4 & Hd & Hlt); unfold ret in Hlt; simplify_eq.
  apply tok_delete_ok in Hd. apply bind_inv in Hk as ([u'|e] & w5 & Hsd & Hk); [|by m_inv].
  simpl in Hsd. unfold Lifecycle.Delete in Hsd. pose proof (delete_ok (view := sview) _ _ _ _ Hsd) as Hsv.
  apply (keeps_run (same tview)) in Hsd; [|apply keeps_ss_Delete]. unfold same in Hsd; rewrite Hd in Hsd.
  assert (sview w5 !! sid = None ∧ tview w5 !! sid = None) as [Hn1 Hn2].
  { rewrite Hsv, Hsd. by rewrite !lookup_delete_eq. }
  destruct (global && _) eqn:Hgl; [|m_inv; auto]. apply andb_true_iff in Hgl as [-> Hidt]. bool_inv.
  destruct (Provider s) as [p|]; [|by m_inv]. unfold oracle in Hk. injection Hk as Hurl <-.
  rewrite view_tick, tok_view_tick. split; [done|]. split; [done|]. right. split; [done|].
  pose proof Hidt as Hidt2. apply Hset in Hidt2 as (set & ? & <-). exists p, (w_tick w5), set. by repeat split.
Qed.

(** A logout that succeeds has removed both the tokens and the session;
    the result is the configured return address, or the provider's end-session
    address when a global logout was asked for and an ID token was held. *)
Theorem logout_removes_login (s : Service) Next cfg sview sgood tokens tview tgood sid global w url w' :
  SessionStoreSpec Next sview sgood → TokenStoreSpec tokens tview tgood → SessionKeeps Next (same tview) →
  svc_Sessions s = Some (Lifecycle.store Next cfg) → Tokens s = Some tokens → sid ≠ "" →
  Logout s sid global w = (Ok url, w') →
  sview w' !! sid = None ∧ tview w' !! sid = None ∧
  (url = LogoutReturn s ∨
   global = true ∧ ∃ provider i set, Provider s = Some provider ∧ tview w !! sid = Some set ∧
     tok_IDToken set ≠ "" ∧ EndSessionURL provider i (tok_IDToken set) (LogoutReturn s) = Ok url).
Proof. apply Logout_ok. Qed.
End properties.

(** What browsers make of a backslash is outside [url.Parse]: the check accepts
    a reference that they resolve on another host. *)
Example backslash_return_accepted :
  let _ := ascii_case in let _ := no_literal in safeLocalReturnTo "/\evil.example" = true.
Proof. run. Qed.

(** ** Witnesses *)
Section witnesses.
#[local] Instance sample : Env := sample_env.
#[local] Instance sample_case : UnicodeCase := ascii_case.
#[local] Instance sample_ip : IPLiteral := no_literal.

Definition sample_identity : Identity := mkIdentity "alice" "https://idp" "alice" "Alice" "a@example" ["user"].
Definition sample_provider : IdentityProvider := {|
  AuthorizationURL _ state nonce challenge _ :=
    Ok ("https://idp/authorize?state=" +:+ state +:+ "&nonce=" +:+ nonce +:+ "&code_challenge=" +:+ challenge);
  Exchange _ code _ _ _ :=
    if bool_decide (code = "good")
    then Ok (mkExchange sample_identity (mkAuthTokens "at" "rt" "idt" (unix_time 1700003600)))
    else Err (errorf "invalid_grant");
  EndSessionURL _ hint _ := Ok ("https://idp/logout?hint=" +:+ hint);
|}.
Definition sample_lifecycle : Lifecycle.Config := Lifecycle.mkConfig (8 * Hour) (30 * Minute) Minute.

(** A token store that accepts nothing. *)
Definition full_tokens : TokenStore :=
  mkTokenStore MemoryToken.Get (λ _ _ _, ret (Err (errorf "full"))) MemoryToken.Delete.

Definition sample_service (tokens : TokenStore) : Service :=
  service sample_provider sample_lifecycle tokens "https://app/cb" "/" 0 0.
Definition w_login : World := (StartLogin (sample_service MemoryToken.store) "/app" empty_world).2.
Definition login_state : string := base64url (replicate 32 (ascii_of_nat 0)).
Definition r_callback := CompleteCallback (sample_service MemoryToken.store) login_state "good" w_login.
Definition sample_result : CallbackResult :=
  match r_callback.1 with Ok r => r | Err _ => mkCallbackResult "" "" "" "" 0 end.

Lemma callback_login_sound_witness :
  ∃ f res i j k buf,
    w_flows w_login !! login_state = Some f ∧ clock (w_tick w_login) < flow_ExpiresAt f ∧
    Exchange sample_provider i "good" (flow_CodeVerifier f) "https://app/cb" (flow_Nonce f) = Ok res ∧
    id_Subject (ex_Identity res) ≠ "" ∧ id_Issuer (ex_Identity res) ≠ "" ∧
    (w_tick w_login < i < j)%nat ∧ (j < k < w_tick r_callback.2)%nat ∧
    rand_read j 32 = Ok buf ∧ cb_SessionID sample_result = base64url buf ∧
    cb_ExpiresAt sample_result = Add (clock k) (session_ttl (sample_service MemoryToken.store)) ∧
    cb_ReturnTo sample_result = flow_ReturnTo f ∧
    cb_Subject sample_result = id_Subject (ex_Identity res) ∧
    w_flows r_callback.2 = delete login_state (w_flows w_login) ∧
    w_sessions r_callback.2 = <[cb_SessionID sample_result :=
      Lifecycle.cap_expiry sample_lifecycle
        (new_session (cb_SessionID sample_result) (ex_Identity res) (clock k) (cb_ExpiresAt sample_result))]>
      (w_sessions w_login) ∧
    w_tokens r_callback.2 = <[cb_SessionID sample_result :=
      mkTokenEntry (new_tokens (ex_Tokens res)) (cb_ExpiresAt sample_result)]> (w_tokens w_login).
Proof.
  apply (callback_login_sound sample_provider sample_lifecycle "https://app/cb" "/" 0 0 login_state "good");
    [apply sample_clock_nonzero|run].
Defined.

Lemma full_tokens_keeps {T} (f : World → T) :
  (∀ w w', but_tokens w' = but_tokens w → f w' = f w) → TokenKeeps full_tokens (same f).
Proof.
  intros Hf. pose proof (memory_token_keeps f Hf) as [Hg _ Hd]. split; [apply Hg| |apply Hd].
  intros id s t w. done.
Qed.

Lemma failed_callback_leaves_no_session_witness :
  w_sessions (CompleteCallback (sample_service full_tokens) login_state "good" w_login).2
    ⊆ w_sessions w_login.
Proof.
  eapply (failed_callback_leaves_no_session sample_provider sample_lifecycle "https://app/cb" "/" 0 0
    full_tokens login_state "good" w_login (errorf "full")).
  - apply sample_clock_nonzero.
  - by apply full_tokens_keeps; intros ? ? [=].
  - run.
Defined.

Lemma callback_single_use_witness :
  (CompleteCallback (sample_service MemoryToken.store) login_state "good" r_callback.2).1 =
    Err (ErrIs FlowNotFound) ∧
  (CompleteCallback (sample_service MemoryToken.store) login_state "good" r_callback.2).2 = r_callback.2.
Proof.
  apply (callback_single_use sample_provider sample_lifecycle "https://app/cb" "/" 0 0 MemoryToken.store
    login_state "good" w_login r_callback.1 r_callback.2 "good" r_callback.2).
  - apply sample_clock_nonzero.
  - by apply memory_token_keeps; intros ? ? [=].
  - discriminate.
  - discriminate.
  - discriminate.
  - apply surjective_pairing.
  - reflexivity.
  - apply surjective_pairing.
Defined.

Lemma callback_redirect_local_witness : local_reference (cb_ReturnTo sample_result).
Proof.
  apply (callback_redirect_local sample_provider sample_lifecycle "https://app/cb" "/" 0 0 MemoryToken.store
    empty_world w_login login_state "good" sample_result r_callback.2).
  - apply sample_clock_nonzero.
  - by apply memory_token_keeps; intros ? ? [=].
  - by apply memory_token_keeps; intros ? ? [=].
  - done.
  - eapply rtc_once, (auth_login _ _ _ _ _ _ _ "/app"). apply surjective_pairing.
  - run.
Defined.

Definition r_logout := Logout (sample_service MemoryToken.store) (cb_SessionID sample_result) true r_callback.2.

Lemma logout_removes_login_witness :
  w_sessions r_logout.2 !! cb_SessionID sample_result = None ∧
  MemoryToken.view r_logout.2 !! cb_SessionID sample_result = None ∧
  ("https://idp/logout?hint=idt" = "/" ∨
   true = true ∧ ∃ provider i set, Some sample_provider = Some provider ∧
     MemoryToken.view r_callback.2 !! cb_SessionID sample_result = Some set ∧ tok_IDToken set ≠ "" ∧
     EndSessionURL provider i (tok_IDToken set) "/" = Ok "https://idp/logout?hint=idt").
Proof.
  apply (logout_removes_login (sample_service MemoryToken.store) MemorySession.store sample_lifecycle
    w_sessions any_string MemoryToken.store MemoryToken.view any_string _ true r_callback.2).
  - apply _.
  - apply _.
  - eapply session_spec_keeps; [apply _|]. unfold but_sessions, same, MemoryToken.view.
    intros w w' [=] _. congruence.
  - done.
  - done.
  - vm_compute. discriminate.
  - run.
Defined.
End witnesses.
