(* ===== verification/Policy.v ===== *)
(** * Permissions and the user context: internal/policy, internal/cache, internal/usercontext

    The static role policy, the in-memory cache and the two resolvers of the
    user context (from the session and the policy; and the caching one).  JSON
    encoding of a cached value is that of GoStruct.v. *)

From stdpp Require Import sorting.
From S2P Require Import Prelude GoStrings World GoJSON GoTime GoStruct Session.
Open Scope Z_scope.

(** ** internal/policy/policy.go *)
Record Subject := mkSubject { sub_ID : string; sub_Roles : list string }.
Record Decision := mkDecision {
  dec_Permissions : list string;
  dec_Capabilities : list string;
  dec_AuthLevel : string;
}.

(** [type Evaluator interface] *)
Record Evaluator := mkEvaluator {
  ev_Evaluate : Subject → M (result Decision);
  ev_Allowed : Subject → string → M (result bool);
}.

(** ** internal/policy/static.go *)
Module StaticPolicy.

Record Static := mkStatic {
  RolePermissions : gmap string (list string);
  RoleCapabilities : gmap string (list string);
}.

(** [m[role]] of a Go map of slices *)
Definition values_of (m : gmap string (list string)) (role : string) : list string :=
  default [] (m !! role).

(** [for _, value := range m[role] { seen[value] = struct{}{} }] *)
Definition add_all (seen : gset string) (values : list string) : gset string :=
  fold_left (λ s v, {[v]} ∪ s) values seen.

Definition collect (m : gmap string (list string)) (roles : list string) : gset string :=
  fold_left (λ seen role, add_all seen (values_of m role)) roles ∅.

Definition Evaluate (p : Static) (subject : Subject) : result Decision :=
  let permSeen := collect (RolePermissions p) (sub_Roles subject) in
  let capSeen := collect (RoleCapabilities p) (sub_Roles subject) in
  Ok (mkDecision (keysSorted permSeen) (keysSorted capSeen) "authenticated").

Definition Allowed (p : Static) (subject : Subject) (permission : string) : result bool :=
  let? decision := Evaluate p subject in
  Ok (existsb (λ value, bool_decide (value = permission)) (dec_Permissions decision)).

Definition evaluator (p : Static) : Evaluator :=
  mkEvaluator (λ s, ret (Evaluate p s)) (λ s perm, ret (Allowed p s perm)).

(** *** Lemmas *)
Lemma elem_of_add_all v values seen : v ∈ add_all seen values ↔ v ∈ values ∨ v ∈ seen.
Proof.
  unfold add_all. revert seen. induction values as [|x l IH]; intros seen; simpl; [set_solver|].
  rewrite IH. set_solver.
Qed.

Lemma elem_of_collect m roles v :
  v ∈ collect m roles ↔ ∃ role, role ∈ roles ∧ v ∈ values_of m role.
Proof.
  unfold collect. assert (∀ seen, v ∈ fold_left (λ s r, add_all s (values_of m r)) roles seen ↔
    v ∈ seen ∨ ∃ role, role ∈ roles ∧ v ∈ values_of m role) as Hgen.
  { induction roles as [|r l IH]; intros seen; simpl; [set_solver|].
    rewrite IH, elem_of_add_all. set_solver. }
  rewrite Hgen. set_solver.
Qed.

Lemma Allowed_iff_listed p subject permission :
  Allowed p subject permission = Ok true ↔
  permission ∈ keysSorted (collect (RolePermissions p) (sub_Roles subject)).
Proof.
  assert (∀ b b', @Ok bool b = Ok b' ↔ b = b') as Hok by naive_solver.
  unfold Allowed, Evaluate. simpl. rewrite Hok, existsb_exists, list_elem_of_In. split.
  - intros (v & Hin & Hv). by apply bool_decide_eq_true in Hv as <-.
  - intros Hin. exists permission. by rewrite bool_decide_eq_true.
Qed.

(** A subject is allowed a permission exactly when one of its roles is
    mapped to it; roles without an entry grant nothing. *)
Theorem static_allowed_iff p subject permission :
  Allowed p subject permission = Ok true ↔
  ∃ role l, role ∈ sub_Roles subject ∧ RolePermissions p !! role = Some l ∧ permission ∈ l.
Proof.
  rewrite Allowed_iff_listed, elem_of_keysSorted, elem_of_collect. unfold values_of. split.
  - intros (role & Hrole & Hv).
    destruct (RolePermissions p !! role) as [l|] eqn:Hl; [by exists role, l|set_solver].
  - intros (role & l & Hrole & Hl & Hin). exists role. by rewrite Hl.
Qed.

(** A decision lists exactly the permissions and capabilities granted by
    the subject's roles, sorted and without duplicates, so that the answer does
    not depend on the iteration order of Go maps, and [Allowed] agrees with it. *)
Theorem static_decision_exact p subject :
  ∃ d, Evaluate p subject = Ok d ∧
  (∀ v, v ∈ dec_Permissions d ↔ ∃ role, role ∈ sub_Roles subject ∧ v ∈ values_of (RolePermissions p) role) ∧
  (∀ v, v ∈ dec_Capabilities d ↔ ∃ role, role ∈ sub_Roles subject ∧ v ∈ values_of (RoleCapabilities p) role) ∧
  NoDup (dec_Permissions d) ∧ Sorted string_le (dec_Permissions d) ∧
  NoDup (dec_Capabilities d) ∧ Sorted string_le (dec_Capabilities d) ∧
  (∀ v, Allowed p subject v = Ok true ↔ v ∈ dec_Permissions d).
Proof.
  eexists. split; [done|]. simpl.
  split; [intros v; rewrite elem_of_keysSorted; apply elem_of_collect|].
  split; [intros v; rewrite elem_of_keysSorted; apply elem_of_collect|].
  split; [apply keysSorted_NoDup|]. split; [apply keysSorted_sorted|].
  split; [apply keysSorted_NoDup|]. split; [apply keysSorted_sorted|].
  intros v. apply Allowed_iff_listed.
Qed.
End StaticPolicy.

(** ** internal/usercontext *)
Record Context := mkContext {
  uc_Subject : string;
  uc_Username : string;
  uc_DisplayName : string;
  uc_Email : string;
  uc_Roles : list string;
  uc_Permissions : list string;
  uc_TenantID : string;
  uc_ProjectID : string;
  uc_AuthLevel : string;
  uc_Capabilities : list string;
}.

(** [encoding/json] on [usercontext.Context] *)
Definition context_value (c : Context) : jval :=
  VObj (("sub", json_string (uc_Subject c)) :: opt_string "preferred_username" (uc_Username c)
    ++ opt_string "display_name" (uc_DisplayName c) ++ opt_string "email" (uc_Email c)
    ++ opt_strings "roles" (uc_Roles c) ++ opt_strings "permissions" (uc_Permissions c)
    ++ opt_string "tenant_id" (uc_TenantID c) ++ opt_string "project_id" (uc_ProjectID c)
    ++ opt_string "auth_level" (uc_AuthLevel c) ++ opt_strings "capabilities" (uc_Capabilities c)).
Definition marshal_context (c : Context) : result string := Ok (Marshal (context_value c)).
Definition zero_context : Context := mkContext "" "" "" "" [] [] "" "" "" [].
Definition context_decoders : decoders Context :=
  [("sub", dec_string (λ c x, mkContext x (uc_Username c) (uc_DisplayName c) (uc_Email c) (uc_Roles c)
      (uc_Permissions c) (uc_TenantID c) (uc_ProjectID c) (uc_AuthLevel c) (uc_Capabilities c)));
   ("preferred_username", dec_string (λ c x, mkContext (uc_Subject c) x (uc_DisplayName c) (uc_Email c)
      (uc_Roles c) (uc_Permissions c) (uc_TenantID c) (uc_ProjectID c) (uc_AuthLevel c) (uc_Capabilities c)));
   ("display_name", dec_string (λ c x, mkContext (uc_Subject c) (uc_Username c) x (uc_Email c) (uc_Roles c)
      (uc_Permissions c) (uc_TenantID c) (uc_ProjectID c) (uc_AuthLevel c) (uc_Capabilities c)));
   ("email", dec_string (λ c x, mkContext (uc_Subject c) (uc_Username c) (uc_DisplayName c) x (uc_Roles c)
      (uc_Permissions c) (uc_TenantID c) (uc_ProjectID c) (uc_AuthLevel c) (uc_Capabilities c)));
   ("roles", dec_strings uc_Roles (λ c x, mkContext (uc_Subject c) (uc_Username c) (uc_DisplayName c)
      (uc_Email c) x (uc_Permissions c) (uc_TenantID c) (uc_ProjectID c) (uc_AuthLevel c) (uc_Capabilities c)));
   ("permissions", dec_strings uc_Permissions (λ c x, mkContext (uc_Subject c) (uc_Username c)
      (uc_DisplayName c) (uc_Email c) (uc_Roles c) x (uc_TenantID c) (uc_ProjectID c) (uc_AuthLevel c)
      (uc_Capabilities c)));
   ("tenant_id", dec_string (λ c x, mkContext (uc_Subject c) (uc_Username c) (uc_DisplayName c) (uc_Email c)
      (uc_Roles c) (uc_Permissions c) x (uc_ProjectID c) (uc_AuthLevel c) (uc_Capabilities c)));
   ("project_id", dec_string (λ c x, mkContext (uc_Subject c) (uc_Username c) (uc_DisplayName c) (uc_Email c)
      (uc_Roles c) (uc_Permissions c) (uc_TenantID c) x (uc_AuthLevel c) (uc_Capabilities c)));
   ("auth_level", dec_string (λ c x, mkContext (uc_Subject c) (uc_Username c) (uc_DisplayName c) (uc_Email c)
      (uc_Roles c) (uc_Permissions c) (uc_TenantID c) (uc_ProjectID c) x (uc_Capabilities c)));
   ("capabilities", dec_strings uc_Capabilities (λ c x, mkContext (uc_Subject c) (uc_Username c)
      (uc_DisplayName c) (uc_Email c) (uc_Roles c) (uc_Permissions c) (uc_TenantID c) (uc_ProjectID c)
      (uc_AuthLevel c) x))].
Definition unmarshal_context : string → result Context := Unmarshal context_decoders zero_context.

(** ** internal/cache/memory.go, at the one type that is cached *)
Module MemoryCache.
Section memory.
Context `{Env}.

Definition Delete (key : string) : M (result unit) :=
  do _ := modify (set_cache (delete key)) in ret (Ok tt).

(** [Get(ctx, key, &dst)]: [Ok (Some v)] is [(true, nil)], [Ok None] is
    [(false, nil)]. *)
Definition Get (key : string) : M (result (option Context)) :=
  do entry := gets (λ w, w_cache w !! key) in
  match entry with
  | None => ret (Ok None)
  | Some entry =>
      do expired :=
        if negb (IsZero (ce_ExpiresAt entry))
        then do t := now in ret (negb (After (ce_ExpiresAt entry) t)) else ret false in
      if (expired : bool) then do _ := Delete key in ret (Ok None) else
      match unmarshal_context (ce_Data entry) with
      | Err e => ret (Err e)
      | Ok v => ret (Ok (Some v))
      end
  end.

Definition Set_ (key : string) (value : Context) (ttl : Duration) : M (result unit) :=
  match marshal_context value with
  | Err e => ret (Err e)
  | Ok b =>
      do t := now in
      do _ := modify (set_cache (insert key (mkCacheEntry b (Add t ttl)))) in ret (Ok tt)
  end.
End memory.
End MemoryCache.

(** [type Cache interface] *)
Record Cache := mkCache {
  ca_Get : string → M (result (option Context));
  ca_Set : string → Context → Duration → M (result unit);
  ca_Delete : string → M (result unit);
}.
Definition memory_cache `{Env} : Cache :=
  mkCache MemoryCache.Get MemoryCache.Set_ MemoryCache.Delete.

(** [type Resolver interface] *)
Abbreviation Resolver := (string → M (result Context)).

Module UserContext.
Section resolvers.
Context `{Env}.

Definition DefaultTTL : Duration := 60 * Second.
Definition CacheKey (sessionID : string) : string := "userctx:" +:+ sessionID.

(** [SessionResolver.Resolve] *)
Definition SessionResolver (sessions : SessionStore) (policy : option Evaluator) : Resolver :=
  λ sessionID,
    try s := ss_Get sessions sessionID in
    try d :=
      match policy with
      | None => ret (Ok (mkDecision [] [] "authenticated"))
      | Some p =>
          try decision := ev_Evaluate p (mkSubject (ses_Subject s) (ses_Roles s)) in
          ret (Ok (mkDecision (dec_Permissions decision) (dec_Capabilities decision)
            (if bool_decide (dec_AuthLevel decision = "") then "authenticated" else dec_AuthLevel decision)))
      end in
    ret (Ok (mkContext (ses_Subject s) (ses_Username s) (ses_DisplayName s) (ses_Email s) (ses_Roles s)
      (dec_Permissions d) "" "" (dec_AuthLevel d) (dec_Capabilities d))).

(** [CachedResolver.Resolve] *)
Definition CachedResolver (next : Resolver) (cache : option Cache) (TTL : Duration) : Resolver :=
  λ sessionID,
    match cache with
    | None => next sessionID
    | Some cache =>
        let key := CacheKey sessionID in
        do got := ca_Get cache key in
        match got with
        | Ok (Some out) => ret (Ok out)
        | _ =>
            try out := next sessionID in
            let ttl := if TTL <=? 0 then DefaultTTL else TTL in
            do _ := ca_Set cache key out ttl in
            ret (Ok out)
        end
    end.
End resolvers.
End UserContext.

(** ** Properties of the cache *)
Definition context_strings (c : Context) : list string :=
  [uc_Subject c; uc_Username c; uc_DisplayName c; uc_Email c; uc_TenantID c; uc_ProjectID c; uc_AuthLevel c]
    ++ uc_Roles c ++ uc_Permissions c ++ uc_Capabilities c.

#[local] Ltac context_fields :=
  cbn [uc_Subject uc_Username uc_DisplayName uc_Email uc_Roles uc_Permissions uc_TenantID uc_ProjectID
       uc_AuthLevel uc_Capabilities].
Lemma context_round_trip c b :
  Forall utf8 (context_strings c) → marshal_context c = Ok b → unmarshal_context b = Ok c.
Proof.
  intros Hc [= <-]. unfold unmarshal_context, Unmarshal, context_strings in *.
  rewrite !list.Forall_app, !list.Forall_cons in Hc. destruct Hc as [(?&?&?&?&?&?&?&_) (?&?&?)].
  rewrite Parse_Marshal.
  - unfold context_value. cbn [result_bind decode_struct]. unfold zero_context.
    erewrite members_step; [|vm_compute; reflexivity|reflexivity|apply dec_json_string].
    rewrite <-(app_nil_r (opt_strings "capabilities" _)). context_fields.
    do 9 (first [erewrite decode_opt_string|erewrite decode_opt_strings];
      [|vm_compute; reflexivity|reflexivity|reflexivity|by intros ->]; context_fields).
    by destruct c.
  - unfold context_value. apply printable_member; [done|done|].
    rewrite <-(app_nil_r (opt_strings "capabilities" _)).
    repeat first [apply printable_opt_string; [done|done|]|apply printable_opt_strings; [done|done|]]. done.
  - unfold max_depth, context_value. etransitivity; [apply (jdepth_members 1); [done|]|done].
    apply list.Forall_cons_2; [done|].
    repeat first [apply list.Forall_app_2|apply flat_opt_string|apply flat_opt_strings].
Qed.

Section cached.
Context `{Env}.

Lemma memory_get_entry key e w :
  w_cache w !! key = Some e → ce_ExpiresAt e ≠ 0 →
  MemoryCache.Get key w =
    if clock (w_tick w) <? ce_ExpiresAt e
    then (match unmarshal_context (ce_Data e) with Err e => Err e | Ok v => Ok (Some v) end, tick w)
    else (Ok None, set_cache (delete key) (tick w)).
Proof.
  intros He Hz. unfold MemoryCache.Get, bind, gets. rewrite He. unfold IsZero.
  destruct (Z.eqb_spec (ce_ExpiresAt e) 0) as [?|_]; [done|]. unfold now, oracle, ret, After. simpl.
  destruct (Z.ltb_spec (clock (w_tick w)) (ce_ExpiresAt e)); simpl; [|done].
  by destruct (unmarshal_context (ce_Data e)).
Qed.

Lemma memory_get_none key w : w_cache w !! key = None → MemoryCache.Get key w = (Ok None, w).
Proof. intros Hn. unfold MemoryCache.Get, bind, gets. by rewrite Hn. Qed.

(** Resolution when the cache has an entry. *)
Lemma cached_entry (next : Resolver) TTL sid w e c :
  w_cache w !! UserContext.CacheKey sid = Some e → ce_ExpiresAt e ≠ 0 → unmarshal_context (ce_Data e) = Ok c →
  UserContext.CachedResolver next (Some memory_cache) TTL sid w =
    if clock (w_tick w) <? ce_ExpiresAt e then (Ok c, tick w)
    else UserContext.CachedResolver next (Some memory_cache) TTL sid
           (set_cache (delete (UserContext.CacheKey sid)) (tick w)).
Proof.
  intros He Hz Hc. unfold UserContext.CachedResolver, bind, ca_Get, memory_cache.
  rewrite (memory_get_entry _ _ _ He Hz), Hc. destruct (_ <? _); [done|].
  rewrite memory_get_none; [done|]. cbn [w_cache set_cache]. by rewrite lookup_delete_eq.
Qed.

(** C29: the cache is transparent for as long as an entry lives.  When a user
    context was resolved and the cache had no entry for the session, then, as
    long as nothing else writes or drops the entry, every later resolution
    returns the same context, field by field, without asking session store and
    policy again, up to the moment TTL has passed (a minute, if none is set);
    from then on the entry is dropped and the context is resolved anew. *)
Theorem cached_context_transparent (next : Resolver) TTL sid w c w1 :
  (∀ i, 0 ≤ clock i) → Forall utf8 (context_strings c) →
  w_cache w !! UserContext.CacheKey sid = None →
  UserContext.CachedResolver next (Some memory_cache) TTL sid w = (Ok c, w1) →
  ∃ w0 e, next sid w = (Ok c, w0) ∧ w_cache w1 !! UserContext.CacheKey sid = Some e ∧
    ce_ExpiresAt e = clock (w_tick w0) + (if TTL <=? 0 then 60 * Second else TTL) ∧
    ∀ w2, w_cache w2 !! UserContext.CacheKey sid = Some e →
      UserContext.CachedResolver next (Some memory_cache) TTL sid w2 =
        if clock (w_tick w2) <? ce_ExpiresAt e then (Ok c, tick w2)
        else UserContext.CachedResolver next (Some memory_cache) TTL sid
               (set_cache (delete (UserContext.CacheKey sid)) (tick w2)).
Proof.
  intros Hclock Hutf Hnone Hrun. unfold UserContext.CachedResolver in Hrun.
  apply bind_inv in Hrun as (got & wg & Hg & Hrun).
  assert (got = Ok None ∧ wg = w) as [-> ->].
  { assert (MemoryCache.Get (UserContext.CacheKey sid) w = (got, wg)) as Hm by done.
    rewrite memory_get_none in Hm by done. by simplify_eq. }
  apply bind_ok_inv in Hrun as [(err & _ & [=])|(c0 & w0 & Hnext & Hrun)].
  apply bind_inv in Hrun as (u & w3 & Hset & [= <- <-]).
  cbn [ca_Set memory_cache] in Hset. unfold MemoryCache.Set_ in Hset. cbn [marshal_context] in Hset. m_inv.
  set (ttl := if TTL <=? 0 then UserContext.DefaultTTL else TTL).
  assert (0 < ttl) as Hpos by (subst ttl; unfold UserContext.DefaultTTL, Second; destruct (Z.leb_spec TTL 0); lia).
  pose proof (Hclock (w_tick w0)).
  exists w0, (mkCacheEntry (Marshal (context_value c0)) (Add (clock (w_tick w0)) ttl)).
  split; [done|]. split; [apply lookup_insert_eq|]. split; [done|]. intros w2 Hw2.
  apply cached_entry; [done|cbn [ce_ExpiresAt]; unfold Add; lia|]. by apply context_round_trip.
Qed.
End cached.

Section cached_witness.
#[local] Instance cached_env : Env := sample_env.
Definition sample_context : Context :=
  mkContext "u1" "alice" "" "alice@example.org" ["editor"] ["item.read"] "" "" "authenticated" [].
Definition sample_resolver : Resolver := λ _, ret (Ok sample_context).

Lemma cached_context_transparent_witness :
  let w1 := (UserContext.CachedResolver sample_resolver (Some memory_cache) 0 "s1" empty_world).2 in
  ∃ w0 e, sample_resolver "s1" empty_world = (Ok sample_context, w0) ∧
    w_cache w1 !! UserContext.CacheKey "s1" = Some e ∧
    ce_ExpiresAt e = clock (w_tick w0) + (if 0 <=? 0 then 60 * Second else 0) ∧
    ∀ w2, w_cache w2 !! UserContext.CacheKey "s1" = Some e →
      UserContext.CachedResolver sample_resolver (Some memory_cache) 0 "s1" w2 =
        if clock (w_tick w2) <? ce_ExpiresAt e then (Ok sample_context, tick w2)
        else UserContext.CachedResolver sample_resolver (Some memory_cache) 0 "s1"
               (set_cache (delete (UserContext.CacheKey "s1")) (tick w2)).
Proof.
  apply (cached_context_transparent sample_resolver 0 "s1" empty_world).
  - intros i. unfold clock, cached_env, sample_env, unix_time, unix_epoch, Second. lia.
  - cbn. repeat (apply list.Forall_cons_2; [reflexivity|]). apply list.Forall_nil_2.
  - reflexivity.
  - reflexivity.
Defined.
End cached_witness.
