(* ===== verification/Metrics.v ===== *)
(** * Metrics: internal/observability/metrics.go

    The registry that the calls of World.v's [Metric] update: counters (uint64,
    which wrap around), histograms with cumulative buckets and the gauge of
    requests in flight; and the text that a scrape returns.  Keys are listed in
    the order of their concatenated labels; keys that differ but concatenate to
    the same text may come in any order in Go.  Which runes are printable is a
    table of the Go library ([PrintTable]). *)

From stdpp Require Import sorting.
From S2P Require Import Prelude GoStrings World GoNumbers.
Open Scope Z_scope.

Module Registry.

(** 0.005, 0.01, 0.025, 0.05, 0.1, 0.25, 0.5, 1, 2.5, 5, 10 *)
Definition thousandths (n : Z) : float64 := f64_div (f64_of_Z n) (f64_of_Z 1000).
Definition defaultBuckets : list float64 :=
  thousandths <$> [5; 10; 25; 50; 100; 250; 500; 1000; 2500; 5000; 10000].

Record histogram := mkHistogram {
  hg_Count : Z;
  hg_Sum : float64;
  hg_Buckets : list Z;
}.
Definition zero_histogram : histogram := mkHistogram 0 (f64_of_Z 0) [].

Record Metrics := mkMetrics {
  httpRequests : gmap (string * string * string) Z;
  httpDuration : gmap (string * string) histogram;
  authAttempts : gmap string Z;
  decisions : gmap (string * string) Z;
  outRequests : gmap (string * string * string) Z;
  outDuration : gmap (string * string) histogram;
  rejected : gmap string Z;
  outRejected : gmap (string * string) Z;
  inflight : Z;
}.
Definition NewMetrics : Metrics := mkMetrics ∅ ∅ ∅ ∅ ∅ ∅ ∅ ∅ 0.

(** [n++] of an uint64 *)
Definition inc (n : Z) : Z := (n + 1) mod 2 ^ 64.
(** [m[k]++] *)
Definition bump `{Countable K} (k : K) (m : gmap K Z) : gmap K Z := <[k := inc (default 0 (m !! k))]> m.

Definition observe (h : histogram) (value : float64) : histogram :=
  let buckets := match hg_Buckets h with [] => replicate (length defaultBuckets) 0 | bs => bs end in
  mkHistogram (inc (hg_Count h)) (f64_add (hg_Sum h) value)
    (zip_with (λ bound n, if f64_le value bound then inc n else n) defaultBuckets buckets).
(** [m[k] = observe(m[k], v)] *)
Definition observe_at `{Countable K} (k : K) (v : float64) (m : gmap K histogram) : gmap K histogram :=
  <[k := observe (default zero_histogram (m !! k)) v]> m.

Definition or_unmatched (route : string) : string := if bool_decide (route = "") then "unmatched" else route.
Definition or_unknown (service : string) : string := if bool_decide (service = "") then "unknown" else service.
Definition status_class (status : Z) : string := FormatInt (Z.quot status 100) +:+ "xx".

Section record.
Context `{UnicodeCase}.

Definition RecordHTTPRequest (method route : string) (status : Z) (d : Duration) (m : Metrics) : Metrics :=
  let route := or_unmatched route in
  let method := ToUpper method in
  mkMetrics (bump (method, route, status_class status) (httpRequests m))
    (observe_at (method, route) (Seconds d) (httpDuration m))
    (authAttempts m) (decisions m) (outRequests m) (outDuration m) (rejected m) (outRejected m) (inflight m).
Definition RecordAuth (outcome : string) (m : Metrics) : Metrics :=
  mkMetrics (httpRequests m) (httpDuration m) (bump outcome (authAttempts m)) (decisions m) (outRequests m)
    (outDuration m) (rejected m) (outRejected m) (inflight m).
Definition RecordAuthorization (outcome permission : string) (m : Metrics) : Metrics :=
  mkMetrics (httpRequests m) (httpDuration m) (authAttempts m) (bump (outcome, permission) (decisions m))
    (outRequests m) (outDuration m) (rejected m) (outRejected m) (inflight m).
Definition RecordOutbound (service method outcome : string) (d : Duration) (m : Metrics) : Metrics :=
  let service := or_unknown service in
  let method := ToUpper method in
  mkMetrics (httpRequests m) (httpDuration m) (authAttempts m) (decisions m)
    (bump (service, method, outcome) (outRequests m))
    (observe_at (service, method) (Seconds d) (outDuration m)) (rejected m) (outRejected m) (inflight m).
Definition RecordRejected (reason : string) (m : Metrics) : Metrics :=
  mkMetrics (httpRequests m) (httpDuration m) (authAttempts m) (decisions m) (outRequests m) (outDuration m)
    (bump reason (rejected m)) (outRejected m) (inflight m).
Definition RecordOutboundRejected (service reason : string) (m : Metrics) : Metrics :=
  mkMetrics (httpRequests m) (httpDuration m) (authAttempts m) (decisions m) (outRequests m) (outDuration m)
    (rejected m) (bump (or_unknown service, reason) (outRejected m)) (inflight m).
(** [inflight] is an int64 that is not left negative. *)
Definition AddInflight (delta : Z) (m : Metrics) : Metrics :=
  mkMetrics (httpRequests m) (httpDuration m) (authAttempts m) (decisions m) (outRequests m) (outDuration m)
    (rejected m) (outRejected m) (Z.max 0 (int64_wrap (inflight m + delta))).

(** The registry after the calls that a process has made. *)
Definition record_call (m : Metrics) (c : Metric) : Metrics :=
  match c with
  | World.RecordAuth o => RecordAuth o m
  | World.RecordAuthorization o p => RecordAuthorization o p m
  | World.RecordRejected r => RecordRejected r m
  | World.RecordOutboundRejected s r => RecordOutboundRejected s r m
  | World.RecordOutbound s me o d => RecordOutbound s me o d m
  | World.RecordHTTPRequest me ro st d => RecordHTTPRequest me ro st d m
  | World.AddInflight d => AddInflight d m
  end.
Definition registry (calls : list Metric) : Metrics := fold_left record_call calls NewMetrics.
End record.

(** ** The text of a scrape *)

(** [unicode.IsPrint] of a rune outside ASCII, by its UTF-8 bytes *)
Class PrintTable := { is_print : list ascii → bool }.

(** The code point of a rune of two, three or four bytes. *)
Definition rune_code (l : list ascii) : N :=
  match N_of_ascii <$> l with
  | [a; b] => (a mod 32) * 64 + b mod 64
  | [a; b; c] => (a mod 16) * 4096 + (b mod 64) * 64 + c mod 64
  | [a; b; c; d] => (a mod 8) * 262144 + (b mod 64) * 4096 + (c mod 64) * 64 + d mod 64
  | _ => 0
  end%N.
(** The last [k] hexadecimal digits. *)
Fixpoint hex_digits (k : nat) (n : N) : list ascii :=
  match k with O => [] | S k => hex_digits k (n / 16)%N ++ [hex_digit (n mod 16)%N] end.
Definition backslash_x : list ascii := ["092"; "x"]%char.

Section text.
Context `{PrintTable} `{FloatText}.

Definition quote_ascii (c : ascii) : list ascii :=
  let code := N_of_ascii c in
  if (code =? 34)%N || (code =? 92)%N then ["092"%char; c] else
  if ((32 <=? code) && (code <? 127))%N then [c] else
  match code with
  | 7 => ["092"; "a"] | 8 => ["092"; "b"] | 12 => ["092"; "f"] | 10 => ["092"; "n"]
  | 13 => ["092"; "r"] | 9 => ["092"; "t"] | 11 => ["092"; "v"]
  | _ => backslash_x ++ hex_digits 2 code
  end%N%char.
Definition quote_rune (r : rune) : list ascii :=
  match r with
  | RAscii c => quote_ascii c
  | RError c => backslash_x ++ hex_digits 2 (N_of_ascii c)
  | RWide l =>
      if is_print l then l else
      let code := rune_code l in
      if (code <? 65536)%N then ["092"; "u"]%char ++ hex_digits 4 code
      else ["092"; "U"]%char ++ hex_digits 8 code
  end.
(** [%q] of a string *)
Definition Quote (s : string) : string :=
  of_bytes ("034"%char :: concat (quote_rune <$> runes (bytes s)) ++ ["034"%char]).

Definition label (name value : string) : string := name +:+ "=" +:+ Quote value.
Definition labels (l : list (string * string)) : string := Join ((λ p, label p.1 p.2) <$> l) ",".
Definition series (name : string) (ls : list (string * string)) (n : Z) : string :=
  name +:+ "{" +:+ labels ls +:+ "} " +:+ FormatInt n.

(** The keys of a map, by the text they are sorted by; the order of keys with the
    same text, which sort.Slice leaves open, is that of the map. *)
Definition sorted_keys {K V} `{Countable K} (text : K → string) (m : gmap K V) : list K :=
  merge_sort (λ a b, string_le (text a) (text b)) (map_to_list m).*1.

Definition writeHistogram (name : string) (ls : list (string * string)) (h : histogram) : list string :=
  zip_with (λ bound n, series (name +:+ "_bucket") (ls ++ [("le", FormatFloat bound)]) n)
    defaultBuckets (hg_Buckets h)
  ++ [series (name +:+ "_bucket") (ls ++ [("le", "+Inf")]) (hg_Count h);
      name +:+ "_sum{" +:+ labels ls +:+ "} " +:+ FormatFloat (hg_Sum h);
      name +:+ "_count{" +:+ labels ls +:+ "} " +:+ FormatInt (hg_Count h)].

Definition text3 (k : string * string * string) : string := k.1.1 +:+ k.1.2 +:+ k.2.
Definition text2 (k : string * string) : string := k.1 +:+ k.2.

(** The lines of [writePrometheus] *)
Definition writePrometheus (m : Metrics) : list string :=
  ["# TYPE rebff_http_requests_total counter"]
  ++ ((λ k, series "rebff_http_requests_total"
         [("method", k.1.1); ("route", k.1.2); ("status_class", k.2)] (default 0 (httpRequests m !! k)))
      <$> sorted_keys text3 (httpRequests m))
  ++ ["# TYPE rebff_http_request_duration_seconds histogram"]
  ++ concat ((λ k, writeHistogram "rebff_http_request_duration_seconds" [("method", k.1); ("route", k.2)]
                (default zero_histogram (httpDuration m !! k))) <$> sorted_keys text2 (httpDuration m))
  ++ ["# TYPE rebff_auth_attempts_total counter"]
  ++ ((λ k, series "rebff_auth_attempts_total" [("outcome", k)] (default 0 (authAttempts m !! k)))
      <$> sorted_keys id (authAttempts m))
  ++ ["# TYPE rebff_authorization_decisions_total counter"]
  ++ ((λ k, series "rebff_authorization_decisions_total" [("outcome", k.1); ("permission", k.2)]
         (default 0 (decisions m !! k))) <$> sorted_keys text2 (decisions m))
  ++ ["# TYPE rebff_outbound_requests_total counter"]
  ++ ((λ k, series "rebff_outbound_requests_total"
         [("service", k.1.1); ("method", k.1.2); ("outcome", k.2)] (default 0 (outRequests m !! k)))
      <$> sorted_keys text3 (outRequests m))
  ++ ["# TYPE rebff_http_rejected_total counter"]
  ++ ((λ k, series "rebff_http_rejected_total" [("reason", k)] (default 0 (rejected m !! k)))
      <$> sorted_keys id (rejected m))
  ++ ["# TYPE rebff_outbound_rejected_total counter"]
  ++ ((λ k, series "rebff_outbound_rejected_total" [("service", k.1); ("reason", k.2)]
         (default 0 (outRejected m !! k))) <$> sorted_keys text2 (outRejected m))
  ++ ["# TYPE rebff_http_inflight_requests gauge";
      "rebff_http_inflight_requests " +:+ FormatInt (inflight m);
      "# TYPE rebff_outbound_request_duration_seconds histogram"]
  ++ concat ((λ k, writeHistogram "rebff_outbound_request_duration_seconds" [("service", k.1); ("method", k.2)]
                (default zero_histogram (outDuration m !! k))) <$> sorted_keys text2 (outDuration m)).
End text.

(** ** Properties *)

(** The calls that count towards a key. *)
Definition calls_for `{Countable K} (key : Metric → option K) (k : K) (calls : list Metric) : Z :=
  Z.of_nat (length (filter (λ c, key c = Some k) calls)).
(** The values observed under a key. *)
Definition observed `{Countable K} (sample : Metric → option (K * float64)) (k : K) (calls : list Metric)
    : list float64 :=
  omap (λ c, match sample c with
             | Some (k', v) => if bool_decide (k' = k) then Some v else None
             | None => None
             end) calls.

(** A histogram that has counted [vs]: in bucket i are all values up to bound i. *)
Definition counts_values (h : histogram) (vs : list float64) : Prop :=
  hg_Count h = Z.of_nat (length vs) mod 2 ^ 64 ∧
  (hg_Buckets h = [] ∧ vs = [] ∨ length (hg_Buckets h) = length defaultBuckets) ∧
  ∀ i bound, defaultBuckets !! i = Some bound →
    default 0 (hg_Buckets h !! i) = Z.of_nat (length (filter (λ v, f64_le v bound = true) vs)) mod 2 ^ 64.

Lemma inc_mod n : inc (Z.of_nat n mod 2 ^ 64) = Z.of_nat (S n) mod 2 ^ 64.
Proof. unfold inc. rewrite Zplus_mod_idemp_l. f_equal. lia. Qed.

Lemma length_filter_snoc {A} (P : A → Prop) `{!∀ x, Decision (P x)} l x :
  length (filter P (l ++ [x])) = if decide (P x) then S (length (filter P l)) else length (filter P l).
Proof. rewrite list.filter_app, length_app, filter_cons, filter_nil. case_decide; simpl; lia. Qed.

Lemma observe_counts h vs v : counts_values h vs → counts_values (observe h v) (vs ++ [v]).
Proof.
  intros (Hc & Hl & Hb). unfold observe.
  set (bs := match hg_Buckets h with [] => _ | _ => _ end).
  assert (length bs = length defaultBuckets ∧
    ∀ i bound, defaultBuckets !! i = Some bound →
      bs !! i = Some (Z.of_nat (length (filter (λ v, f64_le v bound = true) vs)) mod 2 ^ 64)) as [Hbl Hbs].
  { subst bs. destruct (hg_Buckets h) as [|n l] eqn:Hh.
    - destruct Hl as [[_ ->]|Hl]; [|discriminate Hl].
      split; [apply length_replicate|]. intros i bound Hi. apply lookup_replicate_2. by eapply lookup_lt_Some.
    - destruct Hl as [[? _]|Hlen]; [done|].
      split; [done|]. intros i bound Hi. rewrite <-(Hb i bound Hi).
      assert (is_Some ((n :: l) !! i)) as [x Hx] by (apply lookup_lt_is_Some; rewrite Hlen; by eapply lookup_lt_Some).
      by rewrite Hx. }
  split; [|split].
  - cbn [hg_Count]. rewrite Hc, inc_mod, length_app. simpl. do 2 f_equal. lia.
  - right. cbn [hg_Buckets]. rewrite length_zip_with, Hbl. lia.
  - intros i bound Hi. cbn [hg_Buckets]. rewrite lookup_zip_with, Hi, (Hbs i bound Hi).
    cbn [mbind option_bind default]. rewrite length_filter_snoc.
    destruct (f64_le v bound); [rewrite decide_True by done; apply inc_mod|by rewrite decide_False].
Qed.

Section exact.
Context `{UnicodeCase}.

Lemma registry_snoc calls c : registry (calls ++ [c]) = record_call (registry calls) c.
Proof. unfold registry. by rewrite fold_left_app. Qed.

Lemma counter_exact `{Countable K} (f : Metrics → gmap K Z) (key : Metric → option K) :
  f NewMetrics = ∅ →
  (∀ c m, f (record_call m c) = match key c with Some k => bump k (f m) | None => f m end) →
  ∀ calls k, default 0 (f (registry calls) !! k) = calls_for key k calls mod 2 ^ 64.
Proof.
  intros Hnew Hstep calls k. induction calls as [|c calls IH] using rev_ind.
  { change (registry []) with NewMetrics. by rewrite Hnew, lookup_empty. }
  rewrite registry_snoc, Hstep. unfold calls_for in *. rewrite length_filter_snoc.
  destruct (key c) as [k'|]; [|by rewrite decide_False].
  unfold bump. destruct (decide (k' = k)) as [->|Hne].
  - rewrite lookup_insert_eq, decide_True by done. cbn [default]. rewrite IH. apply inc_mod.
  - rewrite lookup_insert_ne, decide_False by congruence. done.
Qed.

Lemma histogram_exact `{Countable K} (f : Metrics → gmap K histogram) (sample : Metric → option (K * float64)) :
  f NewMetrics = ∅ →
  (∀ c m, f (record_call m c) = match sample c with Some (k, v) => observe_at k v (f m) | None => f m end) →
  ∀ calls k, counts_values (default zero_histogram (f (registry calls) !! k)) (observed sample k calls).
Proof.
  intros Hnew Hstep calls k. induction calls as [|c calls IH] using rev_ind.
  { change (registry []) with NewMetrics. rewrite Hnew, lookup_empty. split; [done|]. split; [by left|done]. }
  rewrite registry_snoc, Hstep. unfold observed in *. rewrite omap_app. cbn [omap list_omap].
  destruct (sample c) as [[k' v]|]; [|by rewrite app_nil_r].
  unfold observe_at. case_bool_decide as Hk.
  - subst. rewrite lookup_insert_eq. cbn [default]. by apply observe_counts.
  - rewrite lookup_insert_ne, app_nil_r by done. done.
Qed.

(** The labels under which a call is counted. *)
Definition http_key (c : Metric) : option (string * string * string) :=
  match c with
  | World.RecordHTTPRequest m r st _ => Some (ToUpper m, or_unmatched r, status_class st)
  | _ => None
  end.
Definition auth_key (c : Metric) : option string := match c with World.RecordAuth o => Some o | _ => None end.
Definition decision_key (c : Metric) : option (string * string) :=
  match c with World.RecordAuthorization o p => Some (o, p) | _ => None end.
Definition outbound_key (c : Metric) : option (string * string * string) :=
  match c with World.RecordOutbound s m o _ => Some (or_unknown s, ToUpper m, o) | _ => None end.
Definition rejected_key (c : Metric) : option string :=
  match c with World.RecordRejected r => Some r | _ => None end.
Definition out_rejected_key (c : Metric) : option (string * string) :=
  match c with World.RecordOutboundRejected s r => Some (or_unknown s, r) | _ => None end.
Definition http_sample (c : Metric) : option (string * string * float64) :=
  match c with
  | World.RecordHTTPRequest m r _ d => Some (ToUpper m, or_unmatched r, Seconds d)
  | _ => None
  end.
Definition outbound_sample (c : Metric) : option (string * string * float64) :=
  match c with World.RecordOutbound s m _ d => Some (or_unknown s, ToUpper m, Seconds d) | _ => None end.

(** C30: the registry counts exactly.  After any sequence of calls each of the six
    families of counters has, for every combination of labels, the number of calls
    with these labels (modulo 2^64); each histogram has in its bucket for a bound
    the number of observed durations up to that bound, so that buckets are
    cumulative, and in its count the number of all; and the gauge of requests in
    flight is never negative. *)
Theorem metrics_exact calls :
  (∀ k, default 0 (httpRequests (registry calls) !! k) = calls_for http_key k calls mod 2 ^ 64) ∧
  (∀ k, default 0 (authAttempts (registry calls) !! k) = calls_for auth_key k calls mod 2 ^ 64) ∧
  (∀ k, default 0 (decisions (registry calls) !! k) = calls_for decision_key k calls mod 2 ^ 64) ∧
  (∀ k, default 0 (outRequests (registry calls) !! k) = calls_for outbound_key k calls mod 2 ^ 64) ∧
  (∀ k, default 0 (rejected (registry calls) !! k) = calls_for rejected_key k calls mod 2 ^ 64) ∧
  (∀ k, default 0 (outRejected (registry calls) !! k) = calls_for out_rejected_key k calls mod 2 ^ 64) ∧
  (∀ k, counts_values (default zero_histogram (httpDuration (registry calls) !! k)) (observed http_sample k calls)) ∧
  (∀ k, counts_values (default zero_histogram (outDuration (registry calls) !! k)) (observed outbound_sample k calls)) ∧
  0 ≤ inflight (registry calls).
Proof.
  do 6 (split; [apply counter_exact; [done|by intros []]|]).
  do 2 (split; [apply histogram_exact; [done|by intros []]|]).
  induction calls as [|c calls IH] using rev_ind; [done|]. rewrite registry_snoc.
  destruct c; simpl; try done. lia.
Qed.
End exact.

Section example.
#[local] Instance metrics_case : UnicodeCase := ascii_case.
#[local] Instance metrics_print : PrintTable := {| is_print _ := true |}.
#[local] Instance metrics_float : FloatText := {| ParseFloat _ := Err (errorf "none"); FormatFloat _ := "x" |}.

Example scrape_example :
  take 5 (writePrometheus (registry [World.RecordHTTPRequest "get" "" 404 Second; World.RecordHTTPRequest "GET" "" 400 0])) =
  ["# TYPE rebff_http_requests_total counter";
   ReplaceAll "rebff_http_requests_total{method='GET',route='unmatched',status_class='4xx'} 2" "'" "034";
   "# TYPE rebff_http_request_duration_seconds histogram";
   ReplaceAll "rebff_http_request_duration_seconds_bucket{method='GET',route='unmatched',le='x'} 1" "'" "034";
   ReplaceAll "rebff_http_request_duration_seconds_bucket{method='GET',route='unmatched',le='x'} 1" "'" "034"].
Proof. by vm_compute. Qed.
End example.
End Registry.
