(* ===== verification/Http.v ===== *)
(** * Requests, responses and handlers: what the program uses of net/http

    A request holds what the handlers read of it: the parsed URL, headers,
    cookies and the values that middlewares put in its context.  The response
    writer is the headers set so far and the log of [WriteHeader] and [Write]
    calls; the first of these fixes the status.  A handler is a state
    transformer that extends the log. *)

From S2P Require Import Prelude GoStrings GoURL GoQuery World Session.
Open Scope Z_scope.

#[local] Set Warnings "-register-all".

(** ** JSON bodies *)
Inductive json :=
  | JNull
  | JBool (b : bool)
  | JNum (n : Z)
  | JStr (s : string)
  | JErrText (e : goerr)          (* the text err.Error() *)
  | JTime (t : Time)              (* RFC 3339 *)
  | JArr (l : list json)
  | JObj (fields : list (string * json)).

Inductive body :=
  | BText (s : string)
  | BJson (j : json)
  | BRedirect (url : string).

(** ** Requests *)
Record requestMetadata := mkMetadata {
  md_clientIP : string;
  md_clientIPSource : string;
  md_cfRay : string;
}.

(** The values stored with [context.WithValue]. *)
Record Ctx := mkCtx {
  ctx_requestID : option string;
  ctx_traceID : option string;
  ctx_metadata : option requestMetadata;
  ctx_session : option Session;
}.
Definition background : Ctx := mkCtx None None None None.

Record Request := mkRequest {
  r_Method : string;
  r_URL : URL;
  r_RemoteAddr : string;
  r_Header : list (string * string);
  r_Cookies : list (string * string);
  r_PathValues : list (string * string);
  r_Body : string;
  (** the limits of the http.MaxBytesReaders around the body *)
  r_BodyLimits : list Z;
  r_Context : Ctx;
}.

(** [r.URL.Path] *)
Definition r_Path (r : Request) : string := u_Path (r_URL r).

Definition WithContext (r : Request) (c : Ctx) : Request :=
  mkRequest (r_Method r) (r_URL r) (r_RemoteAddr r) (r_Header r) (r_Cookies r) (r_PathValues r) (r_Body r)
    (r_BodyLimits r) c.
Definition with_url (r : Request) (u : URL) : Request :=
  mkRequest (r_Method r) u (r_RemoteAddr r) (r_Header r) (r_Cookies r) (r_PathValues r) (r_Body r)
    (r_BodyLimits r) (r_Context r).
Definition with_path_values (r : Request) (l : list (string * string)) : Request :=
  mkRequest (r_Method r) (r_URL r) (r_RemoteAddr r) (r_Header r) (r_Cookies r) l (r_Body r)
    (r_BodyLimits r) (r_Context r).
(** [r.Body = http.MaxBytesReader(w, r.Body, limit)] *)
Definition limit_body (limit : Z) (r : Request) : Request :=
  mkRequest (r_Method r) (r_URL r) (r_RemoteAddr r) (r_Header r) (r_Cookies r) (r_PathValues r) (r_Body r)
    (limit :: r_BodyLimits r) (r_Context r).
(** The number of bytes that can be read through all of them. *)
Definition body_allowance (r : Request) (limit : Z) : Z := foldr Z.min limit (r_BodyLimits r).

(** A URL that is a path only *)
Definition path_url (p : string) : URL := mkURL "" "" None "" p "" false false "" "" "".

(** The first value of a name. *)
Fixpoint first_value (eq : string → string → bool) (name : string) (l : list (string * string)) : option string :=
  match l with
  | [] => None
  | (k, v) :: l => if eq k name then Some v else first_value eq name l
  end.

(** Header names are compared without regard to ASCII case. *)
Definition header_eq (a b : string) : bool :=
  bool_decide (lower_byte <$> bytes a = lower_byte <$> bytes b).
(** [r.Header.Get(name)], "" if absent *)
Definition header_get (r : Request) (name : string) : string :=
  default "" (first_value header_eq name (r_Header r)).
(** [r.Cookie(name)], None for [ErrNoCookie] *)
Definition cookie_get (r : Request) (name : string) : option string :=
  first_value String.eqb name (r_Cookies r).
(** [r.URL.Query().Get(name)]: the first value, "" if there is none *)
Definition query_get (r : Request) (name : string) : string :=
  default "" (head (default [] (ParseQuery (u_RawQuery (r_URL r)) !! name))).
(** [r.PathValue(name)] *)
Definition path_value (r : Request) (name : string) : string :=
  default "" (first_value String.eqb name (r_PathValues r)).

(** ** Responses *)
Record Cookie := mkCookie {
  ck_Name : string;
  ck_Value : string;
  ck_Path : string;
  ck_Secure : bool;
  ck_HttpOnly : bool;
  ck_SameSiteLax : bool;
  ck_Expires : Time;
  ck_MaxAge : Z;
}.

Inductive wop :=
  | WriteHeader (status : Z)
  | Write (b : body).

Record RW := mkRW {
  rw_header : list (string * string);
  rw_cookies : list Cookie;
  rw_log : list wop;
}.
Definition fresh_rw : RW := mkRW [] [] [].

(** [w.Header().Set(k, v)] *)
Definition set_header (k v : string) (rw : RW) : RW :=
  mkRW (filter (λ p, negb (header_eq p.1 k)) (rw_header rw) ++ [(k, v)]) (rw_cookies rw) (rw_log rw).
Definition rw_header_get (rw : RW) (name : string) : string :=
  default "" (first_value header_eq name (rw_header rw)).
(** [http.SetCookie(w, c)] *)
Definition SetCookie (c : Cookie) (rw : RW) : RW :=
  mkRW (rw_header rw) (rw_cookies rw ++ [c]) (rw_log rw).
Definition push (op : wop) (rw : RW) : RW :=
  mkRW (rw_header rw) (rw_cookies rw) (rw_log rw ++ [op]).

(** The status line that is sent: the first call decides, a body without a
    status means 200. *)
Definition log_status (l : list wop) : option Z :=
  match l with
  | [] => None
  | WriteHeader st :: _ => Some st
  | Write _ :: _ => Some 200
  end.
Definition rw_status (rw : RW) : option Z := log_status (rw_log rw).
Definition rw_body (rw : RW) : list body :=
  omap (λ op, match op with Write b => Some b | _ => None end) (rw_log rw).

(** [http.Error(w, text, status)] *)
Definition http_Error (text : string) (status : Z) (rw : RW) : RW :=
  push (Write (BText text)) (push (WriteHeader status)
    (set_header "X-Content-Type-Options" "nosniff"
      (set_header "Content-Type" "text/plain; charset=utf-8" rw))).
(** [http.Redirect(w, r, url, status)] *)
Definition http_Redirect (url : string) (status : Z) (rw : RW) : RW :=
  push (Write (BRedirect url)) (push (WriteHeader status) (set_header "Location" url rw)).

(** internal/httpx/system_routes.go [writeJSON] *)
Definition writeJSON (status : Z) (v : json) (rw : RW) : RW :=
  push (Write (BJson v)) (push (WriteHeader status) (set_header "Content-Type" "application/json" rw)).

Definition StatusOK : Z := 200.
Definition StatusNoContent : Z := 204.
Definition StatusFound : Z := 302.
Definition StatusSeeOther : Z := 303.
Definition StatusBadRequest : Z := 400.
Definition StatusUnauthorized : Z := 401.
Definition StatusForbidden : Z := 403.
Definition StatusNotFound : Z := 404.
Definition StatusConflict : Z := 409.
Definition StatusTooManyRequests : Z := 429.
Definition StatusInternalServerError : Z := 500.
Definition StatusNotImplemented : Z := 501.
Definition StatusBadGateway : Z := 502.
Definition StatusServiceUnavailable : Z := 503.

(** ** Handlers *)
Definition Handler : Type := Request → RW → M RW.

(** A handler only appends to the log of the response. *)
Definition appends (h : Handler) : Prop :=
  ∀ r rw w, rw_log rw `prefix_of` rw_log (h r rw w).1.

Lemma push_log op rw : rw_log (push op rw) = rw_log rw ++ [op].
Proof. done. Qed.
Lemma http_Error_log text st rw :
  rw_log (http_Error text st rw) = rw_log rw ++ [WriteHeader st; Write (BText text)].
Proof. unfold http_Error, push. simpl. by rewrite <-app_assoc. Qed.
Lemma writeJSON_log st v rw :
  rw_log (writeJSON st v rw) = rw_log rw ++ [WriteHeader st; Write (BJson v)].
Proof. unfold writeJSON, push. simpl. by rewrite <-app_assoc. Qed.
Lemma http_Redirect_log url st rw :
  rw_log (http_Redirect url st rw) = rw_log rw ++ [WriteHeader st; Write (BRedirect url)].
Proof. unfold http_Redirect, push. simpl. by rewrite <-app_assoc. Qed.
#[export] Hint Rewrite push_log http_Error_log writeJSON_log http_Redirect_log : go_str.

(** The status of a handler that had written nothing before. *)
Lemma http_Error_status text st rw : rw_log rw = [] → rw_status (http_Error text st rw) = Some st.
Proof. unfold rw_status. rewrite http_Error_log. by intros ->. Qed.
Lemma writeJSON_status st v rw : rw_log rw = [] → rw_status (writeJSON st v rw) = Some st.
Proof. unfold rw_status. rewrite writeJSON_log. by intros ->. Qed.

(** Setting a header makes [Get] return it and leaves the others alone. *)
Lemma first_value_app eq name l k :
  first_value eq name (l ++ k) = match first_value eq name l with Some v => Some v | None => first_value eq name k end.
Proof. induction l as [|[a v] l IH]; simpl; [done|]. by destruct (eq a name). Qed.

Lemma set_header_get k v rw : rw_header_get (set_header k v rw) k = v.
Proof.
  unfold rw_header_get, set_header. simpl. rewrite first_value_app.
  assert (first_value header_eq k (filter (λ p, negb (header_eq p.1 k)) (rw_header rw)) = None) as ->.
  { induction (rw_header rw) as [|[a x] l IH]; [done|]. rewrite filter_cons. simpl.
    case_decide as Hd; [|done]. simpl. destruct (header_eq a k); [done|]. done. }
  simpl. unfold header_eq. by rewrite bool_decide_eq_true_2.
Qed.

Lemma header_eq_sym_trans a b c : header_eq a b = true → header_eq a c = header_eq b c.
Proof. unfold header_eq. intros He. apply bool_decide_eq_true in He. by rewrite He. Qed.

Lemma set_header_get_other k v rw name :
  header_eq k name = false → rw_header_get (set_header k v rw) name = rw_header_get rw name.
Proof.
  intros Hne. unfold rw_header_get, set_header. cbn [rw_header]. rewrite first_value_app.
  cbn [first_value]. rewrite Hne. f_equal.
  assert (first_value header_eq name (filter (λ p, negb (header_eq p.1 k)) (rw_header rw)) =
    first_value header_eq name (rw_header rw)) as ->; [|by destruct (first_value _ _ _)].
  induction (rw_header rw) as [|[a x] l IH]; [done|]. rewrite filter_cons. cbn [first_value fst].
  case_decide as Hd; cbn [first_value]; [by rewrite IH|].
  destruct (header_eq a k) eqn:Hak; [|done]. by rewrite (header_eq_sym_trans a k name Hak), Hne.
Qed.
