(* ===== verification/Middleware.v ===== *)
(** * Middlewares: internal/httpx/middleware, internal/audit

    The chain of handlers around the application: request ids, trace ids, the
    client's address behind trusted proxies, the CSRF check, authorisation with
    its audit trail, and the business audit.  Parsing of IP addresses and
    networks (package net) is the class [Net]. *)

From S2P Require Import Prelude GoStrings GoURL World Session Policy Http.
Open Scope Z_scope.

(** ** internal/audit/audit.go *)
Definition AuditSink : Type := Event → M (result unit).

(** internal/audit/memory.go [MemorySink.Append] *)
Definition MemorySink : AuditSink := λ e, do _ := modify (add_audit e) in ret (Ok tt).
(** internal/audit/noop.go *)
Definition NoopSink : AuditSink := λ _, ret (Ok tt).

(** internal/audit/slog.go [SlogSink.Append]; [Hostname] is os.Hostname *)
Class Host := { Hostname : nat → result string }.
Record SlogSink := mkSlogSink { sl_Service : string; sl_Role : string; sl_Instance : string }.
Definition or_else (s fallback : string) : string := if bool_decide (s = "") then fallback else s.
Definition Slog_Append `{Host} (s : SlogSink) : AuditSink := λ e,
  do instance := if bool_decide (sl_Instance s = "")
                 then do h := oracle Hostname in ret (match h with Ok h => h | Err _ => "" end)
                 else ret (sl_Instance s) in
  let reason := default "" (ev_Attributes e !! "reason") in
  do _ := modify (add_log (mkLogRecord "audit"
    [("schema_version", LStr "1.0"); ("event_id", LStr (ev_ID e)); ("event_time", LTime (ev_OccurredAt e));
     ("source", LMap {["service" := or_else (sl_Service s) "rebff"; "role" := or_else (sl_Role s) "rebff";
                       "instance" := instance]});
     ("actor", LMap {["type" := if bool_decide (ev_Actor e = "") then "anonymous" else "user";
                      "subject" := ev_Actor e; "username" := ev_ActorUsername e]});
     ("client", LMap {["type" := "browser"; "ip" := ev_ClientIP e; "ip_source" := ev_ClientIPSource e]});
     ("action", LStr (ev_Action e));
     ("target", LMap {["type" := ev_Target e; "id" := ev_ResourceID e]});
     ("outcome", LAny ([("result", inl (ev_Outcome e)); ("reason", inl reason)] ++
        if (100 <=? ev_HTTPStatus e) && (ev_HTTPStatus e <=? 599) then [("http_status", inr (ev_HTTPStatus e))] else []));
     ("request", LMap {["request_id" := ev_CorrelationID e; "trace_id" := ev_TraceID e; "cf_ray" := ev_CFRay e]});
     ("metadata", LMap (delete "reason" (ev_Attributes e)))])) in
  ret (Ok tt).

Section audit.
Context `{Env}.

(** A buffer stays zero when the random source fails. *)
Definition rand_or_zero (n : nat) : M (list ascii) :=
  do b := rand n in
  ret (match b with Ok l => l | Err _ => replicate n (ascii_of_nat 0) end).

Definition NewEvent (action target outcome : string) : M Event :=
  do b := rand_or_zero 12 in
  do t := now in
  ret (mkEvent (hex_encode b) t "" "" "" "" "" action target "" outcome 0 "" "" ∅).
End audit.

Definition RequestIDFromContext (c : Ctx) : string := default "" (ctx_requestID c).
Definition TraceIDFromContext (c : Ctx) : string := default "" (ctx_traceID c).
Definition AuthenticatedSession (c : Ctx) : option Session := ctx_session c.

(** request_metadata.go [EnrichAuditEvent] *)
Definition EnrichAuditEvent (r : Request) (e : Event) : Event :=
  let md := default (mkMetadata "" "" "") (ctx_metadata (r_Context r)) in
  mkEvent (ev_ID e) (ev_OccurredAt e) (ev_Actor e) (ev_ActorUsername e)
    (md_clientIP md) (md_clientIPSource md) (md_cfRay md)
    (ev_Action e) (ev_Target e) (ev_ResourceID e) (ev_Outcome e) (ev_HTTPStatus e)
    (RequestIDFromContext (r_Context r)) (TraceIDFromContext (r_Context r)) (ev_Attributes e).

(** The assignments that handlers make to a new event. *)
Definition with_actor (actor username : string) (e : Event) : Event :=
  mkEvent (ev_ID e) (ev_OccurredAt e) actor username (ev_ClientIP e) (ev_ClientIPSource e) (ev_CFRay e)
    (ev_Action e) (ev_Target e) (ev_ResourceID e) (ev_Outcome e) (ev_HTTPStatus e)
    (ev_CorrelationID e) (ev_TraceID e) (ev_Attributes e).
Definition with_status (status : Z) (e : Event) : Event :=
  mkEvent (ev_ID e) (ev_OccurredAt e) (ev_Actor e) (ev_ActorUsername e) (ev_ClientIP e) (ev_ClientIPSource e)
    (ev_CFRay e) (ev_Action e) (ev_Target e) (ev_ResourceID e) (ev_Outcome e) status
    (ev_CorrelationID e) (ev_TraceID e) (ev_Attributes e).
Definition with_resource (id : string) (e : Event) : Event :=
  mkEvent (ev_ID e) (ev_OccurredAt e) (ev_Actor e) (ev_ActorUsername e) (ev_ClientIP e) (ev_ClientIPSource e)
    (ev_CFRay e) (ev_Action e) (ev_Target e) id (ev_Outcome e) (ev_HTTPStatus e)
    (ev_CorrelationID e) (ev_TraceID e) (ev_Attributes e).
Definition with_attributes (f : gmap string string → gmap string string) (e : Event) : Event :=
  mkEvent (ev_ID e) (ev_OccurredAt e) (ev_Actor e) (ev_ActorUsername e) (ev_ClientIP e) (ev_ClientIPSource e)
    (ev_CFRay e) (ev_Action e) (ev_Target e) (ev_ResourceID e) (ev_Outcome e) (ev_HTTPStatus e)
    (ev_CorrelationID e) (ev_TraceID e) (f (ev_Attributes e)).

(** ** request_id.go and trace.go *)
Section ids.
Context `{Env} `{UnicodeCase}.

Definition valid_id_byte (c : ascii) : bool :=
  one_of "-_." c || is_digit c || is_alpha c.
Definition validRequestID (v : string) : bool :=
  if bool_decide (v = "") || (128 <? len v) then false else forallb valid_id_byte (bytes v).

Definition randomRequestID : M string :=
  do b := rand 16 in
  ret (match b with Ok l => hex_encode l | Err _ => "request-id-unavailable" end).

Definition RequestID (next : Handler) : Handler := λ r rw,
  let id := TrimSpace (header_get r "X-Request-ID") in
  do id := if validRequestID id then ret id else randomRequestID in
  let c := r_Context r in
  next (WithContext r (mkCtx (Some id) (ctx_traceID c) (ctx_metadata c) (ctx_session c)))
       (set_header "X-Request-ID" id rw).

Definition traceIDFromTraceparent (v : string) : string :=
  match Split v "-" with
  | [_; id; _; _] =>
      if negb (len id =? 32) then ""
      else if negb (forallb ishex (bytes id)) || bool_decide (bytes id = replicate 32 "0"%char) then ""
      else ToLower id
  | _ => ""
  end.

Definition randomTraceID : M string :=
  do b := rand 16 in ret (match b with Ok l => hex_encode l | Err _ => "" end).

Definition TraceContext (next : Handler) : Handler := λ r rw,
  let id := traceIDFromTraceparent (header_get r "traceparent") in
  do id := if bool_decide (id = "") then randomTraceID else ret id in
  let c := r_Context r in
  next (WithContext r (mkCtx (ctx_requestID c) (Some id) (ctx_metadata c) (ctx_session c)))
       (set_header "X-Trace-ID" id rw).
End ids.

(** ** security_headers.go, body_limit.go, operational.go *)
Definition SecurityHeaders (next : Handler) : Handler := λ r rw,
  next r
    (set_header "Cross-Origin-Resource-Policy" "same-origin"
    (set_header "Cross-Origin-Opener-Policy" "same-origin"
    (set_header "Permissions-Policy" "camera=(), microphone=(), geolocation=()"
    (set_header "Referrer-Policy" "no-referrer"
    (set_header "X-Frame-Options" "DENY"
    (set_header "X-Content-Type-Options" "nosniff" rw)))))).

Definition operationalPath (path : string) : bool :=
  HasSuffix path "/health/live" || HasSuffix path "/health/ready" || HasSuffix path "/metrics".
Definition successfulHealthCheck (path : string) (status : Z) : bool :=
  if (status <? StatusOK) || (StatusBadRequest <=? status) then false
  else HasSuffix path "/health/live" || HasSuffix path "/health/ready".
Definition matchesPathSuffix (path : string) (suffixes : list string) : bool :=
  existsb (λ suffix, negb (bool_decide (suffix = "")) && HasSuffix path suffix) suffixes.

(** ** proxy.go and request_metadata.go *)
Class Net := {
  IP : Type;
  IPNet : Type;
  ParseIP : string → option IP;
  IP_String : IP → string;
  ParseCIDR : string → result IPNet;
  IPNet_Contains : IPNet → IP → bool;
  SplitHostPort : string → result (string * string);
}.

Section proxy.
Context `{Net}.

Abbreviation TrustedProxyConfig := (list IPNet).

Fixpoint ParseTrustedProxyCIDRs (values : list string) : result TrustedProxyConfig :=
  match values with
  | [] => Ok []
  | raw :: values =>
      let raw := TrimSpace raw in
      if bool_decide (raw = "") then ParseTrustedProxyCIDRs values else
      let? network := ParseCIDR raw in
      let? cfg := ParseTrustedProxyCIDRs values in
      Ok (network :: cfg)
  end.

Definition isTrusted (ip : IP) (cidrs : TrustedProxyConfig) : bool :=
  existsb (λ network, IPNet_Contains network ip) cidrs.

(** The loop over the entries of X-Forwarded-For, last one first. *)
Fixpoint forwarded_for (cfg : TrustedProxyConfig) (parts : list string) : option IP :=
  match parts with
  | [] => None
  | part :: parts =>
      match ParseIP (TrimSpace part) with
      | None => forwarded_for cfg parts
      | Some ip => if negb (isTrusted ip cfg) then Some ip else forwarded_for cfg parts
      end
  end.

Definition remote_host (r : Request) : string :=
  match SplitHostPort (r_RemoteAddr r) with Ok (host, _) => host | Err _ => r_RemoteAddr r end.

Definition ClientIdentity (r : Request) (cfg : TrustedProxyConfig) : string * string :=
  let host := remote_host r in
  match ParseIP host with
  | None => (host, "remote-address")
  | Some remoteIP =>
      if negb (isTrusted remoteIP cfg) then (host, "remote-address") else
      let xff := header_get r "X-Forwarded-For" in
      if bool_decide (xff = "") then (host, "remote-address") else
      match forwarded_for cfg (rev (Split xff ",")) with
      | Some ip => (IP_String ip, "x-forwarded-for")
      | None => (host, "remote-address")
      end
  end.

Definition ClientIP (r : Request) (cfg : TrustedProxyConfig) : string := (ClientIdentity r cfg).1.

Definition RequestMetadata (proxy : TrustedProxyConfig) (next : Handler) : Handler := λ r rw,
  let '(clientIP, source) := ClientIdentity r proxy in
  let cfRay := if bool_decide (source = "remote-address") then "" else TrimSpace (header_get r "CF-Ray") in
  let c := r_Context r in
  next (WithContext r (mkCtx (ctx_requestID c) (ctx_traceID c)
          (Some (mkMetadata clientIP source cfRay)) (ctx_session c))) rw.
End proxy.

(** ** csrf.go *)
Definition CSRFCookieName : string := "__Host-bff_csrf".
Definition InsecureCSRFCookieName : string := "bff_csrf".
Definition CSRFHeaderName : string := "X-CSRF-Token".
Definition CSRFCookieNameFor (secure : bool) : string :=
  if secure then CSRFCookieName else InsecureCSRFCookieName.

Record CSRFConfig := mkCSRF {
  csrf_PublicURL : string;
  csrf_Secure : bool;
  csrf_CookieName : string;
}.

Definition isUnsafeMethod (method : string) : bool :=
  negb (bool_decide (method ∈ ["GET"; "HEAD"; "OPTIONS"; "TRACE"])).

(** [subtle.ConstantTimeCompare] is equality of equally long strings. *)
Definition constantTimeEqual (a b : string) : bool :=
  if negb (len a =? len b) || (len a =? 0) then false else String.eqb a b.

Section csrf.
Context `{Env} `{UnicodeCase} `{IPLiteral}.

Definition randomToken (n : nat) : M string :=
  do b := rand n in ret (match b with Ok l => base64url l | Err _ => "" end).

Definition ensureCSRFCookie (r : Request) (secure : bool) (cookieName : string) (rw : RW) : M RW :=
  match cookie_get r cookieName with
  | Some v => if bool_decide (v = "") then
      do token := randomToken 32 in
      ret (SetCookie (mkCookie cookieName token "/" secure false true zero_time 0) rw)
    else ret rw
  | None =>
      do token := randomToken 32 in
      ret (SetCookie (mkCookie cookieName token "/" secure false true zero_time 0) rw)
  end.

Definition sameOriginRequest (r : Request) (expected : option URL) : bool :=
  match expected with
  | None => false
  | Some expected =>
      let origin := header_get r "Origin" in
      let raw := if bool_decide (origin = "") then header_get r "Referer" else origin in
      if bool_decide (raw = "") then false else
      match Parse raw with
      | Err _ => false
      | Ok u => EqualFold (u_Scheme u) (u_Scheme expected) && EqualFold (u_Host u) (u_Host expected)
      end
  end.

(** [origin, _ := url.Parse(cfg.PublicURL)]: nil when it does not parse *)
Definition csrf_origin (cfg : CSRFConfig) : option URL :=
  match Parse (csrf_PublicURL cfg) with Ok u => Some u | Err _ => None end.

Definition csrf_cookie_name (cfg : CSRFConfig) : string :=
  if bool_decide (csrf_CookieName cfg = "") then CSRFCookieName else csrf_CookieName cfg.

Definition CSRF (cfg : CSRFConfig) (next : Handler) : Handler := λ r rw,
  let cookieName := csrf_cookie_name cfg in
  do rw := ensureCSRFCookie r (csrf_Secure cfg) cookieName rw in
  if negb (isUnsafeMethod (r_Method r)) then next r rw else
  if negb (sameOriginRequest r (csrf_origin cfg)) then
    ret (http_Error "csrf origin rejected" StatusForbidden rw) else
  match cookie_get r cookieName with
  | None => ret (http_Error "csrf token missing" StatusForbidden rw)
  | Some v =>
      if bool_decide (v = "") then ret (http_Error "csrf token missing" StatusForbidden rw) else
      if negb (constantTimeEqual v (header_get r CSRFHeaderName)) then
        ret (http_Error "csrf token invalid" StatusForbidden rw)
      else next r rw
  end.
End csrf.

(** ** authorization.go *)
Section authorization.
Context `{Env}.

(** [metrics != nil] is the flag; calls are recorded in the world. *)
Definition record_if (metrics : bool) (m : Metric) : M unit :=
  if metrics then modify (add_metric m) else ret tt.

Definition emitDecision (r : Request) (sink : option AuditSink) (metrics : bool)
    (actor username permission outcome reason : string) (status : Z) : M unit :=
  do _ := record_if metrics
    (RecordAuthorization (if bool_decide (outcome = "deny") then "denied" else outcome) permission) in
  match sink with
  | None => ret tt
  | Some sink =>
      do e := NewEvent ("authorization." +:+ outcome) permission outcome in
      let e := EnrichAuditEvent r (with_status status (with_actor actor username e)) in
      let e := with_attributes (λ m, <["request_path" := r_Path r]>
                 (<["request_method" := r_Method r]> (<["reason" := reason]> m))) e in
      do _ := sink e in ret tt
  end.

Definition with_session (r : Request) (s : Session) : Request :=
  let c := r_Context r in
  WithContext r (mkCtx (ctx_requestID c) (ctx_traceID c) (ctx_metadata c) (Some s)).

Definition RequirePermissionWithAuditCookie (permission cookieName : string) (sessions : SessionStore)
    (evaluator : option Evaluator) (sink : option AuditSink) (metrics : bool) (next : Handler) : Handler :=
  λ r rw,
  let cookie := default "" (cookie_get r cookieName) in
  if bool_decide (cookie = "") then
    do _ := emitDecision r sink metrics "" "" permission "deny" "unauthenticated" StatusUnauthorized in
    ret (http_Error "unauthorized" StatusUnauthorized rw)
  else
  do got := ss_Get sessions cookie in
  match got with
  | Err e =>
      if errors_Is e SessionNotFound then
        do _ := emitDecision r sink metrics "" "" permission "deny" "invalid_session" StatusUnauthorized in
        ret (http_Error "unauthorized" StatusUnauthorized rw)
      else
        do _ := emitDecision r sink metrics "" "" permission "error" "session_store_error" StatusServiceUnavailable in
        ret (http_Error "session store unavailable" StatusServiceUnavailable rw)
  | Ok s =>
      match evaluator with
      | None =>
          do _ := emitDecision r sink metrics (ses_Subject s) (ses_Username s) permission "deny"
                    "policy_unconfigured" StatusForbidden in
          ret (http_Error "forbidden" StatusForbidden rw)
      | Some evaluator =>
          do allowed := ev_Allowed evaluator (mkSubject (ses_Subject s) (ses_Roles s)) permission in
          match allowed with
          | Err _ =>
              do _ := emitDecision r sink metrics (ses_Subject s) (ses_Username s) permission "error"
                        "policy_error" StatusServiceUnavailable in
              ret (http_Error "authorization unavailable" StatusServiceUnavailable rw)
          | Ok false =>
              do _ := emitDecision r sink metrics (ses_Subject s) (ses_Username s) permission "deny"
                        "permission_denied" StatusForbidden in
              ret (http_Error "forbidden" StatusForbidden rw)
          | Ok true =>
              do _ := record_if metrics (RecordAuthorization "allowed" permission) in
              do _ := emitDecision r sink false (ses_Subject s) (ses_Username s) permission "allow"
                        "authorized" 0 in
              next (with_session r s) rw
          end
      end
  end.

Definition RequirePermissionWithAudit (permission : string) (sessions : SessionStore)
    (evaluator : option Evaluator) (sink : option AuditSink) (metrics : bool) (next : Handler) : Handler :=
  RequirePermissionWithAuditCookie permission "__Host-bff_session" sessions evaluator sink metrics next.
Definition RequirePermission (permission : string) (sessions : SessionStore)
    (evaluator : option Evaluator) (next : Handler) : Handler :=
  RequirePermissionWithAuditCookie permission "__Host-bff_session" sessions evaluator None false next.
End authorization.

(** ** access_log.go [responseRecorder], business_audit.go *)

(** The status a recorder remembers: the last [WriteHeader], or 200 after a
    body without one; 0 if nothing was written. *)
Definition recorder_status (ops : list wop) : Z :=
  fold_left (λ st op, match op with
                      | WriteHeader s => s
                      | Write _ => if st =? 0 then StatusOK else st
                      end) ops 0.

(** [http.StatusText] *)
Definition StatusText (status : Z) : string :=
  default "" (list_to_map (M := gmap Z string)
    [(100, "Continue"); (101, "Switching Protocols"); (102, "Processing"); (103, "Early Hints");
     (200, "OK"); (201, "Created"); (202, "Accepted"); (203, "Non-Authoritative Information");
     (204, "No Content"); (205, "Reset Content"); (206, "Partial Content"); (207, "Multi-Status");
     (208, "Already Reported"); (226, "IM Used"); (300, "Multiple Choices"); (301, "Moved Permanently");
     (302, "Found"); (303, "See Other"); (304, "Not Modified"); (305, "Use Proxy");
     (307, "Temporary Redirect"); (308, "Permanent Redirect"); (400, "Bad Request"); (401, "Unauthorized");
     (402, "Payment Required"); (403, "Forbidden"); (404, "Not Found"); (405, "Method Not Allowed");
     (406, "Not Acceptable"); (407, "Proxy Authentication Required"); (408, "Request Timeout");
     (409, "Conflict"); (410, "Gone"); (411, "Length Required"); (412, "Precondition Failed");
     (413, "Request Entity Too Large"); (414, "Request URI Too Long"); (415, "Unsupported Media Type");
     (416, "Requested Range Not Satisfiable"); (417, "Expectation Failed"); (418, "I'm a teapot");
     (421, "Misdirected Request"); (422, "Unprocessable Entity"); (423, "Locked");
     (424, "Failed Dependency"); (425, "Too Early"); (426, "Upgrade Required");
     (428, "Precondition Required"); (429, "Too Many Requests"); (431, "Request Header Fields Too Large");
     (451, "Unavailable For Legal Reasons"); (500, "Internal Server Error"); (501, "Not Implemented");
     (502, "Bad Gateway"); (503, "Service Unavailable"); (504, "Gateway Timeout");
     (505, "HTTP Version Not Supported"); (506, "Variant Also Negotiates"); (507, "Insufficient Storage");
     (508, "Loop Detected"); (510, "Not Extended"); (511, "Network Authentication Required")] !! status).

Definition audit_outcome (status : Z) : string :=
  if StatusInternalServerError <=? status then "failure"
  else if StatusBadRequest <=? status then "deny" else "success".

Section business_audit.
Context `{Env}.

Definition BusinessAudit (action targetType : string) (sink : option AuditSink) (next : Handler) : Handler :=
  match sink with
  | None => next
  | Some sink => λ r rw,
      do rw' := next r rw in
      let recorded := recorder_status (drop (length (rw_log rw)) (rw_log rw')) in
      let status := if recorded =? 0 then StatusOK else recorded in
      do e := NewEvent action targetType (audit_outcome status) in
      let e := match AuthenticatedSession (r_Context r) with
               | Some s => with_actor (ses_Subject s) (ses_Username s) e
               | None => e
               end in
      let id := TrimSpace (path_value r "id") in
      let e := with_resource (if bool_decide (id = "") then r_Path r else id) e in
      let e := with_attributes (λ m, <["request_path" := r_Path r]>
                 (<["request_method" := r_Method r]> (<["reason" := StatusText status]> m)))
                 (with_status status e) in
      do _ := sink (EnrichAuditEvent r e) in
      ret rw'
  end.
End business_audit.

(** ** redact.go: headers *)
Definition sensitiveHeaders : list string := ["authorization"; "cookie"; "set-cookie"; "proxy-authorization"].
(** [http.Header]: a name with its values *)
Definition RedactedHeaders `{UnicodeCase} (h : list (string * list string)) : list (string * list string) :=
  (λ '(k, vs), if bool_decide (ToLower k ∈ sensitiveHeaders) then (k, ["[REDACTED]"]) else (k, vs)) <$> h.

(** ** Lemmas *)
Section lemmas.
Context `{Env} `{UnicodeCase} `{IPLiteral}.

Lemma ensureCSRFCookie_log r secure name rw w :
  rw_log (ensureCSRFCookie r secure name rw w).1 = rw_log rw.
Proof. unfold ensureCSRFCookie. by repeat case_match. Qed.

Lemma ensureCSRFCookie_header r secure name rw w :
  rw_header (ensureCSRFCookie r secure name rw w).1 = rw_header rw.
Proof. unfold ensureCSRFCookie. by repeat case_match. Qed.

Lemma constantTimeEqual_iff a b : constantTimeEqual a b = true ↔ a = b ∧ a ≠ "".
Proof.
  unfold constantTimeEqual. split.
  - destruct (_ || _) eqn:Hc; [done|]. bool_inv. intros ->%String.eqb_eq. split; [done|]. by intros ->.
  - intros [-> Hne]. rewrite Z.eqb_refl. simpl. destruct (Z.eqb_spec (len b) 0); [|apply String.eqb_refl].
    destruct b; [done|]. unfold len in *. simpl in *. lia.
Qed.

Lemma emitDecision_audit r sink metrics actor user perm outcome reason st w u w' :
  emitDecision r sink metrics actor user perm outcome reason st w = (u, w') →
  sink = Some MemorySink →
  ∃ e, w_audit w' = w_audit w ++ [e] ∧ ev_Actor e = actor ∧ ev_Outcome e = outcome ∧
    ev_Target e = perm ∧ ev_HTTPStatus e = st ∧ ev_Attributes e !! "reason" = Some reason.
Proof.
  unfold emitDecision, record_if, NewEvent, rand_or_zero, MemorySink. intros He ->.
  apply bind_inv in He as (? & w1 & Hm & He).
  assert (w_audit w1 = w_audit w) as Hw1 by (destruct metrics; by m_inv).
  m_inv. eexists. split; [by rewrite Hw1|]. by repeat split.
Qed.

Definition denied_statuses : list Z := [StatusUnauthorized; StatusForbidden; StatusServiceUnavailable].

(** A refusal: one audit event that is not an "allow", and an error page. *)
Lemma deny_run r metrics actor user perm outcome reason st text rw w0 w run :
  bind (emitDecision r (Some MemorySink) metrics actor user perm outcome reason st)
    (λ _, ret (http_Error text st rw)) w0 = run →
  w_audit w0 = w_audit w → outcome ≠ "allow" → st ∈ denied_statuses →
  ∃ e w1, w_audit w1 = w_audit w ++ [e] ∧ ev_Target e = perm ∧
    (ev_Outcome e ≠ "allow" ∧ ∃ (text' : string) status, status ∈ denied_statuses ∧
       ev_HTTPStatus e = status ∧ run = (http_Error text' status rw, w1)).
Proof.
  intros (u & w1 & He & <-)%bind_inv Hw0 Ho Hst.
  apply emitDecision_audit in He as (e & Ha & _ & Hout & Ht & Hs & _); [|done].
  exists e, w1. rewrite Ha, Hw0, Hout. split; [done|]. split; [done|]. split; [done|]. by exists text, st.
Qed.
End lemmas.

Lemma split_bytes_app sep l k :
  split_bytes sep (l ++ sep :: k) = split_bytes sep l ++ split_bytes sep k.
Proof.
  induction l as [|c l IH]; simpl; [by rewrite Ascii.eqb_refl|].
  rewrite IH. destruct (Ascii.eqb c sep); [done|].
  pose proof (split_bytes_nonempty sep l). by destruct (split_bytes sep l).
Qed.

(** ** Properties *)
Section properties.
Context `{Env} `{UnicodeCase} `{IPLiteral}.

(** What a request must show to pass the CSRF check. *)
Definition csrf_passes (cfg : CSRFConfig) (r : Request) : Prop :=
  r_Method r ∈ ["GET"; "HEAD"; "OPTIONS"; "TRACE"] ∨
  (∃ public raw u, Parse (csrf_PublicURL cfg) = Ok public ∧
     raw = (if bool_decide (header_get r "Origin" = "") then header_get r "Referer" else header_get r "Origin") ∧
     raw ≠ "" ∧ Parse raw = Ok u ∧
     EqualFold (u_Scheme u) (u_Scheme public) = true ∧ EqualFold (u_Host u) (u_Host public) = true) ∧
  (∃ token, token ≠ "" ∧ cookie_get r (csrf_cookie_name cfg) = Some token ∧
     header_get r CSRFHeaderName = token).

(** [CSRF] runs the next handler exactly on the requests that pass. *)
Lemma CSRF_cases cfg next r rw w :
  ∃ rw1 w1, rw_log rw1 = rw_log rw ∧ rw_header rw1 = rw_header rw ∧
    ((csrf_passes cfg r ∧ CSRF cfg next r rw w = next r rw1 w1) ∨
     (¬ csrf_passes cfg r ∧ ∃ text, CSRF cfg next r rw w = (http_Error text StatusForbidden rw1, w1))).
Proof.
  unfold CSRF. set (ens := ensureCSRFCookie _ _ _ _). destruct (ens w) as [rw1 w1] eqn:Hens.
  exists rw1, w1. split.
  { pose proof (ensureCSRFCookie_log r (csrf_Secure cfg) (csrf_cookie_name cfg) rw w) as Hl.
    fold ens in Hl. by rewrite Hens in Hl. }
  split.
  { pose proof (ensureCSRFCookie_header r (csrf_Secure cfg) (csrf_cookie_name cfg) rw w) as Hl.
    fold ens in Hl. by rewrite Hens in Hl. }
  unfold bind. rewrite Hens. unfold isUnsafeMethod, csrf_passes. rewrite negb_involutive.
  destruct (bool_decide (r_Method r ∈ _)) eqn:Hm; bool_inv; [left; split; [by left|done]|].
  assert (sameOriginRequest r (csrf_origin cfg) = true ↔
    ∃ public raw u, Parse (csrf_PublicURL cfg) = Ok public ∧
     raw = (if bool_decide (header_get r "Origin" = "") then header_get r "Referer" else header_get r "Origin") ∧
     raw ≠ "" ∧ Parse raw = Ok u ∧
     EqualFold (u_Scheme u) (u_Scheme public) = true ∧ EqualFold (u_Host u) (u_Host public) = true) as Horigin.
  { unfold sameOriginRequest, csrf_origin. destruct (Parse (csrf_PublicURL cfg)) as [public|]; [|naive_solver].
    set (raw := if bool_decide (header_get r "Origin" = "") then _ else _). clearbody raw.
    destruct (bool_decide (raw = "")) eqn:Hraw; bool_inv; [naive_solver|].
    destruct (Parse raw) as [u|e] eqn:Hu.
    - rewrite andb_true_iff. split; [intros [? ?]; by exists public, raw, u|].
      intros (? & ? & u' & [= <-] & -> & _ & Hu' & ? & ?). rewrite Hu in Hu'. by injection Hu' as <-.
    - split; [done|]. intros (? & ? & u' & _ & -> & _ & Hu' & _). congruence. }
  destruct (sameOriginRequest r (csrf_origin cfg)); simpl.
  2: { right. split; [|by eexists]. intros [?|[Ho _]]; [done|]. by apply Horigin in Ho. }
  destruct (cookie_get r (csrf_cookie_name cfg)) as [v|].
  2: { right. split; [|by eexists]. by intros [?|[_ (t & _ & [=] & _)]]. }
  destruct (bool_decide (v = "")) eqn:Hv; bool_inv.
  { right. split; [|by eexists]. by intros [?|[_ (t & ? & [= <-] & _)]]. }
  destruct (constantTimeEqual v (header_get r CSRFHeaderName)) eqn:Hc; simpl.
  - left. split; [|done]. right. split; [by apply Horigin|]. apply constantTimeEqual_iff in Hc as [Hc _]. eauto.
  - right. split; [|by eexists]. intros [?|[_ (t & ? & [= <-] & Hh)]]; [done|].
    assert (constantTimeEqual v (header_get r CSRFHeaderName) = true); [|congruence].
    by apply constantTimeEqual_iff.
Qed.

(** C5: the CSRF check runs the wrapped handler exactly on the requests that
    pass: a request with a safe method, or one whose Origin (or, without one,
    Referer) has the scheme and host of the public URL and whose CSRF header
    repeats a non-empty CSRF cookie.  Any other request is answered 403 without
    the handler being run. *)
Theorem csrf_guards cfg next r rw w :
  ∃ rw1 w1, rw_log rw1 = rw_log rw ∧ rw_header rw1 = rw_header rw ∧
    ((csrf_passes cfg r ∧ CSRF cfg next r rw w = next r rw1 w1) ∨
     (¬ csrf_passes cfg r ∧ ∃ text, CSRF cfg next r rw w = (http_Error text StatusForbidden rw1, w1))).
Proof. exact (CSRF_cases cfg next r rw w). Qed.

Lemma error_page {A} (m : M A) (text : string) st rw w run :
  bind m (λ _, ret (http_Error text st rw)) w = run → st ∈ denied_statuses →
  ∃ (text' : string) status w1, status ∈ denied_statuses ∧ run = (http_Error text' status rw, w1).
Proof. intros (a & w1 & _ & <-)%bind_inv Hst. by exists text, st, w1. Qed.

(** With any audit sink: the handler runs with the session that the store
    returned and the policy allowed, or an error page is the answer. *)
Lemma permission_cases permission cookieName sessions evaluator sink metrics (next : Handler) r rw w :
  (∃ cookie s ev wa wb w1, cookie_get r cookieName = Some cookie ∧ cookie ≠ "" ∧
     ss_Get sessions cookie w = (Ok s, wa) ∧ evaluator = Some ev ∧
     ev_Allowed ev (mkSubject (ses_Subject s) (ses_Roles s)) permission wa = (Ok true, wb) ∧
     RequirePermissionWithAuditCookie permission cookieName sessions evaluator sink metrics next r rw w =
       next (with_session r s) rw w1) ∨
  (∃ text status w1, status ∈ denied_statuses ∧
     RequirePermissionWithAuditCookie permission cookieName sessions evaluator sink metrics next r rw w =
       (http_Error text status rw, w1)).
Proof.
  set (run := RequirePermissionWithAuditCookie _ _ _ _ _ _ _ _ _ _).
  assert (RequirePermissionWithAuditCookie permission cookieName sessions evaluator sink metrics next r rw w = run)
    as Hrun by done. clearbody run. unfold RequirePermissionWithAuditCookie in Hrun.
  case_bool_decide as Hcookie; [right; eapply error_page; [exact Hrun|set_solver]|].
  destruct (cookie_get r cookieName) as [cookie|] eqn:Hck; [|done]. cbn [default] in *.
  apply bind_inv in Hrun as ([s|e] & wa & Hs & Hrun);
    [|right; destruct (errors_Is e SessionNotFound); (eapply error_page; [exact Hrun|set_solver])].
  destruct evaluator as [ev|]; [|right; eapply error_page; [exact Hrun|set_solver]].
  apply bind_inv in Hrun as ([[]|e] & wb & Ha & Hrun);
    [|right; eapply error_page; [exact Hrun|set_solver]..].
  apply bind_inv in Hrun as (? & wc & _ & Hrun). apply bind_inv in Hrun as (? & wd & _ & Hrun).
  left. exists cookie, s, ev, wa, wb, wd. by repeat split.
Qed.

Section permission.
Context (permission cookieName : string) (sessions : SessionStore) (evaluator : option Evaluator).
Context (metrics : bool).
#[local] Abbreviation guarded next :=
  (RequirePermissionWithAuditCookie permission cookieName sessions evaluator (Some MemorySink) metrics next).

(** C2: authorisation fails closed.  The protected handler is run only when
    the request carries a session cookie, the session store returns a session
    for it and the policy answers that this subject has the permission; the
    handler then sees that session.  In every other case, errors of the session
    store and of the policy included, the answer is 401, 403 or 503 and the
    handler is not run.  Either way the decision is in the audit trail, as
    "allow" exactly when the handler is run. *)
Theorem permission_fails_closed next r rw w :
  SessionKeeps sessions (same w_audit) →
  (∀ ev s p, evaluator = Some ev → Keeps (same w_audit) (ev_Allowed ev s p)) →
  ∃ e w1, w_audit w1 = w_audit w ++ [e] ∧ ev_Target e = permission ∧
    ((ev_Outcome e = "allow" ∧
      ∃ cookie s ev wa wb, cookie_get r cookieName = Some cookie ∧ cookie ≠ "" ∧
        ss_Get sessions cookie w = (Ok s, wa) ∧ evaluator = Some ev ∧
        ev_Allowed ev (mkSubject (ses_Subject s) (ses_Roles s)) permission wa = (Ok true, wb) ∧
        ev_Actor e = ses_Subject s ∧
        guarded next r rw w = next (with_session r s) rw w1) ∨
     (ev_Outcome e ≠ "allow" ∧
      ∃ text status, status ∈ denied_statuses ∧ ev_HTTPStatus e = status ∧
        guarded next r rw w = (http_Error text status rw, w1))).
Proof.
  intros Hsess Hev. remember (guarded next r rw w) as run eqn:Hrun. symmetry in Hrun.
  unfold RequirePermissionWithAuditCookie in Hrun.
  match goal with |- ?G => assert (∀ w0 actor user outcome reason st text,
    bind (emitDecision r (Some MemorySink) metrics actor user permission outcome reason st)
      (λ _, ret (http_Error text st rw)) w0 = run →
    w_audit w0 = w_audit w → outcome ≠ "allow" → st ∈ denied_statuses → G) as Hdeny end.
  { intros w0 actor user outcome reason st text Hr Hw0 Ho Hst.
    destruct (deny_run _ _ _ _ _ _ _ _ _ _ _ w _ Hr) as (e & w1 & Ha & Ht & Hd); [done..|].
    exists e, w1. split; [exact Ha|]. split; [exact Ht|]. right. exact Hd. }
  case_bool_decide as Hcookie; [by eapply Hdeny; eauto; set_solver|].
  destruct (cookie_get r cookieName) as [cookie|] eqn:Hck; [|done]. simpl in *.
  apply bind_inv in Hrun as (got & wa & Hg & Hrun).
  assert (w_audit wa = w_audit w) as Hwa by (eapply (keeps_run (same w_audit)); [apply keeps_ss_Get|done]).
  destruct got as [s|e]; [|destruct (errors_Is e SessionNotFound); by eapply Hdeny; eauto; set_solver].
  destruct evaluator as [ev|]; [|by eapply Hdeny; eauto; set_solver].
  apply bind_inv in Hrun as (allowed & wb & Hall & Hrun).
  assert (w_audit wb = w_audit w) as Hwb.
  { rewrite <-Hwa. by eapply (keeps_run (same w_audit)); [apply (Hev ev)|]. }
  destruct allowed as [[]|e]; [|by eapply Hdeny; eauto; set_solver..].
  apply bind_inv in Hrun as (? & wc & Hm & Hrun). apply bind_inv in Hrun as (? & wd & He & Hrun).
  apply emitDecision_audit in He as (e & Ha & Hact & Hout & Ht & _); [|done].
  assert (w_audit wc = w_audit w) as Hwc by (rewrite <-Hwb; unfold record_if in Hm; by destruct metrics; m_inv).
  exists e, wd. rewrite Ha, Hwc. split; [done|]. split; [done|]. left. split; [done|].
  exists cookie, s, ev, wa, wb. by repeat split.
Qed.
End permission.
End properties.

(** ** Properties of the request's identification *)
Section identification.
Context `{Env} `{UnicodeCase} `{Net}.

Lemma forwarded_for_app cfg l k ip :
  forwarded_for cfg l = Some ip → forwarded_for cfg (l ++ k) = Some ip.
Proof.
  induction l as [|p l IH]; simpl; [done|].
  destruct (ParseIP (TrimSpace p)) as [a|]; [|done]. by destruct (negb (isTrusted a cfg)).
Qed.

Lemma forwarded_for_spec cfg l ip :
  forwarded_for cfg l = Some ip ↔
  ∃ nearer part farther, l = nearer ++ part :: farther ∧
    ParseIP (TrimSpace part) = Some ip ∧ isTrusted ip cfg = false ∧
    Forall (λ p, ∀ a, ParseIP (TrimSpace p) = Some a → isTrusted a cfg = true) nearer.
Proof.
  induction l as [|p l IH]; simpl.
  { split; [done|]. by intros (n & q & f & Hl & _); destruct n. }
  destruct (ParseIP (TrimSpace p)) as [a|] eqn:Hp; [destruct (isTrusted a cfg) eqn:Ht|]; simpl.
  2: { split.
    - intros [= <-]. exists [], p, l. by repeat split.
    - intros (n & q & f & Hl & Hq & Hi & Hn). destruct n as [|x n]; simplify_eq/=; [done|].
      apply list.Forall_cons in Hn as [Hx _]. specialize (Hx a Hp). congruence. }
  all: rewrite IH; split.
  1,3: intros (n & q & f & -> & Hq & Hi & Hn); exists (p :: n), q, f; repeat split; [done|done|];
       constructor; [intros b Hb; congruence|done].
  all: intros (n & q & f & Hl & Hq & Hi & Hn); destruct n as [|x n]; simplify_eq/=; try congruence;
       apply list.Forall_cons in Hn as [_ Hn]; by exists n, q, f.
Qed.

Lemma Split_app s t sep :
  Split (s +:+ String sep t) sep = Split s sep ++ Split t sep.
Proof. unfold Split. rewrite bytes_app. simpl. by rewrite split_bytes_app, fmap_app. Qed.

(** The entry [part] of the first X-Forwarded-For line names [a]: the peer is a
    trusted proxy, [a] is not, and every well-formed entry to the right of it is. *)
Definition forwarded_by_proxies (r : Request) (cfg : list IPNet) (a : IP) : Prop :=
  (∃ remote, ParseIP (remote_host r) = Some remote ∧ isTrusted remote cfg = true) ∧
  header_get r "X-Forwarded-For" ≠ "" ∧ isTrusted a cfg = false ∧
  ∃ farther part nearer, Split (header_get r "X-Forwarded-For") "," = farther ++ part :: nearer ∧
    ParseIP (TrimSpace part) = Some a ∧
    Forall (λ p, ∀ b, ParseIP (TrimSpace p) = Some b → isTrusted b cfg = true) nearer.

Lemma ClientIdentity_cases cfg r :
  (∃ a, forwarded_by_proxies r cfg a ∧ ClientIdentity r cfg = (IP_String a, "x-forwarded-for")) ∨
  (¬ (∃ a, forwarded_by_proxies r cfg a) ∧ ClientIdentity r cfg = (remote_host r, "remote-address")).
Proof.
  unfold ClientIdentity, forwarded_by_proxies.
  destruct (ParseIP (remote_host r)) as [remote|]; [|right; naive_solver].
  destruct (isTrusted remote cfg) eqn:Ht; simpl; [|right; naive_solver congruence].
  case_bool_decide as Hx.
  { right. split; [|done]. by intros (a & _ & ? & _). }
  destruct (forwarded_for _ _) as [a|] eqn:Hf; [left; exists a; split; [|done]|right; split; [|done]].
  - split; [eauto|]. split; [done|]. apply forwarded_for_spec in Hf as (n & q & f & Hl & Hq & Hi & Hn).
    split; [done|]. exists (rev f), q, (rev n). split; [|split; [done|by apply Forall_rev]].
    by rewrite <-(rev_involutive (Split _ _)), Hl, rev_app_distr; simpl; rewrite <-app_assoc.
  - intros (a & _ & _ & Hi & f & q & n & Hl & Hq & Hn).
    enough (forwarded_for cfg (rev (Split (header_get r "X-Forwarded-For") ",")) = Some a) by congruence.
    apply forwarded_for_spec. exists (rev n), q, (rev f). rewrite Hl, rev_app_distr. simpl.
    rewrite <-app_assoc. split; [done|]. split; [done|]. split; [done|]. by apply Forall_rev.
Qed.

(** C37: how the client is identified, exactly.  The address is taken from
    X-Forwarded-For if and only if the peer is a trusted proxy and the first line
    of that header has an untrusted well-formed entry with nothing but trusted
    proxies (or malformed entries) to the right of it; it is then that entry.
    In every other case, in particular for every peer that is not a trusted
    proxy, it is the peer's own address, whatever headers were sent.  Text put in
    front of that line changes nothing once the line names a client; lines after
    the first are not read. *)
Theorem client_identity_exact (cfg : list IPNet) (r : Request) :
  ((∃ a, forwarded_by_proxies r cfg a ∧ ClientIdentity r cfg = (IP_String a, "x-forwarded-for")) ∨
   (¬ (∃ a, forwarded_by_proxies r cfg a) ∧ ClientIdentity r cfg = (remote_host r, "remote-address"))) ∧
  (∀ r' forged ip, r_RemoteAddr r' = r_RemoteAddr r →
     header_get r' "X-Forwarded-For" = forged +:+ String "," (header_get r "X-Forwarded-For") →
     ClientIdentity r cfg = (ip, "x-forwarded-for") → ClientIdentity r' cfg = (ip, "x-forwarded-for")) ∧
  (∀ r' line more more', r_RemoteAddr r' = r_RemoteAddr r →
     r_Header r = ("X-Forwarded-For", line) :: more → r_Header r' = ("X-Forwarded-For", line) :: more' →
     ClientIdentity r' cfg = ClientIdentity r cfg).
Proof.
  split; [apply ClientIdentity_cases|]. unfold ClientIdentity. split.
  - intros r' forged ip Haddr Hhdr Hc. unfold remote_host in *. rewrite Haddr, Hhdr.
    destruct (ParseIP _) as [remote|]; [|done]. destruct (negb (isTrusted remote cfg)); [done|].
    destruct (bool_decide (header_get r _ = "")); [done|].
    destruct (forwarded_for cfg (rev (Split (header_get r _) ","))) as [a|] eqn:Hf; [|done].
    rewrite bool_decide_eq_false_2 by (by destruct forged).
    rewrite Split_app, rev_app_distr. by erewrite forwarded_for_app.
  - intros r' line more more' Haddr Hl Hl'. unfold header_get, remote_host. by rewrite Haddr, Hl, Hl'.
Qed.

Lemma hex_encode_bytes l :
  bytes (hex_encode l) = concat ((λ c, [hex_digit (N_of_ascii c / 16)%N; hex_digit (N_of_ascii c `mod` 16)%N]) <$> l).
Proof. apply bytes_of_bytes. Qed.

Lemma hex_encode_valid l : forallb valid_id_byte (bytes (hex_encode l)) = true.
Proof.
  rewrite hex_encode_bytes. induction l as [|c l IH]; [done|].
  rewrite fmap_cons, concat_cons, forallb_app, IH, andb_true_r.
  destruct c as [[] [] [] [] [] [] [] []]; vm_compute; reflexivity.
Qed.

Lemma hex_encode_length l : length (bytes (hex_encode l)) = (2 * length l)%nat.
Proof. rewrite hex_encode_bytes. induction l as [|c l IH]; [done|].
  rewrite fmap_cons, concat_cons, length_app, IH. simpl. lia. Qed.

Lemma bytes_length s : length (bytes s) = String.length s.
Proof. induction s; simpl; congruence. Qed.

(** The next handler sees a well-formed request id. *)
Definition request_id_ok (r : Request) (rw : RW) : Prop :=
  ∃ id, ctx_requestID (r_Context r) = Some id ∧ validRequestID id = true ∧
        rw_header_get rw "X-Request-ID" = id.

(** Whatever the client sends, the request id that reaches the handlers,
    the response header and the logs is non-empty, at most 128 bytes long and
    made of letters, digits, '-', '_' and '.'. *)
Lemma request_id_sanitised (next : Handler) r rw w :
  (∀ i l, rand_read i 16 = Ok l → length l = 16%nat) →
  ∃ c rw' w', RequestID next r rw w = next (WithContext r c) rw' w' ∧ request_id_ok (WithContext r c) rw' ∧
    rw_log rw' = rw_log rw.
Proof.
  intros Hrand. unfold RequestID.
  set (id0 := TrimSpace _). set (c := if validRequestID id0 then ret id0 else randomRequestID).
  destruct (c w) as [id w1] eqn:Hc.
  eexists _, _, w1. split; [unfold bind; by rewrite Hc|]. split; [|done].
  exists id. split; [done|]. split; [|apply set_header_get].
  unfold c in Hc. destruct (validRequestID id0) eqn:Hv; [by injection Hc as <- _|].
  unfold randomRequestID in Hc. m_inv. destruct (rand_read _ 16) as [l|e] eqn:Hl; [|done].
  unfold validRequestID. rewrite hex_encode_valid. unfold len.
  rewrite <-bytes_length, hex_encode_length, (Hrand _ _ Hl). rewrite bool_decide_eq_false_2; [done|].
  intros Hempty. apply (f_equal (λ s, length (bytes s))) in Hempty.
  by rewrite hex_encode_length, (Hrand _ _ Hl) in Hempty.
Qed.
End identification.

(** ** Witnesses *)
Section witnesses.
#[local] Instance sample : Env := sample_env.

Definition sample_policy : StaticPolicy.Static :=
  StaticPolicy.mkStatic {["user" := ["items.read"]]} ∅.
Definition sample_request : Request :=
  mkRequest "GET" (path_url "/items") "10.0.0.1:1" [] [("bff_session", "sid")] [] "" [] background.
Definition sample_world : World :=
  (MemorySession.Put (mkSession "sid" "alice" "iss" "alice" "" "" ["user"] 1 0 1) empty_world).2.
Definition sample_handler : Handler := λ r rw, ret (writeJSON StatusOK (JStr "ok") rw).

Lemma permission_fails_closed_witness :
  ∃ e w1, w_audit w1 = [] ++ [e] ∧ ev_Target e = "items.read" ∧
    ((ev_Outcome e = "allow" ∧
      ∃ cookie s ev wa wb, cookie_get sample_request "bff_session" = Some cookie ∧ cookie ≠ "" ∧
        ss_Get MemorySession.store cookie sample_world = (Ok s, wa) ∧
        Some (StaticPolicy.evaluator sample_policy) = Some ev ∧
        ev_Allowed ev (mkSubject (ses_Subject s) (ses_Roles s)) "items.read" wa = (Ok true, wb) ∧
        ev_Actor e = ses_Subject s ∧
        RequirePermissionWithAuditCookie "items.read" "bff_session" MemorySession.store
          (Some (StaticPolicy.evaluator sample_policy)) (Some MemorySink) true sample_handler
          sample_request fresh_rw sample_world = sample_handler (with_session sample_request s) fresh_rw w1) ∨
     (ev_Outcome e ≠ "allow" ∧
      ∃ text status, status ∈ denied_statuses ∧ ev_HTTPStatus e = status ∧
        RequirePermissionWithAuditCookie "items.read" "bff_session" MemorySession.store
          (Some (StaticPolicy.evaluator sample_policy)) (Some MemorySink) true sample_handler
          sample_request fresh_rw sample_world = (http_Error text status fresh_rw, w1))).
Proof.
  apply (permission_fails_closed "items.read" "bff_session" MemorySession.store
    (Some (StaticPolicy.evaluator sample_policy)) true sample_handler sample_request fresh_rw sample_world).
  - eapply session_spec_keeps; [apply _|]. by intros w w' [=] _.
  - intros ev s p [= <-] w. done.
Defined.


(** A proxy that adds its own X-Forwarded-For line, instead of extending the one
    it received, leaves the client's line first: that line decides. *)
#[local] Instance proxied_net : Net := {|
  IP := string; IPNet := string; ParseIP a := Some a; IP_String a := a;
  ParseCIDR a := Ok a; IPNet_Contains := String.eqb; SplitHostPort a := Ok (a, "80") |}.

Example first_forwarded_line_decides :
  let request lines := mkRequest "GET" (path_url "/") "10.0.0.2" lines [] [] "" [] background in
  ClientIdentity (request [("X-Forwarded-For", "1.1.1.1"); ("X-Forwarded-For", "203.0.113.7")]) ["10.0.0.2"]
    = ("1.1.1.1", "x-forwarded-for") ∧
  ClientIdentity (request [("X-Forwarded-For", "1.1.1.1, 203.0.113.7")]) ["10.0.0.2"]
    = ("203.0.113.7", "x-forwarded-for").
Proof. split; run. Qed.
End witnesses.
