(* ===== verification/Mux.v ===== *)
(** * Routing: what the program uses of net/http's ServeMux and StripPrefix

    Patterns are an optional method, an optional host and a path of literal
    segments, {wildcards}, and at the end a trailing slash or {name...}, which stand
    for everything below, or {$}.  [parsePattern] refuses what registration refuses
    and [register] looks for conflicts between patterns; in both cases
    [ServeMux.Handle] panics, which is an [Err] here.  Matching goes segment by
    segment, literals before wildcards before the rest; a path that is not clean or
    that lacks a trailing slash is redirected; a path that other methods match is
    answered 405, any other 404.  Requests are those for hosts that no pattern
    names: patterns with a host are parsed and checked, and match none of them.  A
    literal empty segment, which net/http keeps with the wildcards, matches an empty
    segment only; no cleaned path has one.  The status of redirects changed between
    versions of Go, and the letters and digits outside ASCII are Unicode tables
    ([MuxVersion]). *)

From stdpp Require Import sorting.
From S2P Require Import Prelude GoStrings GoURL GoQuery World Session Http Middleware.
Open Scope Z_scope.

Class MuxVersion := {
  mux_redirect : Z;
  mux_redirect_3xx : 300 ≤ mux_redirect < 400;
  (** [unicode.IsLetter] and [unicode.IsDigit] of a rune outside ASCII *)
  wide_letter : list ascii → bool;
  wide_digit : list ascii → bool;
}.

(** ** Patterns *)
Inductive segment :=
  | Lit (s : string)
  | Wild (name : string)
  (** a trailing slash has the name "" *)
  | Multi (name : string).
#[export] Instance segment_eq_dec : EqDecision segment.
Proof. solve_decision. Defined.

Record pattern := mkPattern {
  pt_Text : string;
  (** "" for any method *)
  pt_Method : string;
  (** "" for any host *)
  pt_Host : string;
  pt_Segments : list segment;
}.

(** [pathUnescape] *)
Definition path_unescape (s : string) : string :=
  match unescape encodePath s with Ok v => v | Err _ => s end.

Definition cleanPath (p : string) : string :=
  if bool_decide (p = "") then "/" else
  let p := if HasPrefix p "/" then p else "/" +:+ p in
  let np := path_Clean p in
  if HasSuffix p "/" && negb (bool_decide (np = "/")) then np +:+ "/" else np.

Definition blank (c : ascii) : bool := Ascii.eqb c " " || Ascii.eqb c "009".
Fixpoint drop_blanks (l : list ascii) : list ascii :=
  match l with
  | [] => []
  | c :: l' => if blank c then drop_blanks l' else l
  end.
(** The text up to the first blank and, without leading blanks, after it. *)
Fixpoint cut_blank (l : list ascii) : option (list ascii * list ascii) :=
  match l with
  | [] => None
  | c :: l => if blank c then Some ([], drop_blanks l) else prod_map (cons c) id <$> cut_blank l
  end.

Definition ascii_letter (c : ascii) : bool := in_range 65 90 c || in_range 97 122 c.
(** The characters of a token: [validMethod] *)
Definition token_char (c : ascii) : bool :=
  ascii_letter c || is_digit c || bool_decide (c ∈ bytes "!#$%&'*+-.^_`|~").
Definition validMethod (m : string) : bool := negb (bool_decide (m = "")) && forallb token_char (bytes m).

Section patterns.
Context `{MuxVersion}.

Definition is_letter_rune (r : rune) : bool :=
  match r with RAscii c => ascii_letter c | RWide l => wide_letter l | RError _ => false end.
Definition is_digit_rune (r : rune) : bool :=
  match r with RAscii c => is_digit c | RWide l => wide_digit l | RError _ => false end.
Definition name_start (r : rune) : bool :=
  is_letter_rune r || match r with RAscii c => Ascii.eqb c "_" | _ => false end.
Definition isValidWildcardName (s : string) : bool :=
  match runes (bytes s) with
  | [] => false
  | r :: l => name_start r && forallb (λ r, name_start r || is_digit_rune r) l
  end.

(** The loop of [parsePattern] over the segments after the first slash, with the
    names seen so far. *)
Fixpoint parse_segments (seen : list string) (l : list string) : result (list segment) :=
  match l with
  | [] => Ok []
  | seg :: rest =>
      if bool_decide (seg = "") && bool_decide (rest = []) then Ok [Multi ""] else
      if negb (bool_decide ("{"%char ∈ bytes seg)) then
        let? segs := parse_segments seen rest in Ok (Lit (path_unescape seg) :: segs)
      else
      reject negb (HasPrefix seg "{") with errorf "bad wildcard segment (must start with '{')";;
      reject negb (HasSuffix seg "}") with errorf "bad wildcard segment (must end with '}')";;
      let name := TrimSuffix (TrimPrefix seg "{") "}" in
      if bool_decide (name = "$") then
        reject negb (bool_decide (rest = [])) with errorf "{$} not at end";; Ok [Lit "/"]
      else
      let multi := HasSuffix name "..." in
      let name := TrimSuffix name "..." in
      reject multi && negb (bool_decide (rest = [])) with errorf "{...} wildcard not at end";;
      reject bool_decide (name = "") with errorf "empty wildcard";;
      reject negb (isValidWildcardName name) with errorf "bad wildcard name";;
      reject bool_decide (name ∈ seen) with errorf "duplicate wildcard name";;
      let? segs := parse_segments (name :: seen) rest in
      Ok ((if multi then Multi name else Wild name) :: segs)
  end.

Definition parsePattern (s : string) : result pattern :=
  reject bool_decide (s = "") with errorf "empty pattern";;
  let '(method, rest) :=
    match cut_blank (bytes s) with Some (m, r) => (of_bytes m, of_bytes r) | None => ("", s) end in
  reject negb (bool_decide (method = "")) && negb (validMethod method) with errorf "invalid method";;
  let '(host, path, found) := Cut rest "/" in
  reject negb found with errorf "host/path missing /";;
  reject bool_decide ("{"%char ∈ bytes host) with errorf "host contains '{' (missing initial '/'?)";;
  reject negb (bool_decide (method ∈ [""; "CONNECT"])) && negb (bool_decide ("/" +:+ path = cleanPath ("/" +:+ path)))
    with errorf "non-CONNECT pattern with unclean path can never match";;
  let? segs := parse_segments [] (Split path "/") in
  Ok (mkPattern s method host segs).

(** The pattern of a text; one that matches nothing where there is none. *)
Definition pattern_of (s : string) : pattern :=
  match parsePattern s with Ok p => p | Err _ => mkPattern s "" "/" [] end.
End patterns.

(** ** Conflicts between patterns *)
Inductive relationship := equivalent | moreGeneral | moreSpecific | disjoint_ | overlaps.
#[export] Instance relationship_eq_dec : EqDecision relationship.
Proof. solve_decision. Defined.

Definition inverseRelationship (r : relationship) : relationship :=
  match r with moreGeneral => moreSpecific | moreSpecific => moreGeneral | r => r end.
Definition combineRelationships (r1 r2 : relationship) : relationship :=
  match r1 with
  | equivalent => r2
  | disjoint_ => disjoint_
  | overlaps => if bool_decide (r2 = disjoint_) then disjoint_ else overlaps
  | moreGeneral | moreSpecific =>
      if bool_decide (r2 = equivalent) then r1
      else if bool_decide (r2 = inverseRelationship r1) then overlaps else r2
  end.

Definition compareMethods (m1 m2 : string) : relationship :=
  if bool_decide (m1 = m2) then equivalent
  else if bool_decide (m1 = "") then moreGeneral
  else if bool_decide (m2 = "") then moreSpecific
  else if bool_decide (m1 = "GET" ∧ m2 = "HEAD") then moreGeneral
  else if bool_decide (m2 = "GET" ∧ m1 = "HEAD") then moreSpecific
  else disjoint_.

Definition compareSegments (s1 s2 : segment) : relationship :=
  match s1, s2 with
  | Multi _, Multi _ => equivalent
  | Multi _, _ => moreGeneral
  | _, Multi _ => moreSpecific
  | Wild _, Wild _ => equivalent
  | Wild _, Lit s => if bool_decide (s = "/") then disjoint_ else moreGeneral
  | Lit s, Wild _ => if bool_decide (s = "/") then disjoint_ else moreSpecific
  | Lit a, Lit b => if bool_decide (a = b) then equivalent else disjoint_
  end.

Definition ends_multi (l : list segment) : bool :=
  match list.last l with Some (Multi _) => true | _ => false end.

(** The loop of [comparePaths]: [m1] and [m2] say whether the patterns end in a
    multi. *)
Fixpoint compare_segments (m1 m2 : bool) (rel : relationship) (l1 l2 : list segment) : relationship :=
  match l1, l2 with
  | s1 :: l1, s2 :: l2 =>
      let rel := combineRelationships rel (compareSegments s1 s2) in
      if bool_decide (rel = disjoint_) then disjoint_ else compare_segments m1 m2 rel l1 l2
  | [], [] => rel
  | [], _ => if m1 then combineRelationships rel moreGeneral else disjoint_
  | _, [] => if m2 then combineRelationships rel moreSpecific else disjoint_
  end.
Definition comparePaths (l1 l2 : list segment) : relationship :=
  if negb (bool_decide (length l1 = length l2)) && negb (ends_multi l1) && negb (ends_multi l2) then disjoint_
  else compare_segments (ends_multi l1) (ends_multi l2) equivalent l1 l2.

Definition comparePathsAndMethods (p1 p2 : pattern) : relationship :=
  let mrel := compareMethods (pt_Method p1) (pt_Method p2) in
  if bool_decide (mrel = disjoint_) then disjoint_
  else combineRelationships mrel (comparePaths (pt_Segments p1) (pt_Segments p2)).
Definition conflictsWith (p1 p2 : pattern) : bool :=
  if negb (bool_decide (pt_Host p1 = pt_Host p2)) then false else
  bool_decide (comparePathsAndMethods p1 p2 ∈ [equivalent; overlaps]).

(** ** Paths *)

(** The segments of a path after its first slash, as they are written. *)
Definition segments_of (path : string) : list string := tail (Split path "/").
(** What [firstSegment] makes of one: a trailing slash is the segment "/". *)
Definition segment_value (s : string) (rest : list string) : string :=
  if bool_decide (s = "") && bool_decide (rest = []) then "/" else path_unescape s.
(** What a named multi at this place is given. *)
Definition rest_value (segs : list string) : string := path_unescape (Join segs "/").
Definition multi_value (name : string) (segs : list string) : list string :=
  if bool_decide (name = "") then [] else [rest_value segs].

(** ** Matching *)
Section match_.
Context {A : Type}.
#[local] Abbreviation cands := (list (list segment * A)).

Definition literals (seg : string) : cands → cands :=
  omap (λ c, match c.1 with Lit s :: t => if bool_decide (s = seg) then Some (t, c.2) else None | _ => None end).
Definition wildcards : cands → cands :=
  omap (λ c, match c.1 with Wild _ :: t => Some (t, c.2) | _ => None end).
Definition multis : cands → list (string * A) :=
  omap (λ c, match c.1 with Multi n :: _ => Some (n, c.2) | _ => None end).
Definition leaves : cands → list A :=
  omap (λ c, match c.1 with [] => Some c.2 | _ => None end).

(** [routingNode.matchPath] *)
Fixpoint match_path (cs : cands) (segs : list string) (matches : list string) : option (A * list string) :=
  match segs with
  | [] => (λ a, (a, matches)) <$> head (leaves cs)
  | s :: rest =>
      let seg := segment_value s rest in
      match match_path (literals seg cs) rest matches with
      | Some m => Some m
      | None =>
          match (if bool_decide (seg = "/") then None else match_path (wildcards cs) rest (matches ++ [seg])) with
          | Some m => Some m
          | None => (λ '(n, a), (a, matches ++ multi_value n segs)) <$> head (multis cs)
          end
      end
  end.
End match_.

(** Routes: pattern texts with their handlers, in the order of registration. *)
Abbreviation routes := (list (string * Handler)).

Section routing.
Context `{MuxVersion}.

(** Registration: [ServeMux.Handle] for each route, after those already there; an
    error is the panic. *)
Fixpoint register (registered : list pattern) (rs : routes) : result unit :=
  match rs with
  | [] => Ok tt
  | (text, _) :: rs =>
      match parsePattern text with
      | Err e => Err (ErrWrap ("parsing " +:+ text) e)
      | Ok p =>
          reject existsb (conflictsWith p) registered with errorf ("pattern " +:+ text +:+ " conflicts");;
          register (registered ++ [p]) rs
      end
  end.

Definition route_cands (method : string) (rs : routes) : list (list segment * (pattern * Handler)) :=
  omap (λ '(text, h), let p := pattern_of text in
    if bool_decide (pt_Method p = method ∧ pt_Host p = "") then Some (pt_Segments p, (p, h)) else None) rs.

(** [matchMethodAndPath] *)
Definition match_route (rs : routes) (method path : string) : option (pattern * Handler * list string) :=
  let at_method m := match_path (route_cands m rs) (segments_of path) [] in
  match (if bool_decide (method = "") then None else at_method method) with
  | Some m => Some m
  | None =>
      match (if bool_decide (method = "HEAD") then at_method "GET" else None) with
      | Some m => Some m
      | None => at_method ""
      end
  end.

Definition is_multi (p : pattern) : bool := ends_multi (pt_Segments p).
Definition exactMatch (m : option (pattern * Handler * list string)) (path : string) : bool :=
  match m with
  | None => false
  | Some (p, _, _) =>
      if negb (is_multi p) then true
      else HasSuffix path "/" && bool_decide (length (pt_Segments p) = length (segments_of path))
  end.

(** [matchingMethods] *)
Definition matchingMethods (rs : routes) (path : string) : list string :=
  let methods := (λ '(text, _), pt_Method (pattern_of text)) <$> rs in
  let matching (path : string) := filter (λ m, is_Some (match_path (route_cands m rs) (segments_of path) []) ∧ m ≠ "") methods in
  let ms : gset string := list_to_set (matching path ++ if HasSuffix path "/" then [] else matching (path +:+ "/")) in
  keysSorted (if bool_decide ("GET" ∈ ms) then ms ∪ {["HEAD"]} else ms).

(** What becomes of a request: it is handed to a route, with the values of its
    wildcards, or answered by the mux. *)
Inductive found :=
  | Found (p : pattern) (h : Handler) (matches : list string)
  | Redirected (location : string)
  | WrongMethod (allowed : list string)
  | Missing.

Definition redirect_to (path query : string) : string :=
  URL_String (mkURL "" "" None "" path "" false false query "" "").

Definition findHandler (rs : routes) (r : Request) : found :=
  let escaped := EscapedPath (r_URL r) in
  let path := if bool_decide (r_Method r = "CONNECT") then escaped else cleanPath escaped in
  let m := match_route rs (r_Method r) path in
  let slash := path +:+ "/" in
  if negb (exactMatch m path) && negb (HasSuffix path "/") && exactMatch (match_route rs (r_Method r) slash) slash then
    Redirected (redirect_to (cleanPath (u_Path (r_URL r)) +:+ "/") (u_RawQuery (r_URL r)))
  else if negb (bool_decide (path = escaped)) then
    Redirected (redirect_to path (u_RawQuery (r_URL r)))
  else
  match m with
  | Some (p, h, matches) => Found p h matches
  | None => match matchingMethods rs path with [] => Missing | allowed => WrongMethod allowed end
  end.

(** The names of the wildcards with the segments they matched. *)
Definition path_values (p : pattern) (matches : list string) : list (string * string) :=
  zip (omap (λ s, match s with
                  | Wild n => Some n
                  | Multi n => if bool_decide (n = "") then None else Some n
                  | Lit _ => None
                  end) (pt_Segments p)) matches.

Definition StatusMethodNotAllowed : Z := 405.
(** [http.NotFound] *)
Definition NotFound (rw : RW) : RW := http_Error "404 page not found" StatusNotFound rw.

(** [ServeMux.ServeHTTP] *)
Definition mux (rs : routes) : Handler := λ r rw,
  match findHandler rs r with
  | Found p h matches => h (with_path_values r (path_values p matches)) rw
  | Redirected location => ret (http_Redirect location mux_redirect rw)
  | WrongMethod allowed =>
      ret (http_Error (StatusText StatusMethodNotAllowed) StatusMethodNotAllowed
             (set_header "Allow" (Join allowed ", ") rw))
  | Missing => ret (NotFound rw)
  end.

(** [r.Pattern] after the mux has seen the request *)
Definition mux_pattern (rs : routes) (r : Request) : string :=
  match findHandler rs r with
  | Found p _ _ => pt_Text p
  | Redirected _ =>
      let path := cleanPath (EscapedPath (r_URL r)) in
      let m := match_route rs (r_Method r) path in
      let slash := path +:+ "/" in
      match (if negb (exactMatch m path) && negb (HasSuffix path "/") && exactMatch (match_route rs (r_Method r) slash) slash
             then match_route rs (r_Method r) slash else m) with
      | Some (p, _, _) => pt_Text p
      | None => ""
      end
  | _ => ""
  end.

(** [http.StripPrefix] *)
Definition StripPrefix (prefix : string) (h : Handler) : Handler :=
  if bool_decide (prefix = "") then h else λ r rw,
  let u := r_URL r in
  let p := TrimPrefix (u_Path u) prefix in
  let rp := TrimPrefix (u_RawPath u) prefix in
  if (len p <? len (u_Path u)) && (bool_decide (u_RawPath u = "") || (len rp <? len (u_RawPath u))) then
    h (with_url r (mkURL (u_Scheme u) (u_Opaque u) (u_User u) (u_Host u) p rp (u_OmitHost u) (u_ForceQuery u)
         (u_RawQuery u) (u_Fragment u) (u_RawFragment u))) rw
  else ret (NotFound rw).

(** A mux with these routes, or the panic of their registration. *)
Definition serve_mux (rs : routes) : result Handler := let? _ := register [] rs in Ok (mux rs).

(** The mounting of a handler below the base path, as both servers do it, on a mux
    of its own. *)
Definition mount_routes (basePath : string) (h : Handler) : routes :=
  let base := TrimRight basePath "/" in [(base +:+ "/", StripPrefix base h)].
Definition mount (basePath : string) (h : Handler) : result Handler :=
  if bool_decide (basePath = "" ∨ basePath = "/") then Ok h else serve_mux (mount_routes basePath h).
End routing.

(** ** Properties *)

(** What it means that a pattern matches a list of segments. *)
Inductive matches_segments : list segment → list string → list string → Prop :=
  | match_end : matches_segments [] [] []
  | match_lit s p segs vs :
      matches_segments p segs vs → matches_segments (Lit (segment_value s segs) :: p) (s :: segs) vs
  | match_wild n s p segs vs : segment_value s segs ≠ "/" → matches_segments p segs vs →
      matches_segments (Wild n :: p) (s :: segs) (segment_value s segs :: vs)
  | match_multi n p s segs : matches_segments (Multi n :: p) (s :: segs) (multi_value n (s :: segs)).

(** A route that is found matches. *)
Lemma match_path_sound {A} (cs : list (list segment * A)) segs acc a vs :
  match_path cs segs acc = Some (a, vs) →
  ∃ p vs', (p, a) ∈ cs ∧ matches_segments p segs vs' ∧ vs = acc ++ vs'.
Proof.
  revert cs acc vs. induction segs as [|s0 segs IH]; intros cs acc vs; cbn [match_path].
  - destruct (leaves cs) as [|b l] eqn:Hl; [done|]. intros [= -> <-].
    assert (a ∈ leaves cs) as Ha by (rewrite Hl; by left).
    apply list_elem_of_omap in Ha as ([p x] & Hin & Hp). destruct p; [|done]. injection Hp as <-.
    exists [], []. rewrite app_nil_r. eauto using matches_segments.
  - set (seg := segment_value s0 segs).
    destruct (match_path (literals seg cs) segs acc) as [[a1 v1]|] eqn:H1.
    { intros [= <- <-]. apply IH in H1 as (p & vs' & Hin & Hm & ->).
      apply list_elem_of_omap in Hin as ([q x] & Hin & Hp). destruct q as [|[s|n|n] q]; try done.
      simpl in Hp. case_bool_decide; [|done]. simplify_eq. exists (Lit seg :: p), vs'.
      split; [done|]. split; [by apply match_lit|done]. }
    case_bool_decide as Hs.
    2: destruct (match_path (wildcards cs) segs (acc ++ [seg])) as [[a2 v2]|] eqn:H2.
    2: { intros [= <- <-]. apply IH in H2 as (p & vs' & Hin & Hm & ->).
      apply list_elem_of_omap in Hin as ([q x] & Hin & Hp). destruct q as [|[s|n|n] q]; try done. simplify_eq/=.
      exists (Wild n :: p), (seg :: vs'). rewrite <-app_assoc.
      split; [done|]. split; [by apply match_wild|done]. }
    all: destruct (multis cs) as [|[n b] l] eqn:Hl; [done|]; intros [= -> <-];
      assert ((n, a) ∈ multis cs) as Ha by (rewrite Hl; by left);
      apply list_elem_of_omap in Ha as ([p x] & Hin & Hp); destruct p as [|[s|n'|n'] p]; try done; simplify_eq/=;
      exists (Multi n :: p), (multi_value n (s0 :: segs)); split; [done|]; split; [apply match_multi|done].
Qed.

(** ... and whenever some route matches, one is found. *)
Lemma match_path_complete {A} (cs : list (list segment * A)) segs acc p a vs :
  (p, a) ∈ cs → matches_segments p segs vs → is_Some (match_path cs segs acc).
Proof.
  intros Hin Hm. revert cs acc Hin. induction Hm as [|s p segs vs _ IH|n s p segs vs Hs _ IH|n p s segs];
    intros cs acc Hin; cbn [match_path].
  - assert (a ∈ leaves cs) as Ha by (apply list_elem_of_omap; by exists ([], a)).
    destruct (leaves cs); [by apply not_elem_of_nil in Ha|]. by eexists.
  - destruct (IH (literals (segment_value s segs) cs) acc) as [m ->]; [|by eexists].
    apply list_elem_of_omap. exists (Lit (segment_value s segs) :: p, a). split; [done|]. simpl.
    by rewrite bool_decide_eq_true_2.
  - destruct (match_path (literals _ cs) segs acc); [by eexists|]. rewrite bool_decide_eq_false_2 by done.
    destruct (IH (wildcards cs) (acc ++ [segment_value s segs])) as [m ->]; [|by eexists].
    apply list_elem_of_omap. by exists (Wild n :: p, a).
  - destruct (match_path (literals _ cs) segs acc); [by eexists|]. destruct (if bool_decide _ then _ else _); [by eexists|].
    assert ((n, a) ∈ multis cs) as Ha by (apply list_elem_of_omap; by exists (Multi n :: p, a)).
    destruct (multis cs) as [|[n' b] l]; [by apply not_elem_of_nil in Ha|]. by eexists.
Qed.

(** *** Registration *)
Section registration.
Context `{MuxVersion}.

(** What is registered parses, and conflicts with nothing registered before. *)
Lemma register_ok registered rs :
  register registered rs = Ok tt →
  ∃ ps, mapM (λ r, to_option (parsePattern r.1)) rs = Some ps ∧
    ∀ i p q, ps !! i = Some p → q ∈ registered ++ take i ps → conflictsWith p q = false.
Proof.
  revert registered. induction rs as [|[text h] rs IH]; intros registered; cbn [register].
  { intros _. exists []. by split. }
  destruct (parsePattern text) as [p|] eqn:Hp; [|done]. intros [Hc Hr]%reject_if_ok.
  apply IH in Hr as (ps & Hps & Hall). exists (p :: ps). simpl. rewrite Hp. simpl. rewrite Hps. split; [done|].
  intros [|i] x q; simpl.
  - intros [= <-]. rewrite app_nil_r. intros Hq. apply not_true_iff_false. intros Hx.
    apply not_true_iff_false in Hc. apply Hc. apply existsb_exists. exists q. by rewrite <-list_elem_of_In.
  - intros Hi Hq. apply (Hall i x q Hi). by rewrite <-app_assoc.
Qed.

Lemma register_parses registered rs text h :
  register registered rs = Ok tt → (text, h) ∈ rs → parsePattern text = Ok (pattern_of text).
Proof.
  revert registered. induction rs as [|[t k] rs IH]; intros registered; cbn [register]; [by intros _ ?%not_elem_of_nil|].
  unfold pattern_of. destruct (parsePattern t) as [p|] eqn:Hp; [|done]. intros [_ Hr]%reject_if_ok.
  intros [[= -> ->]|Hin]%elem_of_cons; [by rewrite Hp|]. by eapply IH.
Qed.

(** Why a registration fails: a pattern does not parse, or it conflicts with one that
    was registered before it. *)
Definition bad_pattern (registered : list pattern) (rs : routes) (e : goerr) : Prop :=
  ∃ i text h, rs !! i = Some (text, h) ∧
    ((∃ e', parsePattern text = Err e' ∧ e = ErrWrap ("parsing " +:+ text) e') ∨
     (∃ q, q ∈ registered ++ ((λ r, pattern_of r.1) <$> take i rs) ∧ conflictsWith (pattern_of text) q = true ∧
        e = errorf ("pattern " +:+ text +:+ " conflicts"))).

Lemma register_err registered rs e : register registered rs = Err e → bad_pattern registered rs e.
Proof.
  revert registered. induction rs as [|[text h] rs IH]; intros registered; cbn [register]; [done|].
  destruct (parsePattern text) as [p|e0] eqn:Hp.
  2: { intros [= <-]. exists 0%nat, text, h. split; [done|]. left. eauto. }
  assert (pattern_of text = p) as Hof by (unfold pattern_of; by rewrite Hp).
  destruct (existsb (conflictsWith p) registered) eqn:Hc; cbn [reject_if].
  - intros [= <-]. exists 0%nat, text, h. split; [done|]. right. apply existsb_exists in Hc as (q & Hq & Hc).
    exists q. rewrite Hof, app_nil_r. by rewrite list_elem_of_In.
  - intros (i & t & k & Hi & Hwhy)%IH. exists (S i), t, k. split; [done|].
    destruct Hwhy as [?|(q & Hq & ?)]; [by left|right]. exists q. split; [|done].
    cbn [take fmap list_fmap fst]. by rewrite Hof, <-app_assoc in *.
Qed.

Lemma register_app registered rs rs' :
  register registered rs = Ok tt →
  register registered (rs ++ rs') = register (registered ++ (pattern_of ∘ fst <$> rs)) rs'.
Proof.
  revert registered. induction rs as [|[text h] rs IH]; intros registered; cbn [register app fmap list_fmap];
    [by rewrite app_nil_r|].
  unfold compose at 1. cbn [fst]. unfold pattern_of at 1. destruct (parsePattern text) as [p|]; [|done].
  intros [Hc Hr]%reject_if_ok. rewrite Hc. cbn [reject_if]. rewrite (IH _ Hr). by rewrite <-app_assoc.
Qed.

(** Patterns out of a pool in which no two conflict register in any order, each
    once. *)
Definition compatible (pool : list string) : bool :=
  forallb (λ t, is_ok (parsePattern t)) pool &&
  forallb (λ t, forallb (λ t', bool_decide (t = t') || negb (conflictsWith (pattern_of t) (pattern_of t'))) pool) pool.

Lemma register_pool pool ts rs :
  compatible pool = true → NoDup (ts ++ rs.*1) → ts ++ rs.*1 ⊆ pool →
  register (pattern_of <$> ts) rs = Ok tt.
Proof.
  intros [Hparse Hpairs]%andb_true_iff. rewrite forallb_forall in Hparse, Hpairs.
  revert ts. induction rs as [|[text h] rs IH]; intros ts Hnd Hsub; [done|]. cbn [register].
  rewrite fmap_cons in Hnd, Hsub. cbn [fst] in Hnd, Hsub.
  assert (text ∈ pool) as Ht by set_solver.
  specialize (Hparse text (proj1 (list_elem_of_In _ _) Ht)).
  destruct (parsePattern text) as [p|] eqn:Hp; [|done].
  assert (pattern_of text = p) as <- by (unfold pattern_of; by rewrite Hp).
  replace (existsb _ _) with false.
  - cbn [reject_if]. change [pattern_of text] with (pattern_of <$> [text]). rewrite <-fmap_app.
    apply IH; by rewrite <-app_assoc.
  - symmetry. apply not_true_iff_false. intros (q & Hq & Hc)%existsb_exists.
    apply list_elem_of_In, list_elem_of_fmap in Hq as (t & -> & Hq).
    specialize (Hpairs text (proj1 (list_elem_of_In _ _) Ht)). rewrite forallb_forall in Hpairs.
    assert (t ∈ pool) as Hin by set_solver. specialize (Hpairs t (proj1 (list_elem_of_In _ _) Hin)).
    rewrite Hc, orb_false_r in Hpairs. apply bool_decide_eq_true in Hpairs as <-.
    apply list.NoDup_app in Hnd as (_ & Hd & _). apply (Hd text Hq). by left.
Qed.

(** *** Base paths *)
Lemma plain_segments seen l :
  Forall (λ s, "{"%char ∉ bytes s) l → ∃ segs, parse_segments seen l = Ok segs.
Proof.
  intros Hl. induction Hl as [|s l Hs Hl IH]; cbn [parse_segments]; [by eexists|].
  destruct (_ && _); [by eexists|]. rewrite (bool_decide_eq_false_2 _ Hs). cbn [negb].
  destruct IH as [segs ->]. by eexists.
Qed.

(** A character that a base path needs to be refused as a pattern. *)
Definition pattern_syntax (c : ascii) : bool := blank c || Ascii.eqb c "{".

Lemma cut_blank_None l : Forall (λ c, pattern_syntax c = false) l → cut_blank l = None.
Proof. induction 1 as [|c l Hc Hl IH]; [done|]. cbn. apply orb_false_iff in Hc as [-> _]. by rewrite IH. Qed.

Lemma split_bytes_sub sep l w c : w ∈ split_bytes sep l → c ∈ w → c ∈ l.
Proof.
  revert w. induction l as [|a l IH]; intros w; cbn [split_bytes].
  { intros ->%list_elem_of_singleton. done. }
  destruct (Ascii.eqb a sep).
  - intros [->|Hw]%elem_of_cons; [by intros ?%not_elem_of_nil|]. intros Hc. right. by eapply IH.
  - destruct (split_bytes sep l) as [|v vs].
    + intros ->%list_elem_of_singleton ->%list_elem_of_singleton. by left.
    + intros [->|Hw]%elem_of_cons Hc.
      * apply elem_of_cons in Hc as [->|Hc]; [by left|]. right. eapply IH; [by left|done].
      * right. eapply IH; [by right|done].
Qed.

(** A rooted base path of plain characters is a pattern. *)
Lemma plain_pattern path :
  Forall (λ c, pattern_syntax c = false) (bytes path) → is_ok (parsePattern ("/" +:+ path)) = true.
Proof.
  intros Hplain. unfold parsePattern. rewrite bool_decide_eq_false_2 by done. cbn [reject_if].
  rewrite cut_blank_None by (constructor; [done|exact Hplain]).
  assert (Cut ("/" +:+ path) "/" = ("", path, true)) as ->.
  { unfold Cut. change (bytes ("/" +:+ path)) with ("/"%char :: bytes path).
    cbn [cut_bytes Ascii.eqb Bool.eqb]. by rewrite of_bytes_bytes. }
  rewrite (bool_decide_eq_true_2 (eq "" "")) by done. cbn [negb andb reject_if].
  rewrite (bool_decide_eq_false_2 (_ ∈ bytes "")) by by apply not_elem_of_nil.
  rewrite (bool_decide_eq_true_2 ("" ∈ _)) by by left. cbn [negb andb reject_if].
  destruct (plain_segments [] (Split path "/")) as [segs ->]; [|done].
  apply list.Forall_forall. intros seg Hs Hc. unfold Split in Hs. apply list_elem_of_fmap in Hs as (w & -> & Hw).
  rewrite bytes_of_bytes in Hc. pose proof (split_bytes_sub _ _ _ _ Hw Hc) as Hin.
  rewrite list.Forall_forall in Hplain. by specialize (Hplain _ Hin).
Qed.

(** Mounting fails only for a base path with a blank or a brace in it. *)
Lemma mount_err basePath h e :
  HasPrefix basePath "/" = true → mount basePath h = Err e →
  (∃ c, c ∈ bytes basePath ∧ pattern_syntax c = true) ∧
  ∃ e', parsePattern (TrimRight basePath "/" +:+ "/") = Err e' ∧
    e = ErrWrap ("parsing " +:+ TrimRight basePath "/" +:+ "/") e'.
Proof.
  intros Hroot. unfold mount, serve_mux, mount_routes. case_bool_decide; [done|].
  set (base := TrimRight basePath "/"). destruct (register _ _) as [u|e0] eqn:Hr; [done|]. intros [= <-].
  cbn [register] in Hr. destruct (parsePattern (base +:+ "/")) as [p|e'] eqn:Hp; [done|]. injection Hr as <-.
  split; [|by eexists]. destruct (TrimRight_spec basePath "/") as [n Hn]. fold base in Hn.
  destruct (existsb pattern_syntax (bytes basePath)) eqn:Hx.
  { apply existsb_exists in Hx as (c & Hc & ?). exists c. by rewrite list_elem_of_In. }
  exfalso. assert (Forall (λ c, pattern_syntax c = false) (bytes basePath)) as Hall.
  { apply list.Forall_forall. intros c Hc. apply not_true_iff_false. intros Hs.
    apply not_true_iff_false in Hx. apply Hx. apply existsb_exists. exists c. by rewrite <-list_elem_of_In. }
  apply HasPrefix_spec in Hroot as [t ->]. rewrite bytes_app in Hall, Hn. rewrite Hn in Hall.
  apply list.Forall_app in Hall as [Hall _]. destruct base as [|c b].
  - by rewrite <-(plain_pattern "") in Hp by done.
  - cbn in Hn. injection Hn as <- _.
    assert (is_ok (parsePattern ("/" +:+ (b +:+ "/"))) = true) as Hok.
    { apply plain_pattern. rewrite bytes_app. apply list.Forall_app. split; [|by constructor].
      by inversion Hall. }
    change (String "/" b +:+ "/") with ("/" +:+ (b +:+ "/")) in Hp. by rewrite Hp in Hok.
Qed.
End registration.

(** A method serves a pattern. *)
Definition serves (p : pattern) (method : string) : Prop :=
  pt_Method p = method ∨ pt_Method p = "" ∨ pt_Method p = "GET" ∧ method = "HEAD".

Section dispatch.
Context `{MuxVersion}.

Lemma match_route_sound rs method path p h vs :
  match_route rs method path = Some (p, h, vs) →
  ∃ text, (text, h) ∈ rs ∧ p = pattern_of text ∧ serves p method ∧
    matches_segments (pt_Segments p) (segments_of path) vs.
Proof.
  assert (∀ m, match_path (route_cands m rs) (segments_of path) [] = Some (p, h, vs) →
    ∃ text, (text, h) ∈ rs ∧ p = pattern_of text ∧ pt_Method p = m ∧
      matches_segments (pt_Segments p) (segments_of path) vs) as Hm.
  { intros m (q & vs' & Hin & Hm & ->)%match_path_sound.
    apply list_elem_of_omap in Hin as ([text h'] & Hin & Hp). simpl in Hp. case_bool_decide as Hmh; [|done].
    destruct Hmh. simplify_eq. by exists text. }
  unfold match_route. intros Hr.
  destruct (if bool_decide (method = "") then _ else _) as [x|] eqn:H1.
  { injection Hr as ->. case_bool_decide; [done|]. apply Hm in H1 as (text & ? & ? & ? & ?).
    exists text. repeat split; try done. by left. }
  destruct (if bool_decide (method = "HEAD") then _ else _) as [x|] eqn:H2.
  { injection Hr as ->. case_bool_decide; [|done]. apply Hm in H2 as (text & ? & ? & ? & ?).
    exists text. repeat split; try done. right. by right. }
  apply Hm in Hr as (text & ? & ? & ? & ?). exists text. repeat split; try done. right. by left.
Qed.

Lemma findHandler_sound rs r p h vs :
  findHandler rs r = Found p h vs →
  ∃ text, (text, h) ∈ rs ∧ p = pattern_of text ∧ serves p (r_Method r) ∧
    matches_segments (pt_Segments p) (segments_of (EscapedPath (r_URL r))) vs.
Proof.
  unfold findHandler. set (path := if bool_decide (r_Method r = "CONNECT") then _ else _).
  destruct (_ && _); [done|]. case_bool_decide as Hp; [|done]. cbn [negb].
  destruct (match_route rs (r_Method r) path) as [[[q k] ws]|] eqn:Hm.
  - intros [= -> -> ->]. rewrite <-Hp. by apply match_route_sound.
  - by destruct (matchingMethods rs path).
Qed.

(** The mux hands a request to a registered route whose pattern matches method and
    path, or answers it itself, with a redirect or an error, and changes nothing. *)
Lemma mux_cases rs r rw w :
  (∃ text h vs, (text, h) ∈ rs ∧ serves (pattern_of text) (r_Method r) ∧
     matches_segments (pt_Segments (pattern_of text)) (segments_of (EscapedPath (r_URL r))) vs ∧
     mux rs r rw w = h (with_path_values r (path_values (pattern_of text) vs)) rw w) ∨
  (∃ rw' st, 300 ≤ st ∧ mux rs r rw w = (rw', w) ∧
     ∃ ops, rw_log rw' = rw_log rw ++ WriteHeader st :: ops).
Proof.
  unfold mux. destruct (findHandler rs r) as [p h vs|loc|allowed|] eqn:Hf.
  - left. apply findHandler_sound in Hf as (text & Hin & -> & Hs & Hm). by exists text, h, vs.
  - right. pose proof mux_redirect_3xx. eexists _, mux_redirect. split; [lia|]. split; [done|].
    rewrite http_Redirect_log. by eexists.
  - right. eexists _, StatusMethodNotAllowed. split; [done|]. split; [done|]. rewrite http_Error_log. by eexists.
  - right. eexists _, StatusNotFound. split; [done|]. split; [done|]. unfold NotFound. rewrite http_Error_log. by eexists.
Qed.
End dispatch.

(** ** Examples *)
Section examples.
Definition sample_mux_version : MuxVersion :=
  {| mux_redirect := 301; mux_redirect_3xx := ltac:(lia); wide_letter _ := true; wide_digit _ := false |}.
#[local] Instance mux_examples_version : MuxVersion := sample_mux_version.
Definition named (s : string) : Handler := λ r rw, ret (writeJSON 200 (JArr (JStr s :: (JStr ∘ snd <$> r_PathValues r))) rw).
Definition sample_routes : routes :=
  [("GET /items/{id}", named "item"); ("GET /items/new", named "new"); ("POST /items", named "create"); ("/files/", named "files")].
Definition ask (method path : string) : option Z * list body :=
  let rw := (mux sample_routes (mkRequest method (path_url path) "" [] [] [] "" [] background) fresh_rw empty_world).1 in
  (rw_status rw, rw_body rw).

Example mux_examples :
  ask "GET" "/items/7" = (Some 200, [BJson (JArr [JStr "item"; JStr "7"])]) ∧
  ask "HEAD" "/items/new" = (Some 200, [BJson (JArr [JStr "new"])]) ∧
  ask "DELETE" "/files/a/b" = (Some 200, [BJson (JArr [JStr "files"])]) ∧
  ask "GET" "/files" = (Some 301, [BRedirect "/files/"]) ∧
  ask "GET" "/x/../items/7" = (Some 301, [BRedirect "/items/7"]) ∧
  ask "GET" "/items" = (Some 405, [BText "Method Not Allowed"]) ∧
  ask "GET" "/items/" = (Some 404, [BText "404 page not found"]).
Proof. by vm_compute. Qed.

Definition texts (l : list string) : routes := (λ t, (t, named t)) <$> l.
(** What registration accepts and what makes it panic. *)
Example register_examples :
  forallb (λ t, is_ok (parsePattern t))
    ["/"; "/portal/"; "GET /a/{id}/b"; "GET /f/{rest...}"; "GET /{$}"; "example.org/x"; "/{x}/"; "POST    /a"] = true ∧
  existsb (λ t, is_ok (parsePattern t))
    [""; "/{x/"; "/a b/"; "/a{x}/"; "/{x}/{x}"; "/{$}/"; "/{r...}/"; "/{}/"; "/{1}/"; "GET /a/../b"; "GET"; "G@T /"; "{h}/x"]
    = false ∧
  is_ok (register [] sample_routes) = true ∧
  register [] (texts ["GET /a/{x}"; "GET /a/{y}"]) = Err (errorf "pattern GET /a/{y} conflicts") ∧
  register [] (texts ["GET /a/{x}/b"; "GET /{y}/c/b"]) = Err (errorf "pattern GET /{y}/c/b conflicts") ∧
  is_ok (register [] (texts ["GET /a/{x}"; "GET /a/b"; "/a/"; "POST /a/{x}"; "GET /a/{$}"])) = true.
Proof. split_and!; vm_compute; reflexivity. Qed.
End examples.
