(* ===== verification/AuthHTTP.v ===== *)
(** * The authentication endpoints: internal/auth/http.go

    [GET /auth/login], [GET /auth/callback], [POST /auth/logout] and
    [GET /api/me], over the service of Auth.v. *)

From S2P Require Import Prelude GoStrings GoURL World Session Token Auth Policy Http Middleware.
Open Scope Z_scope.

(** [type Handler struct]; [h_Metrics] is [Metrics != nil]. *)
Record AuthHandler := mkAuthHandler {
  h_Service : option Service;
  h_UserContext : option Resolver;
  h_Cache : option Cache;
  h_Audit : option AuditSink;
  h_Metrics : bool;
  h_Secure : bool;
  h_CookieName : string;
}.

Section handlers.
Context `{Env} `{UnicodeCase} `{IPLiteral} (h : AuthHandler).

Definition cookieName : string :=
  if bool_decide (h_CookieName h = "") then SessionCookieName else h_CookieName h.

Definition boolString (v : bool) : string := if v then "true" else "false".

Definition emit (r : Request) (actor username action target outcome : string) (status : Z)
    (attrs : option (gmap string string)) : M unit :=
  match h_Audit h with
  | None => ret tt
  | Some sink =>
      do e := NewEvent action target outcome in
      let e := EnrichAuditEvent r (with_status status (with_actor actor username e)) in
      let e := match attrs with Some a => with_attributes (λ _, a) e | None => e end in
      do _ := sink e in ret tt
  end.

(** A handler without a service panics and writes nothing. *)
Definition panics (rw : RW) : M RW := ret rw.

Definition login : Handler := λ r rw,
  match h_Service h with
  | None => panics rw
  | Some svc =>
      do start := StartLogin svc (query_get r "return_to") in
      match start with
      | Ok url => ret (http_Redirect url StatusFound rw)
      | Err e =>
          if errors_Is e InvalidReturnTo then
            do _ := emit r "" "" "auth.login" "session" "deny" StatusBadRequest
                      (Some {["reason" := "invalid_return_to"]}) in
            ret (http_Error "invalid login request" StatusBadRequest rw)
          else
            do _ := emit r "" "" "auth.login" "session" "error" StatusServiceUnavailable
                      (Some {["reason" := "authentication_service_unavailable"]}) in
            ret (http_Error "authentication service unavailable" StatusServiceUnavailable rw)
      end
  end.

Definition callback : Handler := λ r rw,
  match h_Service h with
  | None => panics rw
  | Some svc =>
      do res := CompleteCallback svc (query_get r "state") (query_get r "code") in
      match res with
      | Err _ =>
          do _ := record_if (h_Metrics h) (RecordAuth "failure") in
          do _ := emit r "" "" "auth.login" "session" "deny" StatusUnauthorized
                    (Some {["reason" := "invalid_callback"]}) in
          ret (http_Error "authentication failed" StatusUnauthorized rw)
      | Ok res =>
          do _ := record_if (h_Metrics h) (RecordAuth "success") in
          do _ := emit r (cb_Subject res) (cb_Username res) "auth.login" "session" "success" StatusFound None in
          let rw := SetCookie (mkCookie cookieName (cb_SessionID res) "/" (h_Secure h) true true
                                 (cb_ExpiresAt res) 0) rw in
          ret (http_Redirect (cb_ReturnTo res) StatusFound rw)
      end
  end.

(** The actor of a logout: the owner of the session, if it can be read. *)
Definition logout_actor (cookie : option string) : M (string * string) :=
  match cookie, h_Service h with
  | Some id, Some svc =>
      match svc_Sessions svc with
      | Some sessions =>
          do got := ss_Get sessions id in
          ret (match got with Ok s => (ses_Subject s, ses_Username s) | Err _ => ("", "") end)
      | None => ret ("", "")
      end
  | _, _ => ret ("", "")
  end.

Definition logout : Handler := λ r rw,
  let cookie := cookie_get r cookieName in
  let sessionID := default "" cookie in
  do (actor, username) := logout_actor cookie in
  let global := EqualFold (query_get r "global") "true" in
  match h_Service h with
  | None => panics rw
  | Some svc =>
      do redirectTo := Logout svc sessionID global in
      match redirectTo with
      | Err _ =>
          do _ := emit r actor username "auth.logout" "session" "failure" StatusServiceUnavailable
                    (Some {["global" := boolString global]}) in
          ret (http_Error "logout unavailable" StatusServiceUnavailable rw)
      | Ok redirectTo =>
          do _ := emit r actor username "auth.logout" "session" "success" StatusSeeOther
                    (Some {["global" := boolString global]}) in
          do _ := match h_Cache h with
                  | Some cache =>
                      if bool_decide (sessionID = "") then ret (Ok tt)
                      else ca_Delete cache (UserContext.CacheKey sessionID)
                  | None => ret (Ok tt)
                  end in
          let rw := SetCookie (mkCookie cookieName "" "/" (h_Secure h) true true zero_time (-1)) rw in
          ret (http_Redirect redirectTo StatusSeeOther rw)
      end
  end.

(** The JSON of a user context: empty fields are left out. *)
Definition omit_str (k v : string) : list (string * json) :=
  if bool_decide (v = "") then [] else [(k, JStr v)].
Definition omit_list (k : string) (v : list string) : list (string * json) :=
  match v with [] => [] | _ => [(k, JArr (JStr <$> v))] end.
Definition context_json (c : Context) : json :=
  JObj ([("sub", JStr (uc_Subject c))] ++ omit_str "preferred_username" (uc_Username c)
    ++ omit_str "display_name" (uc_DisplayName c) ++ omit_str "email" (uc_Email c)
    ++ omit_list "roles" (uc_Roles c) ++ omit_list "permissions" (uc_Permissions c)
    ++ omit_str "tenant_id" (uc_TenantID c) ++ omit_str "project_id" (uc_ProjectID c)
    ++ omit_str "auth_level" (uc_AuthLevel c) ++ omit_list "capabilities" (uc_Capabilities c)).

Definition me : Handler := λ r rw,
  match cookie_get r cookieName, h_UserContext h, h_Service h with
  | Some cookie, Some resolve, Some svc =>
      match svc_Sessions svc with
      | None => ret (http_Error "unauthorized" StatusUnauthorized rw)
      | Some sessions =>
          do got := ss_Get sessions cookie in
          match got with
          | Err e =>
              if errors_Is e SessionNotFound
              then ret (http_Error "unauthorized" StatusUnauthorized rw)
              else ret (http_Error "session store unavailable" StatusServiceUnavailable rw)
          | Ok _ =>
              do ctx := resolve cookie in
              match ctx with
              | Err _ => ret (http_Error "unauthorized" StatusUnauthorized rw)
              | Ok ctx =>
                  ret (push (Write (BJson (context_json ctx)))
                    (set_header "Cache-Control" "no-store"
                      (set_header "Content-Type" "application/json" rw)))
              end
          end
      end
  | _, _, _ => ret (http_Error "unauthorized" StatusUnauthorized rw)
  end.

(** ** Properties *)

(** The profile endpoint never answers from a cached context alone: it
    returns user data only if the session store has just returned a live
    session for the request's cookie; a missing or expired session is 401 and a
    failing store 503, even when a context for that id is cached. *)
Theorem me_requires_live_session r rw w :
  rw_log rw = [] →
  (∃ text status, status ∈ [StatusUnauthorized; StatusServiceUnavailable] ∧
     (me r rw w).1 = http_Error text status rw) ∨
  (∃ cookie svc sessions resolve s w1 c w2,
     cookie_get r cookieName = Some cookie ∧ h_Service h = Some svc ∧ svc_Sessions svc = Some sessions ∧
     h_UserContext h = Some resolve ∧
     ss_Get sessions cookie w = (Ok s, w1) ∧ resolve cookie w1 = (Ok c, w2) ∧
     rw_body (me r rw w).1 = [BJson (context_json c)] ∧ rw_status (me r rw w).1 = Some 200).
Proof.
  intros Hlog. unfold me.
  destruct (cookie_get r cookieName) as [cookie|]; [|left; eexists _, _; split; [|done]; set_solver].
  destruct (h_UserContext h) as [resolve|]; [|left; eexists _, _; split; [|done]; set_solver].
  destruct (h_Service h) as [svc|]; [|left; eexists _, _; split; [|done]; set_solver].
  destruct (svc_Sessions svc) as [sessions|] eqn:Hss; [|left; eexists _, _; split; [|done]; set_solver].
  unfold bind. destruct (ss_Get sessions cookie w) as [[s|e] w1] eqn:Hg.
  2: { left. destruct (errors_Is e SessionNotFound); eexists _, _; (split; [|done]); set_solver. }
  destruct (resolve cookie w1) as [[c|e] w2] eqn:Hr; [|left; eexists _, _; split; [|done]; set_solver].
  right. exists cookie, svc, sessions, resolve, s, w1, c, w2. do 6 (split; [done|]).
  unfold rw_body, rw_status. simpl. by rewrite Hlog.
Qed.

(** An audit event changes what its sink changes. *)
Lemma emit_keeps (R : relation World) sink r a u ac tg o st attrs w x w' :
  PreOrder R → h_Audit h = Some sink → (∀ e, Keeps R (sink e)) → (∀ w, R w (tick w)) →
  emit r a u ac tg o st attrs w = (x, w') → R w w'.
Proof.
  intros HR Ha Hs Ht. apply (keeps_run R). unfold emit, NewEvent, rand_or_zero. rewrite Ha.
  keeps; by apply keeps_oracle.
Qed.
End handlers.

(** C18: a logout is refused with 503 or ends the login.  For any session and
    token store that meet their contracts, and an audit sink and a cache that
    leave these alone, either the answer is exactly the 503 page, or it is the
    303 redirect and the session and its tokens are gone, the browser is told to
    drop the cookie, and the last thing done was to delete the cached user
    context.  The outcome of that last delete is ignored: the entry is gone for
    the in-memory cache, whose delete cannot fail. *)
Theorem logout_ends_login `{Env} `{UnicodeCase} `{IPLiteral}
    (h : AuthHandler) svc Next cfg sview sgood tokens tview tgood sink cache sid r rw w :
  SessionStoreSpec Next sview sgood → TokenStoreSpec tokens tview tgood → SessionKeeps Next (same tview) →
  svc_Sessions svc = Some (Lifecycle.store Next cfg) → Tokens svc = Some tokens →
  h_Service h = Some svc → h_Cache h = Some cache → h_Audit h = Some sink →
  (∀ e, Keeps (same sview) (sink e) ∧ Keeps (same tview) (sink e)) →
  (∀ k, Keeps (same sview) (ca_Delete cache k) ∧ Keeps (same tview) (ca_Delete cache k)) →
  cookie_get r (cookieName h) = Some sid → sid ≠ "" → rw_log rw = [] →
  let rw' := (logout h r rw w).1 in let w' := (logout h r rw w).2 in
  rw' = http_Error "logout unavailable" StatusServiceUnavailable rw ∨
  (rw_status rw' = Some StatusSeeOther ∧ sview w' !! sid = None ∧ tview w' !! sid = None ∧
   (∃ w1 res, ca_Delete cache (UserContext.CacheKey sid) w1 = (res, w')) ∧
   (cache = memory_cache → w_cache w' !! UserContext.CacheKey sid = None) ∧
   rw_cookies rw' =
     rw_cookies rw ++ [mkCookie (cookieName h) "" "/" (h_Secure h) true true zero_time (-1)]).
Proof.
  intros HN HT HK Hss Hts Hsvc Hcache Haudit Hsink Hca Hck Hne Hlog.
  destruct (logout h r rw w) as [rw' w'] eqn:Hrun. cbn [fst snd].
  unfold logout in Hrun. rewrite Hck, Hsvc, Hcache in Hrun. simpl in Hrun.
  apply bind_inv in Hrun as ([actor user] & w1 & _ & Hrun).
  apply bind_inv in Hrun as ([url|e] & w2 & Hl & Hrun).
  2: { apply bind_inv in Hrun as (u & w3 & _ & [= <- _]). by left. }
  right. destruct (Logout_ok svc Next cfg sview sgood tokens tview tgood _ _ _ _ _ HN HT HK Hss Hts Hne Hl) as (Hs & Ht & _).
  apply bind_inv in Hrun as (u & w3 & He & Hrun). rewrite bool_decide_eq_false_2 in Hrun by done.
  assert (sview w3 = sview w2 ∧ tview w3 = tview w2) as [Hs3 Ht3].
  { split; [eapply (emit_keeps h (same sview) sink)|eapply (emit_keeps h (same tview) sink)];
      [apply _|done|apply Hsink| |exact He|apply _|done|apply Hsink| |exact He];
      intros w0; [apply view_tick|apply tok_view_tick]. }
  apply bind_inv in Hrun as (res & w4 & Hd & [= <- <-]).
  destruct (Hca (UserContext.CacheKey sid)) as [Hcs Hct].
  pose proof (keeps_run _ _ _ _ _ Hcs Hd) as Hs4. pose proof (keeps_run _ _ _ _ _ Hct Hd) as Ht4.
  unfold same in Hs4, Ht4. rewrite Hs4, Ht4, Hs3, Ht3.
  split; [unfold rw_status; simpl; by rewrite Hlog|].
  split; [done|]. split; [done|]. split; [by eauto|]. split; [|done].
  intros ->. simpl in Hd. unfold MemoryCache.Delete in Hd. m_inv. apply lookup_delete_eq.
Qed.

(** ** Witnesses *)
Section witnesses.
#[local] Instance sample : Env := sample_env.
#[local] Instance sample_case : UnicodeCase := ascii_case.
#[local] Instance sample_ip : IPLiteral := no_literal.
Definition sample_svc : Service := sample_service MemoryToken.store.
Definition sample_auth : AuthHandler :=
  mkAuthHandler (Some sample_svc)
    (Some (UserContext.CachedResolver
      (UserContext.SessionResolver (Lifecycle.store MemorySession.store sample_lifecycle) None)
      (Some memory_cache) 0))
    (Some memory_cache) (Some MemorySink) true false "bff_session".
Definition w_logged_in : World := r_callback.2.
Definition session_request : Request :=
  mkRequest "GET" (path_url "/api/me") "10.0.0.1:1" [] [("bff_session", cb_SessionID sample_result)] [] "" [] background.

Lemma me_requires_live_session_witness :
  (∃ text status, status ∈ [StatusUnauthorized; StatusServiceUnavailable] ∧
     (me sample_auth session_request fresh_rw w_logged_in).1 = http_Error text status fresh_rw) ∨
  (∃ cookie svc sessions resolve s w1 c w2,
     cookie_get session_request (cookieName sample_auth) = Some cookie ∧ Some sample_svc = Some svc ∧
     svc_Sessions svc = Some sessions ∧ h_UserContext sample_auth = Some resolve ∧
     ss_Get sessions cookie w_logged_in = (Ok s, w1) ∧ resolve cookie w1 = (Ok c, w2) ∧
     rw_body (me sample_auth session_request fresh_rw w_logged_in).1 = [BJson (context_json c)] ∧
     rw_status (me sample_auth session_request fresh_rw w_logged_in).1 = Some 200).
Proof. apply (me_requires_live_session sample_auth session_request fresh_rw w_logged_in). reflexivity. Defined.

#[local] Abbreviation w_logged_out := (logout sample_auth session_request fresh_rw w_logged_in).2.

#[local] Abbreviation rw_logged_out := (logout sample_auth session_request fresh_rw w_logged_in).1.

Lemma logout_ends_login_witness :
  rw_logged_out = http_Error "logout unavailable" StatusServiceUnavailable fresh_rw ∨
  (rw_status rw_logged_out = Some StatusSeeOther ∧
   w_sessions w_logged_out !! cb_SessionID sample_result = None ∧
   MemoryToken.view w_logged_out !! cb_SessionID sample_result = None ∧
   (∃ w1 res, ca_Delete memory_cache (UserContext.CacheKey (cb_SessionID sample_result)) w1 = (res, w_logged_out)) ∧
   (memory_cache = memory_cache → w_cache w_logged_out !! UserContext.CacheKey (cb_SessionID sample_result) = None) ∧
   rw_cookies rw_logged_out = rw_cookies fresh_rw ++
     [mkCookie (cookieName sample_auth) "" "/" (h_Secure sample_auth) true true zero_time (-1)]).
Proof.
  apply (logout_ends_login sample_auth sample_svc MemorySession.store sample_lifecycle w_sessions any_string
    MemoryToken.store MemoryToken.view any_string MemorySink memory_cache
    (cb_SessionID sample_result) session_request fresh_rw w_logged_in); try reflexivity; try apply _.
  - eapply session_spec_keeps; [apply _|]. unfold but_sessions, same, MemoryToken.view.
    intros w3 w4 [=] _. congruence.
  - intros e. by split; apply keeps_modify.
  - intros k. split; unfold ca_Delete, memory_cache, MemoryCache.Delete; keeps.
  - vm_compute. discriminate.
Defined.

(** The sample logout is the second case. *)
Example logout_sample_redirects : rw_status rw_logged_out = Some StatusSeeOther.
Proof. run. Qed.
End witnesses.
