(* ===== verification/Redis.v ===== *)
(** * Redis: internal/store/redis

    The stores that keep flows, sessions, tokens and cached contexts in Redis, and
    the refresh lock.  The Redis server and its client library are the class
    [Redis] of commands; [RedisSpec] states what the commands are documented to do
    to the keys, [CodecSpec] what [encoding/json] does to the stored records.
    The session and the token store meet the contracts of Session.v and Token.v,
    so that the theorems proved against the contracts hold of them. *)

From S2P Require Import Prelude GoStrings World Session Token Auth Policy.
Open Scope Z_scope.

(** ** The commands

    A [nil] reply (error [redis.Nil]) is [Ok None]. *)
Class Redis := {
  rGet : string → M (result (option string));
  rSet : string → string → Duration → M (result unit);
  rDel : string → M (result unit);
  rGetDel : string → M (result (option string));
  rSetNX : string → string → Duration → M (result bool);
  rEval : string → list string → list string → M (result unit);
}.

(** A key with deadline [d] may be absent at [t], may be present at [t]. *)
Definition gone (d : option Time) (t : Time) : Prop :=
  match d with Some d => d ≤ t | None => False end.
Definition alive (d : option Time) (t : Time) : Prop :=
  match d with Some d => t ≤ d | None => True end.
(** The deadline of a key written at [t] to live for [ttl]: Redis counts
    milliseconds, and the client rounds down to them but not to none. *)
Definition deadline_of (ttl : Duration) (t : Time) (d : option Time) : Prop :=
  0 < ttl → ∃ d', d = Some d' ∧ t + ttl - Millisecond < d' ≤ t + Z.max ttl Millisecond.

(** The commands change the keys of the server only. *)
Definition but_redis (w : World) :=
  (w_flows w, w_sessions w, w_tokens w, w_cache w, w_locks w, w_audit w, w_metrics w, w_refreshes w).
Definition redis_frame : relation World := λ w w', but_redis w' = but_redis w ∧ later w w'.
#[export] Instance redis_frame_preorder : PreOrder redis_frame.
Proof.
  unfold redis_frame, later. split; [intros w; split; [done|lia]|].
  intros w1 w2 w3 [-> ?] [-> ?]. split; [done|lia].
Qed.
Lemma redis_frame_tick w : redis_frame w (tick w).
Proof. split; [done|]. unfold later. simpl. lia. Qed.

(** The script of [RefreshLocker.Lock]. *)
Definition release_script : string :=
  "if redis.call('GET', KEYS[1]) == ARGV[1] then return redis.call('DEL', KEYS[1]) end return 0".

Definition written `{Env} (k v : string) (ttl : Duration) (w w' : World) : Prop :=
  ∃ i d, between w w' i ∧ deadline_of ttl (clock i) d ∧ w_redis w' = <[k := (v, d)]> (w_redis w).
Definition removed (k : string) (w w' : World) : Prop := w_redis w' = delete k (w_redis w).
Definition unchanged (w w' : World) : Prop := w_redis w' = w_redis w.
(** Delete [k] if it holds [v]. *)
Definition released (k v : string) (w w' : World) : Prop :=
  w_redis w' = if bool_decide (fst <$> w_redis w !! k = Some v) then delete k (w_redis w) else w_redis w.
(** Whatever the server held under [k] had reached its deadline. *)
Definition was_gone `{Env} (k : string) (w w' : World) : Prop :=
  ∀ v d, w_redis w !! k = Some (v, d) → ∃ i, between w w' i ∧ gone d (clock i).

Class RedisSpec `{Env} `{Redis} : Prop := {
  r_get_frame k : Keeps redis_frame (rGet k);
  r_set_frame k v ttl : Keeps redis_frame (rSet k v ttl);
  r_del_frame k : Keeps redis_frame (rDel k);
  r_getdel_frame k : Keeps redis_frame (rGetDel k);
  r_setnx_frame k v ttl : Keeps redis_frame (rSetNX k v ttl);
  r_eval_frame s ks vs : Keeps redis_frame (rEval s ks vs);
  r_get_some k w v w' :
    rGet k w = (Ok (Some v), w') → fst <$> w_redis w !! k = Some v ∧ unchanged w w';
  r_get_none k w w' : rGet k w = (Ok None, w') → removed k w w' ∧ was_gone k w w';
  r_get_err k w e w' : rGet k w = (Err e, w') → unchanged w w';
  r_set_ok k v ttl w u w' : rSet k v ttl w = (Ok u, w') → written k v ttl w w';
  r_set_err k v ttl w e w' :
    rSet k v ttl w = (Err e, w') → unchanged w w' ∨ written k v ttl w w';
  r_del_ok k w u w' : rDel k w = (Ok u, w') → removed k w w';
  r_del_err k w e w' : rDel k w = (Err e, w') → unchanged w w' ∨ removed k w w';
  r_getdel_some k w v w' :
    rGetDel k w = (Ok (Some v), w') → fst <$> w_redis w !! k = Some v ∧ removed k w w';
  r_getdel_none k w w' : rGetDel k w = (Ok None, w') → removed k w w' ∧ was_gone k w w';
  r_getdel_err k w e w' : rGetDel k w = (Err e, w') → unchanged w w' ∨ removed k w w';
  r_setnx_true k v ttl w w' :
    rSetNX k v ttl w = (Ok true, w') → was_gone k w w' ∧ written k v ttl w w';
  r_setnx_false k v ttl w w' :
    rSetNX k v ttl w = (Ok false, w') →
    unchanged w w' ∧
    ∃ i v' d', between w w' i ∧ w_redis w !! k = Some (v', d') ∧ alive d' (clock i);
  r_setnx_err k v ttl w e w' :
    rSetNX k v ttl w = (Err e, w') →
    unchanged w w' ∨ was_gone k w w' ∧ written k v ttl w w';
  r_release_ok k v w u w' : rEval release_script [k] [v] w = (Ok u, w') → released k v w w';
  r_release_err k v w e w' :
    rEval release_script [k] [v] w = (Err e, w') → unchanged w w' ∨ released k v w w';
}.
#[export] Hint Resolve r_get_frame r_set_frame r_del_frame r_getdel_frame r_setnx_frame r_eval_frame : keeps.

(** ** [encoding/json] on a stored record

    Marshalling replaces what is not UTF-8 in a string; a record whose strings
    ([fields]) are UTF-8 is read back as it was written, and what is read is
    always UTF-8. *)
Class Codec (A : Type) := {
  marshal : A → result string;
  unmarshal : string → result A;
}.
Class CodecSpec {A} `{Codec A} (fields : A → list string) : Prop := {
  codec_roundtrip a b : Forall utf8 (fields a) → marshal a = Ok b → unmarshal b = Ok a;
  codec_utf8 a b : unmarshal b = Ok a → Forall utf8 (fields a);
}.

(** ** client.go *)
Record Client := mkClient { Prefix : string }.

Section client.
Context {Options : Type} (ParseURL : string → result Options).

(** [New]: the connection options and the client. *)
Definition New (rawURL prefix : string) : result (Options * Client) :=
  reject bool_decide (TrimSpace rawURL = "") with errorf "redis URL is required" ;;
  match ParseURL rawURL with
  | Err e => Err (ErrWrap "parse redis URL" e)
  | Ok opts =>
      let prefix := if bool_decide (prefix = "") then "rebff" else prefix in
      Ok (opts, mkClient (TrimSuffix prefix ":"))
  end.
End client.

Definition key (c : Client) (parts : list string) : string := Join (Prefix c :: parts) ":".

(** ** Maps stored under a prefix *)
Section prefix_view.
Context {A : Type} (pre : string) (dec : string → option A).

(** The records under the keys [pre id], by [id]. *)
Definition prefix_view (db : gmap string (string * option Time)) : gmap string A :=
  map_fold (λ k v m,
    match strip_prefix pre k, dec v.1 with
    | Some id, Some a => <[id := a]> m
    | _, _ => m
    end) ∅ db.

Lemma lookup_prefix_view db id :
  prefix_view db !! id = (fst <$> db !! (pre +:+ id)) ≫= dec.
Proof.
  unfold prefix_view. revert id.
  apply (map_fold_weak_ind (λ r m, ∀ id, r !! id = (fst <$> m !! (pre +:+ id)) ≫= dec)); [done|].
  intros k [v d] m r Hk IH id. simpl. rewrite lookup_insert.
  destruct (decide (k = pre +:+ id)) as [->|Hne].
  - rewrite strip_prefix_app. simpl. specialize (IH id). rewrite Hk in IH.
    destruct (dec v) as [a|]; [by rewrite lookup_insert_eq|done].
  - destruct (strip_prefix pre k) as [id'|] eqn:Hs; [|apply IH].
    apply strip_prefix_Some in Hs as ->. destruct (dec v) as [a|]; [|apply IH].
    rewrite lookup_insert_ne by congruence. apply IH.
Qed.

Lemma append_prefix_inj id j : pre +:+ id = pre +:+ j → id = j.
Proof. intros Heq. apply (f_equal (strip_prefix pre)) in Heq. rewrite !strip_prefix_app in Heq. congruence. Qed.

Lemma prefix_view_insert db id v d a :
  dec v = Some a → prefix_view (<[pre +:+ id := (v, d)]> db) = <[id := a]> (prefix_view db).
Proof.
  intros Hd. apply map_eq. intros j. rewrite lookup_prefix_view, !lookup_insert, lookup_prefix_view.
  destruct (decide (id = j)) as [->|Hne]; [by rewrite decide_True by done|].
  rewrite decide_False; [done|]. by intros ?%append_prefix_inj.
Qed.

Lemma prefix_view_delete db id : prefix_view (delete (pre +:+ id) db) = delete id (prefix_view db).
Proof.
  apply map_eq. intros j. rewrite lookup_prefix_view, !lookup_delete, lookup_prefix_view.
  destruct (decide (id = j)) as [->|Hne]; [by rewrite decide_True by done|].
  rewrite decide_False; [done|]. by intros ?%append_prefix_inj.
Qed.

(** Keys that do not start with the prefix do not matter. *)
Lemma prefix_view_other db db' :
  (∀ id, db' !! (pre +:+ id) = db !! (pre +:+ id)) → prefix_view db' = prefix_view db.
Proof. intros Heq. apply map_eq. intros j. by rewrite !lookup_prefix_view, Heq. Qed.
End prefix_view.

(** ** Key spaces *)
Definition space (c : Client) (name : string) : string := Prefix c +:+ ":" +:+ name +:+ ":".

Lemma key_space c name id : key c [name; id] = space c name +:+ id.
Proof. unfold key, space. cbn [Join]. by rewrite !str_app_assoc. Qed.
Lemma key_space2 c a b id : key c [a; b; id] = space c (a +:+ ":" +:+ b) +:+ id.
Proof. unfold key, space. cbn [Join]. by rewrite !str_app_assoc. Qed.

(** Spaces whose names start with different letters have no key in common. *)
Lemma spaces_disjoint c x a y b id j :
  space c (String x a) +:+ id = space c (String y b) +:+ j → x = y.
Proof. unfold space. rewrite !str_app_assoc. by intros [= ?]%append_prefix_inj. Qed.

Definition decode {A} `{Codec A} (raw : string) : option A :=
  match unmarshal raw with Ok a => Some a | Err _ => None end.

(** The records of one space. *)
Definition records {A} `{Codec A} (sp : string) (w : World) : gmap string A :=
  prefix_view sp decode (w_redis w).

(** What the commands do to the records of one space. *)
Section space_view.
Context `{Env} {A : Type} `{Codec A} (fields : A → list string) `{!CodecSpec fields} (sp : string).
#[local] Abbreviation view := (records (A := A) sp).

Lemma view_unchanged w w' : unchanged w w' → view w' = view w.
Proof. unfold unchanged, records. by intros ->. Qed.
Lemma view_removed id w w' : removed (sp +:+ id) w w' → view w' = delete id (view w).
Proof. unfold removed, records. intros ->. apply prefix_view_delete. Qed.
Lemma view_written id a b ttl w w' :
  Forall utf8 (fields a) → marshal a = Ok b → written (sp +:+ id) b ttl w w' →
  view w' = <[id := a]> (view w).
Proof.
  intros Hu Hm (i & d & _ & _ & Hw). unfold records. rewrite Hw. apply prefix_view_insert. unfold decode.
  by rewrite (codec_roundtrip a b Hu Hm).
Qed.
Lemma view_utf8 w id a : view w !! id = Some a → Forall utf8 (fields a).
Proof.
  unfold records. rewrite lookup_prefix_view. intros (b & _ & Hd)%bind_Some. unfold decode in Hd.
  destruct (unmarshal b) eqn:Hb; simplify_eq. by eapply codec_utf8.
Qed.
Lemma view_read w id raw a :
  fst <$> w_redis w !! (sp +:+ id) = Some raw → unmarshal raw = Ok a → view w !! id = Some a.
Proof. intros Hr Hu. unfold records. rewrite lookup_prefix_view, Hr. simpl. unfold decode. by rewrite Hu. Qed.

(** Commands on keys outside the space. *)
Definition outside (k : string) : Prop := ∀ id, k ≠ sp +:+ id.
Lemma outside_removed k w w' : outside k → removed k w w' → view w' = view w.
Proof.
  intros Hk Hw. unfold records. rewrite Hw. apply prefix_view_other. intros id. apply lookup_delete_ne. intros ->. by apply (Hk id).
Qed.
Lemma outside_written k v ttl w w' : outside k → written k v ttl w w' → view w' = view w.
Proof.
  intros Hk (i & d & _ & _ & Hw). unfold records. rewrite Hw. apply prefix_view_other. intros id. apply lookup_insert_ne.
  intros ->. by apply (Hk id).
Qed.
Lemma outside_released k v w w' : outside k → released k v w w' → view w' = view w.
Proof. intros Hk Hr. red in Hr. case_bool_decide; [by eapply outside_removed|by apply view_unchanged]. Qed.
End space_view.

(** Commands keep the records of the spaces they do not address. *)
Section outside_keeps.
Context `{RedisSpec} {A : Type} `{Codec A} (sp : string).
#[local] Abbreviation view := (records (A := A) sp).

Lemma keeps_rGet_outside k : outside sp k → Keeps (same view) (rGet k).
Proof.
  intros Hk w. destruct (rGet k w) as [[[v|]|e] w'] eqn:Hr; simpl.
  - apply r_get_some in Hr as [_ Hr]. by apply view_unchanged.
  - apply r_get_none in Hr as [Hr _]. by eapply outside_removed.
  - apply r_get_err in Hr. by apply view_unchanged.
Qed.
Lemma keeps_rSet_outside k v ttl : outside sp k → Keeps (same view) (rSet k v ttl).
Proof.
  intros Hk w. destruct (rSet k v ttl w) as [[u|e] w'] eqn:Hr; simpl.
  - apply r_set_ok in Hr. by eapply outside_written.
  - apply r_set_err in Hr as [Hr|Hr]; [by apply view_unchanged|by eapply outside_written].
Qed.
Lemma keeps_rDel_outside k : outside sp k → Keeps (same view) (rDel k).
Proof.
  intros Hk w. destruct (rDel k w) as [[u|e] w'] eqn:Hr; simpl.
  - apply r_del_ok in Hr. by eapply outside_removed.
  - apply r_del_err in Hr as [Hr|Hr]; [by apply view_unchanged|by eapply outside_removed].
Qed.
Lemma keeps_rSetNX_outside k v ttl : outside sp k → Keeps (same view) (rSetNX k v ttl).
Proof.
  intros Hk w. destruct (rSetNX k v ttl w) as [[[]|e] w'] eqn:Hr; simpl.
  - apply r_setnx_true in Hr as [_ Hr]. by eapply outside_written.
  - apply r_setnx_false in Hr as [Hr _]. by apply view_unchanged.
  - apply r_setnx_err in Hr as [Hr|[_ Hr]]; [by apply view_unchanged|by eapply outside_written].
Qed.
Lemma keeps_release_outside k v : outside sp k → Keeps (same view) (rEval release_script [k] [v]).
Proof.
  intros Hk w. destruct (rEval release_script [k] [v] w) as [[u|e] w'] eqn:Hr; simpl.
  - apply r_release_ok in Hr. by eapply outside_released.
  - apply r_release_err in Hr as [Hr|Hr]; [by apply view_unchanged|by eapply outside_released].
Qed.
End outside_keeps.

(** [time.Until] *)
Definition Until `{Env} (t : Time) : M Duration := do n := now in ret (Sub t n).

(** ** session.go *)
Module RedisSession.
Section session.
Context `{Env} `{Redis} `{Codec Session} (c : Client).

Definition Delete (sessionID : string) : M (result unit) := rDel (key c ["session"; sessionID]).

Definition Get (sessionID : string) : M (result Session) :=
  do raw := rGet (key c ["session"; sessionID]) in
  match raw with
  | Ok None => ret (Err (ErrIs SessionNotFound))
  | Err e => ret (Err e)
  | Ok (Some raw) =>
      match unmarshal raw with
      | Err e => ret (Err e)
      | Ok v =>
          do expired :=
            if negb (IsZero (ses_ExpiresAt v))
            then do t := now in ret (negb (After (ses_ExpiresAt v) t)) else ret false in
          if (expired : bool) then
            do _ := Delete sessionID in ret (Err (ErrIs SessionNotFound))
          else ret (Ok v)
      end
  end.

Definition Put (v : Session) : M (result unit) :=
  match marshal v with
  | Err e => ret (Err e)
  | Ok b =>
      do ttl := Until (ses_ExpiresAt v) in
      if ttl <=? 0 then ret (Err (ErrIs SessionNotFound))
      else rSet (key c ["session"; ses_ID v]) b ttl
  end.

Definition store : SessionStore := mkSessionStore Get Put Delete.
Definition view : World → gmap string Session := records (space c "session").
End session.
End RedisSession.

(** ** token.go *)
Module RedisToken.
Section token.
Context `{Env} `{Redis} `{Codec TokenSet} (c : Client).

Definition Get (sessionID : string) : M (result TokenSet) :=
  do raw := rGet (key c ["token"; sessionID]) in
  match raw with
  | Ok None => ret (Err (ErrIs TokenNotFound))
  | Err e => ret (Err e)
  | Ok (Some raw) =>
      match unmarshal raw with
      | Err e => ret (Err e)
      | Ok v => ret (Ok v)
      end
  end.

Definition Put (sessionID : string) (v : TokenSet) (expiresAt : Time) : M (result unit) :=
  match marshal v with
  | Err e => ret (Err e)
  | Ok b =>
      do ttl := Until expiresAt in
      if ttl <=? 0 then ret (Err (ErrIs TokenNotFound))
      else rSet (key c ["token"; sessionID]) b ttl
  end.

Definition Delete (sessionID : string) : M (result unit) := rDel (key c ["token"; sessionID]).

Definition store : TokenStore := mkTokenStore Get Put Delete.
Definition view : World → gmap string TokenSet := records (space c "token").
End token.
End RedisToken.

(** ** flow.go *)
Module RedisFlow.
Section flow.
Context `{Env} `{Redis} `{Codec Flow} (c : Client).

Definition Put (flow : Flow) : M (result unit) :=
  match marshal flow with
  | Err e => ret (Err e)
  | Ok b =>
      do ttl := Until (flow_ExpiresAt flow) in
      if ttl <=? 0 then ret (Err (ErrIs FlowNotFound))
      else rSet (key c ["auth"; "flow"; flow_State flow]) b ttl
  end.

Definition Take (state : string) : M (result Flow) :=
  do raw := rGetDel (key c ["auth"; "flow"; state]) in
  match raw with
  | Ok None => ret (Err (ErrIs FlowNotFound))
  | Err e => ret (Err e)
  | Ok (Some raw) =>
      match unmarshal raw with
      | Err e => ret (Err e)
      | Ok flow =>
          do t := now in
          if negb (After (flow_ExpiresAt flow) t) then ret (Err (ErrIs FlowNotFound))
          else ret (Ok flow)
      end
  end.

Definition store : FlowStore := mkFlowStore Put Take.
Definition view : World → gmap string Flow := records (space c "auth:flow").
End flow.
End RedisFlow.

(** ** cache.go, at the one type that is cached *)
Module RedisCache.
Section cache.
Context `{Redis} (c : Client).

Definition Get (k : string) : M (result (option Context)) :=
  do raw := rGet (key c ["cache"; k]) in
  match raw with
  | Ok None => ret (Ok None)
  | Err e => ret (Err e)
  | Ok (Some raw) =>
      match unmarshal_context raw with
      | Err e => ret (Err e)
      | Ok v => ret (Ok (Some v))
      end
  end.

Definition Set_ (k : string) (value : Context) (ttl : Duration) : M (result unit) :=
  match marshal_context value with
  | Err e => ret (Err e)
  | Ok b => rSet (key c ["cache"; k]) b ttl
  end.

Definition Delete (k : string) : M (result unit) := rDel (key c ["cache"; k]).

Definition cache : Cache := mkCache Get Set_ Delete.
End cache.
End RedisCache.

(** ** refresh_lock.go *)
Module RedisLocker.
Section locker.
Context `{Env} `{Redis} (c : Client) (ctx_done : nat → option goerr).

Definition unlock (redisKey value : string) : M (result unit) :=
  do r := rEval release_script [redisKey] [value] in
  match r with
  | Err e => ret (Err (ErrWrap "release refresh lock" e))
  | Ok _ => ret (Ok tt)
  end.

(** The loop: [None] when the fuel runs out.  The [select] after a refused
    SETNX ends with the context's error or with the timer. *)
Fixpoint acquire (fuel : nat) (redisKey value : string) (ttl : Duration) : M (option (result unit)) :=
  match fuel with
  | O => ret None
  | S fuel =>
      do ok := rSetNX redisKey value ttl in
      match ok with
      | Err e => ret (Some (Err e))
      | Ok true => ret (Some (Ok tt))
      | Ok false =>
          do cancelled := oracle ctx_done in
          match cancelled with
          | Some e => ret (Some (Err e))
          | None => acquire fuel redisKey value ttl
          end
      end
  end.

Definition lock_ttl (ttl : Duration) : Duration := if ttl <=? 0 then 10 * Second else ttl.

Definition Lock (fuel : nat) (k : string) (ttl : Duration) : M (option (result (M (result unit)))) :=
  let ttl := lock_ttl ttl in
  do b := rand 16 in
  match b with
  | Err e => ret (Some (Err e))
  | Ok b =>
      let value := hex_encode b in
      let redisKey := key c ["lock"; k] in
      do got := acquire fuel redisKey value ttl in
      match got with
      | None => ret None
      | Some (Err e) => ret (Some (Err e))
      | Some (Ok _) => ret (Some (Ok (unlock redisKey value)))
      end
  end.

(** As a [RefreshLocker]; a wait longer than the fuel counts as cancelled. *)
Definition locker (fuel : nat) : RefreshLocker :=
  mkLocker (λ k ttl, do r := Lock fuel k ttl in
    ret (default (Err (ErrIs ContextDeadlineExceeded)) r)).
End locker.
End RedisLocker.

(** ** The stores meet their contracts *)

(** Every operation of the stores changes only the keys of the server. *)
Lemma redis_keeps_tick {A} `{Env} (f : nat → A) : Keeps redis_frame (oracle f).
Proof. apply keeps_oracle, redis_frame_tick. Qed.
#[export] Hint Resolve redis_keeps_tick : keeps.

Section contracts.
Context `{RedisSpec} (c : Client).

Section session.
Context `{!Codec Session} `{!CodecSpec ses_strings}.
#[local] Abbreviation sview := (RedisSession.view c).

Lemma redis_delete_view id w r w' :
  RedisSession.Delete c id w = (r, w') →
  match r with Ok _ => sview w' = delete id (sview w)
             | Err _ => sview w' = sview w ∨ sview w' = delete id (sview w) end.
Proof.
  unfold RedisSession.Delete, RedisSession.view. rewrite key_space. destruct r; intros Hr.
  - apply r_del_ok in Hr. by apply view_removed.
  - apply r_del_err in Hr as [Hr|Hr]; [left; by apply view_unchanged|right; by apply view_removed].
Qed.

Lemma redis_Get_cases id w r w' :
  RedisSession.Get c id w = (r, w') →
  (∃ e, r = Err e ∧ (sview w' = sview w ∨ sview w' = delete id (sview w))) ∨
  ∃ s, r = Ok s ∧ sview w !! id = Some s ∧ sview w' = sview w ∧
    (IsZero (ses_ExpiresAt s) = false → ∃ i, between w w' i ∧ session_expired s (clock i) = false).
Proof.
  unfold RedisSession.Get. rewrite key_space. intros (raw & w1 & Hg & Hk)%bind_inv.
  destruct raw as [[raw|]|e]; [|unfold ret in Hk; simplify_eq..].
  2: { left. eexists. split; [done|]. right. apply r_get_none in Hg as [Hg _]. by apply view_removed. }
  2: { left. eexists. split; [done|]. left. apply r_get_err in Hg. by apply view_unchanged. }
  pose proof (keeps_run redis_frame _ _ _ _ (r_get_frame _) Hg) as [_ Hl]. red in Hl.
  apply r_get_some in Hg as [Hraw Hsame]. apply (view_unchanged (A := Session) (space c "session")) in Hsame.
  destruct (unmarshal raw) as [v|e] eqn:Hu; [|unfold ret in Hk; simplify_eq; left; eauto].
  pose proof (view_read _ _ _ _ _ Hraw Hu) as Hv. apply bind_inv in Hk as (b & w2 & Hb & Hk).
  destruct (IsZero (ses_ExpiresAt v)) eqn:Hz; simpl in Hb; m_inv.
  { unfold ret in Hk. simplify_eq. right. exists v. split; [done|]. split; [done|]. split; [done|]. congruence. }
  destruct (After (ses_ExpiresAt v) (clock (w_tick w1))) eqn:Ha; simpl in Hk.
  - unfold ret in Hk. simplify_eq. right. exists v. split; [done|]. split; [done|]. split; [done|]. intros _.
    exists (w_tick w1). unfold between, session_expired. rewrite Hz, Ha. simpl. split; [lia|done].
  - apply bind_inv in Hk as (rd & w3 & Hd & [= <- <-]). left. eexists. split; [done|].
    apply redis_delete_view in Hd. change (sview (tick w1)) with (sview w1) in Hd.
    unfold RedisSession.view in *. rewrite Hsame in Hd. destruct rd; auto.
Qed.

Lemma redis_Put_cases s w r w' :
  Forall utf8 (ses_strings s) → RedisSession.Put c s w = (r, w') →
  match r with
  | Ok _ => sview w' = <[ses_ID s := s]> (sview w)
  | Err _ => sview w' = sview w ∨ sview w' = <[ses_ID s := s]> (sview w)
  end.
Proof.
  unfold RedisSession.Put, RedisSession.view. intros Hgood.
  destruct (marshal s) as [b|e] eqn:Hm; [|intros [= <- <-]; by left].
  rewrite key_space. intros (ttl & w1 & Ht & Hk)%bind_inv. unfold Until in Ht. m_inv.
  destruct (_ <=? 0); [unfold ret in Hk; simplify_eq; by left|].
  destruct r; [apply r_set_ok in Hk|apply r_set_err in Hk as [Hk|Hk]].
  - exact (view_written ses_strings _ _ _ _ _ _ _ Hgood Hm Hk).
  - left. exact (view_unchanged _ _ _ Hk).
  - right. exact (view_written ses_strings _ _ _ _ _ _ _ Hgood Hm Hk).
Qed.

Lemma redis_session_frame (op : SessionStore) :
  op = RedisSession.store c →
  (∀ id, Keeps redis_frame (ss_Get op id)) ∧ (∀ s, Keeps redis_frame (ss_Put op s)) ∧
  (∀ id, Keeps redis_frame (ss_Delete op id)).
Proof.
  intros ->. unfold RedisSession.store, RedisSession.Get, RedisSession.Put, RedisSession.Delete, Until. simpl.
  split; [|split]; intros ?; keeps.
Qed.

#[export] Instance redis_session_spec : SessionStoreSpec (RedisSession.store c) sview utf8.
Proof.
  destruct (redis_session_frame _ eq_refl) as (Hg & Hp & Hd).
  assert (∀ w w', redis_frame w w' → but_sessions w' = but_sessions w ∧ (w_tick w ≤ w_tick w')%nat) as Hfr.
  { intros w w' [[=] ?]. unfold but_sessions. split; [congruence|done]. }
  split; simpl; intros *.
  - apply (view_utf8 ses_strings).
  - done.
  - intros [(e&[=]&_)|(s'&[= ->]&?&?&?)]%redis_Get_cases. done.
  - intros [(e'&[= <-]&?)|(s'&[=]&_)]%redis_Get_cases. done.
  - intros Hgood Hr. by apply (redis_Put_cases _ _ _ _ Hgood) in Hr.
  - intros Hgood Hr. by apply (redis_Put_cases _ _ _ _ Hgood) in Hr.
  - intros Hr. by apply redis_delete_view in Hr.
  - intros Hr. by apply redis_delete_view in Hr.
  - intros Hr. by apply Hfr, (keeps_run redis_frame _ _ _ _ (Hg _) Hr).
  - intros Hr. by apply Hfr, (keeps_run redis_frame _ _ _ _ (Hp _) Hr).
  - intros Hr. by apply Hfr, (keeps_run redis_frame _ _ _ _ (Hd _) Hr).
Qed.
End session.

Section token.
Context `{!Codec TokenSet} `{!CodecSpec tok_strings}.
#[local] Abbreviation tview := (RedisToken.view c).

Lemma redis_token_Get_cases id w r w' :
  RedisToken.Get c id w = (r, w') →
  match r with
  | Ok s => tview w !! id = Some s ∧ tview w' = tview w
  | Err _ => tview w' = tview w ∨ tview w' = delete id (tview w)
  end.
Proof.
  unfold RedisToken.Get, RedisToken.view. rewrite key_space. intros (raw & w1 & Hg & Hk)%bind_inv.
  destruct raw as [[raw|]|e]; [|unfold ret in Hk; simplify_eq..].
  - apply r_get_some in Hg as [Hraw Hsame].
    destruct (unmarshal raw) as [v|e] eqn:Hu; unfold ret in Hk; simplify_eq.
    + split; [by eapply view_read|by apply view_unchanged].
    + left. by apply view_unchanged.
  - right. apply r_get_none in Hg as [Hg _]. by apply view_removed.
  - left. apply r_get_err in Hg. by apply view_unchanged.
Qed.

Lemma redis_token_Put_cases id s t w r w' :
  Forall utf8 (tok_strings s) → RedisToken.Put c id s t w = (r, w') →
  match r with
  | Ok _ => tview w' = <[id := s]> (tview w)
  | Err _ => tview w' = tview w ∨ tview w' = <[id := s]> (tview w)
  end.
Proof.
  unfold RedisToken.Put, RedisToken.view. intros Hgood.
  destruct (marshal s) as [b|e] eqn:Hm; [|intros [= <- <-]; by left].
  rewrite key_space. intros (ttl & w1 & Ht & Hk)%bind_inv. unfold Until in Ht. m_inv.
  destruct (_ <=? 0); [unfold ret in Hk; simplify_eq; by left|].
  destruct r; [apply r_set_ok in Hk|apply r_set_err in Hk as [Hk|Hk]].
  - exact (view_written tok_strings _ _ _ _ _ _ _ Hgood Hm Hk).
  - left. exact (view_unchanged _ _ _ Hk).
  - right. exact (view_written tok_strings _ _ _ _ _ _ _ Hgood Hm Hk).
Qed.

Lemma redis_token_Delete_cases id w r w' :
  RedisToken.Delete c id w = (r, w') →
  match r with Ok _ => tview w' = delete id (tview w)
             | Err _ => tview w' = tview w ∨ tview w' = delete id (tview w) end.
Proof.
  unfold RedisToken.Delete, RedisToken.view. rewrite key_space. destruct r; intros Hr.
  - apply r_del_ok in Hr. by apply view_removed.
  - apply r_del_err in Hr as [Hr|Hr]; [left; by apply view_unchanged|right; by apply view_removed].
Qed.

Lemma redis_token_keeps : TokenKeeps (RedisToken.store c) redis_frame.
Proof.
  split; simpl; unfold RedisToken.Get, RedisToken.Put, RedisToken.Delete, Until; intros *; keeps.
Qed.

#[export] Instance redis_token_spec : TokenStoreSpec (RedisToken.store c) tview utf8.
Proof.
  assert (∀ w w', redis_frame w w' → but_tokens w' = but_tokens w ∧ (w_tick w ≤ w_tick w')%nat) as Hfr.
  { intros w w' [[=] ?]. unfold but_tokens. split; [congruence|done]. }
  pose proof redis_token_keeps as [Hg Hp Hd]. split; [apply (view_utf8 tok_strings)|done..| | | | | | | | |];
    simpl; intros *.
  - apply (redis_token_Get_cases id w (Ok s)).
  - apply (redis_token_Get_cases id w (Err e)).
  - apply (redis_token_Put_cases id s t w (Ok u)).
  - apply (redis_token_Put_cases id s t w (Err e)).
  - apply (redis_token_Delete_cases id w (Ok u)).
  - apply (redis_token_Delete_cases id w (Err e)).
  - intros Hr. by apply Hfr, (keeps_run redis_frame _ _ _ _ (Hg _) Hr).
  - intros Hr. by apply Hfr, (keeps_run redis_frame _ _ _ _ (Hp _ _ _) Hr).
  - intros Hr. by apply Hfr, (keeps_run redis_frame _ _ _ _ (Hd _) Hr).
Qed.

(** Sessions and locks live in other key spaces than tokens. *)
Lemma outside_token x a id : x ≠ "t"%char → outside (space c "token") (key c [String x a; id]).
Proof. rewrite key_space. intros Hx j ?%spaces_disjoint. done. Qed.

#[export] Instance redis_session_keeps_tokens `{!Codec Session} :
  SessionKeeps (RedisSession.store c) (same tview).
Proof.
  unfold RedisToken.view. split; simpl;
    unfold RedisSession.Get, RedisSession.Put, RedisSession.Delete, Until; intros *; keeps.
  all: first [apply keeps_rGet_outside|apply keeps_rSet_outside|apply keeps_rDel_outside];
    by apply outside_token.
Qed.

Lemma redis_acquire_keeps (R : relation World) `{!PreOrder R} ctx_done fuel k v ttl :
  (∀ w, R w (tick w)) → Keeps R (rSetNX k v ttl) →
  Keeps R (RedisLocker.acquire ctx_done fuel k v ttl).
Proof.
  intros Ht Hs. induction fuel as [|fuel IH]; simpl; keeps.
Qed.

Lemma redis_locker_keeps (R : relation World) `{!PreOrder R} ctx_done fuel :
  (∀ w, R w (tick w)) →
  (∀ id v ttl, Keeps R (rSetNX (key c ["lock"; id]) v ttl)) →
  (∀ id v, Keeps R (rEval release_script [key c ["lock"; id]] [v])) →
  LockerKeeps (RedisLocker.locker c ctx_done fuel) R.
Proof.
  intros Ht Hs He. split; simpl; unfold RedisLocker.Lock, rand.
  - intros k ttl. keeps; solve [by apply keeps_oracle|by apply redis_acquire_keeps].
  - intros k ttl w u w'. intros (r & w1 & Hl & [= Hr <-])%bind_inv.
    apply bind_inv in Hl as ([b|e] & w2 & _ & Hl); [|unfold ret in Hl; by simplify_eq].
    apply bind_inv in Hl as (got & w3 & _ & Hl). destruct got as [[?|?]|]; unfold ret in Hl; simplify_eq/=.
    unfold RedisLocker.unlock. keeps.
Qed.

#[export] Instance redis_locker_keeps_tokens ctx_done fuel :
  LockerKeeps (RedisLocker.locker c ctx_done fuel) (same tview).
Proof.
  apply redis_locker_keeps; [apply _|done|..]; intros *.
  - apply keeps_rSetNX_outside. by apply outside_token.
  - apply keeps_release_outside. by apply outside_token.
Qed.
End token.
End contracts.

(** ** Properties *)
Section properties.
Context `{RedisSpec} (c : Client).

(** C11: the Redis stores implement the contracts of the session and of the
    token store (an abstract map from ids to records, read by [view]): whatever
    the server answers, a lost reply included.  Session operations and the
    refresh lock leave the stored tokens alone.  The theorems about session life
    times and token refresh, proved against the contracts, thus hold of the
    Redis deployment. *)
Theorem redis_stores_refine `{!Codec Session, !Codec TokenSet}
    `{!CodecSpec ses_strings, !CodecSpec tok_strings} ctx_done fuel :
  SessionStoreSpec (RedisSession.store c) (RedisSession.view c) utf8 ∧
  TokenStoreSpec (RedisToken.store c) (RedisToken.view c) utf8 ∧
  SessionKeeps (RedisSession.store c) (same (RedisToken.view c)) ∧
  LockerKeeps (RedisLocker.locker c ctx_done fuel) (same (RedisToken.view c)).
Proof. split_and!; apply _. Qed.

(** C17: what is put is what is got.  After a successful [Put] of a session,
    and as long as nobody writes its key, [Get] returns that session, unless the
    Redis command fails or the session is within a millisecond of its expiry. *)
Theorem redis_session_round_trip `{!Codec Session, !CodecSpec ses_strings} s w u w1 w2 r w3 :
  monotone_clock → Forall utf8 (ses_strings s) →
  is_int64 (ses_ExpiresAt s - clock (w_tick w)) → 0 < ses_ExpiresAt s →
  RedisSession.Put c s w = (Ok u, w1) →
  later w1 w2 → w_redis w2 !! key c ["session"; ses_ID s] = w_redis w1 !! key c ["session"; ses_ID s] →
  RedisSession.Get c (ses_ID s) w2 = (r, w3) →
  r = Ok s ∨
  (∃ e w', rGet (key c ["session"; ses_ID s]) w2 = (Err e, w') ∧ r = Err e) ∨
  (r = Err (ErrIs SessionNotFound) ∧
   ∃ i, between w2 w3 i ∧ ses_ExpiresAt s - Millisecond < clock i).
Proof.
  intros Hmono Hgood Hint Hpos Hput Hl Hkey Hget. unfold RedisSession.Put in Hput.
  destruct (marshal s) as [b|e] eqn:Hm; [|by unfold ret in Hput].
  apply bind_inv in Hput as (ttl & w0 & Ht & Hput). unfold Until in Ht. m_inv.
  destruct (Z.leb_spec (Sub (ses_ExpiresAt s) (clock (w_tick w))) 0) as [?|Httl]; [by unfold ret in Hput|].
  apply r_set_ok in Hput as (i & d & Hi & Hd & Hw1). rewrite Hw1, lookup_insert_eq in Hkey.
  destruct (Hd Httl) as (d' & -> & Hd' & _).
  assert (ses_ExpiresAt s - Millisecond < d') as Hlate.
  { pose proof (Hmono (w_tick w) i). unfold between in Hi. simpl in Hi. unfold Sub, is_int64 in *. lia. }
  unfold RedisSession.Get in Hget. apply bind_inv in Hget as (raw & w4 & Hg & Hk).
  destruct raw as [[raw|]|e].
  - pose proof (keeps_run redis_frame _ _ _ _ (r_get_frame _) Hg) as [_ Hl4]. red in Hl4.
    apply r_get_some in Hg as [Hraw _]. rewrite Hkey in Hraw. injection Hraw as <-.
    rewrite (codec_roundtrip s b Hgood Hm) in Hk. apply bind_inv in Hk as (x & w5 & Hx & Hk).
    destruct (IsZero (ses_ExpiresAt s)) eqn:Hz; simpl in Hx; m_inv.
    { unfold ret in Hk. simplify_eq. by left. }
    unfold After in Hk. destruct (Z.ltb_spec (clock (w_tick w4)) (ses_ExpiresAt s)) as [?|Hexp]; simpl in Hk.
    { unfold ret in Hk. simplify_eq. by left. }
    apply bind_inv in Hk as (rd & w6 & Hdel & [= <- <-]). right; right. split; [done|].
    apply (keeps_run redis_frame) in Hdel as [_ Hl6]; [|apply r_del_frame]. red in Hl6. simpl in Hl6.
    exists (w_tick w4). unfold between, Millisecond. split; [lia|lia].
  - unfold ret in Hk. simplify_eq. right; right. split; [done|].
    apply r_get_none in Hg as [_ Hgone]. apply Hgone in Hkey as (j & Hj & Hgd). exists j. simpl in Hgd.
    split; [done|lia].
  - unfold ret in Hk. simplify_eq. right; left. eauto.
Qed.

(** A login flow kept in Redis is used at most once: [Take] returns a flow
    that was stored under that state and has not expired, and no later [Take] of
    that state returns one, until somebody writes the key again. *)
Theorem redis_flow_single_use `{!Codec Flow} state f w w1 w2 r w3 :
  RedisFlow.Take c state w = (Ok f, w1) →
  w_redis w2 !! key c ["auth"; "flow"; state] = w_redis w1 !! key c ["auth"; "flow"; state] →
  RedisFlow.Take c state w2 = (r, w3) →
  RedisFlow.view c w !! state = Some f ∧ (∃ i, between w w1 i ∧ clock i < flow_ExpiresAt f) ∧
  ∃ e, r = Err e.
Proof.
  unfold RedisFlow.Take, RedisFlow.view. intros (raw & w4 & Hg & Hk)%bind_inv Hkey Ht.
  destruct raw as [[raw|]|e]; [|by unfold ret in Hk..].
  destruct (unmarshal raw) as [f'|e] eqn:Hu; [|by unfold ret in Hk].
  pose proof (keeps_run redis_frame _ _ _ _ (r_getdel_frame _) Hg) as [_ Hl]. red in Hl.
  apply bind_inv in Hk as (t & w5 & Hn & Hk). unfold now, oracle in Hn. simplify_eq.
  unfold After in Hk.
  destruct (Z.ltb_spec (clock (w_tick w4)) (flow_ExpiresAt f')); simpl in Hk; unfold ret in Hk; simplify_eq.
  apply r_getdel_some in Hg as [Hraw Hrem]. change (w_redis (tick w4)) with (w_redis w4) in Hkey.
  rewrite Hrem, lookup_delete_eq in Hkey. split; [|split].
  - rewrite key_space2 in Hraw. by eapply view_read.
  - exists (w_tick w4). unfold between. simpl. split; [lia|done].
  - apply bind_inv in Ht as ([[raw2|]|e] & w6 & Hg & Hk); [|unfold ret in Hk; simplify_eq; eauto..].
    apply r_getdel_some in Hg as [Hraw2 _]. by rewrite Hkey in Hraw2.
Qed.
End properties.
