(* ===== verification/RedisCodec.v ===== *)
(** * The stored records as JSON

    [encoding/json] on the structs that the Redis stores keep: session.Session,
    token.Set and auth.Flow, which have no tags.  They are decoded as
    GoStruct.v says; times are written in the zone of [Zone].  This discharges [CodecSpec] of Redis.v. *)

From S2P Require Import Prelude GoStrings GoURL World GoNumbers GoJSON GoTime GoStruct Session Token Auth Policy Redis.
Open Scope Z_scope.

(** ** The three structs *)
Section codecs.
Context `{Zone} `{!ZoneSpec}.

Definition session_json (s : Session) : result jval :=
  let? created := MarshalText (ses_CreatedAt s) in
  let? expires := MarshalText (ses_ExpiresAt s) in
  let? seen := MarshalText (ses_LastSeen s) in
  Ok (VObj [("ID", json_string (ses_ID s)); ("Subject", json_string (ses_Subject s));
            ("Issuer", json_string (ses_Issuer s)); ("Username", json_string (ses_Username s));
            ("DisplayName", json_string (ses_DisplayName s)); ("Email", json_string (ses_Email s));
            ("Roles", json_strings (ses_Roles s)); ("CreatedAt", VStr created true);
            ("ExpiresAt", VStr expires true); ("LastSeen", VStr seen true)]).

Definition zero_session : Session := mkSession "" "" "" "" "" "" [] 0 0 0.
Definition session_decoders : decoders Session :=
  [("ID", dec_string (λ s x, mkSession x (ses_Subject s) (ses_Issuer s) (ses_Username s) (ses_DisplayName s)
      (ses_Email s) (ses_Roles s) (ses_CreatedAt s) (ses_ExpiresAt s) (ses_LastSeen s)));
   ("Subject", dec_string (λ s x, mkSession (ses_ID s) x (ses_Issuer s) (ses_Username s) (ses_DisplayName s)
      (ses_Email s) (ses_Roles s) (ses_CreatedAt s) (ses_ExpiresAt s) (ses_LastSeen s)));
   ("Issuer", dec_string (λ s x, mkSession (ses_ID s) (ses_Subject s) x (ses_Username s) (ses_DisplayName s)
      (ses_Email s) (ses_Roles s) (ses_CreatedAt s) (ses_ExpiresAt s) (ses_LastSeen s)));
   ("Username", dec_string (λ s x, mkSession (ses_ID s) (ses_Subject s) (ses_Issuer s) x (ses_DisplayName s)
      (ses_Email s) (ses_Roles s) (ses_CreatedAt s) (ses_ExpiresAt s) (ses_LastSeen s)));
   ("DisplayName", dec_string (λ s x, mkSession (ses_ID s) (ses_Subject s) (ses_Issuer s) (ses_Username s) x
      (ses_Email s) (ses_Roles s) (ses_CreatedAt s) (ses_ExpiresAt s) (ses_LastSeen s)));
   ("Email", dec_string (λ s x, mkSession (ses_ID s) (ses_Subject s) (ses_Issuer s) (ses_Username s)
      (ses_DisplayName s) x (ses_Roles s) (ses_CreatedAt s) (ses_ExpiresAt s) (ses_LastSeen s)));
   ("Roles", dec_strings ses_Roles (λ s x, mkSession (ses_ID s) (ses_Subject s) (ses_Issuer s) (ses_Username s)
      (ses_DisplayName s) (ses_Email s) x (ses_CreatedAt s) (ses_ExpiresAt s) (ses_LastSeen s)));
   ("CreatedAt", dec_time (λ s x, mkSession (ses_ID s) (ses_Subject s) (ses_Issuer s) (ses_Username s)
      (ses_DisplayName s) (ses_Email s) (ses_Roles s) x (ses_ExpiresAt s) (ses_LastSeen s)));
   ("ExpiresAt", dec_time (λ s x, mkSession (ses_ID s) (ses_Subject s) (ses_Issuer s) (ses_Username s)
      (ses_DisplayName s) (ses_Email s) (ses_Roles s) (ses_CreatedAt s) x (ses_LastSeen s)));
   ("LastSeen", dec_time (λ s x, mkSession (ses_ID s) (ses_Subject s) (ses_Issuer s) (ses_Username s)
      (ses_DisplayName s) (ses_Email s) (ses_Roles s) (ses_CreatedAt s) (ses_ExpiresAt s) x))].

(** ExpiryUnix is an int64; the integer of the model may lie outside its range. *)
Definition not_int64 : goerr := errorf "not an int64".
Definition token_json (s : TokenSet) : result jval :=
  reject (tok_ExpiryUnix s <? int64_min) || (int64_max <? tok_ExpiryUnix s) with not_int64 ;;
  Ok (VObj [("AccessToken", json_string (tok_AccessToken s)); ("RefreshToken", json_string (tok_RefreshToken s));
            ("IDToken", json_string (tok_IDToken s)); ("ExpiryUnix", VNum (FormatInt (tok_ExpiryUnix s)))]).
Definition zero_token : TokenSet := mkTokenSet "" "" "" 0.
Definition token_decoders : decoders TokenSet :=
  [("AccessToken", dec_string (λ s x, mkTokenSet x (tok_RefreshToken s) (tok_IDToken s) (tok_ExpiryUnix s)));
   ("RefreshToken", dec_string (λ s x, mkTokenSet (tok_AccessToken s) x (tok_IDToken s) (tok_ExpiryUnix s)));
   ("IDToken", dec_string (λ s x, mkTokenSet (tok_AccessToken s) (tok_RefreshToken s) x (tok_ExpiryUnix s)));
   ("ExpiryUnix", dec_int64 (λ s x, mkTokenSet (tok_AccessToken s) (tok_RefreshToken s) (tok_IDToken s) x))].

Definition flow_json (f : Flow) : result jval :=
  let? expires := MarshalText (flow_ExpiresAt f) in
  Ok (VObj [("State", json_string (flow_State f)); ("Nonce", json_string (flow_Nonce f));
            ("CodeVerifier", json_string (flow_CodeVerifier f)); ("ReturnTo", json_string (flow_ReturnTo f));
            ("ExpiresAt", VStr expires true)]).
Definition zero_flow : Flow := mkFlow "" "" "" "" 0.
Definition flow_decoders : decoders Flow :=
  [("State", dec_string (λ f x, mkFlow x (flow_Nonce f) (flow_CodeVerifier f) (flow_ReturnTo f) (flow_ExpiresAt f)));
   ("Nonce", dec_string (λ f x, mkFlow (flow_State f) x (flow_CodeVerifier f) (flow_ReturnTo f) (flow_ExpiresAt f)));
   ("CodeVerifier", dec_string (λ f x, mkFlow (flow_State f) (flow_Nonce f) x (flow_ReturnTo f) (flow_ExpiresAt f)));
   ("ReturnTo", dec_string (λ f x, mkFlow (flow_State f) (flow_Nonce f) (flow_CodeVerifier f) x (flow_ExpiresAt f)));
   ("ExpiresAt", dec_time (λ f x, mkFlow (flow_State f) (flow_Nonce f) (flow_CodeVerifier f) (flow_ReturnTo f) x))].
Definition flow_strings (f : Flow) : list string :=
  [flow_State f; flow_Nonce f; flow_CodeVerifier f; flow_ReturnTo f].

(** [json.Marshal], [json.Unmarshal] *)
#[export] Instance session_codec : Codec Session := {|
  marshal s := let? v := session_json s in Ok (Marshal v);
  unmarshal b := Unmarshal session_decoders zero_session b;
|}.
#[export] Instance token_codec : Codec TokenSet := {|
  marshal s := let? v := token_json s in Ok (Marshal v);
  unmarshal b := Unmarshal token_decoders zero_token b;
|}.
#[export] Instance flow_codec : Codec Flow := {|
  marshal f := let? v := flow_json f in Ok (Marshal v);
  unmarshal b := Unmarshal flow_decoders zero_flow b;
|}.

(** One goal per field. *)
Ltac fields_utf8 :=
  repeat (apply list.Forall_cons_2; [|]); [..|apply list.Forall_nil_2];
  first [apply dec_string_utf8|apply dec_strings_utf8; [intros a Ha; unfold ses_strings in Ha;
      rewrite !list.Forall_cons in Ha; tauto|]|apply dec_time_utf8|apply dec_int64_utf8]; cbn beta;
  intros a x; try done;
  unfold ses_strings, tok_strings, flow_strings; cbn [ses_ID ses_Subject ses_Issuer ses_Username
    ses_DisplayName ses_Email ses_Roles tok_AccessToken tok_RefreshToken tok_IDToken flow_State flow_Nonce
    flow_CodeVerifier flow_ReturnTo];
  rewrite !list.Forall_cons; intuition.

Lemma session_decoders_utf8 : Forall (λ f, keeps_utf8 ses_strings f.2) session_decoders.
Proof. unfold session_decoders. fields_utf8. Qed.
Lemma token_decoders_utf8 : Forall (λ f, keeps_utf8 tok_strings f.2) token_decoders.
Proof. unfold token_decoders. fields_utf8. Qed.
Lemma flow_decoders_utf8 : Forall (λ f, keeps_utf8 flow_strings f.2) flow_decoders.
Proof. unfold flow_decoders. fields_utf8. Qed.

(** The next member is decoded by its field. *)
Ltac member :=
  erewrite members_step; [|vm_compute; reflexivity|reflexivity|
    lazymatch goal with
    | |- dec_string _ _ _ = _ => apply dec_json_string
    | |- dec_strings _ _ _ _ = _ => apply dec_json_strings
    | Hm : MarshalText _ = Ok ?s |- dec_time _ (VStr ?s true) _ = _ => exact (dec_time_text _ _ _ _ Hm)
    | |- dec_int64 _ _ _ = _ => apply dec_json_int; done
    end];
  cbn [ses_ID ses_Subject ses_Issuer ses_Username ses_DisplayName ses_Email ses_Roles ses_CreatedAt
    ses_ExpiresAt ses_LastSeen tok_AccessToken tok_RefreshToken tok_IDToken tok_ExpiryUnix
    flow_State flow_Nonce flow_CodeVerifier flow_ReturnTo flow_ExpiresAt].

Ltac depth := cbn [jdepth foldr snd json_string]; unfold max_depth; lia.

#[export] Instance session_codec_spec : CodecSpec ses_strings.
Proof.
  split.
  - intros s b Hs (v & (c & Hc & (e & He & (l & Hl & [= <-])%result_bind_ok)%result_bind_ok)%result_bind_ok
      & [= <-])%result_bind_ok. cbn [unmarshal session_codec].
    unfold ses_strings in Hs. rewrite !list.Forall_cons in Hs. destruct Hs as (?&?&?&?&?&?&?).
    unfold Unmarshal. rewrite Parse_Marshal.
    + cbn [result_bind decode_struct]. unfold zero_session. do 10 member. by destruct s.
    + repeat (apply printable_member; [done| |]); try done; [by apply json_strings_printable|..];
        by eapply MarshalText_plain.
    + pose proof (json_strings_depth (ses_Roles s)). depth.
  - intros s b. apply Unmarshal_utf8; [apply session_decoders_utf8|]. by repeat constructor.
Qed.

#[export] Instance token_codec_spec : CodecSpec tok_strings.
Proof.
  split.
  - intros s b Hs (v & [Hr [= <-]]%reject_if_ok & [= <-])%result_bind_ok. cbn [unmarshal token_codec].
    apply orb_false_iff in Hr as [Hr1 Hr2]. bool_inv.
    assert (is_int64 (tok_ExpiryUnix s)) by (unfold is_int64; lia).
    unfold tok_strings in Hs. rewrite !list.Forall_cons in Hs. destruct Hs as (?&?&?&_).
    unfold Unmarshal. rewrite Parse_Marshal.
    + cbn [result_bind decode_struct]. unfold zero_token. do 4 member. by destruct s.
    + repeat (apply printable_member; [done| |]); try done. by eexists.
    + depth.
  - intros s b. apply Unmarshal_utf8; [apply token_decoders_utf8|]. by repeat constructor.
Qed.

#[export] Instance flow_codec_spec : CodecSpec flow_strings.
Proof.
  split.
  - intros f b Hs (v & (e & He & [= <-])%result_bind_ok & [= <-])%result_bind_ok. cbn [unmarshal flow_codec].
    unfold flow_strings in Hs. rewrite !list.Forall_cons in Hs. destruct Hs as (?&?&?&?&_).
    unfold Unmarshal. rewrite Parse_Marshal.
    + cbn [result_bind decode_struct]. unfold zero_flow. do 5 member. by destruct f.
    + repeat (apply printable_member; [done| |]); try done. by eapply MarshalText_plain.
    + depth.
  - intros s b. apply Unmarshal_utf8; [apply flow_decoders_utf8|]. by repeat constructor.
Qed.
End codecs.
