(* ===== verification/RedisLock.v ===== *)
(** * The refresh lock in Redis: internal/store/redis/refresh_lock.go

    [RefreshLocker.Lock] of Redis.v: the loop ends, also when the holder of the
    lock has gone away, and among any number of processes at most one holds a
    lease that has not run out.  The last part is a server that satisfies
    [RedisSpec], on which the theorems about Redis are run. *)

From S2P Require Import Prelude GoStrings World Session Token Auth Policy GoTime Redis RedisCodec.
Open Scope Z_scope.

Import RedisLocker.

(** ** The loop ends *)
Section loop.
Context `{RedisSpec} (c : Client) (ctx_done : nat → option goerr).

(** More fuel does not change a result. *)
Lemma acquire_fuel fuel extra k v ttl w r w' :
  acquire ctx_done fuel k v ttl w = (Some r, w') →
  acquire ctx_done (fuel + extra) k v ttl w = (Some r, w').
Proof.
  revert w. induction fuel as [|fuel IH]; intros w; [done|]. cbn [Nat.add acquire].
  intros ([[]|e] & w1 & Hs & Hk)%bind_inv; unfold bind; rewrite Hs; [done| |done].
  apply bind_inv in Hk as (d & w2 & Hd & Hk). rewrite Hd. destruct d; [done|]. by apply IH.
Qed.

Lemma acquire_same_result f1 f2 k v ttl w r1 w1 r2 w2 :
  acquire ctx_done f1 k v ttl w = (Some r1, w1) → acquire ctx_done f2 k v ttl w = (Some r2, w2) →
  r1 = r2 ∧ w1 = w2.
Proof.
  intros H1' H2'. apply (acquire_fuel _ f2) in H1'. apply (acquire_fuel _ f1) in H2'.
  rewrite Nat.add_comm, H1' in H2'. by simplify_eq.
Qed.

(** Every round reads the context, an event of its own. *)
Lemma acquire_terminates fuel k v ttl w n :
  (∀ i, (n ≤ i)%nat → ctx_done i ≠ None) → (n < w_tick w + fuel)%nat → (0 < fuel)%nat →
  ∃ r w', acquire ctx_done fuel k v ttl w = (Some r, w').
Proof.
  intros Hctx. revert w. induction fuel as [|fuel IH]; intros w Hf Hpos; [lia|]. cbn [acquire].
  unfold bind at 1. destruct (rSetNX k v ttl w) as [ok w1] eqn:Hs.
  apply (keeps_run redis_frame) in Hs as [_ Hl]; [|apply r_setnx_frame]. red in Hl.
  destruct ok as [[]|e]; [by eexists _, _| |by eexists _, _].
  unfold bind, oracle. destruct (ctx_done (w_tick w1)) as [e|] eqn:Hd; [by eexists _, _|].
  assert (w_tick w1 < n)%nat as Hlt.
  { destruct (decide (n ≤ w_tick w1)%nat) as [Hle|]; [|lia]. by destruct (Hctx _ Hle). }
  apply IH; simpl; lia.
Qed.

(** A lock whose lease runs out is taken over. *)
Lemma acquire_takes_over fuel k v ttl w n d :
  monotone_clock → (∀ i, ctx_done i = None) →
  (∀ w1 e w2, rSetNX k v ttl w1 ≠ (Err e, w2)) →
  (∀ v' d', w_redis w !! k = Some (v', d') → d' = Some d) → d < clock n →
  (n < w_tick w + fuel)%nat → (0 < fuel)%nat →
  ∃ w', acquire ctx_done fuel k v ttl w = (Some (Ok tt), w') ∧ fst <$> w_redis w' !! k = Some v.
Proof.
  intros Hmono Hctx Hup. revert w. induction fuel as [|fuel IH]; intros w Hdl Hn Hf Hpos; [lia|]. cbn [acquire].
  unfold bind at 1. destruct (rSetNX k v ttl w) as [[[]|e] w1] eqn:Hs; [..|by destruct (Hup w e w1)].
  - eexists. split; [done|]. apply r_setnx_true in Hs as [_ (i & d' & _ & _ & ->)].
    by rewrite lookup_insert_eq.
  - pose proof (keeps_run redis_frame _ _ _ _ (r_setnx_frame _ _ _) Hs) as [_ Hl]. red in Hl.
    apply r_setnx_false in Hs as (Hsame & i & v' & d' & Hi & Hk & Hal).
    unfold bind, oracle. rewrite Hctx. rewrite (Hdl _ _ Hk) in Hal. simpl in Hal.
    assert (i < n)%nat as Hlt.
    { destruct (decide (n ≤ i)%nat) as [Hle|]; [|lia]. pose proof (Hmono _ _ Hle). lia. }
    unfold between in Hi. apply IH; simpl; [|done|lia|lia]. rewrite Hsame. done.
Qed.

(** C15: [Lock] returns.  If the context of the caller ends at some event, the
    loop ends, whatever the server answers: with enough fuel the model has a
    result, and more fuel does not change it. *)
Theorem redis_lock_terminates k ttl w n :
  (∀ i, (n ≤ i)%nat → ctx_done i ≠ None) →
  ∃ r w', ∀ fuel, (n < w_tick w + fuel)%nat → (0 < fuel)%nat → Lock c ctx_done fuel k ttl w = (Some r, w').
Proof.
  intros Hctx. unfold Lock. destruct (rand_read (w_tick w) 16) as [b|e] eqn:Hb.
  - set (key' := key c _). set (ttl' := lock_ttl ttl).
    destruct (acquire_terminates (S n) key' (hex_encode b) ttl' (tick w) n Hctx) as (r & w' & Hr);
      [simpl; lia|lia|].
    exists (match r with Err e => Err e | Ok _ => Ok (unlock key' (hex_encode b)) end), w'.
    intros fuel Hf Hpos. unfold bind, rand, oracle. rewrite Hb.
    destruct (acquire_terminates fuel key' (hex_encode b) ttl' (tick w) n Hctx) as (r' & w'' & Hr');
      [simpl; lia|done|].
    rewrite Hr'. destruct (acquire_same_result _ _ _ _ _ _ _ _ _ _ Hr' Hr) as [-> ->]. by destruct r.
  - exists (Err e), (tick w). intros fuel _ _. unfold bind, rand, oracle. by rewrite Hb.
Qed.

(** C16: a lock is not held for ever.  However its holder ended, once the
    clock has passed the deadline of its lease a waiting [Lock] that is not
    cancelled and reaches the server gets the lock: the loop ends with success
    and the key holds the caller's value. *)
Theorem redis_lock_taken_over k ttl w b n d :
  monotone_clock → (∀ i, ctx_done i = None) → rand_read (w_tick w) 16 = Ok b →
  (∀ v t w1 e w2, rSetNX (key c ["lock"; k]) v t w1 ≠ (Err e, w2)) →
  (∀ v' d', w_redis w !! key c ["lock"; k] = Some (v', d') → d' = Some d) → d < clock n →
  ∃ w', ∀ fuel, (n < w_tick w + fuel)%nat → (0 < fuel)%nat →
    Lock c ctx_done fuel k ttl w = (Some (Ok (unlock (key c ["lock"; k]) (hex_encode b))), w') ∧
    fst <$> w_redis w' !! key c ["lock"; k] = Some (hex_encode b).
Proof.
  intros Hmono Hctx Hb Hup Hdl Hn. unfold Lock. set (key' := key c _) in *. set (ttl' := lock_ttl ttl).
  destruct (acquire_takes_over (S n) key' (hex_encode b) ttl' (tick w) n d) as (w' & Hr & Hk);
    try done; [simpl; lia|lia|].
  exists w'. intros fuel Hf Hpos. split; [|done]. unfold bind, rand, oracle. rewrite Hb.
  destruct (acquire_takes_over fuel key' (hex_encode b) ttl' (tick w) n d) as (w'' & Hr' & _);
    try done; [simpl; lia|].
  by rewrite Hr'; destruct (acquire_same_result _ _ _ _ _ _ _ _ _ _ Hr' Hr) as [_ ->].
Qed.
End loop.

(** ** Mutual exclusion

    Processes that lock one key, interleaved at the commands they send. *)
Section mutex.
Context `{RedisSpec} (k : string) (ttl : Duration).

(** A process: before [Lock]; in its loop with its random value; holding the
    lock, with the deadline its lease was given; done (released, cancelled or
    failed). *)
Inductive process :=
  | Idle
  | Trying (value : string)
  | Holding (value : string) (deadline : Time)
  | Ended.

Inductive lock_step : relation (list process * World) :=
  | lock_start ps w i b w' :
      ps !! i = Some Idle → rand 16 w = (Ok b, w') →
      lock_step (ps, w) (<[i := Trying (hex_encode b)]> ps, w')
  | lock_acquired ps w i v d w' :
      ps !! i = Some (Trying v) → rSetNX k v ttl w = (Ok true, w') →
      w_redis w' !! k = Some (v, Some d) →
      lock_step (ps, w) (<[i := Holding v d]> ps, w')
  | lock_refused ps w i v w' :
      ps !! i = Some (Trying v) → rSetNX k v ttl w = (Ok false, w') → lock_step (ps, w) (ps, w')
  | lock_failed ps w i v e w' :
      ps !! i = Some (Trying v) → rSetNX k v ttl w = (Err e, w') →
      lock_step (ps, w) (<[i := Ended]> ps, w')
  | lock_cancelled ps w i v :
      ps !! i = Some (Trying v) → lock_step (ps, w) (<[i := Ended]> ps, w)
  | lock_released ps w i v d r w' :
      ps !! i = Some (Holding v d) → unlock k v w = (r, w') →
      lock_step (ps, w) (<[i := Ended]> ps, w')
  | lock_crashed ps w i v d :
      ps !! i = Some (Holding v d) → lock_step (ps, w) (<[i := Ended]> ps, w)
  | lock_other ps w w' :
      w_redis w' !! k = w_redis w !! k → later w w' → lock_step (ps, w) (ps, w').

Definition value_of (p : process) : option string :=
  match p with Trying v | Holding v _ => Some v | _ => None end.

(** The random values drawn before event [n] are distinct. *)
Definition distinct_values (n : nat) : Prop := ∀ i j b b',
  (i < n)%nat → (j < n)%nat → rand_read i 16 = Ok b → rand_read j 16 = Ok b' →
  hex_encode b = hex_encode b' → i = j.

(** The value [v] was drawn before the current event. *)
Definition drawn (w : World) (v : string) : Prop :=
  ∃ i b, (i < w_tick w)%nat ∧ rand_read i 16 = Ok b ∧ v = hex_encode b.

Definition values_distinct (ps : list process) : Prop := ∀ i j p q v,
  ps !! i = Some p → ps !! j = Some q → value_of p = Some v → value_of q = Some v → i = j.

(** A lease is in the server, or has run out. *)
Definition leases_ok (ps : list process) (w : World) : Prop := ∀ i v d,
  ps !! i = Some (Holding v d) → w_redis w !! k = Some (v, Some d) ∨ d ≤ clock (w_tick w).

Definition lock_inv (c : list process * World) : Prop :=
  (∀ i p v, c.1 !! i = Some p → value_of p = Some v → drawn c.2 v) ∧
  values_distinct c.1 ∧ leases_ok c.1 c.2.

Context (Hmono : monotone_clock).

Lemma clock_later w w' : later w w' → clock (w_tick w) ≤ clock (w_tick w').
Proof. apply Hmono. Qed.

Lemma drawn_later w w' v : later w w' → drawn w v → drawn w' v.
Proof. unfold later. intros Hl (i & b & Hi & ?). exists i, b. split; [lia|done]. Qed.

(** A process keeps its value or loses it. *)
Lemma values_update (ps : list process) i p q :
  ps !! i = Some p → (value_of q = value_of p ∨ value_of q = None) →
  ∀ j p' v, <[i := q]> ps !! j = Some p' → value_of p' = Some v →
  ∃ p0, ps !! j = Some p0 ∧ value_of p0 = Some v.
Proof.
  intros Hi Hq j p' v [(-> & <- & _)|[_ Hj]]%list_lookup_insert_Some Hv; [|by eauto].
  exists p. split; [done|]. destruct Hq; congruence.
Qed.

Lemma values_distinct_update (ps : list process) i p q :
  ps !! i = Some p → (value_of q = value_of p ∨ value_of q = None) →
  values_distinct ps → values_distinct (<[i := q]> ps).
Proof.
  intros Hi Hq Hd j1 j2 p1 p2 v H1' H2' Hv1 Hv2.
  destruct (values_update _ _ _ _ Hi Hq _ _ _ H1' Hv1) as (p1' & ? & ?).
  destruct (values_update _ _ _ _ Hi Hq _ _ _ H2' Hv2) as (p2' & ? & ?). eauto.
Qed.

Lemma leases_same ps w w' :
  w_redis w' !! k = w_redis w !! k → later w w' → leases_ok ps w → leases_ok ps w'.
Proof.
  intros Hk Hl Hok i v d Hi. rewrite Hk. destruct (Hok i v d Hi) as [?|?]; [by left|right].
  apply clock_later in Hl. lia.
Qed.

(** When the key could be taken, every lease had run out. *)
Lemma leases_gone ps w w' i v d :
  was_gone k w w' → later w w' → leases_ok ps w → ps !! i = Some (Holding v d) → d ≤ clock (w_tick w').
Proof.
  intros Hg Hl Hok Hi. destruct (Hok i v d Hi) as [Hk|?]; [|apply clock_later in Hl; lia].
  apply Hg in Hk as (j & Hj & Hd). simpl in Hd. unfold between in Hj.
  pose proof (Hmono j (w_tick w') ltac:(lia)). lia.
Qed.

Lemma leases_drop ps i q :
  (∀ v d, q ≠ Holding v d) → ∀ w, leases_ok ps w → leases_ok (<[i := q]> ps) w.
Proof.
  intros Hq w Hok j v d [(-> & Hqq & _)|[_ Hj]]%list_lookup_insert_Some; [by destruct (Hq v d)|by eauto].
Qed.

(** SETNX, whatever it answered, leaves the leases of the others in order. *)
Lemma leases_after_setnx ps w r w' v :
  rSetNX k v ttl w = (r, w') → leases_ok ps w → leases_ok ps w' ∧ later w w'.
Proof.
  intros Hs Hok. pose proof (keeps_run redis_frame _ _ _ _ (r_setnx_frame _ _ _) Hs) as [_ Hl].
  split; [|done].
  assert (unchanged w w' ∨ was_gone k w w') as [Hu|Hg].
  { destruct r as [[]|e].
    - right. by apply r_setnx_true in Hs as [? _].
    - left. by apply r_setnx_false in Hs as [? _].
    - apply r_setnx_err in Hs as [?|[? _]]; auto. }
  - eapply leases_same; [by rewrite Hu|done|done].
  - intros i u d Hi. right. by eapply leases_gone.
Qed.

(** The release of one holder removes no other holder's lease. *)
Lemma leases_after_unlock ps w i v d r w' :
  ps !! i = Some (Holding v d) → unlock k v w = (r, w') → values_distinct ps → leases_ok ps w →
  leases_ok (<[i := Ended]> ps) w' ∧ later w w'.
Proof.
  unfold unlock. intros Hi (r' & w1 & He & Hk)%bind_inv Hd Hok.
  assert (w1 = w') as -> by (destruct r'; unfold ret in Hk; by simplify_eq).
  pose proof (keeps_run redis_frame _ _ _ _ (r_eval_frame _ _ _) He) as [_ Hl]. split; [|done].
  assert (unchanged w w' ∨ released k v w w') as Hw.
  { destruct r' as [u|e]; [right; by eapply r_release_ok|by eapply r_release_err]. }
  intros j u d' [(-> & [=] & _)|[Hne Hj]]%list_lookup_insert_Some.
  destruct (Hok j u d' Hj) as [Hku|?]; [|right; apply clock_later in Hl; lia].
  left. destruct Hw as [Hw|Hw]; [by rewrite Hw|]. red in Hw.
  rewrite bool_decide_eq_false_2 in Hw; [by rewrite Hw|].
  rewrite Hku. intros [= ->]. by apply Hne, (Hd i j _ _ v Hi Hj).
Qed.

Lemma lock_inv_step c c' n :
  distinct_values n → (w_tick c'.2 ≤ n)%nat → lock_step c c' → lock_inv c → lock_inv c' ∧ later c.2 c'.2.
Proof.
  intros Hdist Hn Hstep (Hdr & Hval & Hok).
  assert (∀ (ps : list process) w w' i p q, ps !! i = Some p → (value_of q = value_of p ∨ value_of q = None) → later w w' →
    (∀ i p v, ps !! i = Some p → value_of p = Some v → drawn w v) →
    ∀ j p' v, <[i := q]> ps !! j = Some p' → value_of p' = Some v → drawn w' v) as Hdrawn.
  { intros ps w w' i p q Hi Hq Hl Hd j p' v Hj Hv.
    destruct (values_update _ _ _ _ Hi Hq _ _ _ Hj Hv) as (p0 & ? & ?). eauto using drawn_later. }
  destruct Hstep as [ps w i b w' Hi Hr|ps w i v d w' Hi Hs Hk|ps w i v w' Hi Hs|ps w i v e w' Hi Hs|ps w i v Hi
    |ps w i v d r w' Hi Hu|ps w i v d Hi|ps w w' Hk Hl]; simpl in *.
  - unfold rand, oracle in Hr. injection Hr as Hb <-. simpl in Hn.
    assert (later w (tick w)) as Hl by (unfold later; simpl; lia). split; [|done].
    assert (drawn (tick w) (hex_encode b)) as Hnew by (exists (w_tick w), b; simpl; auto with lia).
    assert (∀ j p v, ps !! j = Some p → value_of p = Some v → v ≠ hex_encode b) as Hfresh.
    { intros j p v Hj Hv ->. destruct (Hdr j p _ Hj Hv) as (e & b' & He & Hb' & Heq).
      assert (w_tick w = e) by (eapply (Hdist _ _ b b'); [lia|lia|done..]). lia. }
    split; [|split].
    + intros j p v [(-> & <- & _)|[_ Hj]]%list_lookup_insert_Some Hv; simpl in Hv; [by simplify_eq|].
      eauto using drawn_later.
    + intros j1 j2 p1 p2 v [(-> & <- & _)|[Hne1 Hj1]]%list_lookup_insert_Some
        [(-> & <- & _)|[Hne2 Hj2]]%list_lookup_insert_Some Hv1 Hv2; simpl in *; [done|..].
      * by destruct (Hfresh j2 p2 v Hj2 Hv2); congruence.
      * by destruct (Hfresh j1 p1 v Hj1 Hv1); congruence.
      * eauto.
    + apply leases_drop; [done|]. by apply (leases_same ps w).
  - destruct (leases_after_setnx _ _ _ _ _ Hs Hok) as [Hok' Hl]. split; [|done].
    split; [|split]; [by eapply Hdrawn; eauto|by eapply values_distinct_update; eauto|].
    intros j u d' [(-> & [= <- <-] & _)|[_ Hj]]%list_lookup_insert_Some; [by left|by apply (Hok' j)].
  - destruct (leases_after_setnx _ _ _ _ _ Hs Hok) as [Hok' Hl]. split; [|done].
    split; [|split]; eauto using drawn_later.
  - destruct (leases_after_setnx _ _ _ _ _ Hs Hok) as [Hok' Hl]. split; [|done].
    split; [|split]; [by eapply Hdrawn; eauto|by eapply values_distinct_update; eauto|by apply leases_drop].
  - split; [|by red]. split; [|split];
      [by eapply Hdrawn; eauto|by eapply values_distinct_update; eauto|by apply leases_drop].
  - destruct (leases_after_unlock _ _ _ _ _ _ _ Hi Hu Hval Hok) as [Hok' Hl]. split; [|done].
    split; [|split]; [by eapply Hdrawn; eauto|by eapply values_distinct_update; eauto|done].
  - split; [|by red]. split; [|split];
      [by eapply Hdrawn; eauto|by eapply values_distinct_update; eauto|by apply leases_drop].
  - split; [|done]. split; [|split]; [by eauto using drawn_later|done|by eapply leases_same].
Qed.

Lemma lock_step_later c c' : lock_step c c' → later c.2 c'.2.
Proof.
  intros [ps w i b w' _ Hr|ps w i v d w' _ Hs _|ps w i v w' _ Hs|ps w i v e w' _ Hs|ps w i v _
    |ps w i v d r w' _ Hu|ps w i v d _|ps w w' _ Hl]; simpl; try by red.
  1: { unfold rand, oracle in Hr. injection Hr as _ <-. unfold later. simpl. lia. }
  1-3: by apply (keeps_run redis_frame) in Hs as [_ ?]; [|apply r_setnx_frame].
  unfold unlock in Hu. apply bind_inv in Hu as (r' & w1 & He & Hk).
  apply (keeps_run redis_frame) in He as [_ ?]; [|apply r_eval_frame].
  destruct r'; unfold ret in Hk; by simplify_eq.
Qed.

Lemma lock_steps_later c c' : rtc lock_step c c' → later c.2 c'.2.
Proof. induction 1 as [|c1 c2 c3 Hs%lock_step_later _ IH]; [by red|]. by etransitivity. Qed.

Lemma lock_inv_reachable c c' n :
  distinct_values n → (w_tick c'.2 ≤ n)%nat → rtc lock_step c c' → lock_inv c → lock_inv c'.
Proof.
  intros Hdist Hn Hr.
  induction Hr as [|c1 c2 c3 Hs Hr IH]; [done|]. intros Hinv. apply IH; [done|].
  eapply lock_inv_step; [done| |done|done]. apply lock_steps_later in Hr. unfold later in Hr. lia.
Qed.

(** C12: at most one process holds a lease that has not run out.  Any number
    of processes lock and unlock one key through Redis, interleaved in any way,
    crash, are cancelled, or lose replies: if two hold the lock at an instant
    before the deadline of both leases, they are the same process.  In
    particular a holder whose lease has run out does not release the lock of
    its successor.  The random values drawn are assumed distinct. *)
Theorem redis_lock_exclusive n w ps w' i j v1 d1 v2 d2 :
  distinct_values (w_tick w') →
  rtc lock_step (replicate n Idle, w) (ps, w') →
  ps !! i = Some (Holding v1 d1) → ps !! j = Some (Holding v2 d2) →
  clock (w_tick w') < d1 → clock (w_tick w') < d2 → i = j.
Proof.
  intros Hdist Hr Hi Hj Hd1 Hd2. apply (lock_inv_reachable _ _ (w_tick w')) in Hr as (_ & Hval & Hok).
  - simpl in *. destruct (Hok _ _ _ Hi) as [Hk1|?]; [|lia]. destruct (Hok _ _ _ Hj) as [Hk2|?]; [|lia].
    assert (v2 = v1) as -> by congruence. by apply (Hval i j _ _ v1 Hi Hj).
  - done.
  - simpl. lia.
  - split; [|split]; simpl.
    + by intros x p v [-> _]%lookup_replicate.
    + by intros x y p q v [-> _]%lookup_replicate.
    + by intros x v d [[=] _]%lookup_replicate.
Qed.

(** A run of the loop is a sequence of steps of one process. *)
Lemma acquire_steps ctx_done fuel v w w' :
  0 < ttl → acquire ctx_done fuel k v ttl w = (Some (Ok tt), w') →
  ∃ d, rtc lock_step ([Trying v], w) ([Holding v d], w').
Proof.
  intros Httl. revert w. induction fuel as [|fuel IH]; intros w; [done|]. cbn [acquire].
  intros ([[]|e] & w1 & Hs & Hk)%bind_inv; [|apply bind_inv in Hk as (d & w2 & Hd & Hk)|done].
  - unfold ret in Hk. simplify_eq. pose proof (r_setnx_true _ _ _ _ _ Hs) as [_ (i & d & _ & Hd & Hw)].
    destruct (Hd Httl) as (d' & -> & _). exists d'. apply rtc_once.
    apply (lock_acquired [Trying v] w 0 v d' w'); [done|done|]. by rewrite Hw, lookup_insert_eq.
  - unfold oracle in Hd. destruct d as [e|]; [by unfold ret in Hk|]. simplify_eq.
    apply IH in Hk as (d & Hk). exists d. eapply rtc_l; [by apply (lock_refused [Trying v] w 0 v w1)|].
    eapply rtc_l; [|done]. apply lock_other; [done|]. unfold later. simpl. lia.
Qed.
End mutex.

(** So is a call of [Lock]. *)
Lemma Lock_steps `{RedisSpec} c ctx_done fuel kk ttl w u w' :
  Lock c ctx_done fuel kk ttl w = (Some (Ok u), w') →
  ∃ v d, u = unlock (key c ["lock"; kk]) v ∧
    rtc (lock_step (key c ["lock"; kk]) (lock_ttl ttl)) ([Idle], w) ([Holding v d], w').
Proof.
  unfold Lock. intros ([b|e] & w1 & Hr & Hk)%bind_inv; [|by unfold ret in Hk].
  apply bind_inv in Hk as ([[[]|e]|] & w2 & Ha & Hk); unfold ret in Hk; simplify_eq.
  assert (0 < lock_ttl ttl) as Httl.
  { unfold lock_ttl, Second. destruct (Z.leb_spec ttl 0); lia. }
  apply (acquire_steps _ _ _ _ _ _ _ Httl) in Ha as (d & Ha).
  exists (hex_encode b), d. split; [done|]. eapply rtc_l; [|done].
  by apply (lock_start _ _ [Idle] w 0 b w1).
Qed.

(** ** A server, for examples

    Keys with deadlines, read at the time of the command; commands whose event
    is in [down] fail without effect. *)
Section server.
Context `{Env} (down : nat → bool).
#[local] Abbreviation db := (gmap string (string * option Time)).

Definition command {A} (f : Time → db → A * db) : M (result A) := λ w,
  if down (w_tick w) then (Err (errorf "connection refused"), tick w) else
  let '(a, m) := f (clock (w_tick w)) (w_redis w) in (Ok a, set_redis (λ _, m) (tick w)).

Definition live (t : Time) (m : db) (k : string) : option string :=
  match m !! k with
  | Some (v, Some d) => if d <=? t then None else Some v
  | Some (v, None) => Some v
  | None => None
  end.
Definition server_deadline (ttl : Duration) (t : Time) : option Time :=
  if 0 <? ttl then Some (t + ttl) else None.

Definition server : Redis := {|
  rGet k := command (λ t m, match live t m k with Some v => (Some v, m) | None => (None, delete k m) end);
  rSet k v ttl := command (λ t m, (tt, <[k := (v, server_deadline ttl t)]> m));
  rDel k := command (λ t m, (tt, delete k m));
  rGetDel k := command (λ t m, (live t m k, delete k m));
  rSetNX k v ttl := command (λ t m,
    match live t m k with Some _ => (false, m) | None => (true, <[k := (v, server_deadline ttl t)]> m) end);
  rEval script keys args := command (λ t m,
    match keys, args with
    | [k], [v] => (tt, if bool_decide (fst <$> m !! k = Some v) then delete k m else m)
    | _, _ => (tt, m)
    end);
|}.

Lemma command_inv {A} (f : Time → db → A * db) w r w' :
  command f w = (r, w') →
  redis_frame w w' ∧
  match r with
  | Err _ => w_redis w' = w_redis w
  | Ok a => between w w' (w_tick w) ∧ f (clock (w_tick w)) (w_redis w) = (a, w_redis w')
  end.
Proof.
  unfold command. destruct (down (w_tick w)).
  - intros [= <- <-]. split; [apply redis_frame_tick|done].
  - destruct (f _ _) as [a m] eqn:Hf. intros [= <- <-]. split; [apply redis_frame_tick|].
    split; [unfold between; simpl; lia|done].
Qed.

Lemma live_Some t m k v : live t m k = Some v → ∃ d, m !! k = Some (v, d) ∧ alive d t.
Proof.
  unfold live. destruct (m !! k) as [[v' [d|]]|]; [|by intros [= ->]; eexists|done].
  destruct (Z.leb_spec d t); [done|]. intros [= ->]. eexists. split; [done|]. simpl. lia.
Qed.
Lemma live_None t m k v d : live t m k = None → m !! k = Some (v, d) → gone d t.
Proof.
  unfold live. intros Hl Hk. rewrite Hk in Hl. destruct d as [d|]; [|done].
  destruct (Z.leb_spec d t); [done|done].
Qed.
Lemma server_deadline_of ttl t : deadline_of ttl t (server_deadline ttl t).
Proof.
  intros Httl. unfold server_deadline. destruct (Z.ltb_spec 0 ttl); [|lia].
  eexists. split; [done|]. unfold Millisecond. lia.
Qed.

#[export] Instance server_spec : @RedisSpec _ server.
Proof.
  assert (∀ A (f : Time → db → A * db), Keeps redis_frame (command f)) as Hframe.
  { intros A f w. destruct (command f w) eqn:Hc. by apply command_inv in Hc as [? _]. }
  split; simpl; intros *; try (intros; apply Hframe); intros [_ Hc]%command_inv; try by auto.
  - destruct Hc as [_ Hc]. destruct (live _ _ _) eqn:Hl; simplify_eq.
    apply live_Some in Hl as (d & -> & _). split; [done|]. red. congruence.
  - destruct Hc as [Hb Hc]. destruct (live _ _ _) eqn:Hl; simplify_eq. split; [red; congruence|].
    intros v d Hk. eauto using live_None.
  - destruct Hc as [Hb Hc]. injection Hc as Hm. exists (w_tick w), (server_deadline ttl (clock (w_tick w))).
    split; [done|]. split; [apply server_deadline_of|congruence].
  - by destruct Hc as [_ [= <-]].
  - destruct Hc as [_ Hc]. injection Hc as Hl Hm. apply live_Some in Hl as (d & -> & _).
    split; [done|red; congruence].
  - destruct Hc as [Hb Hc]. injection Hc as Hl Hm. split; [red; congruence|].
    intros v d Hk. eauto using live_None.
  - destruct Hc as [Hb Hc]. destruct (live _ _ _) eqn:Hl; simplify_eq. split.
    + intros v' d Hk. eauto using live_None.
    + red. eauto 6 using server_deadline_of.
  - destruct Hc as [Hb Hc]. destruct (live _ _ _) eqn:Hl; simplify_eq. split; [red; congruence|].
    apply live_Some in Hl as (d & ? & ?). eauto 8.
  - by destruct Hc as [_ [= <-]].
Qed.
End server.

(** ** Witnesses *)
Section witnesses.
#[local] Instance sample : Env := sample_env.
#[local] Instance sample_redis : Redis := server (λ _, false).
#[local] Instance lock_zone : Zone := utc.
#[local] Instance utc_spec : ZoneSpec.
Proof. by split. Qed.

Definition client : Client := mkClient "rebff".
Definition no_end : nat → option goerr := λ _, None.
Definition ends_at (n : nat) : nat → option goerr :=
  λ i, if (n <=? i)%nat then Some (ErrIs ContextCanceled) else None.

Lemma redis_stores_refine_witness :
  SessionStoreSpec (RedisSession.store client) (RedisSession.view client) utf8 ∧
  TokenStoreSpec (RedisToken.store client) (RedisToken.view client) utf8 ∧
  SessionKeeps (RedisSession.store client) (same (RedisToken.view client)) ∧
  LockerKeeps (RedisLocker.locker client no_end 5) (same (RedisToken.view client)).
Proof. apply (redis_stores_refine client no_end 5). Defined.

Definition stored_session : Session :=
  mkSession "sid" "alice" "https://idp" "alice" "Al<ce" "" ["user"; "admin"]
    (unix_time 1700000000) (unix_time 1700000100) (unix_time 1700000000).
Definition w_stored : World := (RedisSession.Put client stored_session empty_world).2.

Lemma redis_session_round_trip_witness :
  (RedisSession.Get client "sid" w_stored).1 = Ok stored_session ∨
  (∃ e w', rGet (key client ["session"; "sid"]) w_stored = (Err e, w') ∧
     (RedisSession.Get client "sid" w_stored).1 = Err e) ∨
  ((RedisSession.Get client "sid" w_stored).1 = Err (ErrIs SessionNotFound) ∧
   ∃ i, between w_stored (RedisSession.Get client "sid" w_stored).2 i ∧
     ses_ExpiresAt stored_session - Millisecond < clock i).
Proof.
  apply (redis_session_round_trip client stored_session empty_world tt w_stored w_stored).
  - apply sample_clock_monotone.
  - by repeat constructor.
  - unfold is_int64. vm_compute. split; discriminate.
  - run.
  - run.
  - by red.
  - reflexivity.
  - apply surjective_pairing.
Defined.

Definition stored_flow : Flow := mkFlow "state" "nonce" "verifier" "/app" (unix_time 1700000100).
Definition w_flow : World := (RedisFlow.Put client stored_flow empty_world).2.
Definition w_taken : World := (RedisFlow.Take client "state" w_flow).2.

Lemma redis_flow_single_use_witness :
  RedisFlow.view client w_flow !! "state" = Some stored_flow ∧
  (∃ i, between w_flow w_taken i ∧ clock i < flow_ExpiresAt stored_flow) ∧
  ∃ e, (RedisFlow.Take client "state" w_taken).1 = Err e.
Proof.
  apply (redis_flow_single_use client "state" stored_flow w_flow w_taken w_taken
    _ (RedisFlow.Take client "state" w_taken).2).
  - run.
  - reflexivity.
  - apply surjective_pairing.
Defined.

(** The lock is held by another process until the second event 10. *)
Definition w_locked : World :=
  set_redis (λ _, {[key client ["lock"; "k"] := ("other", Some (unix_time 1700000010))]}) empty_world.

Lemma redis_lock_terminates_witness :
  ∃ r w', ∀ fuel, (4 < 0 + fuel)%nat → (0 < fuel)%nat →
    Lock client (ends_at 4) fuel "k" Second w_locked = (Some r, w').
Proof.
  apply (redis_lock_terminates client (ends_at 4) "k" Second w_locked 4).
  intros i Hi. unfold ends_at. by rewrite (proj2 (Nat.leb_le 4 i)).
Defined.

Lemma redis_lock_taken_over_witness :
  ∃ w', ∀ fuel, (11 < 0 + fuel)%nat → (0 < fuel)%nat →
    Lock client no_end fuel "k" Second w_locked
      = (Some (Ok (unlock (key client ["lock"; "k"]) (hex_encode (replicate 16 (ascii_of_nat 0))))), w') ∧
    fst <$> w_redis w' !! key client ["lock"; "k"] = Some (hex_encode (replicate 16 (ascii_of_nat 0))).
Proof.
  apply (redis_lock_taken_over client no_end "k" Second w_locked (replicate 16 (ascii_of_nat 0)) 11
    (unix_time 1700000010)).
  - apply sample_clock_monotone.
  - done.
  - reflexivity.
  - intros v t w e w2 Hs. simpl in Hs. unfold command in Hs. simpl in Hs.
    destruct (live _ _ _); discriminate Hs.
  - intros v d Hk. replace (w_redis w_locked !! key client ["lock"; "k"])
      with (Some ("other", Some (unix_time 1700000010))) in Hk by run. congruence.
  - run.
Defined.

(** Two processes: the first takes the lock and outlives its lease, the second
    takes it over, then the first releases what it no longer holds. *)
Definition v0 : string := hex_encode (replicate 16 (ascii_of_nat 0)).
Definition v1 : string := hex_encode (replicate 16 (ascii_of_nat 1)).
Definition lk : string := key client ["lock"; "k"].
Definition w2 : World := tick (tick empty_world).
Definition w3 : World := (rSetNX lk v0 (3 * Second) w2).2.
Definition w5 : World := tick (tick w3).
Definition w6 : World := (rSetNX lk v1 (3 * Second) w5).2.
Definition w7 : World := (unlock lk v0 w6).2.
Definition two_processes : list process := [Ended; Holding v1 (unix_time 1700000008)].

Lemma sample_values_distinct n : (n ≤ 8)%nat → distinct_values n.
Proof.
  intros Hn i j b b' Hi Hj. simpl. intros [= <-] [= <-] Heq.
  do 8 (destruct i as [|i]; [do 8 (destruct j as [|j]; [first [done|discriminate Heq]|]); lia|]). lia.
Qed.

Lemma redis_lock_exclusive_witness :
  fst <$> w_redis w7 !! lk = Some v1 ∧
  ∀ i v d, two_processes !! i = Some (Holding v d) → clock (w_tick w7) < d → i = 1%nat.
Proof.
  split; [run|]. intros i v d Hi Hd.
  apply (redis_lock_exclusive lk (3 * Second) sample_clock_monotone 2 empty_world two_processes w7 i 1
    v d v1 (unix_time 1700000008)).
  - apply sample_values_distinct. vm_compute. lia.
  - eapply rtc_l; [by apply (lock_start lk (3 * Second) [Idle; Idle] empty_world 0 (replicate 16 (ascii_of_nat 0)))|].
    eapply rtc_l; [by apply (lock_start lk (3 * Second) _ _ 1 (replicate 16 (ascii_of_nat 1)))|].
    eapply rtc_l; [apply (lock_acquired lk (3 * Second) [Trying v0; Trying v1] w2 0 v0
      (unix_time 1700000005) w3); run|].
    eapply rtc_l; [apply (lock_other lk (3 * Second) _ w3 w5); [done|unfold later; simpl; lia]|].
    eapply rtc_l; [apply (lock_acquired lk (3 * Second) [Holding v0 (unix_time 1700000005); Trying v1] w5 1 v1
      (unix_time 1700000008) w6); run|].
    apply rtc_once. apply (lock_released lk (3 * Second) [Holding v0 (unix_time 1700000005);
      Holding v1 (unix_time 1700000008)] w6 0 v0 (unix_time 1700000005) (Ok tt) w7); run.
  - done.
  - reflexivity.
  - done.
  - run.
Defined.
End witnesses.
