(* ===== verification/Limits.v ===== *)
(** * Limits on requests: rate_limit.go and concurrency.go of internal/httpx/middleware

    [RateLimit]: a token bucket per client address with a bounded table; the part
    under the mutex is the function [take] on the state [Limiter], and the float
    arithmetic is that of GoNumbers.v, each operation rounded on its own (a
    compiler that fuses the multiplication and the addition rounds once; no theorem
    depends on it).  [ConcurrencyLimit]: a semaphore, as a handler and as a step
    relation over the requests of the process, whose steps the handler takes. *)

From S2P Require Import Prelude GoStrings World GoNumbers GoFloat Session Http Middleware.
From Stdlib Require SpecFloat.
Open Scope Z_scope.

(** ** rate_limit.go *)
Definition zero_bucket : rateBucket := mkBucket (f64_of_Z 0) 0.

Record RateLimitConfig `{Net} := mkRateLimit {
  rl_RatePerSecond : float64;
  rl_Burst : Z;
  rl_IdleTTL : Duration;
  rl_MaxEntries : Z;
  rl_Proxy : list IPNet;
  rl_Metrics : bool;
  rl_PathSuffixes : list string;
  rl_RejectReason : string;
}.

Section rate.
Context `{Env} `{Net} (cfg : RateLimitConfig).

Definition idle_ttl : Duration := if rl_IdleTTL cfg <=? 0 then 10 * Minute else rl_IdleTTL cfg.
Definition max_entries : Z := if rl_MaxEntries cfg <=? 0 then 10000 else rl_MaxEntries cfg.
Definition reject_reason : string :=
  if bool_decide (rl_RejectReason cfg = "") then "rate_limit" else rl_RejectReason cfg.

Definition overflow_key : string := "__overflow__".
(** The bucket a client is accounted to. *)
Definition bucket_key (l : Limiter) (key : string) : string :=
  if bool_decide (buckets l !! key = None) && (max_entries <=? Z.of_nat (size (buckets l)))
  then overflow_key else key.

Definition idle (now : Time) (b : rateBucket) : bool := idle_ttl <=? Sub now (rb_last b).
Definition sweep (now : Time) (l : Limiter) : Limiter :=
  if IsZero (lastSweep l) || (idle_ttl <=? Sub now (lastSweep l))
  then mkLimiter (filter (λ '(_, b), idle now b = false) (buckets l)) now
  else l.

(** The tokens of a bucket at [now]: full when it is new, else refilled. *)
Definition refill (now : Time) (b : rateBucket) : rateBucket :=
  let burst := f64_of_Z (rl_Burst cfg) in
  if IsZero (rb_last b) then mkBucket burst now else
  let tokens := f64_add (rb_tokens b) (f64_mul (Seconds (Sub now (rb_last b))) (rl_RatePerSecond cfg)) in
  mkBucket (if f64_lt burst tokens then burst else tokens) now.

(** The part of the handler under the mutex. *)
Definition take (now : Time) (key : string) (l : Limiter) : bool * Limiter :=
  let key := bucket_key l key in
  let l := sweep now l in
  let b := refill now (default zero_bucket (buckets l !! key)) in
  let allowed := f64_le (f64_of_Z 1) (rb_tokens b) in
  let b := if allowed then mkBucket (f64_sub (rb_tokens b) (f64_of_Z 1)) (rb_last b) else b in
  (allowed, mkLimiter (<[key := b]> (buckets l)) (lastSweep l)).

Definition enabled : bool :=
  negb (f64_le (rl_RatePerSecond cfg) (f64_of_Z 0) || (rl_Burst cfg <=? 0)).

(** Requests that the limiter counts. *)
Definition counted (r : Request) : bool :=
  negb (operationalPath (r_Path r)) &&
  (bool_decide (rl_PathSuffixes cfg = []) || matchesPathSuffix (r_Path r) (rl_PathSuffixes cfg)).

(** The state of this limiter. *)
Definition limiter (w : World) : Limiter := default new_limiter (w_limiters w !! reject_reason).

Definition RateLimit (next : Handler) : Handler := λ r rw,
  if negb enabled || negb (counted r) then next r rw else
  do t := now in
  do l := gets limiter in
  let '(allowed, l) := take t (ClientIP r (rl_Proxy cfg)) l in
  do _ := modify (set_limiters (insert reject_reason l)) in
  if negb allowed then
    do _ := record_if (rl_Metrics cfg) (RecordRejected reject_reason) in
    ret (http_Error "rate limit exceeded" StatusTooManyRequests (set_header "Retry-After" "1" rw))
  else next r rw.

(** *** Properties *)

(** The states after any sequence of requests. *)
Inductive limiter_reachable : Limiter → Prop :=
  | limiter_new : limiter_reachable new_limiter
  | limiter_take now key l : limiter_reachable l → limiter_reachable (take now key l).2.

(** The clients with a bucket of their own. *)
Definition own_buckets (l : Limiter) : gset string := dom (buckets l) ∖ {[overflow_key]}.

Lemma sweep_dom now l : dom (buckets (sweep now l)) ⊆ dom (buckets l).
Proof. unfold sweep. case_match; [|done]. simpl. apply dom_filter_subseteq. Qed.

Lemma max_entries_pos : 0 < max_entries.
Proof. unfold max_entries. destruct (Z.leb_spec (rl_MaxEntries cfg) 0); lia. Qed.

Lemma own_buckets_bounded l : limiter_reachable l → Z.of_nat (size (own_buckets l)) ≤ max_entries.
Proof.
  pose proof max_entries_pos. induction 1 as [|now key l Hr IH].
  { assert (own_buckets new_limiter = ∅) as -> by (unfold own_buckets, new_limiter; set_solver). rewrite size_empty. lia. }
  assert (own_buckets (take now key l).2 ⊆ own_buckets l ∪ ({[bucket_key l key]} ∖ {[overflow_key]})) as Hsub.
  { unfold own_buckets, take. simpl. rewrite dom_insert_L. pose proof (sweep_dom now l). set_solver. }
  apply subseteq_size in Hsub. unfold bucket_key in Hsub. destruct (_ && _) eqn:Hfull.
  { rewrite difference_diag_L, union_empty_r_L in Hsub. lia. }
  destruct (decide (key ∈ dom (buckets l))) as [Hin|Hnew].
  - assert (own_buckets l ∪ ({[key]} ∖ {[overflow_key]}) = own_buckets l) as He.
    { unfold own_buckets. set_solver. }
    rewrite He in Hsub. lia.
  - apply not_elem_of_dom in Hnew. rewrite Hnew in Hfull.
    rewrite (bool_decide_eq_true_2 (None = None)) in Hfull by done. simpl in Hfull. bool_inv.
    assert (size (own_buckets l) ≤ size (dom (buckets l)))%nat as Hle by (apply subseteq_size; unfold own_buckets; set_solver).
    rewrite size_dom in Hle. rewrite size_union_alt in Hsub.
    assert (size (({[key]} ∖ {[overflow_key]}) ∖ own_buckets l) ≤ size ({[key]} : gset string))%nat as Hone
      by (apply subseteq_size; set_solver).
    rewrite size_singleton in Hone. lia.
Qed.

(** A request does not touch the bucket of another client, except that a bucket
    that was idle may be dropped. *)
Lemma take_other now key l k :
  k ≠ bucket_key l key →
  buckets (take now key l).2 !! k = buckets l !! k ∨
  ∃ b, buckets l !! k = Some b ∧ idle now b = true ∧ buckets (take now key l).2 !! k = None.
Proof.
  intros Hk. unfold take. simpl. rewrite lookup_insert_ne by done. unfold sweep.
  destruct (_ || _); [|by left]. simpl. rewrite map_lookup_filter.
  destruct (buckets l !! k) as [b|]; [|by left]. simpl.
  destruct (idle now b) eqn:Hi; [right; eauto|by left].
Qed.

(** What a client is told depends on its own bucket only: two states that agree on
    it, on the size of the table and on the last sweep give the same answer. *)
Lemma take_allowed now key l l' :
  bucket_key l key = key → bucket_key l' key = key → lastSweep l = lastSweep l' →
  buckets l !! key = buckets l' !! key → (take now key l).1 = (take now key l').1.
Proof.
  intros Hk Hk' Hs Hb. unfold take. rewrite Hk, Hk'. simpl. do 3 f_equal.
  unfold sweep. rewrite Hs. destruct (_ || _); simpl; [|by rewrite Hb].
  by rewrite !map_lookup_filter, Hb.
Qed.

Lemma limiter_insert l w : limiter (set_limiters (insert reject_reason l) w) = l.
Proof. unfold limiter. cbn [w_limiters set_limiters]. by rewrite lookup_insert_eq. Qed.

(** The bucket that decides on a request of [key] at [now]. *)
Definition deciding_bucket (now : Time) (key : string) (l : Limiter) : rateBucket :=
  refill now (default zero_bucket (buckets (sweep now l) !! bucket_key l key)).

(** One counted request through an enabled limiter: with a token in its bucket it
    is passed on and the token is gone; without one it is answered 429. *)
Lemma RateLimit_exact next r rw w :
  enabled = true → counted r = true →
  let t := clock (w_tick w) in let key := ClientIP r (rl_Proxy cfg) in
  let b := deciding_bucket t key (limiter w) in
  if f64_le (f64_of_Z 1) (rb_tokens b) then
    ∃ l', RateLimit next r rw w = next r rw (set_limiters (insert reject_reason l') (tick w)) ∧
      buckets l' !! bucket_key (limiter w) key = Some (mkBucket (f64_sub (rb_tokens b) (f64_of_Z 1)) t)
  else
    (RateLimit next r rw w).1 =
      http_Error "rate limit exceeded" StatusTooManyRequests (set_header "Retry-After" "1" rw) ∧
    buckets (limiter (RateLimit next r rw w).2) !! bucket_key (limiter w) key = Some b.
Proof.
  intros He Hc. cbn zeta. unfold RateLimit. rewrite He, Hc. cbn [negb orb].
  unfold bind, now, oracle, gets. change (limiter (tick w)) with (limiter w). unfold take.
  change (refill _ (default _ _)) with
    (deciding_bucket (clock (w_tick w)) (ClientIP r (rl_Proxy cfg)) (limiter w)).
  set (b := deciding_bucket _ _ _). assert (rb_last b = clock (w_tick w)) as Hlast.
  { unfold b, deciding_bucket, refill. by destruct (IsZero _). }
  destruct (f64_le _ (rb_tokens b)); simpl.
  - eexists. split; [reflexivity|]. cbn [buckets]. by rewrite lookup_insert_eq, Hlast.
  - unfold record_if, modify. destruct (rl_Metrics cfg); (split; [done|]);
      unfold ret; cbn [fst snd]; [change (limiter (add_metric ?m ?x)) with (limiter x)|];
      rewrite limiter_insert; apply lookup_insert_eq.
Qed.

(** The requests of client [k] that pass when the listed clients come at the one
    instant [now], in that order. *)
Fixpoint allowed_at (now : Time) (k : string) (reqs : list string) (l : Limiter) : Z :=
  match reqs with
  | [] => 0
  | key :: reqs =>
      let '(allowed, l) := take now key l in
      (if allowed && String.eqb key k then 1 else 0) + allowed_at now k reqs l
  end.

Definition requests_of (k : string) (reqs : list string) : Z :=
  count (λ key, String.eqb key k) reqs.

(** A rate that is a positive number: neither infinite nor NaN. *)
Definition finite_rate : Prop := ∃ m e, rl_RatePerSecond cfg = SpecFloat.S754_finite false m e.

Section burst.
Context (Hrate : finite_rate) (Hburst : rl_Burst cfg < 2 ^ 53).

Lemma idle_ttl_pos : 0 < idle_ttl.
Proof. unfold idle_ttl, Minute, Second. case_match; lia. Qed.

Lemma not_idle_now now b : rb_last b = now → idle now b = false.
Proof.
  intros <-. unfold idle. rewrite (proj2 (Z.leb_gt _ _)); [done|]. unfold Sub. pose proof idle_ttl_pos.
  rewrite Z.sub_diag. unfold int64_min, int64_max. lia.
Qed.

Lemma refill_same_instant now n :
  now ≠ 0 → 0 ≤ n ≤ rl_Burst cfg → refill now (mkBucket (f64_int n) now) = mkBucket (f64_int n) now.
Proof.
  intros Hnow Hn. unfold refill. cbn [rb_last rb_tokens].
  rewrite (proj2 (Z.eqb_neq now 0) Hnow : IsZero now = false).
  assert (Sub now now = 0) as -> by (unfold Sub, int64_min, int64_max; lia).
  destruct Hrate as (m & e & ->).
  change (f64_mul (Seconds 0) (SpecFloat.S754_finite false m e)) with (SpecFloat.S754_zero false).
  rewrite f64_int_add0, f64_of_int, f64_int_capped by lia. done.
Qed.

Lemma swept_now now k n l :
  buckets l !! k = Some (mkBucket (f64_int n) now) → buckets (sweep now l) !! k = Some (mkBucket (f64_int n) now).
Proof.
  intros Hk. unfold sweep. destruct (_ || _); [|done]. simpl. rewrite map_lookup_filter, Hk. simpl.
  by rewrite not_idle_now by done.
Qed.

(** The deciding bucket with [n] tokens: what the request is told, and what is
    left. *)
Lemma take_tokens now key l n :
  0 ≤ n ≤ rl_Burst cfg → deciding_bucket now key l = mkBucket (f64_int n) now →
  (take now key l).1 = (1 <=? n) ∧
  buckets (take now key l).2 !! bucket_key l key = Some (mkBucket (f64_int (if 1 <=? n then n - 1 else n)) now).
Proof.
  intros Hn Hb. unfold take. change (refill _ (default _ _)) with (deciding_bucket now key l). rewrite Hb. simpl.
  rewrite f64_int_le1 by lia. split; [done|]. rewrite lookup_insert_eq.
  destruct (Z.leb_spec 1 n); [|done]. by rewrite f64_int_sub1 by lia.
Qed.

Lemma allowed_at_exact now k reqs l n :
  now ≠ 0 → k ≠ overflow_key → 0 ≤ n ≤ rl_Burst cfg → buckets l !! k = Some (mkBucket (f64_int n) now) →
  allowed_at now k reqs l = Z.min n (requests_of k reqs).
Proof.
  intros Hnow Hk. revert l n. induction reqs as [|key reqs IH]; intros l n Hn Hb; cbn [allowed_at].
  { unfold requests_of. cbn [count]. lia. }
  destruct (take now key l) as [allowed l'] eqn:Ht. unfold requests_of in *. cbn [count].
  destruct (String.eqb_spec key k) as [->|Hne].
  - assert (bucket_key l k = k) as Hkey.
    { unfold bucket_key. rewrite Hb. by rewrite bool_decide_eq_false_2. }
    destruct (take_tokens now k l n) as [Ha Hl]; [done| |].
    { unfold deciding_bucket. rewrite Hkey, (swept_now _ _ n) by done. by apply refill_same_instant. }
    rewrite Ht, Hkey in *. simpl in Ha, Hl. subst allowed.
    destruct (Z.leb_spec 1 n) as [Hle|Hgt]; cbn [andb].
    + rewrite (IH l' (n - 1)); [cbn [b2z]; lia|lia|done].
    + pose proof (count_nonneg (λ key, String.eqb key k) reqs). rewrite (IH l' n); [cbn [b2z]; lia|lia|done].
  - rewrite andb_false_r. rewrite (IH l' n); [done|done|].
    assert (k ≠ bucket_key l key) as Hother by (unfold bucket_key; by destruct (_ && _)).
    pose proof (take_other now key l k Hother) as Hl. rewrite Ht in Hl. simpl in Hl.
    destruct Hl as [->|(b & Hb' & Hi & _)]; [done|]. rewrite Hb in Hb'. simplify_eq.
    by rewrite not_idle_now in Hi.
Qed.

(** A new client that finds room in the table. *)
Lemma new_client_burst now k reqs l :
  now ≠ 0 → k ≠ overflow_key → 0 < rl_Burst cfg → buckets l !! k = None →
  Z.of_nat (size (buckets l)) < max_entries →
  allowed_at now k (k :: reqs) l = Z.min (rl_Burst cfg) (1 + requests_of k reqs).
Proof.
  intros Hnow Hk Hb Hnone Hroom.
  assert (bucket_key l k = k) as Hkey.
  { unfold bucket_key. rewrite (proj2 (Z.leb_gt _ _)) by lia. by rewrite andb_false_r. }
  destruct (take_tokens now k l (rl_Burst cfg)) as [Ha Hl]; [lia| |].
  { unfold deciding_bucket. rewrite Hkey. assert (buckets (sweep now l) !! k = None) as ->.
    { apply not_elem_of_dom. pose proof (sweep_dom now l). apply not_elem_of_dom in Hnone. set_solver. }
    unfold refill. simpl. by rewrite f64_of_int by lia. }
  cbn [allowed_at]. destruct (take now k l) as [allowed l']. rewrite Hkey in Hl. simpl in Ha, Hl. subst allowed.
  rewrite (proj2 (Z.leb_le _ _)) in * by lia. rewrite String.eqb_refl. cbn [andb].
  rewrite (allowed_at_exact now k reqs l' (rl_Burst cfg - 1)); [|done|done|lia|done].
  unfold requests_of. lia.
Qed.
End burst.

(** C32: the rate limiter limits, and bounds its own table.  After any sequence
    of requests at any times from any addresses: (1) the table has at most
    MaxEntries buckets of its own and one shared one; (2) a client whose bucket is
    not idle keeps it, untouched by the requests of all other clients; (3) a
    counted request is passed on exactly when its bucket, refilled for the time
    since its last use and capped at Burst, holds a token, which is then gone,
    and is otherwise answered 429 without reaching the handler; (4) with a
    positive finite rate and a burst below 2^53, of the requests that a new
    client with a bucket of its own makes at one instant exactly the first Burst
    pass, whatever other clients do in between. *)
Theorem rate_limiter_bounded_isolated l :
  limiter_reachable l →
  Z.of_nat (size (buckets l)) ≤ max_entries + 1 ∧
  (∀ now key k b, buckets l !! k = Some b → idle now b = false → k ≠ bucket_key l key →
    buckets (take now key l).2 !! k = Some b) ∧
  (∀ next r rw w, enabled = true → counted r = true → limiter w = l →
    let t := clock (w_tick w) in let key := ClientIP r (rl_Proxy cfg) in
    let b := deciding_bucket t key l in
    if f64_le (f64_of_Z 1) (rb_tokens b) then
      ∃ l', RateLimit next r rw w = next r rw (set_limiters (insert reject_reason l') (tick w)) ∧
        buckets l' !! bucket_key l key = Some (mkBucket (f64_sub (rb_tokens b) (f64_of_Z 1)) t)
    else
      (RateLimit next r rw w).1 =
        http_Error "rate limit exceeded" StatusTooManyRequests (set_header "Retry-After" "1" rw) ∧
      buckets (limiter (RateLimit next r rw w).2) !! bucket_key l key = Some b) ∧
  (∀ now k reqs, finite_rate → 0 < rl_Burst cfg < 2 ^ 53 → now ≠ 0 → k ≠ overflow_key →
    buckets l !! k = None → Z.of_nat (size (buckets l)) < max_entries →
    allowed_at now k (k :: reqs) l = Z.min (rl_Burst cfg) (1 + requests_of k reqs)).
Proof.
  intros Hr. split; [|split; [|split]].
  - apply own_buckets_bounded in Hr. rewrite <-size_dom.
    assert (dom (buckets l) ⊆ own_buckets l ∪ {[overflow_key]}) as Hsub.
    { intros x Hx. unfold own_buckets. destruct (decide (x = overflow_key)); set_solver. }
    apply subseteq_size in Hsub. rewrite size_union_alt in Hsub.
    assert (size ({[overflow_key]} ∖ own_buckets l) ≤ size ({[overflow_key]} : gset string))%nat as Hone
      by (apply subseteq_size; set_solver).
    rewrite size_singleton in Hone. lia.
  - intros now key k b Hb Hi Hk. destruct (take_other now key l k Hk) as [->|(b' & Hb' & Hi' & _)]; congruence.
  - intros next r rw w He Hc <-. by apply RateLimit_exact.
  - intros now k reqs Hf Hb Hn Hk Hnone Hroom. apply new_client_burst; [done|lia|done|done|lia|done|done].
Qed.

End rate.

(** *** Examples and witness *)
Section rate_examples.
#[local] Instance rate_env : Env := sample_env.
#[local] Instance rate_net : Net := {|
  IP := string; IPNet := string; ParseIP s := Some s; IP_String s := s;
  ParseCIDR s := Ok s; IPNet_Contains _ _ := false; SplitHostPort s := Ok (s, "80") |}.

Definition sample_rate (rate : float64) (entries : Z) : RateLimitConfig :=
  mkRateLimit _ rate 2 0 entries [] false [] "".
(** The answers to requests at the given times from the given addresses. *)
Fixpoint answers (cfg : RateLimitConfig) (l : Limiter) (reqs : list (Time * string)) : list bool :=
  match reqs with
  | [] => []
  | (t, key) :: reqs => let '(allowed, l) := take cfg t key l in allowed :: answers cfg l reqs
  end.

(** A burst of two and one token a second: the third request at once is refused,
    one second later there is a token again. *)
Example burst_then_refill :
  answers (sample_rate (f64_of_Z 1) 10) new_limiter
    [(Hour, "a"); (Hour, "a"); (Hour, "a"); (Hour, "b"); (Hour + Second, "a"); (Hour + Second, "a")] =
    [true; true; false; true; true; false].
Proof. run. Qed.

(** With a rate that is not a number every client is refused after its first
    request until its bucket is dropped. *)
Example nan_rate_locks_out :
  enabled (sample_rate SpecFloat.S754_nan 10) = true ∧
  answers (sample_rate SpecFloat.S754_nan 10) new_limiter
    [(Hour, "a"); (Hour + Second, "a"); (Hour + 5 * Minute, "a")] = [true; false; false].
Proof. by vm_compute. Qed.

Definition used_limiter : Limiter := (take (sample_rate (f64_of_Z 1) 5) Hour "a" new_limiter).2.

Lemma rate_limiter_bounded_isolated_witness :
  Z.of_nat (size (buckets used_limiter)) ≤ 6 ∧
  buckets (take (sample_rate (f64_of_Z 1) 5) (Hour + Second) "b" used_limiter).2 !! "a" =
    Some (mkBucket (f64_of_Z 1) Hour) ∧
  allowed_at (sample_rate (f64_of_Z 1) 5) (Hour + Second) "c" ["c"; "a"; "c"; "b"; "c"; "c"] used_limiter = 2.
Proof.
  destruct (rate_limiter_bounded_isolated (sample_rate (f64_of_Z 1) 5) used_limiter) as (Hsize & Hkeep & _ & Hburst).
  - apply limiter_take, limiter_new.
  - split; [exact Hsize|]. split; [apply Hkeep; [run|run|by vm_compute]|].
    apply (Hburst (Hour + Second) "c" ["a"; "c"; "b"; "c"; "c"]); try by vm_compute. by eexists _, _.
Defined.
End rate_examples.

(** ** concurrency.go *)

(** One request through [ConcurrencyLimit]; the number of requests inside is
    whatever other requests have made it. *)
Definition ConcurrencyLimit (max : Z) (metrics : bool) (next : Handler) : Handler :=
  if max <=? 0 then next else λ r rw,
  if operationalPath (r_Path r) then next r rw else
  do sem := gets w_sem in
  if sem <? max then
    do _ := modify (set_sem (Z.add 1)) in
    do _ := record_if metrics (AddInflight 1) in
    do rw := next r rw in
    do _ := modify (set_sem (λ n, n - 1)) in
    do _ := record_if metrics (AddInflight (-1)) in
    ret rw
  else
    do _ := record_if metrics (RecordRejected "concurrency") in
    ret (http_Error "server busy" StatusServiceUnavailable (set_header "Retry-After" "1" rw)).

Module Concurrency.
Section concurrency.
Context (max : Z) (metrics : bool).

(** Where a request is: before the [select]; after the send to the channel; in
    the next handler, with a slot of the channel or, for an operational path,
    without one; after the deferred receive; answered; after the [default] of the
    [select]; refused with 503. *)
Inductive request :=
  | Arriving (operational : bool)
  | Acquired
  | Running (slot : bool)
  | Released
  | Answered
  | Refusing
  | Refused.

Record state := mkState {
  (** elements in the channel [sem] *)
  sem : Z;
  (** the gauge of [metrics.AddInflight] *)
  inflight : Z;
  (** the counter of [metrics.RecordRejected] *)
  rejected : Z;
  requests : list request;
}.

(** [metrics != nil] *)
Definition measured (n : Z) : Z := if metrics then n else 0.

(** The steps of [ConcurrencyLimit], each a single operation on the channel or on
    the metrics; the deferred function runs also when the next handler panics. *)
Inductive step : state → state → Prop :=
  | step_operational i s :
      requests s !! i = Some (Arriving true) →
      step s (mkState (sem s) (inflight s) (rejected s) (<[i := Running false]> (requests s)))
  | step_send i s :
      requests s !! i = Some (Arriving false) → sem s < max →
      step s (mkState (sem s + 1) (inflight s) (rejected s) (<[i := Acquired]> (requests s)))
  | step_default i s :
      requests s !! i = Some (Arriving false) → max ≤ sem s →
      step s (mkState (sem s) (inflight s) (rejected s) (<[i := Refusing]> (requests s)))
  | step_gauge_up i s :
      requests s !! i = Some Acquired →
      step s (mkState (sem s) (inflight s + measured 1) (rejected s) (<[i := Running true]> (requests s)))
  | step_return i s :
      requests s !! i = Some (Running false) →
      step s (mkState (sem s) (inflight s) (rejected s) (<[i := Answered]> (requests s)))
  | step_receive i s :
      requests s !! i = Some (Running true) →
      step s (mkState (sem s - 1) (inflight s) (rejected s) (<[i := Released]> (requests s)))
  | step_gauge_down i s :
      requests s !! i = Some Released →
      step s (mkState (sem s) (inflight s - measured 1) (rejected s) (<[i := Answered]> (requests s)))
  | step_rejected i s :
      requests s !! i = Some Refusing →
      step s (mkState (sem s) (inflight s) (rejected s + measured 1) (<[i := Refused]> (requests s))).

(** The requests that hold a slot, that the gauge counts, that were counted as
    rejected, and that have been answered. *)
Definition holds (r : request) : bool := match r with Acquired | Running true => true | _ => false end.
Definition gauged (r : request) : bool := match r with Running true | Released => true | _ => false end.
Definition refused (r : request) : bool := match r with Refused => true | _ => false end.
Definition finished (r : request) : bool := match r with Answered | Refused => true | _ => false end.
Definition arriving (r : request) : bool := match r with Arriving _ => true | _ => false end.

Definition initial (l : list request) : state := mkState 0 0 0 l.
Definition all_arriving (l : list request) : Prop := Forall (λ r, arriving r = true) l.

Definition inv (s : state) : Prop :=
  sem s = count holds (requests s) ∧ sem s ≤ max ∧
  inflight s = measured (count gauged (requests s)) ∧ rejected s = measured (count refused (requests s)).

Lemma slots_inv_step s s' : step s s' → inv s → inv s'.
Proof.
  intros Hstep (Hs & Hm & Hi & Hj). unfold measured in *.
  destruct Hstep as [i s Hr|i s Hr Hlt|i s Hr Hge|i s Hr|i s Hr|i s Hr|i s Hr|i s Hr]; unfold inv, measured; simpl;
    rewrite !(count_insert _ _ _ _ _ Hr); simpl; destruct metrics; lia.
Qed.

Lemma slots_inv_initial l : 0 < max → all_arriving l → inv (initial l).
Proof.
  intros Hmax Hl. unfold inv, initial, measured. simpl.
  assert (count holds l = 0 ∧ count gauged l = 0 ∧ count refused l = 0) as (-> & -> & ->).
  { induction Hl as [|r l Hr Hl IH]; simpl; [done|]. destruct r; simpl in *; [lia|done..]. }
  destruct metrics; lia.
Qed.

Lemma slots_inv_reachable l s : 0 < max → all_arriving l → rtc step (initial l) s → inv s.
Proof.
  intros Hmax Hl Hr. apply (slots_inv_initial l Hmax) in Hl. revert Hl. induction Hr; [done|].
  intros Hi. apply IHHr. by eapply slots_inv_step.
Qed.

#[local] Ltac moves c :=
  eexists; split; [eapply c; solve [eassumption|lia]|simpl; by rewrite list_lookup_insert_eq].

(** Nothing blocks: a request that is not finished can always go on. *)
Lemma unfinished_steps s i r :
  requests s !! i = Some r → finished r = false → ∃ s', step s s' ∧ requests s' !! i ≠ Some r.
Proof.
  intros Hr Hf. pose proof (lookup_lt_Some _ _ _ Hr) as Hlt.
  destruct r as [[]| |[]| | | |]; try done.
  - moves step_operational.
  - destruct (decide (sem s < max)); [moves step_send|moves step_default].
  - moves step_gauge_up.
  - moves step_receive.
  - moves step_return.
  - moves step_gauge_down.
  - moves step_rejected.
Qed.

(** How an arriving request leaves that state. *)
Lemma arriving_step s s' i :
  step s s' → requests s !! i = Some (Arriving false) →
  requests s' !! i = Some (Arriving false) ∨
  (requests s' !! i = Some Acquired ∧ sem s < max) ∨ (requests s' !! i = Some Refusing ∧ max ≤ sem s).
Proof.
  intros Hstep Hi.
  destruct Hstep as [j s Hr|j s Hr Hlt|j s Hr Hge|j s Hr|j s Hr|j s Hr|j s Hr|j s Hr]; simpl;
    (destruct (decide (i = j)) as [<-|Hne]; [|left; by rewrite list_lookup_insert_ne]);
    rewrite Hi in Hr; simplify_eq; rewrite list_lookup_insert_eq by (by eapply lookup_lt_Some); auto.
Qed.

(** *** The handler takes these steps *)
Definition gauge_of (m : Metric) : Z := match m with AddInflight d => d | _ => 0 end.
Definition rejected_of (m : Metric) : Z :=
  match m with RecordRejected reason => b2z (String.eqb reason "concurrency") | _ => 0 end.
Definition total (f : Metric → Z) (l : list Metric) : Z := foldr (λ m n, f m + n) 0 l.

(** The state that the world stands for. *)
Definition abstracts (w : World) (reqs : list request) : state :=
  mkState (w_sem w) (total gauge_of (w_metrics w)) (total rejected_of (w_metrics w)) reqs.

Lemma total_app f a b : total f (a ++ b) = total f a + total f b.
Proof. induction a as [|x a IH]; simpl; [done|]. fold (total f (a ++ b)) (total f a). lia. Qed.
Lemma measured_total f m w u w' :
  record_if metrics m w = (u, w') →
  w_sem w' = w_sem w ∧ total f (w_metrics w') = total f (w_metrics w) + measured (f m).
Proof.
  unfold record_if, measured. intros Hm. destruct metrics; m_inv; simpl; [|lia].
  rewrite total_app. simpl. lia.
Qed.

(** While the next handler runs for request [i], the other requests go on. *)
Definition others_step (i : nat) (next : M RW) : Prop :=
  ∀ slot w rw w' reqs, next w = (rw, w') → reqs !! i = Some (Running slot) →
    ∃ reqs', reqs' !! i = Some (Running slot) ∧ rtc step (abstracts w reqs) (abstracts w' reqs').
End concurrency.

(** A request through [ConcurrencyLimit] is a sequence of these steps, with those
    of other requests in between, that ends with it answered or refused. *)
Lemma concurrency_handler_refines max metrics next r rw w rw' w' reqs i :
  0 < max → reqs !! i = Some (Arriving (operationalPath (r_Path r))) →
  others_step max metrics i (next r rw) →
  ConcurrencyLimit max metrics next r rw w = (rw', w') →
  ∃ reqs' out, reqs' !! i = Some out ∧ rtc (step max metrics) (abstracts w reqs) (abstracts w' reqs') ∧
    (out = Answered ∧ (∃ w1 w2, next r rw w1 = (rw', w2)) ∨
     out = Refused ∧ rw' = http_Error "server busy" StatusServiceUnavailable (set_header "Retry-After" "1" rw)).
Proof.
  intros Hmax Hi Hnext. unfold ConcurrencyLimit. rewrite (proj2 (Z.leb_gt max 0)) by lia.
  pose proof (lookup_lt_Some _ _ _ Hi) as Hlt.
  destruct (operationalPath (r_Path r)) eqn:Hop.
  { intros Hn. destruct (Hnext false w rw' w' (<[i := Running false]> reqs) Hn) as (reqs' & Hi' & Hr).
    { by apply list_lookup_insert_eq. }
    exists (<[i := Answered]> reqs'), Answered.
    split; [by apply list_lookup_insert_eq; eapply lookup_lt_Some|]. split; [|left; eauto].
    eapply rtc_l; [by apply (step_operational _ _ i)|]. eapply rtc_r; [exact Hr|]. by apply (step_return _ _ i). }
  intros (n & w0 & Hg & Hk)%bind_inv. unfold gets in Hg. simplify_eq. destruct (Z.ltb_spec (w_sem w0) max) as [Hs|Hs].
  - apply bind_inv in Hk as (u1 & w1 & Hm1 & Hk). unfold modify in Hm1. simplify_eq.
    apply bind_inv in Hk as (u2 & w2 & Hm2 & Hk). apply bind_inv in Hk as (rw2 & w3 & Hn & Hk).
    apply bind_inv in Hk as (u4 & w4 & Hm4 & Hk). unfold modify in Hm4. simplify_eq.
    apply bind_inv in Hk as (u5 & w5 & Hm5 & [= <- <-]).
    destruct (Hnext true w2 rw2 w3 (<[i := Running true]> (<[i := Acquired]> reqs)) Hn) as (reqs' & Hi' & Hr).
    { apply list_lookup_insert_eq. by rewrite length_insert. }
    pose proof (lookup_lt_Some _ _ _ Hi') as Hlt'.
    exists (<[i := Answered]> (<[i := Released]> reqs')), Answered.
    split; [apply list_lookup_insert_eq; by rewrite length_insert|]. split; [|left; eauto].
    pose proof (measured_total _ gauge_of _ _ _ _ Hm2) as [Hsem2 Hg2].
    pose proof (measured_total _ rejected_of _ _ _ _ Hm2) as [_ Hj2].
    pose proof (measured_total _ gauge_of _ _ _ _ Hm5) as [Hsem5 Hg5].
    pose proof (measured_total _ rejected_of _ _ _ _ Hm5) as [_ Hj5]. simpl in *.
    eapply rtc_l; [apply (step_send _ _ i); [done|exact Hs]|]. simpl.
    eapply rtc_l; [apply (step_gauge_up _ _ i); simpl; by apply list_lookup_insert_eq|]. simpl.
    match goal with |- rtc _ ?a _ => replace a with
      (abstracts w2 (<[i := Running true]> (<[i := Acquired]> reqs))) end.
    2: { unfold abstracts, measured in *. f_equal; destruct metrics; lia. }
    eapply rtc_r; [eapply rtc_r; [exact Hr|by apply (step_receive _ _ i)]|]. simpl.
    replace (abstracts w5 _) with
        (mkState (w_sem w3 - 1) (total gauge_of (w_metrics w3) - measured metrics 1) (total rejected_of (w_metrics w3))
           (<[i := Answered]> (<[i := Released]> reqs'))).
    + apply (step_gauge_down _ _ i (mkState _ _ _ (<[i := Released]> reqs'))). by apply list_lookup_insert_eq.
    + unfold abstracts, measured in *. f_equal; destruct metrics; lia.
  - apply bind_inv in Hk as (u1 & w1 & Hm1 & [= <- <-]).
    exists (<[i := Refused]> (<[i := Refusing]> reqs)), Refused.
    split; [apply list_lookup_insert_eq; by rewrite length_insert|]. split; [|by right].
    pose proof (measured_total _ gauge_of _ _ _ _ Hm1) as [Hsem Hg1].
    pose proof (measured_total _ rejected_of _ _ _ _ Hm1) as [_ Hj1]. simpl in *.
    eapply rtc_l; [by apply (step_default _ _ i)|]. apply rtc_once. simpl.
    replace (abstracts w1 _) with
      (mkState (w_sem w0) (total gauge_of (w_metrics w0)) (total rejected_of (w_metrics w0) + measured metrics 1)
         (<[i := Refused]> (<[i := Refusing]> reqs))).
    + apply (step_rejected _ _ i (mkState _ _ _ (<[i := Refusing]> reqs))). by apply list_lookup_insert_eq.
    + unfold abstracts, measured in *. f_equal; destruct metrics; lia.
Qed.

(** C33: with a limit configured, however the requests' single steps on the
    channel and on the metrics interleave: the channel holds one element for each
    request between its send and its receive, and at most [max] of them, so at
    most [max] requests are in the next handler with a slot; the gauge counts
    exactly the requests between its two updates, and the rejection counter those
    refused; a request leaves the [select] with a slot only when one is free and
    is refused only when all are taken; no request ever blocks; and once all are
    answered every slot is free and the gauge is back at zero.  And these are the
    steps of the handler: a request through [ConcurrencyLimit], with other
    requests going on while the next handler runs, takes them and ends answered
    by the next handler or with the 503 page. *)
Theorem concurrency_limit_sound max metrics l s :
  0 < max → all_arriving l → rtc (step max metrics) (initial l) s →
  sem s = count holds (requests s) ∧ count holds (requests s) ≤ max ∧
  inflight s = measured metrics (count gauged (requests s)) ∧ rejected s = measured metrics (count refused (requests s)) ∧
  (∀ i s', step max metrics s s' → requests s !! i = Some (Arriving false) →
     requests s' !! i = Some (Arriving false) ∨
     (requests s' !! i = Some Acquired ∧ count holds (requests s) < max) ∨
     (requests s' !! i = Some Refusing ∧ count holds (requests s) = max)) ∧
  (∀ i r, requests s !! i = Some r → finished r = false → ∃ s', step max metrics s s' ∧ requests s' !! i ≠ Some r) ∧
  (Forall (λ r, finished r = true) (requests s) → sem s = 0 ∧ inflight s = 0) ∧
  (∀ next r rw w rw' w' reqs i,
     reqs !! i = Some (Arriving (operationalPath (r_Path r))) → others_step max metrics i (next r rw) →
     ConcurrencyLimit max metrics next r rw w = (rw', w') →
     ∃ reqs' out, reqs' !! i = Some out ∧ rtc (step max metrics) (abstracts w reqs) (abstracts w' reqs') ∧
       (out = Answered ∧ (∃ w1 w2, next r rw w1 = (rw', w2)) ∨
        out = Refused ∧ rw' = http_Error "server busy" StatusServiceUnavailable (set_header "Retry-After" "1" rw))).
Proof.
  intros Hmax Hl Hr. destruct (slots_inv_reachable max metrics l s Hmax Hl Hr) as (Hs & Hm & Hi & Hj).
  split; [done|]. split; [lia|]. split; [done|]. split; [done|]. split; [|split; [apply unfinished_steps|split]].
  - intros i s' Hstep Ha. destruct (arriving_step _ _ _ _ _ Hstep Ha) as [?|[[? ?]|[? ?]]]; [by left|..]; right;
      [left|right]; (split; [done|]); lia.
  - intros Hall. rewrite Hs, Hi.
    assert (count holds (requests s) = 0 ∧ count gauged (requests s) = 0) as [-> ->].
    { revert Hall. generalize (requests s) as rs. intros rs. induction 1 as [|r rs Hf Hall IH]; simpl; [done|].
      destruct IH as [-> ->]. by destruct r. }
    unfold measured. by destruct metrics.
  - intros *. by apply concurrency_handler_refines.
Qed.

(** Two requests and one slot: the first is in the handler, the second is sent
    away. *)
Definition busy : state := mkState 1 1 0 [Running true; Arriving false].

Lemma concurrency_limit_sound_witness :
  count holds (requests busy) ≤ 1 ∧ inflight busy = 1 ∧
  ∀ s', step 1 true busy s' → requests s' !! 1%nat ≠ Some Acquired.
Proof.
  destruct (concurrency_limit_sound 1 true [Arriving false; Arriving false] busy)
    as (_ & Hmax & Hg & _ & Hout & _); [lia|by repeat constructor| |].
  - eapply rtc_l; [apply (step_send 1 true 0 (initial [Arriving false; Arriving false])); [done|simpl; lia]|].
    apply rtc_once. by apply (step_gauge_up 1 true 0 (mkState 1 0 0 [Acquired; Arriving false])).
  - split; [exact Hmax|]. split; [exact Hg|]. intros s' Hs Hacq.
    destruct (Hout 1%nat s' Hs eq_refl) as [?|[[_ Hlt]|[? _]]]; [congruence| |congruence]. simpl in Hlt. lia.
Defined.
End Concurrency.
