(* ===== verification/Router.v ===== *)
(** * The browser-facing server: internal/httpx

    The system routes, the remaining middlewares (access log, request metrics,
    body limit, redaction of logged addresses) and [NewRouter], which puts the
    routes behind all of them in the order of the source.  How many bytes a body
    takes on the wire is the class [WireSize]; it is only logged. *)

From S2P Require Import Prelude GoStrings GoURL GoQuery World GoNumbers Session Policy Metrics Http Middleware Mux.
From S2P Require Import Auth AuthHTTP Limits.
Open Scope Z_scope.

Class WireSize := { body_size : body → Z }.

(** ** redact.go: addresses *)
Definition sensitiveQueryKeys : list string :=
  ["access_token"; "refresh_token"; "id_token"; "code"; "client_secret"; "token"; "signature"; "x-amz-signature"].

Definition redacted : string := "[REDACTED]".

Section redact.
Context `{UnicodeCase}.

Definition sensitive (key : string) : bool := bool_decide (ToLower key ∈ sensitiveQueryKeys).
(** The loop over the keys of the query. *)
Definition redact_values (q : Values) : Values :=
  map_imap (λ k vs, Some (if sensitive k then [redacted] else vs)) q.
Definition redact_query (u : URL) : URL :=
  mkURL (u_Scheme u) (u_Opaque u) (u_User u) (u_Host u) (u_Path u) (u_RawPath u) (u_OmitHost u) (u_ForceQuery u)
    (Values_Encode (redact_values (ParseQuery (u_RawQuery u)))) (u_Fragment u) (u_RawFragment u).
Definition RedactedURL (u : URL) : string := URL_String (redact_query u).
End redact.

(** ** body_limit.go *)
Definition MaxRequestBodyBytes (limit : Z) (next : Handler) : Handler :=
  if limit <=? 0 then next else λ r rw, next (limit_body limit r) rw.

(** ** access_log.go, http_metrics.go *)

(** What a recorder saw of the calls that a handler added. *)
Definition recorded_status (before after : RW) : Z :=
  let st := recorder_status (drop (length (rw_log before)) (rw_log after)) in
  if st =? 0 then StatusOK else st.
Definition recorded_bytes `{WireSize} (before after : RW) : Z :=
  foldr (λ op n, match op with Write b => body_size b + n | WriteHeader _ => n end) 0
    (drop (length (rw_log before)) (rw_log after)).

Definition AccessLog `{Env} `{Net} `{UnicodeCase} `{WireSize} (proxy : list IPNet) (next : Handler) : Handler := λ r rw,
  do start := now in
  do rw' := next r rw in
  let status := recorded_status rw rw' in
  if successfulHealthCheck (r_Path r) status then ret rw' else
  do t := now in
  do _ := modify (add_log (mkLogRecord "http request"
    [("request_id", LStr (RequestIDFromContext (r_Context r))); ("trace_id", LStr (TraceIDFromContext (r_Context r)));
     ("method", LStr (r_Method r)); ("url", LStr (RedactedURL (r_URL r))); ("client_ip", LStr (ClientIP r proxy));
     ("status", LInt status); ("bytes", LInt (recorded_bytes rw rw'));
     ("duration_ms", LInt (Z.quot (Sub t start) Millisecond))])) in
  ret rw'.

(** [HTTPMetrics] around a mux; [pattern] is [r.Pattern] after the mux has run. *)
Definition HTTPMetrics `{Env} (metrics : bool) (pattern : Request → string) (next : Handler) : Handler :=
  if negb metrics then next else λ r rw,
  do start := now in
  do rw' := next r rw in
  let route := pattern r in
  do t := now in
  do _ := modify (add_metric (RecordHTTPRequest (r_Method r)
            (if bool_decide (route = "") then "unmatched" else route) (recorded_status rw rw') (Sub t start))) in
  ret rw'.

(** ** internal/observability [Metrics.Handler] *)
Definition metrics_handler `{UnicodeCase} `{Registry.PrintTable} `{FloatText} : Handler := λ r rw,
  do calls := gets w_metrics in
  let lines := Registry.writePrometheus (Registry.registry calls) in
  ret (push (Write (BText (Join ((λ l, l +:+ String "010" "") <$> lines) "")))
         (set_header "Content-Type" "text/plain; version=0.0.4; charset=utf-8" rw)).

(** ** system_routes.go *)
Definition status_json (s : string) : json := JObj [("status", JStr s)].
Definition live : Handler := λ r rw, ret (writeJSON StatusOK (status_json "ok") rw).
Definition ready (check : option (M (result unit))) : Handler := λ r rw,
  match check with
  | None => ret (writeJSON StatusOK (status_json "ready") rw)
  | Some check =>
      do res := check in
      match res with
      | Err _ => ret (writeJSON StatusServiceUnavailable (status_json "not_ready") rw)
      | Ok _ => ret (writeJSON StatusOK (status_json "ready") rw)
      end
  end.
Definition RegisterSystemRoutes (check : option (M (result unit))) (metrics : option Handler) : routes :=
  [("GET /health/live", live); ("GET /health/ready", ready check)]
  ++ match metrics with Some h => [("GET /metrics", h)] | None => [] end.

(** internal/auth/http.go [Handler.Register] *)
Definition auth_routes `{Env} `{UnicodeCase} `{IPLiteral} (h : AuthHandler) : routes :=
  [("GET /auth/login", login h); ("GET /auth/callback", callback h); ("POST /auth/logout", logout h);
   ("GET /api/me", me h)].

(** ** router.go *)
Record RouterDeps `{Net} := mkRouterDeps {
  rd_Auth : AuthHandler;
  (** the routes that AppRoutes.Register adds; none for nil *)
  rd_AppRoutes : routes;
  rd_Readiness : option (M (result unit));
  rd_PublicURL : string;
  rd_SecureCookies : bool;
  rd_TrustedProxy : list IPNet;
  rd_Metrics : bool;
  rd_MaxRequestBodyBytes : Z;
  rd_MaxConcurrency : Z;
  rd_RatePerSecond : float64;
  rd_RateBurst : Z;
  rd_RateMaxEntries : Z;
  rd_AuthRatePerSecond : float64;
  rd_AuthRateBurst : Z;
  rd_AccessLogEnabled : bool;
  rd_TraceEnabled : bool;
  rd_SessionCookieName : string;
  rd_CSRFCookieName : string;
}.

Section router.
Context `{Env} `{Net} `{UnicodeCase} `{IPLiteral} `{MuxVersion} `{WireSize} `{Registry.PrintTable} `{FloatText}.
Context (basePath : string) (deps : RouterDeps).

Definition app_routes : routes :=
  RegisterSystemRoutes (rd_Readiness deps) (if rd_Metrics deps then Some metrics_handler else None)
  ++ auth_routes (rd_Auth deps) ++ rd_AppRoutes deps.
Definition app_handler : Handler := HTTPMetrics (rd_Metrics deps) (mux_pattern app_routes) (mux app_routes).

Definition csrf_config : CSRFConfig :=
  mkCSRF (rd_PublicURL deps) (rd_SecureCookies deps) (rd_CSRFCookieName deps).
Definition auth_rate : RateLimitConfig :=
  mkRateLimit _ (rd_AuthRatePerSecond deps) (rd_AuthRateBurst deps) 0 (rd_RateMaxEntries deps) (rd_TrustedProxy deps)
    (rd_Metrics deps) ["/auth/login"] "auth_rate_limit".
Definition all_rate : RateLimitConfig :=
  mkRateLimit _ (rd_RatePerSecond deps) (rd_RateBurst deps) 0 (rd_RateMaxEntries deps) (rd_TrustedProxy deps)
    (rd_Metrics deps) [] "".

(** The handler inside the middlewares that only annotate the request. *)
Definition limited_handler (mounted : Handler) : Handler :=
  RateLimit all_rate (RateLimit auth_rate
    (ConcurrencyLimit (rd_MaxConcurrency deps) (rd_Metrics deps)
      (MaxRequestBodyBytes (rd_MaxRequestBodyBytes deps) (CSRF csrf_config mounted)))).

(** Everything around the mounted routes. *)
Definition protected_handler (mounted : Handler) : Handler :=
  let mounted := limited_handler mounted in
  let mounted := if rd_AccessLogEnabled deps then AccessLog (rd_TrustedProxy deps) mounted else mounted in
  let mounted := RequestMetadata (rd_TrustedProxy deps) mounted in
  let mounted := SecurityHeaders mounted in
  let mounted := if rd_TraceEnabled deps then TraceContext mounted else mounted in
  RequestID mounted.

(** An error is a panic of the registration: of a route of the application whose
    pattern is malformed or conflicts, or of the base path. *)
Definition NewRouter : result Handler :=
  let? _ := register [] app_routes in
  let? mounted := mount basePath app_handler in
  Ok (protected_handler mounted).
End router.

(** ** Properties *)

(** The headers that every answer keeps. *)
Definition kept_headers : list string :=
  ["X-Request-ID"; "X-Frame-Options"; "Referrer-Policy"; "Permissions-Policy"; "Cross-Origin-Opener-Policy";
   "Cross-Origin-Resource-Policy"].
Definition keeps_headers (rw rw1 : RW) : Prop :=
  ∀ name, name ∈ kept_headers → rw_header_get rw1 name = rw_header_get rw name.
(** Headers that may be set without touching them. *)
Definition other_header (k : string) : bool := forallb (λ name, negb (header_eq k name)) kept_headers.

Lemma keeps_headers_refl rw : keeps_headers rw rw.
Proof. done. Qed.
Lemma keeps_headers_trans rw rw1 rw2 : keeps_headers rw rw1 → keeps_headers rw1 rw2 → keeps_headers rw rw2.
Proof. intros H1 H2 name Hn. by rewrite (H2 name Hn), (H1 name Hn). Qed.
Lemma keeps_headers_same rw rw1 : rw_header rw1 = rw_header rw → keeps_headers rw rw1.
Proof. intros He name _. unfold rw_header_get. by rewrite He. Qed.
Lemma keeps_set_header k v rw : other_header k = true → keeps_headers rw (set_header k v rw).
Proof.
  intros Ho name Hn. apply set_header_get_other. unfold other_header in Ho. rewrite forallb_forall in Ho.
  apply negb_true_iff, Ho. by apply list_elem_of_In.
Qed.
Lemma keeps_push op rw rw1 : keeps_headers rw rw1 → keeps_headers rw (push op rw1).
Proof. done. Qed.
Lemma keeps_http_Error text st rw : keeps_headers rw (http_Error text st rw).
Proof.
  unfold http_Error. do 2 apply keeps_push.
  eapply keeps_headers_trans; [by apply (keeps_set_header "Content-Type")|].
  by apply keeps_set_header.
Qed.
Lemma keeps_http_Redirect url st rw : keeps_headers rw (http_Redirect url st rw).
Proof. unfold http_Redirect. do 2 apply keeps_push. by apply keeps_set_header. Qed.

(** What a middleware must leave alone of a request. *)
Definition same_message (r r1 : Request) : Prop :=
  r_Method r1 = r_Method r ∧ r_Header r1 = r_Header r ∧ r_Cookies r1 = r_Cookies r ∧
  r_RemoteAddr r1 = r_RemoteAddr r ∧ r_Body r1 = r_Body r.
Definition same_client (r r1 : Request) : Prop :=
  same_message r r1 ∧ ctx_requestID (r_Context r1) = ctx_requestID (r_Context r).
Lemma same_message_trans r r1 r2 : same_message r r1 → same_message r1 r2 → same_message r r2.
Proof. intros (?&?&?&?&?) (?&?&?&?&?). repeat split; congruence. Qed.
Lemma same_client_refl r : same_client r r.
Proof. by repeat split. Qed.
Lemma same_client_trans r r1 r2 : same_client r r1 → same_client r1 r2 → same_client r r2.
Proof. intros [? ?] [? ?]. split; [by eapply same_message_trans|congruence]. Qed.

(** A page of the server's own: one status of 300 or more, and then one fixed text
    or the note of a redirect. *)
Definition own_page (log : list wop) : Prop :=
  ∃ st b, 300 ≤ st ∧ log = [WriteHeader st; Write b] ∧
    match b with BText _ | BRedirect _ => True | _ => False end.
(** An answer of the middleware's own: such a page is written, the security headers
    stay. *)
Definition own_answer (rw rw' : RW) : Prop :=
  keeps_headers rw rw' ∧ ∃ log, own_page log ∧ rw_log rw' = rw_log rw ++ log.

Lemma own_http_Error text st rw rw0 :
  300 ≤ st → rw_log rw = rw_log rw0 → keeps_headers rw0 rw → own_answer rw0 (http_Error text st rw).
Proof.
  intros Hst Hl Hk. split; [eapply keeps_headers_trans; [exact Hk|apply keeps_http_Error]|].
  eexists. split; [|by rewrite http_Error_log, Hl]. by exists st, (BText text).
Qed.

(** [h] answers as [next] does on a request that [R] relates to its own, or
    itself. *)
Definition passes (R : Request → Request → Prop) (h next : Handler) : Prop := ∀ r rw w,
  (∃ r1 rw1 w1, R r r1 ∧ rw_log rw1 = rw_log rw ∧ keeps_headers rw rw1 ∧ (h r rw w).1 = (next r1 rw1 w1).1) ∨
  own_answer rw (h r rw w).1.

Lemma passes_trans (R S T : Request → Request → Prop) h k next :
  (∀ r r1 r2, R r r1 → S r1 r2 → T r r2) → passes R h k → passes S k next → passes T h next.
Proof.
  intros HT Hh Hk r rw w. destruct (Hh r rw w) as [(r1 & rw1 & w1 & HR & Hl & Hkeep & ->)|Ho]; [|by right].
  destruct (Hk r1 rw1 w1) as [(r2 & rw2 & w2 & HS & Hl2 & Hkeep2 & ->)|[Hkeep2 (log & Hpage & Hlog)]].
  - left. exists r2, rw2, w2. split; [by eapply HT|]. split; [congruence|].
    split; [by eapply keeps_headers_trans|done].
  - right. split; [by eapply keeps_headers_trans|]. exists log. split; [done|]. by rewrite Hlog, Hl.
Qed.

Lemma passes_id (R : Request → Request → Prop) h : (∀ r, R r r) → passes R h h.
Proof. intros HR r rw w. left. exists r, rw, w. split; [done|]. split; [done|]. split; [done|]. done. Qed.

Section chain.
Context `{Env} `{Net} `{UnicodeCase} `{IPLiteral} `{MuxVersion} `{WireSize} `{Registry.PrintTable} `{FloatText}.

(** The request as it is, to the handler behind a limit. *)
Definition unchanged (r r1 : Request) : Prop := same_client r r1 ∧ r_URL r1 = r_URL r.
Lemma unchanged_refl r : unchanged r r.
Proof. split; [apply same_client_refl|done]. Qed.
Lemma unchanged_trans r r1 r2 : unchanged r r1 → unchanged r1 r2 → unchanged r r2.
Proof. intros [? ?] [? ?]. split; [by eapply same_client_trans|congruence]. Qed.

Lemma RateLimit_passes cfg next : passes unchanged (RateLimit cfg next) next.
Proof.
  intros r rw w. unfold RateLimit. destruct (_ || _).
  { left. exists r, rw, w. repeat split; done. }
  unfold bind, now, oracle, gets, modify. destruct (take cfg _ _ _) as [[] l]; cbn [negb].
  - left. eexists r, rw, _. split; [apply unchanged_refl|]. split; [done|]. split; [done|]. reflexivity.
  - right. destruct (record_if _ _ _). apply own_http_Error; [done|done|]. by apply keeps_set_header.
Qed.

Lemma ConcurrencyLimit_passes max metrics next : passes unchanged (ConcurrencyLimit max metrics next) next.
Proof.
  unfold ConcurrencyLimit. destruct (max <=? 0); [apply passes_id, unchanged_refl|].
  intros r rw w. destruct (operationalPath _).
  { left. exists r, rw, w. repeat split; done. }
  unfold bind, gets, modify. destruct (w_sem w <? max).
  - left. destruct (record_if metrics _ _) as [u w1]. exists r, rw, w1.
    split; [apply unchanged_refl|]. split; [done|]. split; [done|].
    destruct (next r rw w1) as [rw' w2]. by destruct (record_if _ _ _).
  - right. destruct (record_if _ _ _). apply own_http_Error; [done|done|]. by apply keeps_set_header.
Qed.

Lemma MaxRequestBodyBytes_passes limit next : passes unchanged (MaxRequestBodyBytes limit next) next.
Proof.
  unfold MaxRequestBodyBytes. destruct (limit <=? 0); [apply passes_id, unchanged_refl|].
  intros r rw w. left. exists (limit_body limit r), rw, w. repeat split; done.
Qed.

Lemma AccessLog_passes proxy next : passes unchanged (AccessLog proxy next) next.
Proof.
  intros r rw w. left. exists r, rw, (tick w). split; [apply unchanged_refl|]. split; [done|]. split; [done|].
  unfold AccessLog, bind, now, oracle, modify, ret. destruct (next r rw (tick w)) as [rw' w'].
  by destruct (successfulHealthCheck _ _).
Qed.

Lemma HTTPMetrics_passes metrics pattern next : passes unchanged (HTTPMetrics metrics pattern next) next.
Proof.
  unfold HTTPMetrics. destruct metrics; cbn [negb]; [|apply passes_id, unchanged_refl].
  intros r rw w. left. exists r, rw, (tick w). split; [apply unchanged_refl|]. split; [done|]. split; [done|].
  unfold bind, now, oracle, modify, ret. by destruct (next r rw (tick w)) as [rw' w'].
Qed.

Lemma RequestMetadata_passes proxy next : passes unchanged (RequestMetadata proxy next) next.
Proof.
  intros r rw w. left. unfold RequestMetadata. destruct (ClientIdentity r proxy) as [ip source].
  eexists _, rw, w. split; [|split; [done|split; [done|reflexivity]]]. by repeat split.
Qed.

Lemma TraceContext_runs next r rw w :
  ∃ r1 rw1 w1, unchanged r r1 ∧ rw_log rw1 = rw_log rw ∧ keeps_headers rw rw1 ∧
    TraceContext next r rw w = next r1 rw1 w1.
Proof.
  unfold TraceContext. set (m := if bool_decide _ then _ else _).
  unfold bind. destruct (m w) as [id w1]. eexists _, _, w1. split; [|split; [|split; [|reflexivity]]].
  - by repeat split.
  - done.
  - by apply keeps_set_header.
Qed.

Definition passes_csrf (cfg : CSRFConfig) (r r1 : Request) : Prop := r1 = r ∧ csrf_passes cfg r.
Lemma CSRF_passes cfg next : passes (passes_csrf cfg) (CSRF cfg next) next.
Proof.
  intros r rw w. destruct (CSRF_cases cfg next r rw w) as (rw1 & w1 & Hl & Hh & [[Hp ->]|[_ [text ->]]]).
  - left. exists r, rw1, w1. split; [done|]. split; [done|]. split; [by apply keeps_headers_same|done].
  - right. apply own_http_Error; [done|done|by apply keeps_headers_same].
Qed.

(** The base path in front of the routes. *)
Definition mount_base (basePath : string) : string :=
  if bool_decide (basePath = "" ∨ basePath = "/") then "" else TrimRight basePath "/".
Definition below (base : string) (r r1 : Request) : Prop :=
  same_client r r1 ∧ u_Path (r_URL r) = base +:+ u_Path (r_URL r1).

Lemma TrimPrefix_shorter s p : len (TrimPrefix s p) < len s → s = p +:+ TrimPrefix s p.
Proof.
  unfold TrimPrefix. destruct (HasPrefix s p) eqn:Hp; [|lia]. intros _.
  apply HasPrefix_spec in Hp as [t ->]. by rewrite bytes_app, <-length_bytes, drop_app_length, of_bytes_bytes.
Qed.

(** A mux answers as one of its routes does, or itself. *)
Definition dispatched (rs : routes) (h : Handler) (r r1 : Request) : Prop :=
  ∃ text vs, (text, h) ∈ rs ∧ serves (pattern_of text) (r_Method r) ∧
    matches_segments (pt_Segments (pattern_of text)) (segments_of (EscapedPath (r_URL r))) vs ∧
    r1 = with_path_values r (path_values (pattern_of text) vs).

Lemma mux_answers rs r rw w :
  (∃ h r1, dispatched rs h r r1 ∧ mux rs r rw w = h r1 rw w) ∨ own_answer rw (mux rs r rw w).1.
Proof.
  unfold mux. destruct (findHandler rs r) as [p h vs|loc|allowed|] eqn:Hf.
  - left. apply findHandler_sound in Hf as (text & Hin & -> & Hs & Hm). eexists h, _. split; [|done]. by exists text, vs.
  - right. split; [apply keeps_http_Redirect|]. pose proof mux_redirect_3xx.
    eexists. split; [|cbn [fst ret]; by rewrite http_Redirect_log]. eexists mux_redirect, _. split; [lia|done].
  - right. apply own_http_Error; [done|done|by apply keeps_set_header].
  - right. by apply own_http_Error.
Qed.

Lemma StripPrefix_passes base h : passes (below base) (StripPrefix base h) h.
Proof.
  unfold StripPrefix. case_bool_decide as Hb; [subst; by apply passes_id|].
  intros r rw w. cbv zeta. destruct ((_ <? _) && _) eqn:Hc.
  - left. apply andb_true_iff in Hc as [Hlt _]. apply Z.ltb_lt in Hlt.
    eexists _, rw, w. split; [|split; [done|split; [done|reflexivity]]]. split; [by repeat split|].
    cbn [r_URL with_url u_Path]. by apply TrimPrefix_shorter.
  - right. by apply own_http_Error.
Qed.

Lemma mount_passes basePath h mounted :
  mount basePath h = Ok mounted → passes (below (mount_base basePath)) mounted h.
Proof.
  unfold mount, mount_base, serve_mux, mount_routes. case_bool_decide as Hb; [intros [= <-]; by apply passes_id|].
  set (base := TrimRight basePath "/"). intros (u & _ & [= <-])%result_bind_ok r rw w.
  destruct (mux_answers [(base +:+ "/", StripPrefix base h)] r rw w) as [(k & r1 & (text & vs & Hin & _ & _ & ->) & ->)|Ho];
    [|by right].
  apply list_elem_of_singleton in Hin as [= _ ->].
  destruct (StripPrefix_passes base h (with_path_values r (path_values (pattern_of text) vs)) rw w)
    as [(r2 & rw2 & w2 & [Hs Hp] & Hrest)|Ho]; [|by right].
  left. exists r2, rw2, w2. split; [|done]. split; [|done]. eapply same_client_trans; [|exact Hs]. by repeat split.
Qed.

Context (basePath : string) (deps : RouterDeps).
Context (mounted : Handler) (Hmounted : mount basePath (app_handler deps) = Ok mounted).

(** Through everything between the annotations and the routes. *)
Definition routed (r r1 : Request) : Prop :=
  same_client r r1 ∧ csrf_passes (csrf_config deps) r ∧
  u_Path (r_URL r) = mount_base basePath +:+ u_Path (r_URL r1).

Lemma csrf_passes_same cfg r r1 : same_message r r1 → csrf_passes cfg r1 → csrf_passes cfg r.
Proof.
  intros (Hm & Hh & Hc & _). unfold csrf_passes, header_get, cookie_get. by rewrite Hm, Hh, Hc.
Qed.

Lemma routed_unchanged r r1 r2 : unchanged r r1 → routed r1 r2 → routed r r2.
Proof.
  intros [Hs Hu] (Hs' & Hcs & Hp). split; [by eapply same_client_trans|].
  split; [by eapply csrf_passes_same; [apply Hs|]|by rewrite <-Hu].
Qed.

Lemma limited_passes : passes routed (limited_handler deps mounted) (mux (app_routes deps)).
Proof.
  unfold limited_handler.
  do 2 (eapply passes_trans; [exact routed_unchanged|apply RateLimit_passes|]).
  eapply passes_trans; [exact routed_unchanged|apply ConcurrencyLimit_passes|].
  eapply passes_trans; [exact routed_unchanged|apply MaxRequestBodyBytes_passes|].
  eapply (passes_trans _ (below (mount_base basePath))); [|apply CSRF_passes|].
  { intros r r1 r2 [-> Hcs] [Hs Hp]. done. }
  eapply (passes_trans _ unchanged); [|by apply mount_passes|apply HTTPMetrics_passes].
  intros r r1 r2 [Hs Hp] [Hs' Hu]. split; [by eapply same_client_trans|]. by rewrite Hu.
Qed.

Definition annotated_handler : Handler :=
  RequestMetadata (rd_TrustedProxy deps)
    (if rd_AccessLogEnabled deps then AccessLog (rd_TrustedProxy deps) (limited_handler deps mounted)
     else limited_handler deps mounted).

Lemma annotated_passes : passes routed annotated_handler (mux (app_routes deps)).
Proof.
  unfold annotated_handler. eapply passes_trans; [exact routed_unchanged|apply RequestMetadata_passes|].
  destruct (rd_AccessLogEnabled deps); [|apply limited_passes].
  eapply passes_trans; [exact routed_unchanged|apply AccessLog_passes|apply limited_passes].
Qed.

(** The security headers of an answer, and its request id. *)
Definition secured (rw : RW) : Prop :=
  rw_header_get rw "X-Frame-Options" = "DENY" ∧ rw_header_get rw "Referrer-Policy" = "no-referrer" ∧
  rw_header_get rw "Permissions-Policy" = "camera=(), microphone=(), geolocation=()" ∧
  rw_header_get rw "Cross-Origin-Opener-Policy" = "same-origin" ∧
  rw_header_get rw "Cross-Origin-Resource-Policy" = "same-origin" ∧
  validRequestID (rw_header_get rw "X-Request-ID") = true.

Lemma secured_keeps rw rw' : keeps_headers rw rw' → secured rw → secured rw'.
Proof. unfold secured. intros Hk. by rewrite !Hk by set_solver. Qed.

(** The handler inside [RequestID]. *)
Definition traced_handler : Handler :=
  if rd_TraceEnabled deps then TraceContext (SecurityHeaders annotated_handler) else SecurityHeaders annotated_handler.

Lemma SecurityHeaders_secured rw :
  validRequestID (rw_header_get rw "X-Request-ID") = true →
  ∃ rw', rw_log rw' = rw_log rw ∧ secured rw' ∧ rw_header_get rw' "X-Request-ID" = rw_header_get rw "X-Request-ID" ∧
    ∀ next r w, SecurityHeaders next r rw w = next r rw' w.
Proof.
  intros Hid. eexists. split; [|split; [|split; [|intros next r w; reflexivity]]]; [done| |].
  - unfold secured. repeat split; rewrite ?set_header_get_other by done; first [apply set_header_get|done].
  - by rewrite !set_header_get_other by done.
Qed.

Lemma traced_runs r rw w :
  validRequestID (rw_header_get rw "X-Request-ID") = true →
  ∃ r1 rw1 w1, unchanged r r1 ∧ rw_log rw1 = rw_log rw ∧ secured rw1 ∧
    rw_header_get rw1 "X-Request-ID" = rw_header_get rw "X-Request-ID" ∧
    traced_handler r rw w = annotated_handler r1 rw1 w1.
Proof.
  intros Hid. unfold traced_handler. destruct (rd_TraceEnabled deps).
  - destruct (TraceContext_runs (SecurityHeaders annotated_handler) r rw w) as (r1 & rw1 & w1 & Hu & Hl & Hk & ->).
    assert (rw_header_get rw1 "X-Request-ID" = rw_header_get rw "X-Request-ID") as Hsame by (apply Hk; set_solver).
    destruct (SecurityHeaders_secured rw1) as (rw2 & Hl2 & Hs & Hid2 & ->); [by rewrite Hsame|].
    exists r1, rw2, w1. split; [done|]. split; [congruence|]. split; [done|]. split; [congruence|done].
  - destruct (SecurityHeaders_secured rw Hid) as (rw2 & Hl2 & Hs & Hid2 & ->).
    exists r, rw2, w. split; [apply unchanged_refl|done].
Qed.

(** What the server does with a request: it answers it itself, or one of the
    routes does. *)
Definition reached (r : Request) (h : Handler) (r1 : Request) (rw1 : RW) : Prop :=
  csrf_passes (csrf_config deps) r ∧ same_message r r1 ∧ rw_log rw1 = [] ∧ secured rw1 ∧
  ctx_requestID (r_Context r1) = Some (rw_header_get rw1 "X-Request-ID") ∧
  u_Path (r_URL r) = mount_base basePath +:+ u_Path (r_URL r1) ∧
  ∃ text vs, (text, h) ∈ app_routes deps ∧ serves (pattern_of text) (r_Method r) ∧
    matches_segments (pt_Segments (pattern_of text)) (segments_of (EscapedPath (r_URL r1))) vs ∧
    r_PathValues r1 = path_values (pattern_of text) vs.

Lemma protected_cases r rw w :
  (∀ i l, rand_read i 16 = Ok l → length l = 16%nat) → rw_log rw = [] →
  let rw' := (protected_handler deps mounted r rw w).1 in
  (secured rw' ∧ own_page (rw_log rw')) ∨
  ∃ h r1 rw1 w1, reached r h r1 rw1 ∧ rw' = (h r1 rw1 w1).1.
Proof.
  intros Hrand Hlog rw'. subst rw'. change (protected_handler deps mounted) with (RequestID traced_handler).
  destruct (request_id_sanitised traced_handler r rw w Hrand) as (c & rw0 & w0 & -> & (id & Hctx & Hid & Hh) & Hl0).
  destruct (traced_runs (WithContext r c) rw0 w0) as (r1 & rw1 & w1 & Hu & Hl1 & Hsec & Hid1 & ->); [by rewrite Hh|].
  destruct (annotated_passes r1 rw1 w1) as [(r2 & rw2 & w2 & Hr & Hl2 & Hk & ->)|[Hk (log & Hpage & Hl2)]].
  2: { left. split; [by eapply secured_keeps|]. by rewrite Hl2, Hl1, Hl0, Hlog. }
  pose proof (secured_keeps _ _ Hk Hsec) as Hsec2.
  apply (routed_unchanged (WithContext r c)) in Hr as ((Hmsg & Hcid) & Hcs & Hp); [|done].
  destruct (mux_answers (app_routes deps) r2 rw2 w2) as [(h & r3 & (text & vs & Hin & Hs & Hmt & ->) & ->)|[Hk2 (log & Hpage & Hl3)]].
  2: { left. split; [by eapply secured_keeps|]. by rewrite Hl3, Hl2, Hl1, Hl0, Hlog. }
  right. eexists h, _, rw2, w2. split; [|reflexivity].
  split; [by eapply csrf_passes_same; [|exact Hcs]; repeat split|].
  split; [exact Hmsg|]. split; [congruence|]. split; [done|]. split.
  { change (ctx_requestID (r_Context r2) = Some (rw_header_get rw2 "X-Request-ID")).
    rewrite (Hk "X-Request-ID") by set_solver. rewrite Hid1, Hh. etransitivity; [exact Hcid|exact Hctx]. }
  split; [done|]. exists text, vs. split; [done|]. split; [|done].
  destruct Hmsg as [Hm _]. change (r_Method (WithContext r c)) with (r_Method r) in Hm. by rewrite Hm in Hs.
Qed.
End chain.

Section guards.
Context `{Env} `{Net} `{UnicodeCase} `{IPLiteral} `{MuxVersion} `{WireSize} `{Registry.PrintTable} `{FloatText}.

Lemma router_cases basePath deps h0 r rw w :
  NewRouter basePath deps = Ok h0 →
  (∀ i l, rand_read i 16 = Ok l → length l = 16%nat) → rw_log rw = [] →
  let rw' := (h0 r rw w).1 in
  (secured rw' ∧ own_page (rw_log rw')) ∨
  ∃ h r1 rw1 w1, reached basePath deps r h r1 rw1 ∧ rw' = (h r1 rw1 w1).1.
Proof.
  unfold NewRouter. intros (u & _ & Hm)%result_bind_ok. apply result_bind_ok in Hm as (mounted & Hm & [= <-]).
  by apply protected_cases.
Qed.

Lemma own_page_status log : own_page log → ∃ st, log_status log = Some st ∧ 300 ≤ st.
Proof. intros (st & b & Hst & -> & _). by exists st. Qed.

(** Every route of the server is behind its guards.  A request is answered
    by the server itself, with a redirect or an error, or by exactly one
    registered route, whose pattern matches the method and the path below the base
    path; and a route is reached only by a request that passes the CSRF check,
    with method, headers, cookies and body as the client sent them and a
    well-formed request id in context and response.  Either way the security
    headers are on the response before the route sees it. *)
Theorem router_guards basePath deps h0 r rw w :
  NewRouter basePath deps = Ok h0 →
  (∀ i l, rand_read i 16 = Ok l → length l = 16%nat) → rw_log rw = [] →
  let rw' := (h0 r rw w).1 in
  (secured rw' ∧ own_page (rw_log rw')) ∨
  ∃ h r1 rw1 w1, reached basePath deps r h r1 rw1 ∧ rw' = (h r1 rw1 w1).1.
Proof. apply router_cases. Qed.
End guards.

(** ** Redaction *)
Section redaction.
Context `{UnicodeCase}.

Lemma redact_values_lookup q k :
  redact_values q !! k = (λ vs, if sensitive k then [redacted] else vs) <$> q !! k.
Proof. unfold redact_values. rewrite map_lookup_imap. by destruct (q !! k). Qed.

(** C31: secrets do not reach the log.  The logged form of an address differs from
    it in the query only; parsed again, that query has every key of the original
    with its values, except that the values of a key that names a secret, in any
    letter case, are replaced by one fixed text.  The logged text is the same for
    any two addresses that differ in the values of such keys only. *)
Theorem redacted_url_hides_secrets u :
  (∃ u', RedactedURL u = URL_String u' ∧ u_Path u' = u_Path u ∧ u_Host u' = u_Host u ∧
     ∀ k, ParseQuery (u_RawQuery u') !! k =
       (λ vs, if sensitive k then [redacted] else vs) <$> ParseQuery (u_RawQuery u) !! k) ∧
  ∀ query, (∀ k, sensitive k = false → ParseQuery query !! k = ParseQuery (u_RawQuery u) !! k) →
    (∀ k, sensitive k = true → (is_Some (ParseQuery query !! k) ↔ is_Some (ParseQuery (u_RawQuery u) !! k))) →
    RedactedURL (mkURL (u_Scheme u) (u_Opaque u) (u_User u) (u_Host u) (u_Path u) (u_RawPath u) (u_OmitHost u)
      (u_ForceQuery u) query (u_Fragment u) (u_RawFragment u)) = RedactedURL u.
Proof.
  split.
  - exists (redact_query u). do 3 (split; [done|]). intros k. cbn [redact_query u_RawQuery].
    rewrite ParseQuery_Encode; [apply redact_values_lookup|].
    intros k' vs. rewrite redact_values_lookup. intros (vs' & Hv & ->)%fmap_Some.
    apply ParseQuery_nonempty in Hv. by destruct (sensitive k').
  - intros query Hsame Hsens. unfold RedactedURL, redact_query. cbn [u_Scheme u_Opaque u_User u_Host u_Path u_RawPath
      u_OmitHost u_ForceQuery u_RawQuery u_Fragment u_RawFragment]. do 3 f_equal.
    apply map_eq. intros k. rewrite !redact_values_lookup. destruct (sensitive k) eqn:Hk; [|by rewrite Hsame].
    specialize (Hsens k Hk). destruct (ParseQuery query !! k), (ParseQuery (u_RawQuery u) !! k); try done.
    + destruct Hsens as [Hs _]. by destruct Hs.
    + destruct Hsens as [_ Hs]. by destruct Hs.
Qed.
End redaction.

Example redact_example :
  let _ := ascii_case in
  RedactedURL (mkURL "" "" None "" "/auth/callback" "" false false "state=s&Code=secret&code=x" "" "") =
    "/auth/callback?Code=%5BREDACTED%5D&code=%5BREDACTED%5D&state=s".
Proof. by vm_compute. Qed.

(** ** Witnesses *)
Section witnesses.
#[local] Instance router_env : Env := sample_env.
#[local] Instance router_case : UnicodeCase := ascii_case.
#[local] Instance router_ip : IPLiteral := no_literal.
#[local] Instance router_mux : MuxVersion := sample_mux_version.
#[local] Instance router_size : WireSize := {| body_size _ := 0 |}.
#[local] Instance router_print : Registry.PrintTable := {| Registry.is_print _ := true |}.
#[local] Instance router_float : FloatText := {| ParseFloat _ := Err (errorf "none"); FormatFloat _ := "x" |}.
#[local] Instance router_net : Net := {|
  IP := string; IPNet := string; ParseIP s := Some s; IP_String s := s;
  ParseCIDR s := Ok s; IPNet_Contains _ _ := false; SplitHostPort s := Ok (s, "80") |}.

Definition sample_router_deps (app : routes) : RouterDeps :=
  mkRouterDeps _ sample_auth app None "https://app.example" true [] true 1024 4 (f64_of_Z 1) 10 100
    (f64_of_Z 1) 5 true true "bff_session" "bff_csrf".
Definition logout_request : Request :=
  mkRequest "POST" (path_url "/app/auth/logout") "10.0.0.1"
    [("Origin", "https://app.example"); ("X-CSRF-Token", "t")] [("bff_csrf", "t")] [] "" [] background.

Lemma router_guards_witness :
  match NewRouter "/app" (sample_router_deps []) with
  | Ok h0 =>
      let run := (h0 logout_request fresh_rw empty_world).1 in
      rw_status run = Some 303 ∧
      ((secured run ∧ own_page (rw_log run)) ∨
       ∃ h r1 rw1 w1, reached "/app" (sample_router_deps []) logout_request h r1 rw1 ∧ run = (h r1 rw1 w1).1)
  | Err _ => False
  end.
Proof.
  assert (match NewRouter "/app" (sample_router_deps []) with
          | Ok h0 => rw_status (h0 logout_request fresh_rw empty_world).1 = Some 303 | Err _ => False end) as Hst
    by (by vm_compute).
  destruct (NewRouter "/app" (sample_router_deps [])) as [h0|e] eqn:Hn; [|exact Hst].
  split; [exact Hst|].
  apply (router_guards "/app" (sample_router_deps []) h0 logout_request fresh_rw empty_world Hn).
  - intros i l [= <-]. reflexivity.
  - reflexivity.
Defined.

(** A base path that is no pattern: the registration of the mounted routes panics. *)
Example malformed_base_path :
  (is_ok (NewRouter "/{x" (sample_router_deps [])), is_ok (NewRouter "/a b" (sample_router_deps [])),
   is_ok (NewRouter "/{x}" (sample_router_deps [])), is_ok (NewRouter "/a/b" (sample_router_deps [])))
  = (false, false, true, true).
Proof. by vm_compute. Qed.

Lemma redacted_url_hides_secrets_witness :
  RedactedURL (mkURL "" "" None "" "/cb" "" false false "code=a" "" "") =
  RedactedURL (mkURL "" "" None "" "/cb" "" false false "code=b" "" "").
Proof.
  apply (proj2 (redacted_url_hides_secrets (mkURL "" "" None "" "/cb" "" false false "code=b" "" "")) "code=a").
  - intros k Hk. change (ParseQuery "code=a") with ({["code" := ["a"]]} : Values).
    change (ParseQuery (u_RawQuery _)) with ({["code" := ["b"]]} : Values).
    destruct (decide (k = "code")) as [->|Hne]; [discriminate Hk|]. by rewrite !lookup_singleton_ne.
  - intros k Hk. change (ParseQuery "code=a") with ({["code" := ["a"]]} : Values).
    change (ParseQuery (u_RawQuery _)) with ({["code" := ["b"]]} : Values).
    destruct (decide (k = "code")) as [->|Hne]; [by rewrite !lookup_singleton_eq|].
    by rewrite !lookup_singleton_ne.
Defined.
End witnesses.
