(* ===== verification/MockServices.v ===== *)
(** * The demo services: examples/asset-portal/cmd/mock-services

    The two servers that stand in for the upstream services of the example: assets
    with a scope per province, and upload addresses.  A line that the logger
    prints is a [LogRecord] without attributes.  Listening is not modelled. *)

From S2P Require Import Prelude GoStrings GoURL GoQuery World GoNumbers GoJSON GoTime GoStruct Http Middleware Mux Router.
Open Scope Z_scope.

(** ** Data *)
Record asset := mkMockAsset {
  ma_ID : string;
  ma_Name : string;
  ma_Serial : string;
  ma_Status : string;
  ma_ProjectID : string;
  ma_ProvinceID : string;
  ma_Province : string;
}.
Record principal := mkMockPrincipal {
  mp_Subject : string;
  mp_Username : string;
  mp_AllowedProvinces : gmap string bool;
}.
Definition mockAssets : gmap string asset := list_to_map
  [("A001", mkMockAsset "A001" "Demo Notebook" "SN-DEMO-001" "active" "PRJ-001" "50" "Chiang Mai");
   ("A002", mkMockAsset "A002" "Bangkok Demo Server" "SN-DEMO-002" "active" "PRJ-002" "10" "Bangkok")].
Definition mock_asset_json (a : asset) : json :=
  JObj [("id", JStr (ma_ID a)); ("name", JStr (ma_Name a)); ("serial", JStr (ma_Serial a));
        ("status", JStr (ma_Status a)); ("project_id", JStr (ma_ProjectID a)); ("province_id", JStr (ma_ProvinceID a));
        ("province", JStr (ma_Province a))].

Definition provinceKeys (m : gmap string bool) : list string := keysSorted (dom (filter (λ p, p.2 = true) m)).
Definition alicePrincipal (subject : string) : principal := mkMockPrincipal subject "alice" {["50" := true]}.
Definition bob (subject : string) : principal := mkMockPrincipal subject "bob" {["10" := true]}.

(** ** Tokens *)

(** [base64.RawURLEncoding.DecodeString]: line ends are skipped, bits that are left
    over are ignored. *)
Definition base64_value (c : ascii) : option N :=
  let n := N_of_ascii c in
  (if (65 <=? n) && (n <=? 90) then Some (n - 65)
   else if (97 <=? n) && (n <=? 122) then Some (n - 71)
   else if (48 <=? n) && (n <=? 57) then Some (n + 4)
   else if n =? 45 then Some 62 else if n =? 95 then Some 63 else None)%N.
Fixpoint base64_unpack (l : list N) : option (list ascii) :=
  match l with
  | a :: b :: c :: d :: l' =>
      let n := (a * 262144 + b * 4096 + c * 64 + d)%N in
      rest ← base64_unpack l';
      Some (ascii_of_N (n / 65536) :: ascii_of_N ((n / 256) `mod` 256) :: ascii_of_N (n `mod` 256) :: rest)
  | [a; b; c] =>
      let n := (a * 4096 + b * 64 + c)%N in
      Some [ascii_of_N (n / 1024); ascii_of_N ((n / 4) `mod` 256)]
  | [a; b] => Some [ascii_of_N ((a * 64 + b) / 16)]
  | [_] => None
  | [] => Some []
  end.
Definition line_end (c : ascii) : bool := Ascii.eqb c "010" || Ascii.eqb c "013".
Definition base64_decode (s : string) : option string :=
  values ← mapM base64_value (filter (λ c, line_end c = false) (bytes s));
  of_bytes <$> base64_unpack values.

Section tokens.
Context `{FloatText}.

(** Every number of a value must be a float64 to be kept as [any]. *)
Fixpoint numbers_ok (v : jval) : bool :=
  match v with
  | VNum s => is_ok (ParseFloat s)
  | VArr l => forallb numbers_ok l
  | VObj ms => forallb (λ m, numbers_ok m.2) ms
  | _ => true
  end.
(** A member of map[string]any, as far as [.(string)] looks at it *)
Definition any_string (v : jval) (_ : option string) : result (option string) :=
  if numbers_ok v then Ok (match v with VStr s _ => Some s | _ => None end) else Err type_error.

Definition decodeJWTPayloadForMock (token : string) : option (gmap string (option string)) :=
  match Split token "." with
  | [_; payload; _] =>
      raw ← base64_decode payload;
      match Unmarshal_map any_string None raw with
      | Ok claims => Some claims
      | Err _ => None
      end
  | _ => None
  end.

Definition claim (claims : gmap string (option string)) (name : string) : string :=
  default "" (default None (claims !! name)).

Definition resolveMockPrincipal (authz : string) : option principal :=
  if negb (HasPrefix authz "Bearer ") then None else
  let token := TrimSpace (TrimPrefix authz "Bearer ") in
  if bool_decide (token = "") then None else
  if bool_decide (token = "alice-token") then Some (alicePrincipal "demo-alice") else
  if bool_decide (token = "bob-token") then Some (bob "demo-bob") else
  claims ← decodeJWTPayloadForMock token;
  let username := claim claims "preferred_username" in
  let email := claim claims "email" in
  let subject := claim claims "sub" in
  if bool_decide (username = "alice" ∨ email = "alice@example.com") then Some (alicePrincipal subject)
  else if bool_decide (username = "bob" ∨ email = "bob@example.com") then Some (bob subject)
  else None.
End tokens.

(** ** Handlers *)
Definition Printf (line : string) : M unit := modify (add_log (mkLogRecord line [])).
Definition NotFound (rw : RW) : RW := http_Error "404 page not found" StatusNotFound rw.

Section handlers.
Context `{Env} `{FloatText} `{MuxVersion}.

Definition withResponseLog (component : string) (next : Handler) : Handler := λ r rw,
  do started := now in
  do rw' := next r rw in
  do t := now in
  do _ := Printf ("component=" +:+ component +:+ " event=response method=" +:+ r_Method r +:+ " path=" +:+ r_Path r
    +:+ " request_id=" +:+ header_get r "X-Request-ID" +:+ " trace_id=" +:+ header_get r "X-Trace-ID"
    +:+ " status=" +:+ FormatInt (recorded_status rw rw')
    +:+ " duration_ms=" +:+ FormatInt (Z.quot (Sub t started) Millisecond)) in
  ret rw'.

Definition asset_handler : Handler := λ r rw,
  let ids := " request_id=" +:+ header_get r "X-Request-ID" +:+ " trace_id=" +:+ header_get r "X-Trace-ID" in
  let assetID := path_value r "id" in
  do _ := Printf ("component=asset-api event=request method=" +:+ r_Method r +:+ " path=" +:+ r_Path r +:+ ids
                  +:+ " asset_id=" +:+ assetID) in
  match resolveMockPrincipal (header_get r "Authorization") with
  | None =>
      do _ := Printf ("component=asset-api event=identity" +:+ ids +:+ " asset_id=" +:+ assetID
                      +:+ " decision=reject reason=invalid_bearer") in
      ret (http_Error "invalid bearer identity" StatusUnauthorized rw)
  | Some p =>
      let provinces := provinceKeys (mp_AllowedProvinces p) in
      do _ := Printf ("component=asset-api event=identity" +:+ ids +:+ " subject=" +:+ mp_Subject p +:+ " username="
                      +:+ mp_Username p +:+ " allowed_provinces=" +:+ Join provinces ",") in
      match mockAssets !! assetID with
      | None =>
          do _ := Printf ("component=asset-api event=resource" +:+ ids +:+ " username=" +:+ mp_Username p
                          +:+ " asset_id=" +:+ assetID +:+ " decision=not_found") in
          ret (NotFound rw)
      | Some item =>
          let line := "component=asset-api event=authorization" +:+ ids +:+ " username=" +:+ mp_Username p
                      +:+ " asset_id=" +:+ ma_ID item +:+ " asset_province=" +:+ ma_ProvinceID item
                      +:+ " allowed_provinces=" +:+ Join provinces "," in
          if negb (default false (mp_AllowedProvinces p !! ma_ProvinceID item)) then
            do _ := Printf (line +:+ " decision=deny") in
            ret (writeJSON StatusForbidden
              (JObj [("allowed_provinces", JArr (JStr <$> provinces)); ("asset_id", JStr (ma_ID item));
                     ("asset_province_id", JStr (ma_ProvinceID item)); ("error", JStr "forbidden");
                     ("reason", JStr "province_scope_denied"); ("subject", JStr (mp_Subject p));
                     ("username", JStr (mp_Username p))]) rw)
          else
            do _ := Printf (line +:+ " decision=allow") in
            ret (writeJSON StatusOK (mock_asset_json item) rw)
      end
  end.
Definition newAssetHandler : Handler :=
  withResponseLog "asset-api" (mux [("GET /api/assets/{id}", asset_handler)]).

Definition requireBearer (next : Handler) : Handler := λ r rw,
  if negb (HasPrefix (header_get r "Authorization") "Bearer ")
  then ret (http_Error "missing Bearer token" StatusUnauthorized rw) else next r rw.

(** The anonymous struct has the one field object_key. *)
Definition presign_input : decoders string := [("object_key", dec_string (λ _ x, x))].
Definition presign_handler : Handler := λ r rw,
  let ids := " request_id=" +:+ header_get r "X-Request-ID" +:+ " trace_id=" +:+ header_get r "X-Trace-ID" in
  do _ := Printf ("component=storage-api event=request method=" +:+ r_Method r +:+ " path=" +:+ r_Path r +:+ ids) in
  match Decode false (body_allowance r (len (r_Body r))) presign_input "" (r_Body r) with
  | Err _ =>
      do _ := Printf ("component=storage-api event=presign" +:+ ids +:+ " decision=reject reason=bad_request") in
      ret (http_Error "bad request" StatusBadRequest rw)
  | Ok objectKey =>
      do _ := Printf ("component=storage-api event=presign" +:+ ids +:+ " object_key=" +:+ objectKey
                      +:+ " decision=allow") in
      do t := now in
      let expires := Add t (5 * Minute) in
      ret (writeJSON StatusOK
        (JObj [("expires_at", JStr (of_bytes (format_time (expires / Second * Second) 0))); ("method", JStr "PUT");
               ("url", JStr ("https://storage.example.invalid/upload/" +:+ objectKey))]) rw)
  end.
Definition newStorageHandler : Handler :=
  withResponseLog "storage-api" (mux [("POST /api/presign/upload", requireBearer presign_handler)]).

(** ** main *)
Inductive mockService := mockServiceAll | mockServiceAsset | mockServiceStorage.
Definition parseMockService `{UnicodeCase} (value : string) : result mockService :=
  let v := TrimSpace (ToLower value) in
  if bool_decide (v = "" ∨ v = "all") then Ok mockServiceAll
  else if bool_decide (v = "asset") then Ok mockServiceAsset
  else if bool_decide (v = "storage") then Ok mockServiceStorage
  else Err (errorf "MOCK_SERVICE must be one of: asset, storage, all").
(** The addresses that main listens on *)
Definition listeners (mode : mockService) : list (string * Handler) :=
  match mode with
  | mockServiceAsset => [(":19001", newAssetHandler)]
  | mockServiceStorage => [(":19002", newStorageHandler)]
  | mockServiceAll => [(":19001", newAssetHandler); (":19002", newStorageHandler)]
  end.
End handlers.

(** ** Properties *)

(** *** base64: decoding inverts encoding *)
Lemma base64_value_digit n : (n < 64)%N → base64_value (base64_digit n) = Some n.
Proof.
  intros Hn. assert (∃ i : nat, n = N.of_nat i ∧ (i < 64)%nat) as (i & -> & Hi) by (exists (N.to_nat n); lia).
  do 64 (destruct i as [|i]; [reflexivity|]). lia.
Qed.
Lemma base64_digit_kept n : (n < 64)%N → line_end (base64_digit n) = false.
Proof.
  intros Hn. assert (∃ i : nat, n = N.of_nat i ∧ (i < 64)%nat) as (i & -> & Hi) by (exists (N.to_nat n); lia).
  do 64 (destruct i as [|i]; [reflexivity|]). lia.
Qed.

(** The values that [base64_bytes] writes. *)
Fixpoint base64_values (l : list ascii) : list N :=
  match l with
  | a :: b :: c :: l' =>
      let n := (N_of_ascii a * 65536 + N_of_ascii b * 256 + N_of_ascii c)%N in
      (n / 262144)%N :: ((n / 4096) `mod` 64)%N :: ((n / 64) `mod` 64)%N :: (n `mod` 64)%N :: base64_values l'
  | [a; b] =>
      let n := (N_of_ascii a * 1024 + N_of_ascii b * 4)%N in [(n / 4096)%N; ((n / 64) `mod` 64)%N; (n `mod` 64)%N]
  | [a] => let n := (N_of_ascii a * 16)%N in [(n / 64)%N; (n `mod` 64)%N]
  | [] => []
  end.

(** Induction by groups of three bytes. *)
Lemma groups_ind (P : list ascii → Prop) :
  P [] → (∀ a, P [a]) → (∀ a b, P [a; b]) → (∀ a b c l, P l → P (a :: b :: c :: l)) → ∀ l, P l.
Proof.
  intros H0 H1 H2 H3 l. assert (∀ n l, (length l ≤ n)%nat → P l) as Hn; [|by apply (Hn (length l))].
  clear l. induction n as [|n IH]; intros [|a [|b [|c l]]] Hl; simpl in Hl; try done; try lia.
  apply H3, IH. lia.
Qed.

Lemma byte_bound c : (N_of_ascii c < 256)%N.
Proof. apply N_ascii_bounded. Qed.
Ltac bytes_arith :=
  repeat match goal with c : ascii |- _ => lazymatch goal with _ : (N_of_ascii c < 256)%N |- _ => fail
         | _ => pose proof (byte_bound c) end end;
  repeat match goal with |- context [N_of_ascii ?c] => generalize dependent (N_of_ascii c); intros end.

Lemma base64_values_bytes l : base64_bytes l = base64_digit <$> base64_values l ∧ Forall (λ n, n < 64)%N (base64_values l).
Proof.
  induction l as [|a|a b|a b c l IH] using groups_ind; [done| | |destruct IH as [IH1 IH2]];
    cbn [base64_bytes base64_values fmap list_fmap].
  3: split; [unfold fmap in IH1; by rewrite IH1|].
  1,2: split; [done|].
  all: repeat apply list.Forall_cons_2; try done; bytes_arith; zify; Z.to_euclidean_division_equations; lia.
Qed.

Lemma base64_unpack_values l : base64_unpack (base64_values l) = Some l.
Proof.
  induction l as [|a|a b|a b c l IH] using groups_ind; [done| | |]; cbn [base64_values base64_unpack].
  3: rewrite IH; cbn [mbind option_bind].
  all: do 2 f_equal; repeat (f_equal; try done).
  all: match goal with |- ascii_of_N ?n = ?c => replace n with (N_of_ascii c); [apply ascii_N_embedding|] end.
  all: bytes_arith; zify; Z.to_euclidean_division_equations; lia.
Qed.

Lemma base64_round_trip s : base64_decode (base64url (bytes s)) = Some s.
Proof.
  unfold base64_decode, base64url. rewrite bytes_of_bytes.
  destruct (base64_values_bytes (bytes s)) as [-> Hb]. set (vs := base64_values (bytes s)) in *.
  assert (filter (λ c, line_end c = false) (base64_digit <$> vs) = base64_digit <$> vs) as ->.
  { clearbody vs. induction Hb as [|n l Hn _ IH]; [done|]. cbn [fmap list_fmap].
    rewrite filter_cons_True by by apply base64_digit_kept. f_equal. exact IH. }
  assert (mapM base64_value (base64_digit <$> vs) = Some vs) as ->.
  { clearbody vs. induction Hb as [|n l Hn _ IH]; [done|]. rewrite fmap_cons. cbn [mapM].
    rewrite base64_value_digit by done. cbn [mbind option_bind]. by rewrite IH. }
  cbn [mbind option_bind]. unfold vs. rewrite base64_unpack_values. cbn. by rewrite of_bytes_bytes.
Qed.

(** *** The scope of assets *)
Section scope.
Context `{Env} `{FloatText}.

(** An asset is given only to a known principal whose provinces include the one
    of the asset; everything else is 401, 403 or 404. *)
Lemma mock_asset_scoped r rw w :
  rw_log rw = [] →
  let rw' := (asset_handler r rw w).1 in
  (∃ p item, resolveMockPrincipal (header_get r "Authorization") = Some p ∧
     mockAssets !! path_value r "id" = Some item ∧ mp_AllowedProvinces p !! ma_ProvinceID item = Some true ∧
     rw_status rw' = Some StatusOK ∧ rw_body rw' = [BJson (mock_asset_json item)]) ∨
  ∃ st, st ∈ [StatusUnauthorized; StatusForbidden; StatusNotFound] ∧ rw_status rw' = Some st.
Proof.
  intros Hlog. unfold asset_handler. cbv zeta. unfold Printf, modify, bind, ret.
  destruct (resolveMockPrincipal _) as [p|]; cbn [fst].
  2: { right. eexists. split; [|by apply http_Error_status]. set_solver. }
  destruct (mockAssets !! _) as [item|]; cbn [fst].
  2: { right. eexists. split; [|by apply http_Error_status]. set_solver. }
  destruct (mp_AllowedProvinces p !! ma_ProvinceID item) as [[]|] eqn:Hp; cbn [default negb fst].
  - left. exists p, item. do 3 (split; [done|]). split; [by apply writeJSON_status|].
    unfold writeJSON, rw_body, push, set_header. cbn [rw_log]. by rewrite Hlog.
  - right. eexists. split; [|by apply writeJSON_status]. set_solver.
  - right. eexists. split; [|by apply writeJSON_status]. set_solver.
Qed.
End scope.

Section example.
#[local] Instance mock_env : Env := sample_env.
#[local] Instance mock_float : FloatText := {| ParseFloat _ := Ok (f64_of_Z 0); FormatFloat _ := "" |}.
#[local] Instance mock_mux : MuxVersion := sample_mux_version.
(** The patterns of the two services register. *)
Example mock_patterns_register :
  forallb (λ t, is_ok (parsePattern t)) ["GET /api/assets/{id}"; "POST /api/presign/upload"] = true.
Proof. by vm_compute. Qed.
Definition bob_jwt : string := "h." +:+ base64url (bytes (quoted "{'sub': 's1', 'email': 'bob@example.com', 'exp': 1}")) +:+ ".x".
Definition ask (token id : string) : option Z :=
  rw_status (newAssetHandler (mkRequest "GET" (path_url ("/api/assets/" +:+ id)) "1.2.3.4:5"
    [("Authorization", "Bearer " +:+ token)] [] [] "" [] background) fresh_rw empty_world).1.
Example mock_answers :
  (ask "alice-token" "A001", ask "alice-token" "A002", ask bob_jwt "A002", ask "x.y" "A001", ask "bob-token" "A3") =
  (Some 200, Some 403, Some 200, Some 401, Some 404).
Proof. by vm_compute. Qed.
End example.
