(* ===== verification/Capability.v ===== *)
(** * The capability registry: internal/capability/registry.go

    A map from names to providers of any type, shared between goroutines under a
    lock; every operation holds the lock throughout, so that operations are atomic.
    The interface IdentityAdmin of identity_admin.go has no implementation. *)

From S2P Require Import Prelude.

Section registry.
Context {provider : Type}.

Record Registry := mkRegistry { providers : gmap string provider }.
Definition NewRegistry : Registry := mkRegistry ∅.

(** A nil provider is [None]. *)
Definition Register (name : string) (p : option provider) (r : Registry) : result unit * Registry :=
  match p with
  | Some v =>
      if bool_decide (name = "") then (Err (errorf "capability: invalid provider registration"), r) else
      match providers r !! name with
      | Some _ => (Err (ErrMsg "capability %q already registered" [name]), r)
      | None => (Ok tt, mkRegistry (<[name := v]> (providers r)))
      end
  | None => (Err (errorf "capability: invalid provider registration"), r)
  end.

Definition Get (name : string) (r : Registry) : option provider := providers r !! name.

Fixpoint Require_ (names : list string) (r : Registry) : result unit :=
  match names with
  | [] => Ok tt
  | name :: names =>
      match providers r !! name with
      | None => Err (ErrMsg "required capability %q is not configured" [name])
      | Some _ => Require_ names r
      end
  end.

(** What a sequence of registrations leaves: for every name the first provider
    that was given for it. *)
Definition register_in_turn (l : list (string * option provider)) (r : Registry) : Registry :=
  fold_left (λ r '(name, p), (Register name p r).2) l r.

Lemma Register_frame name p r other :
  Get other (Register name p r).2 =
    match Get other r with
    | Some v => Some v
    | None => if bool_decide (other = name ∧ name ≠ "") then p else None
    end.
Proof.
  unfold Register, Get. destruct p as [v|].
  2: { cbn [snd]. destruct (providers r !! other); [done|]. by case_bool_decide. }
  case_bool_decide as Hn.
  { cbn [snd]. destruct (providers r !! other); [done|]. rewrite bool_decide_eq_false_2; [done|]. by intros [_ ?]. }
  destruct (providers r !! name) as [u|] eqn:Hu; cbn [snd providers].
  - destruct (providers r !! other) eqn:Ho; [done|]. rewrite bool_decide_eq_false_2; [done|]. intros [-> _]. congruence.
  - destruct (decide (other = name)) as [->|Hne].
    + rewrite lookup_insert_eq, Hu. by rewrite bool_decide_eq_true_2.
    + rewrite lookup_insert_ne by done. destruct (providers r !! other); [done|].
      rewrite bool_decide_eq_false_2; [done|]. by intros [? _].
Qed.

(** A provider, once registered, is never replaced or removed, whatever is
    registered afterwards. *)
Lemma registered_stays l name v r : Get name r = Some v → Get name (register_in_turn l r) = Some v.
Proof.
  unfold register_in_turn. revert r. induction l as [|[n p] l IH]; intros r Hg; [done|].
  cbn [fold_left]. apply IH. by rewrite Register_frame, Hg.
Qed.

(** [Require] succeeds exactly when every name has a provider, and otherwise names
    the first one that has none. *)
Lemma Require_spec names r :
  match Require_ names r with
  | Ok _ => ∀ name, name ∈ names → is_Some (Get name r)
  | Err e => ∃ before name after, names = before ++ name :: after ∧ Get name r = None ∧
      (∀ n, n ∈ before → is_Some (Get n r)) ∧ e = ErrMsg "required capability %q is not configured" [name]
  end.
Proof.
  induction names as [|name names IH]; cbn [Require_]; [by intros n Hn%elem_of_nil|].
  destruct (providers r !! name) as [v|] eqn:Hv.
  - destruct (Require_ names r) as [u|e].
    + intros n [->|Hn]%elem_of_cons; [by exists v|by apply IH].
    + destruct IH as (before & n & after & -> & Hn & Hb & ->). exists (name :: before), n, after.
      split; [done|]. split; [done|]. split; [|done]. intros m [->|Hm]%elem_of_cons; [by exists v|by apply Hb].
  - exists [], name, names. split; [done|]. split; [done|]. split; [|done]. by intros n Hn%elem_of_nil.
Qed.
End registry.

Example registry_example :
  let r := (Register "storage" (Some 1) (Register "storage" (Some 2) NewRegistry).2).2 in
  (Get "storage" r, is_ok (Require_ ["storage"; "identity"] r)) = (Some 2, false).
Proof. reflexivity. Qed.
