(* ===== verification/Capacity.v ===== *)
(** * The capacity model: internal/capacity/model.go, cmd/capacity

    How many replicas a number of active users needs, computed in float64.  The
    conversion of a float64 that is no int is left open by the language (class
    [FloatInt]); reading flags and printing are not modelled. *)

From Stdlib Require Import SpecFloat.
From S2P Require Import Prelude World GoNumbers.
Open Scope Z_scope.

(** [math.Ceil].  A number with a non-negative exponent is an integer; the others
    have an integer part below 2^53, which float64 represents. *)
Definition ceil_Z (negative : bool) (m : positive) (e : Z) : Z :=
  if negative then - (Z.pos m / 2 ^ (- e)) else - (- Z.pos m / 2 ^ (- e)).
Definition Ceil (x : float64) : float64 :=
  match x with
  | S754_finite s m e =>
      if 0 <=? e then x else
      let n := ceil_Z s m e in
      if n =? 0 then S754_zero s else f64_of_Z n
  | _ => x
  end.

(** The integer part, for finite numbers *)
Definition f64_int (x : float64) : option Z :=
  match x with
  | S754_zero _ => Some 0
  | S754_finite s m e =>
      let n := if 0 <=? e then Z.pos m * 2 ^ e else Z.pos m / 2 ^ (- e) in
      Some (if s then - n else n)
  | _ => None
  end.

(** [int(x)] *)
Class FloatInt := {
  to_int : float64 → Z;
  to_int_range x : is_int64 (to_int x);
  to_int_exact x n : f64_int x = Some n → is_int64 n → to_int x = n;
}.

Record Input := mkInput {
  ActiveUsers : Z;
  RequestsPerUserMinute : float64;
  MeasuredRPSPerReplica : float64;
  P95Latency : Duration;
  SafeInflightPerReplica : float64;
  HeadroomMultiplier : float64;
  MinReplicas : Z;
}.
Record Result := mkResult {
  RequiredRPS : float64;
  EstimatedInflight : float64;
  ReplicasByThroughput : Z;
  ReplicasByInflight : Z;
  RecommendedReplicaFloor : Z;
}.

Section model.
Context `{FloatInt}.

Definition Calculate (i : Input) : result Result :=
  reject (ActiveUsers i <? 0) || f64_lt (RequestsPerUserMinute i) (f64_of_Z 0) with errorf "user demand must be >= 0";;
  reject f64_le (MeasuredRPSPerReplica i) (f64_of_Z 0) with errorf "measured RPS per replica must be > 0";;
  reject P95Latency i <? 0 with errorf "P95 latency must be >= 0";;
  reject f64_le (SafeInflightPerReplica i) (f64_of_Z 0) with errorf "safe inflight per replica must be > 0";;
  reject f64_lt (HeadroomMultiplier i) (f64_of_Z 1) with errorf "headroom multiplier must be >= 1";;
  let minReplicas := if MinReplicas i <? 1 then 1 else MinReplicas i in
  let requiredRPS := f64_div (f64_mul (f64_of_Z (ActiveUsers i)) (RequestsPerUserMinute i)) (f64_of_Z 60) in
  let inflight := f64_mul requiredRPS (Seconds (P95Latency i)) in
  let throughputReplicas :=
    to_int (Ceil (f64_div (f64_mul requiredRPS (HeadroomMultiplier i)) (MeasuredRPSPerReplica i))) in
  let inflightReplicas :=
    to_int (Ceil (f64_div (f64_mul inflight (HeadroomMultiplier i)) (SafeInflightPerReplica i))) in
  Ok (mkResult requiredRPS inflight throughputReplicas inflightReplicas
        (Z.max (Z.max minReplicas throughputReplicas) inflightReplicas)).

(** cmd/capacity: the flags, with the latency in milliseconds *)
Definition capacity_input (users : Z) (reqPerMin rpsPerPod p95ms inflight headroom : float64) (minReplica : Z) : Input :=
  mkInput users reqPerMin rpsPerPod (to_int (f64_mul p95ms (f64_of_Z Millisecond))) inflight headroom minReplica.

(** The recommendation is never below what was asked for, nor below either
    estimate, nor below one, and is one of them. *)
Lemma capacity_floor i r :
  Calculate i = Ok r →
  1 ≤ RecommendedReplicaFloor r ∧ MinReplicas i ≤ RecommendedReplicaFloor r ∧
  ReplicasByThroughput r ≤ RecommendedReplicaFloor r ∧ ReplicasByInflight r ≤ RecommendedReplicaFloor r ∧
  RecommendedReplicaFloor r ∈ [1; MinReplicas i; ReplicasByThroughput r; ReplicasByInflight r].
Proof.
  unfold Calculate. intros Hc. do 5 (apply reject_if_ok in Hc as [_ Hc]). injection Hc as <-.
  cbn [RecommendedReplicaFloor ReplicasByThroughput ReplicasByInflight].
  repeat match goal with |- context [to_int ?x] => generalize (to_int x); intros ? end.
  rewrite !elem_of_cons. destruct (Z.ltb_spec (MinReplicas i) 1); lia.
Qed.
End model.

(** Rounding up: the result is the least integer that is not below the number
    m * 2^e, respectively -m * 2^e, with e < 0. *)
Lemma ceil_Z_least (negative : bool) m e :
  e < 0 → let v := if negative then - Z.pos m else Z.pos m in
  v ≤ ceil_Z negative m e * 2 ^ (- e) ∧ (ceil_Z negative m e - 1) * 2 ^ (- e) < v.
Proof.
  intros He. cbv zeta. assert (0 < 2 ^ (- e)) as Hp by (apply Z.pow_pos_nonneg; lia). unfold ceil_Z.
  destruct negative.
  - pose proof (Z.div_mod (Z.pos m) (2 ^ (- e)) ltac:(lia)). pose proof (Z.mod_pos_bound (Z.pos m) _ Hp). nia.
  - pose proof (Z.div_mod (- Z.pos m) (2 ^ (- e)) ltac:(lia)). pose proof (Z.mod_pos_bound (- Z.pos m) _ Hp). nia.
Qed.

(** The example of docs/SLO_CAPACITY.md on a machine that converts what does not
    fit to the smallest int. *)
Definition clamp (x : float64) : Z :=
  match f64_int x with
  | Some n => if (int64_min <=? n) && (n <=? int64_max) then n else int64_min
  | None => int64_min
  end.
#[local] Program Instance amd64 : FloatInt := {| to_int := clamp |}.
Next Obligation.
  intros x. unfold clamp, is_int64, int64_min, int64_max. destruct (f64_int x) as [n|]; [|lia].
  destruct (_ && _) eqn:Hr; [|lia]. apply andb_true_iff in Hr as [H1%Z.leb_le H2%Z.leb_le]. lia.
Qed.
Next Obligation.
  intros x n Hx Hn. unfold clamp. rewrite Hx. unfold is_int64, int64_min, int64_max in *.
  destruct (Z.leb_spec (- 2 ^ 63) n), (Z.leb_spec n (2 ^ 63 - 1)); simpl; lia.
Qed.
Example documented_capacity :
  match Calculate (capacity_input 10000 (f64_of_Z 2) (f64_of_Z 200) (f64_of_Z 300) (f64_of_Z 128)
                     (f64_div (f64_of_Z 13) (f64_of_Z 10)) 3) with
  | Ok r => (ReplicasByThroughput r, ReplicasByInflight r, RecommendedReplicaFloor r)
  | Err _ => (0, 0, 0)
  end = (3, 2, 3).
Proof. by vm_compute. Qed.
(** A measured rate that is not a number passes every check; on this machine the
    recommendation then falls back to the minimum. *)
Example nan_rate_is_accepted :
  match Calculate (mkInput 10000 (f64_of_Z 2) S754_nan (300 * Millisecond) (f64_of_Z 128) (f64_of_Z 2) 3) with
  | Ok r => RecommendedReplicaFloor r
  | Err _ => 0
  end = 3.
Proof. by vm_compute. Qed.
