(* ===== verification/StorageContract.v ===== *)
(** * Storage contracts: internal/capability/storage.go, internal/storagecontract

    The data of the storage role and the verification of a finished upload
    against the provider's metadata.  A Go map that is iterated over is an
    association list, in the order of the iteration; the theorems hold for
    every order. *)

From stdpp Require Import pretty.
From S2P Require Import Prelude GoStrings World.
Open Scope Z_scope.

(** ** internal/capability/storage.go *)
Record PresignedRequest := mkPresigned {
  pr_Bucket : string;
  pr_ObjectKey : string;
  pr_ContentType : string;
  pr_ExpiresIn : Duration;
}.
Record PresignedOperation := mkOperation {
  op_URL : string;
  op_Method : string;
  op_ExpiresAt : Time;
  op_Headers : list (string * string);
}.
Record MultipartUpload := mkMultipartUpload {
  mu_UploadID : string;
  mu_Bucket : string;
  mu_ObjectKey : string;
  mu_ExpiresAt : Time;
}.
Record CompletedPart := mkPart { part_PartNumber : Z; part_ETag : string }.
Record MultipartCompleteResult := mkComplete {
  mc_ETag : string;
  mc_VersionID : string;
  mc_Location : string;
}.
Record StorageMetadata := mkMetadata {
  sm_Exists : bool;
  sm_Bucket : string;
  sm_ObjectKey : string;
  sm_Size : Z;
  sm_ContentType : string;
  sm_ETag : string;
  sm_VersionID : string;
  sm_LastModified : Time;
  sm_Checksums : list (string * string);
  sm_Metadata : list (string * string);
}.

(** [type MultipartStorageSigner interface]: a remote party.  Arguments are
    those of the request structs, in order. *)
Record MultipartOps := mkMultipartOps {
  InitiateMultipart : nat → PresignedRequest → result MultipartUpload;
  PresignMultipartPart : nat → string → string → string → Z → Duration → result PresignedOperation;
  CompleteMultipart : nat → string → string → string → list CompletedPart → result MultipartCompleteResult;
  AbortMultipart : nat → string → string → string → result unit;
}.

(** [type StorageSigner interface]; the two optional interfaces that a signer
    may also implement are found by type assertion. *)
Record StorageSigner := mkSigner {
  PresignPut : nat → PresignedRequest → result PresignedOperation;
  PresignGet : nat → PresignedRequest → result PresignedOperation;
  as_Multipart : option MultipartOps;
  as_Metadata : option (nat → string → string → result StorageMetadata);
}.

(** ** internal/storagecontract/contracts.go *)
Record UploadIntent := mkUploadIntent {
  ui_Target : string;
  ui_ObjectKey : string;
  ui_ContentType : string;
  ui_ExpiresIn : Duration;
}.
Record DownloadIntent := mkDownloadIntent {
  di_Target : string;
  di_ObjectKey : string;
  di_ExpiresIn : Duration;
}.
Record StorageReference := mkReference {
  ref_Target : string;
  ref_ObjectKey : string;
  ref_VersionID : string;
  ref_ETag : string;
  ref_Size : Z;
  ref_ContentType : string;
  ref_Checksums : list (string * string);
}.
Record UploadVerificationIntent := mkVerificationIntent {
  vi_Target : string;
  vi_ObjectKey : string;
  vi_ExpectedSize : option Z;
  vi_ExpectedContentType : string;
  vi_ExpectedChecksums : list (string * string);
}.
Record VerificationMismatch := mkMismatch {
  mm_Field : string;
  mm_Expected : string;
  mm_Actual : string;
}.
Record UploadVerificationResult := mkVerification {
  vr_Verified : bool;
  vr_Reference : StorageReference;
  vr_Mismatches : list VerificationMismatch;
}.

Definition double_backslash : string := "\\".

Definition validateObjectKey (v : string) : result unit :=
  let key := TrimSpace v in
  reject bool_decide (key = "") with errorf "object_key is required";;
  reject HasPrefix key "/" || Contains key ".." || Contains key double_backslash
    with errorf "object_key is invalid";;
  Ok tt.

Definition UploadIntent_Validate (i : UploadIntent) : result unit :=
  reject bool_decide (TrimSpace (ui_Target i) = "") with errorf "target is required";;
  let? _ := validateObjectKey (ui_ObjectKey i) in
  reject ui_ExpiresIn i <? 0 with errorf "expires_in must not be negative";;
  Ok tt.

Definition DownloadIntent_Validate (i : DownloadIntent) : result unit :=
  reject bool_decide (TrimSpace (di_Target i) = "") with errorf "target is required";;
  let? _ := validateObjectKey (di_ObjectKey i) in
  reject di_ExpiresIn i <? 0 with errorf "expires_in must not be negative";;
  Ok tt.

Definition StorageReference_Validate (r : StorageReference) : result unit :=
  reject bool_decide (TrimSpace (ref_Target r) = "") with errorf "target is required";;
  let? _ := validateObjectKey (ref_ObjectKey r) in
  reject ref_Size r <? 0 with errorf "size must not be negative";;
  Ok tt.

Definition blank_checksum (p : string * string) : bool :=
  bool_decide (TrimSpace p.1 = "") || bool_decide (TrimSpace p.2 = "").

Definition UploadVerificationIntent_Validate (i : UploadVerificationIntent) : result unit :=
  reject bool_decide (TrimSpace (vi_Target i) = "") with errorf "target is required";;
  let? _ := validateObjectKey (vi_ObjectKey i) in
  reject match vi_ExpectedSize i with Some n => n <? 0 | None => false end
    with errorf "expected_size must not be negative";;
  reject existsb blank_checksum (vi_ExpectedChecksums i)
    with errorf "expected checksum algorithm and value are required";;
  Ok tt.

Definition ReferenceFromMetadata (target : string) (m : StorageMetadata) : StorageReference :=
  mkReference (TrimSpace target) (sm_ObjectKey m) (sm_VersionID m) (sm_ETag m) (sm_Size m)
    (sm_ContentType m) (sm_Checksums m).

Section verify.
Context `{UnicodeCase}.

Definition checksum_key (algorithm : string) : string := ToLower (TrimSpace algorithm).

(** The first checksum of the metadata with the given normalised algorithm,
    "" if there is none. *)
Fixpoint actual_checksum (key : string) (l : list (string * string)) : string :=
  match l with
  | [] => ""
  | (algorithm, value) :: l =>
      if bool_decide (checksum_key algorithm = key) then TrimSpace value else actual_checksum key l
  end.

Definition checksum_mismatch (m : StorageMetadata) (p : string * string) : list VerificationMismatch :=
  let key := checksum_key p.1 in
  let actual := actual_checksum key (sm_Checksums m) in
  if negb (bool_decide (TrimSpace p.2 = actual))
  then [mkMismatch ("checksum." +:+ key) (TrimSpace p.2) actual] else [].

Definition size_mismatch (i : UploadVerificationIntent) (m : StorageMetadata) : list VerificationMismatch :=
  match vi_ExpectedSize i with
  | Some n => if negb (sm_Size m =? n) then [mkMismatch "size" (pretty n) (pretty (sm_Size m))] else []
  | None => []
  end.

Definition type_mismatch (i : UploadVerificationIntent) (m : StorageMetadata) : list VerificationMismatch :=
  let expected := TrimSpace (vi_ExpectedContentType i) in
  if negb (bool_decide (expected = "")) then
    let actual := TrimSpace (sm_ContentType m) in
    if negb (EqualFold expected actual) then [mkMismatch "content_type" expected actual] else []
  else [].

Definition VerifyUpload (i : UploadVerificationIntent) (m : StorageMetadata) : result UploadVerificationResult :=
  let? _ := UploadVerificationIntent_Validate i in
  let ref := ReferenceFromMetadata (vi_Target i) m in
  if negb (sm_Exists m) then
    Ok (mkVerification false ref [mkMismatch "object" "exists" "not_found"])
  else
  let mismatches := size_mismatch i m ++ type_mismatch i m
                    ++ concat (checksum_mismatch m <$> vi_ExpectedChecksums i) in
  Ok (mkVerification (bool_decide (mismatches = [])) ref mismatches).

(** *** What a verified upload means *)
Record upload_matches (i : UploadVerificationIntent) (m : StorageMetadata) : Prop := {
  um_exists : sm_Exists m = true;
  um_size n : vi_ExpectedSize i = Some n → sm_Size m = n;
  um_type : TrimSpace (vi_ExpectedContentType i) ≠ "" →
    EqualFold (TrimSpace (vi_ExpectedContentType i)) (TrimSpace (sm_ContentType m)) = true;
  um_checksums alg v : (alg, v) ∈ vi_ExpectedChecksums i →
    ∃ alg' v', (alg', v') ∈ sm_Checksums m ∧ checksum_key alg' = checksum_key alg ∧
               TrimSpace v' = TrimSpace v;
}.

Lemma actual_checksum_found key l :
  actual_checksum key l ≠ "" →
  ∃ alg v, (alg, v) ∈ l ∧ checksum_key alg = key ∧ TrimSpace v = actual_checksum key l.
Proof.
  induction l as [|[alg v] l IH]; simpl; [done|]. case_bool_decide.
  - intros _. exists alg, v. split; [set_solver|done].
  - intros (alg' & v' & ? & ?)%IH. exists alg', v'. split; [set_solver|done].
Qed.

Lemma actual_checksum_unique l alg v :
  NoDup (checksum_key ∘ fst <$> l) → (alg, v) ∈ l →
  actual_checksum (checksum_key alg) l = TrimSpace v.
Proof.
  induction l as [|[a x] l IH]; simpl; [set_solver|].
  intros [Hni Hnd]%list.NoDup_cons [[= -> ->]|Hin]%elem_of_cons; [by rewrite bool_decide_eq_true_2|].
  rewrite bool_decide_eq_false_2; [by apply IH|]. intros Heq. apply Hni.
  apply list_elem_of_fmap. exists (alg, v). split; [done|done].
Qed.

Lemma concat_nil {A} (l : list (list A)) : concat l = [] ↔ ∀ x, x ∈ l → x = [].
Proof.
  induction l as [|x l IH]; simpl; [set_solver|]. rewrite app_nil, IH. set_solver.
Qed.

Lemma VerifyUpload_inv i m r :
  VerifyUpload i m = Ok r →
  UploadVerificationIntent_Validate i = Ok tt ∧
  (vr_Verified r = true ↔
    sm_Exists m = true ∧ size_mismatch i m = [] ∧ type_mismatch i m = [] ∧
    ∀ p, p ∈ vi_ExpectedChecksums i → TrimSpace p.2 = actual_checksum (checksum_key p.1) (sm_Checksums m)).
Proof.
  unfold VerifyUpload. intros ([] & Hv & Hr)%result_bind_ok. split; [done|].
  destruct (sm_Exists m); simpl in Hr; [|injection Hr as <-; simpl; naive_solver]. injection Hr as <-. simpl.
  rewrite bool_decide_eq_true, !app_nil, concat_nil. split.
  - intros (? & ? & Hc). repeat split; try done. intros p Hp.
    assert (checksum_mismatch m p = []) as Hp0 by (apply Hc, list_elem_of_fmap; eauto).
    unfold checksum_mismatch in Hp0. by destruct (bool_decide (TrimSpace p.2 = _)) eqn:Hb; bool_inv.
  - intros (_ & ? & ? & Hc). repeat split; try done. intros x (p & -> & Hp)%list_elem_of_fmap.
    unfold checksum_mismatch. by rewrite <-Hc, bool_decide_eq_true_2 by done.
Qed.

Lemma validated_checksums i alg v :
  UploadVerificationIntent_Validate i = Ok tt → (alg, v) ∈ vi_ExpectedChecksums i → TrimSpace v ≠ "".
Proof.
  unfold UploadVerificationIntent_Validate. intros Hv Hin. ok_inv.
  rename select (existsb _ _ = false) into Hb. intros Hempty. apply not_true_iff_false in Hb. apply Hb.
  apply existsb_exists. exists (alg, v). rewrite <-list_elem_of_In. split; [done|].
  unfold blank_checksum. simpl. rewrite Hempty. by rewrite orb_true_r.
Qed.

(** C35: a verified upload is what was announced: the object exists, its size
    is the expected one, its content type agrees up to case, and for every
    expected checksum the provider reports the same value under the same
    algorithm.  Conversely an upload with these properties is verified, provided
    the provider reports each algorithm once. *)
Theorem verify_upload_correct i m r :
  VerifyUpload i m = Ok r →
  (vr_Verified r = true → upload_matches i m) ∧
  (NoDup (checksum_key ∘ fst <$> sm_Checksums m) → upload_matches i m → vr_Verified r = true).
Proof.
  intros [Hv Hiff]%VerifyUpload_inv. rewrite Hiff. unfold size_mismatch, type_mismatch. split.
  - intros (Hex & Hs & Ht & Hc). split; [done|..].
    + intros n Hn. rewrite Hn in Hs. by destruct (Z.eqb_spec (sm_Size m) n).
    + intros Hne. rewrite bool_decide_eq_false_2 in Ht by done. simpl in Ht.
      by destruct (EqualFold _ _).
    + intros alg v Hin. pose proof (Hc _ Hin) as Heq. simpl in Heq.
      pose proof (validated_checksums _ _ _ Hv Hin) as Hne. rewrite Heq in Hne.
      apply actual_checksum_found in Hne as (alg' & v' & ? & ? & ?).
      exists alg', v'. split; [done|]. split; [done|congruence].
  - intros Hnd [Hex Hs Ht Hc]. split; [done|]. split; [|split].
    + destruct (vi_ExpectedSize i) as [n|]; [|done]. rewrite (Hs n) by done. by rewrite Z.eqb_refl.
    + case_bool_decide; simpl; [done|]. by rewrite Ht.
    + intros [alg v] Hin. apply Hc in Hin as (alg' & v' & Hin' & Hk & Hveq). simpl.
      by rewrite <-Hk, (actual_checksum_unique _ _ _ Hnd Hin').
Qed.

(** A missing object is never verified. *)
Lemma missing_object_not_verified i m r :
  VerifyUpload i m = Ok r → sm_Exists m = false → vr_Verified r = false ∧ vr_Mismatches r ≠ [].
Proof.
  unfold VerifyUpload. intros Hr Hex. apply result_bind_ok in Hr as (? & _ & Hr).
  rewrite Hex in Hr. injection Hr as <-. by split.
Qed.
End verify.

Section witnesses.
#[local] Instance sample_case : UnicodeCase := ascii_case.
Definition sample_intent : UploadVerificationIntent :=
  mkVerificationIntent "asset" "a/b.pdf" (Some 42) "Application/PDF" [(" SHA256 ", "ab12"); ("md5", "9f")].
Definition sample_metadata : StorageMetadata :=
  mkMetadata true "bucket" "a/b.pdf" 42 "application/pdf" "etag" "" 0 [("md5", "9f "); ("sha256", "ab12")] [].
Definition sample_verification : UploadVerificationResult :=
  match VerifyUpload sample_intent sample_metadata with
  | Ok r => r | Err _ => mkVerification false (ReferenceFromMetadata "" sample_metadata) [] end.

Lemma verify_upload_correct_witness :
  vr_Verified sample_verification = true ∧
  (vr_Verified sample_verification = true → upload_matches sample_intent sample_metadata) ∧
  (NoDup (checksum_key ∘ fst <$> sm_Checksums sample_metadata) →
   upload_matches sample_intent sample_metadata → vr_Verified sample_verification = true).
Proof. split; [run|]. apply (verify_upload_correct sample_intent sample_metadata). run. Defined.
End witnesses.

(** The two checks of an object key differ on a single backslash. *)
Example single_backslash_key_accepted : validateObjectKey "a\b" = Ok tt.
Proof. run. Qed.
