(* ===== verification/StorageRole.v ===== *)
(** * The storage role: internal/roleruntime/server.go

    The routes of the storage runtime with everything they call: the target and
    provider registries (internal/storagetarget, internal/storageprovider), the
    identity carried by headers (internal/requestidentity), workload tokens
    (internal/workloadauth), the remote access policy (internal/accesspolicy) and
    the readiness check.  JSON bodies are decoded as GoStruct.v says; signers, verifiers and policies are remote parties. *)

From S2P Require Import Prelude GoStrings GoURL RuntimeCfg World GoNumbers GoJSON GoTime GoStruct Session Http StorageContract.
Import RuntimeCfg.
Open Scope Z_scope.

(** ** internal/storagetarget/registry.go, internal/storageprovider/registry.go *)
Record Target := mkTarget {
  tg_Provider : string;
  tg_Bucket : string;
  tg_ReadOnly : bool;
}.
Abbreviation TargetRegistry := (gmap string Target).
Definition Target_Resolve (r : TargetRegistry) (name : string) : option Target := r !! TrimSpace name.

(** One iteration of the loop of [storagetarget.Parse]: the value of the key is
    read when the key is reached, so it may have been written by an earlier
    iteration. *)
Definition normalize_target (out : TargetRegistry) (key : string) : result TargetRegistry :=
  match out !! key with
  | None => Ok out
  | Some target =>
  let name := TrimSpace key in
  let bucket := TrimSpace (tg_Bucket target) in
  let provider := TrimSpace (tg_Provider target) in
  reject bool_decide (name = "") || bool_decide (bucket = "")
    with errorf "storage target name and bucket are required";;
  let provider := if bool_decide (provider = "") then "default" else provider in
  Ok (<[name := mkTarget provider bucket (tg_ReadOnly target)]> out)
  end.

Fixpoint normalize_targets (out : TargetRegistry) (keys : list string) : result TargetRegistry :=
  match keys with
  | [] => Ok out
  | key :: keys => let? out := normalize_target out key in normalize_targets out keys
  end.

(** [Parse]: the loop goes over the keys of the decoded map, in some order. *)
Definition target_decoders : decoders Target :=
  [("provider", dec_string (λ t x, mkTarget x (tg_Bucket t) (tg_ReadOnly t)));
   ("bucket", dec_string (λ t x, mkTarget (tg_Provider t) x (tg_ReadOnly t)));
   ("read_only", dec_bool (λ t x, mkTarget (tg_Provider t) (tg_Bucket t) x))].
Definition zero_target : Target := mkTarget "" "" false.
Definition Target_Parse (order : TargetRegistry → list string) (raw : string) : result TargetRegistry :=
  let raw := TrimSpace raw in
  if bool_decide (raw = "") then Ok ∅ else
  match Unmarshal_map (decode_struct false target_decoders) zero_target raw with
  | Err e => Err (ErrWrap "parse storage targets" e)
  | Ok out => normalize_targets out (order out)
  end.

(** A provider is its signer, possibly nil. *)
Abbreviation ProviderRegistry := (gmap string (option StorageSigner)).
Definition Provider_Resolve (r : ProviderRegistry) (name : string) : option (option StorageSigner) :=
  r !! TrimSpace name.

Fixpoint ValidateRequired (r : ProviderRegistry) (names : list string) : result unit :=
  match names with
  | [] => Ok tt
  | name :: names =>
      let name := TrimSpace name in
      let name := if bool_decide (name = "") then "default" else name in
      match Provider_Resolve r name with
      | None => Err (ErrMsg "storage provider %q is not configured" [name])
      | Some None => Err (ErrMsg "storage provider %q signer is not configured" [name])
      | Some (Some _) => ValidateRequired r names
      end
  end.

(** ** internal/requestidentity/context.go *)
Record RequestIdentity := mkRequestIdentity {
  ri_Actor : string;
  ri_Service : string;
  ri_TenantID : string;
  ri_ProjectID : string;
  ri_RequestID : string;
  ri_TraceID : string;
}.
Definition DefaultActorHeader : string := "X-Actor-Subject".
Definition DefaultServiceHeader : string := "X-Service-Identity".
Definition LegacySubjectHeader : string := "X-Auth-Subject".

Definition or_default (v d : string) : string :=
  let v := TrimSpace v in if bool_decide (v = "") then d else v.

Definition Extract (r : Request) (hActor hService hLegacy : string) : RequestIdentity :=
  let actorHeader := or_default hActor DefaultActorHeader in
  let serviceHeader := or_default hService DefaultServiceHeader in
  let legacyHeader := or_default hLegacy LegacySubjectHeader in
  let get name := TrimSpace (header_get r name) in
  let actor := if bool_decide (get actorHeader = "") then get legacyHeader else get actorHeader in
  let traceID := if bool_decide (get "X-Trace-ID" = "") then get "traceparent" else get "X-Trace-ID" in
  mkRequestIdentity actor (get serviceHeader) (get "X-Tenant-ID") (get "X-Project-ID")
    (get "X-Request-ID") traceID.

Definition ValidateActor (i : RequestIdentity) : result unit :=
  reject bool_decide (TrimSpace (ri_Actor i) = "") with errorf "actor required";; Ok tt.

Definition put_nonempty (k v : string) (m : gmap string string) : gmap string string :=
  if bool_decide (v = "") then m else <[k := v]> m.
Definition PolicyContext (i : RequestIdentity) : gmap string string :=
  put_nonempty "trace_id" (ri_TraceID i) (put_nonempty "request_id" (ri_RequestID i)
    (put_nonempty "project_id" (ri_ProjectID i) (put_nonempty "tenant_id" (ri_TenantID i)
      (put_nonempty "service_id" (ri_Service i) ∅)))).

(** ** internal/workloadauth/verifier.go *)
Record Principal := mkPrincipal { pp_Service : string; pp_Subject : string; pp_Issuer : string }.
Record claims := mkClaims { cl_Subject : string; cl_Issuer : string; cl_ClientID : string; cl_AZP : string }.
Abbreviation Verifier := (nat → string → result Principal).

(** [OIDCVerifier.Verify]: [verify] is go-oidc's signature, issuer, audience and
    expiry check, [decode] the decoding of the claims. *)
Definition OIDC_Verify {T} (verify : nat → string → result T) (decode : T → result claims) : Verifier :=
  λ i rawToken,
  let rawToken := TrimSpace rawToken in
  reject bool_decide (rawToken = "") with errorf "workload token is required";;
  match verify i rawToken with
  | Err e => Err (ErrWrap "verify workload token" e)
  | Ok token =>
      match decode token with
      | Err e => Err (ErrWrap "decode workload claims" e)
      | Ok c =>
          let service := TrimSpace (cl_ClientID c) in
          let service := if bool_decide (service = "") then TrimSpace (cl_AZP c) else service in
          let service := if bool_decide (service = "") then TrimSpace (cl_Subject c) else service in
          reject bool_decide (service = "") with errorf "workload token missing service identity";;
          Ok (mkPrincipal service (TrimSpace (cl_Subject c)) (TrimSpace (cl_Issuer c)))
      end
  end.

Definition BearerToken `{UnicodeCase} (r : Request) : result string :=
  let value := TrimSpace (header_get r "Authorization") in
  reject bool_decide (value = "") with errorf "authorization header required";;
  let '(scheme, token, ok) := Cut value " " in
  reject negb ok || negb (EqualFold (TrimSpace scheme) "Bearer") || bool_decide (TrimSpace token = "")
    with errorf "bearer token required";;
  Ok (TrimSpace token).

(** ** internal/accesspolicy/accesspolicy.go *)
Record PolicyRequest := mkPolicyRequest {
  pq_Subject : string;
  pq_Action : string;
  pq_Target : string;
  pq_Context : gmap string string;
}.
Record PolicyDecision := mkPolicyDecision { pd_Allow : bool; pd_Reason : string }.
Abbreviation AccessEvaluator := (nat → PolicyRequest → result PolicyDecision).

(** [Remote.Authorize]; [http] is the POST to /v1/authorize. *)
Definition Remote_Authorize (http : option AccessEvaluator) : AccessEvaluator := λ i req,
  match http with
  | None => Err (errorf "access policy client is not configured")
  | Some http =>
      let req := mkPolicyRequest (TrimSpace (pq_Subject req)) (TrimSpace (pq_Action req))
                   (TrimSpace (pq_Target req)) (pq_Context req) in
      reject bool_decide (pq_Subject req = "") || bool_decide (pq_Action req = "")
             || bool_decide (pq_Target req = "")
        with errorf "subject, action and target are required";;
      http i req
  end.

(** ** Requests of the storage role *)
Record storageRequest := mkStorageRequest {
  sr_Target : string;
  sr_Operation : string;
  sr_Bucket : string;
  sr_ObjectKey : string;
  sr_ContentType : string;
  sr_ExpiresInSeconds : Z;
}.
Record verificationRequest := mkVerificationRequest {
  vq_Target : string;
  vq_ObjectKey : string;
  vq_ExpectedSize : option Z;
  vq_ExpectedContentType : string;
  vq_ExpectedChecksums : gmap string string;
}.
Record multipartRequest := mkMultipartRequest {
  mr_Target : string;
  mr_Bucket : string;
  mr_ObjectKey : string;
  mr_ContentType : string;
  mr_UploadID : string;
  mr_PartNumber : Z;
  mr_ExpiresInSeconds : Z;
  mr_Parts : list CompletedPart;
}.

(** *** Their JSON *)
Definition zero_storage : storageRequest := mkStorageRequest "" "" "" "" "" 0.
Definition storage_decoders : decoders storageRequest :=
  [("target", dec_string (λ q x, mkStorageRequest x (sr_Operation q) (sr_Bucket q) (sr_ObjectKey q)
      (sr_ContentType q) (sr_ExpiresInSeconds q)));
   ("operation", dec_string (λ q x, mkStorageRequest (sr_Target q) x (sr_Bucket q) (sr_ObjectKey q)
      (sr_ContentType q) (sr_ExpiresInSeconds q)));
   ("bucket", dec_string (λ q x, mkStorageRequest (sr_Target q) (sr_Operation q) x (sr_ObjectKey q)
      (sr_ContentType q) (sr_ExpiresInSeconds q)));
   ("object_key", dec_string (λ q x, mkStorageRequest (sr_Target q) (sr_Operation q) (sr_Bucket q) x
      (sr_ContentType q) (sr_ExpiresInSeconds q)));
   ("content_type", dec_string (λ q x, mkStorageRequest (sr_Target q) (sr_Operation q) (sr_Bucket q)
      (sr_ObjectKey q) x (sr_ExpiresInSeconds q)));
   ("expires_in_seconds", dec_int64 (λ q x, mkStorageRequest (sr_Target q) (sr_Operation q) (sr_Bucket q)
      (sr_ObjectKey q) (sr_ContentType q) x))].

Definition zero_verification : verificationRequest := mkVerificationRequest "" "" None "" ∅.
Definition verification_decoders : decoders verificationRequest :=
  [("target", dec_string (λ q x, mkVerificationRequest x (vq_ObjectKey q) (vq_ExpectedSize q)
      (vq_ExpectedContentType q) (vq_ExpectedChecksums q)));
   ("object_key", dec_string (λ q x, mkVerificationRequest (vq_Target q) x (vq_ExpectedSize q)
      (vq_ExpectedContentType q) (vq_ExpectedChecksums q)));
   ("expected_size", dec_int64_ptr (λ q x, mkVerificationRequest (vq_Target q) (vq_ObjectKey q) x
      (vq_ExpectedContentType q) (vq_ExpectedChecksums q)));
   ("expected_content_type", dec_string (λ q x, mkVerificationRequest (vq_Target q) (vq_ObjectKey q)
      (vq_ExpectedSize q) x (vq_ExpectedChecksums q)));
   ("expected_checksums", dec_map vq_ExpectedChecksums (λ q x, mkVerificationRequest (vq_Target q)
      (vq_ObjectKey q) (vq_ExpectedSize q) (vq_ExpectedContentType q) x))].

(** capability.CompletedPart *)
Definition part_decoders : decoders CompletedPart :=
  [("part_number", dec_int64 (λ p x, mkPart x (part_ETag p)));
   ("etag", dec_string (λ p x, mkPart (part_PartNumber p) x))].
Definition zero_multipart : multipartRequest := mkMultipartRequest "" "" "" "" "" 0 0 [].
Definition multipart_decoders : decoders multipartRequest :=
  [("target", dec_string (λ q x, mkMultipartRequest x (mr_Bucket q) (mr_ObjectKey q) (mr_ContentType q)
      (mr_UploadID q) (mr_PartNumber q) (mr_ExpiresInSeconds q) (mr_Parts q)));
   ("bucket", dec_string (λ q x, mkMultipartRequest (mr_Target q) x (mr_ObjectKey q) (mr_ContentType q)
      (mr_UploadID q) (mr_PartNumber q) (mr_ExpiresInSeconds q) (mr_Parts q)));
   ("object_key", dec_string (λ q x, mkMultipartRequest (mr_Target q) (mr_Bucket q) x (mr_ContentType q)
      (mr_UploadID q) (mr_PartNumber q) (mr_ExpiresInSeconds q) (mr_Parts q)));
   ("content_type", dec_string (λ q x, mkMultipartRequest (mr_Target q) (mr_Bucket q) (mr_ObjectKey q) x
      (mr_UploadID q) (mr_PartNumber q) (mr_ExpiresInSeconds q) (mr_Parts q)));
   ("upload_id", dec_string (λ q x, mkMultipartRequest (mr_Target q) (mr_Bucket q) (mr_ObjectKey q)
      (mr_ContentType q) x (mr_PartNumber q) (mr_ExpiresInSeconds q) (mr_Parts q)));
   ("part_number", dec_int64 (λ q x, mkMultipartRequest (mr_Target q) (mr_Bucket q) (mr_ObjectKey q)
      (mr_ContentType q) (mr_UploadID q) x (mr_ExpiresInSeconds q) (mr_Parts q)));
   ("expires_in_seconds", dec_int64 (λ q x, mkMultipartRequest (mr_Target q) (mr_Bucket q) (mr_ObjectKey q)
      (mr_ContentType q) (mr_UploadID q) (mr_PartNumber q) x (mr_Parts q)));
   ("parts", dec_slice (decode_struct false part_decoders) (mkPart 0 "") mr_Parts
      (λ q x, mkMultipartRequest (mr_Target q) (mr_Bucket q) (mr_ObjectKey q) (mr_ContentType q)
         (mr_UploadID q) (mr_PartNumber q) (mr_ExpiresInSeconds q) x))].

Record Config := mkConfig {
  BasePath : string;
  sel : Selection;
  StorageSigner_ : option StorageSigner;
  StorageProviders : ProviderRegistry;
  StorageDefaultTTL : Duration;
  StorageMaxTTL : Duration;
  StorageTargets : TargetRegistry;
  StorageAccessPolicy : option AccessEvaluator;
  StorageSubjectHeader : string;
  WorkloadVerifier : option Verifier;
  WorkloadAuthRequired : bool;
}.

(** A handler step that either answers the request or goes on with a value. *)
Definition Step (A : Type) : Type := (RW + A)%type.
Definition step_bind {A} (m : M (Step A)) (k : A → M RW) : M RW :=
  bind m (λ s, match s with inl rw => ret rw | inr a => k a end).
Notation "'attempt' x ':=' m 'in' k" := (step_bind m (fun x => k))
  (at level 10, x pattern, m at level 99, k at level 200) : go_scope.

Definition error_json (e : goerr) : json := JObj [("error", JErrText e)].
Definition error_code (s : string) : json := JObj [("error", JStr s)].

Section storage.
Context `{UnicodeCase} `{RangeOrder} (cfg : Config).

Definition has_targets : bool := negb (bool_decide (StorageTargets cfg = ∅)).

(** The life time of a presigned operation, as int64 nanoseconds. *)
Definition requested_ttl (seconds : Z) : Duration :=
  let ttl := if StorageDefaultTTL cfg <=? 0 then 15 * Minute else StorageDefaultTTL cfg in
  if 0 <? seconds then int64_wrap (seconds * Second) else ttl.
Definition max_ttl : Duration := if StorageMaxTTL cfg <=? 0 then Hour else StorageMaxTTL cfg.

Definition request_bucket (inp : storageRequest) : result string :=
  let targetName := TrimSpace (sr_Target inp) in
  let bucket := TrimSpace (sr_Bucket inp) in
  if has_targets then
    reject bool_decide (targetName = "") with errorf "target is required";;
    match Target_Resolve (StorageTargets cfg) targetName with
    | None => Err (errorf "unknown storage target")
    | Some target => Ok (tg_Bucket target)
    end
  else reject bool_decide (bucket = "") with errorf "bucket is required";; Ok bucket.

Definition validateStorageRequest (inp : storageRequest) : result PresignedRequest :=
  let? bucket := request_bucket inp in
  let key := TrimSpace (sr_ObjectKey inp) in
  reject bool_decide (key = "") with errorf "object_key is required";;
  reject HasPrefix key "/" || Contains key ".." || Contains key "\" with errorf "object_key is invalid";;
  let ttl := requested_ttl (sr_ExpiresInSeconds inp) in
  reject (ttl <=? 0) || (max_ttl <? ttl) with errorf "expires_in_seconds exceeds allowed TTL";;
  Ok (mkPresigned bucket key (TrimSpace (sr_ContentType inp)) ttl).

Definition validated (rw : RW) (inp : storageRequest) : M (Step PresignedRequest) :=
  match validateStorageRequest inp with
  | Err e => ret (inl (writeJSON StatusBadRequest (error_json e) rw))
  | Ok req => ret (inr req)
  end.

Definition decoded {A} (rw : RW) (v : result A) : M (Step A) :=
  match v with
  | Err _ => ret (inl (writeJSON StatusBadRequest (error_code "invalid_request") rw))
  | Ok a => ret (inr a)
  end.

Definition decodeStorageRequest (r : Request) (rw : RW) : M (Step (PresignedRequest * string)) :=
  do inp := decoded rw (Decode false (body_allowance r 65536) storage_decoders zero_storage (r_Body r)) in
  match inp with
  | inl rw => ret (inl rw)
  | inr inp =>
      do req := validated rw inp in
      ret (match req with inl rw => inl rw | inr req => inr (req, TrimSpace (sr_Target inp)) end)
  end.

Definition storageRequestFromQuery (r : Request) (rw : RW) : M (Step (PresignedRequest * string)) :=
  let raw := TrimSpace (query_get r "expires_in_seconds") in
  match (if bool_decide (raw = "") then Ok 0 else ParseInt raw) with
  | Err _ => ret (inl (writeJSON StatusBadRequest (error_code "invalid expires_in_seconds") rw))
  | Ok seconds =>
      do req := validated rw (mkStorageRequest (query_get r "target") "" (query_get r "bucket")
                  (query_get r "object_key") "" seconds) in
      ret (match req with inl rw => inl rw | inr req => inr (req, TrimSpace (query_get r "target")) end)
  end.

(** The verified service identity of the caller, or the refusal. *)
Definition workload_identity (r : Request) (rw : RW) (who : RequestIdentity) : M (Step RequestIdentity) :=
  match WorkloadVerifier cfg with
  | Some verifier =>
      match BearerToken r with
      | Err _ => ret (inl (writeJSON StatusUnauthorized (error_code "workload_token_required") rw))
      | Ok rawToken =>
          do principal := oracle (λ i, verifier i rawToken) in
          match principal with
          | Err _ => ret (inl (writeJSON StatusUnauthorized (error_code "invalid_workload_token") rw))
          | Ok principal =>
              ret (inr (mkRequestIdentity (ri_Actor who) (pp_Service principal) (ri_TenantID who)
                          (ri_ProjectID who) (ri_RequestID who) (ri_TraceID who)))
          end
      end
  | None =>
      if WorkloadAuthRequired cfg
      then ret (inl (writeJSON StatusServiceUnavailable (error_code "workload_auth_unavailable") rw))
      else ret (inr who)
  end.

Definition authorizeStorage (r : Request) (targetName action : string) (write : bool) (rw : RW) : M (Step unit) :=
  if negb has_targets then ret (inr tt) else
  let targetName := TrimSpace targetName in
  match Target_Resolve (StorageTargets cfg) targetName with
  | None => ret (inl (writeJSON StatusBadRequest (error_code "unknown_storage_target") rw))
  | Some target =>
      if write && tg_ReadOnly target
      then ret (inl (writeJSON StatusForbidden (error_code "storage_target_read_only") rw)) else
      match StorageAccessPolicy cfg with
      | None => ret (inl (writeJSON StatusServiceUnavailable (error_code "access_policy_unavailable") rw))
      | Some policy =>
          do who := workload_identity r rw (Extract r "" "" (StorageSubjectHeader cfg)) in
          match who with
          | inl rw => ret (inl rw)
          | inr who =>
              match ValidateActor who with
              | Err _ => ret (inl (writeJSON StatusUnauthorized (error_code "actor_required") rw))
              | Ok _ =>
                  do decision := oracle (λ i, policy i (mkPolicyRequest (ri_Actor who) action targetName
                                                          (PolicyContext who))) in
                  match decision with
                  | Err _ => ret (inl (writeJSON StatusServiceUnavailable (error_code "access_policy_unavailable") rw))
                  | Ok decision =>
                      if negb (pd_Allow decision)
                      then ret (inl (writeJSON StatusForbidden
                                  (JObj [("error", JStr "access_denied"); ("reason", JStr (pd_Reason decision))]) rw))
                      else ret (inr tt)
                  end
              end
          end
      end
  end.

Definition storageSignerForTarget (targetName : string) : option StorageSigner :=
  if bool_decide (StorageProviders cfg = ∅) then StorageSigner_ cfg else
  match (if has_targets
         then tg_Provider <$> Target_Resolve (StorageTargets cfg) (TrimSpace targetName)
         else Some "default") with
  | None => None
  | Some providerName =>
      match Provider_Resolve (StorageProviders cfg) providerName with
      | Some (Some signer) => Some signer
      | _ => None
      end
  end.

Definition providerUnavailable (role c : string) (rw : RW) : RW :=
  writeJSON StatusServiceUnavailable
    (JObj [("capability", JStr c);
           ("message", JStr "runtime route is enabled but its external provider is not configured");
           ("role", JStr role); ("status", JStr "provider_not_configured")]) rw.

Definition signer_for (target c : string) (rw : RW) : M (Step StorageSigner) :=
  match storageSignerForTarget target with
  | None => ret (inl (providerUnavailable RoleStorage c rw))
  | Some signer => ret (inr signer)
  end.

Definition supported {A} (c : string) (rw : RW) (ops : option A) : M (Step A) :=
  match ops with
  | None => ret (inl (providerUnavailable RoleStorage c rw))
  | Some ops => ret (inr ops)
  end.

Definition writeStorageProviderError (rw : RW) : RW :=
  writeJSON StatusBadGateway (error_code "storage_provider_error") rw.

Definition headers_json (h : list (string * string)) : json := JObj (prod_map id JStr <$> h).

Definition writeStorageResult (op : result PresignedOperation) (rw : RW) : RW :=
  match op with
  | Err _ => writeStorageProviderError rw
  | Ok op =>
      writeJSON StatusOK
        (JObj [("expires_at", JTime (op_ExpiresAt op)); ("headers", headers_json (op_Headers op));
               ("method", JStr (op_Method op)); ("url", JStr (op_URL op))])
        (set_header "Cache-Control" "no-store" rw)
  end.

(** The value of a provider call, or the 502 answer. *)
Definition provided {A} (rw : RW) (v : result A) : M (Step A) :=
  match v with
  | Err _ => ret (inl (writeStorageProviderError rw))
  | Ok a => ret (inr a)
  end.

Definition checked (rw : RW) (v : result unit) : M (Step unit) :=
  match v with
  | Err e => ret (inl (writeJSON StatusBadRequest (error_json e) rw))
  | Ok _ => ret (inr tt)
  end.

Definition no_store (v : json) (rw : RW) : RW :=
  writeJSON StatusOK v (set_header "Cache-Control" "no-store" rw).

(** ** The routes *)

(** [case "upload"] *)
Definition upload_route : Handler := λ r rw,
  attempt (req, target) := decodeStorageRequest r rw in
  attempt _ := authorizeStorage r target "storage.upload" true rw in
  attempt signer := signer_for target "upload" rw in
  do op := oracle (λ i, PresignPut signer i req) in
  ret (writeStorageResult op rw).

Definition grant_json (op : PresignedOperation) : json :=
  JObj ([("url", JStr (op_URL op)); ("method", JStr (op_Method op)); ("expires_at", JTime (op_ExpiresAt op))]
        ++ match op_Headers op with [] => [] | h => [("headers", headers_json h)] end).

Definition upload_intent_route : Handler := λ r rw,
  attempt (req, target) := decodeStorageRequest r rw in
  attempt _ := checked rw (UploadIntent_Validate
    (mkUploadIntent target (pr_ObjectKey req) (pr_ContentType req) (pr_ExpiresIn req))) in
  attempt _ := authorizeStorage r target "storage.upload" true rw in
  attempt signer := signer_for target "upload" rw in
  do op := oracle (λ i, PresignPut signer i req) in
  attempt op := provided rw op in
  ret (no_store (grant_json op) rw).

(** [case "download"] *)
Definition download_route : Handler := λ r rw,
  attempt (req, target) := storageRequestFromQuery r rw in
  attempt _ := authorizeStorage r target "storage.download" false rw in
  attempt signer := signer_for target "download" rw in
  do op := oracle (λ i, PresignGet signer i req) in
  ret (writeStorageResult op rw).

Definition download_intent_route : Handler := λ r rw,
  attempt (req, target) := decodeStorageRequest r rw in
  attempt _ := checked rw (DownloadIntent_Validate (mkDownloadIntent target (pr_ObjectKey req) (pr_ExpiresIn req))) in
  attempt _ := authorizeStorage r target "storage.download" false rw in
  attempt signer := signer_for target "download" rw in
  do op := oracle (λ i, PresignGet signer i req) in
  attempt op := provided rw op in
  ret (no_store (grant_json op) rw).

(** [case "presign"] *)
Definition presign_route : Handler := λ r rw,
  attempt inp := decoded rw (Decode false (body_allowance r 65536) storage_decoders zero_storage (r_Body r)) in
  attempt req := validated rw inp in
  let operation := ToLower (TrimSpace (sr_Operation inp)) in
  if bool_decide (operation ∈ ["put"; "upload"]) then
    attempt _ := authorizeStorage r (sr_Target inp) "storage.upload" true rw in
    attempt signer := signer_for (sr_Target inp) "presign" rw in
    do op := oracle (λ i, PresignPut signer i req) in
    ret (writeStorageResult op rw)
  else if bool_decide (operation ∈ ["get"; "download"]) then
    attempt _ := authorizeStorage r (sr_Target inp) "storage.download" false rw in
    attempt signer := signer_for (sr_Target inp) "presign" rw in
    do op := oracle (λ i, PresignGet signer i req) in
    ret (writeStorageResult op rw)
  else ret (writeJSON StatusBadRequest (error_code "operation must be put/upload or get/download") rw).

(** [case "metadata"] *)
Definition str_fields (l : list (string * string)) : list (string * json) :=
  omap (λ '(k, v), if bool_decide (v = "") then None else Some (k, JStr v)) l.
Definition int_field (k : string) (n : Z) : list (string * json) :=
  if n =? 0 then [] else [(k, JNum n)].
Definition map_field (k : string) (m : list (string * string)) : list (string * json) :=
  match m with [] => [] | _ => [(k, headers_json m)] end.
Definition metadata_json (m : StorageMetadata) : json :=
  JObj ([("exists", JBool (sm_Exists m)); ("bucket", JStr (sm_Bucket m)); ("object_key", JStr (sm_ObjectKey m))]
    ++ int_field "size" (sm_Size m)
    ++ str_fields [("content_type", sm_ContentType m); ("etag", sm_ETag m); ("version_id", sm_VersionID m)]
    ++ [("last_modified", JTime (sm_LastModified m))]
    ++ map_field "checksums" (sm_Checksums m) ++ map_field "metadata" (sm_Metadata m)).
Definition reference_json (r : StorageReference) : json :=
  JObj ([("target", JStr (ref_Target r)); ("object_key", JStr (ref_ObjectKey r))]
    ++ str_fields [("version_id", ref_VersionID r); ("etag", ref_ETag r)]
    ++ int_field "size" (ref_Size r) ++ str_fields [("content_type", ref_ContentType r)]
    ++ map_field "checksums" (ref_Checksums r)).
Definition mismatch_json (m : VerificationMismatch) : json :=
  JObj (("field", JStr (mm_Field m)) :: str_fields [("expected", mm_Expected m); ("actual", mm_Actual m)]).
Definition verification_json (v : UploadVerificationResult) : json :=
  JObj ([("verified", JBool (vr_Verified v)); ("reference", reference_json (vr_Reference v))]
    ++ match vr_Mismatches v with [] => [] | l => [("mismatches", JArr (mismatch_json <$> l))] end).

Definition metadata_route : Handler := λ r rw,
  attempt (base, target) := storageRequestFromQuery r rw in
  attempt _ := authorizeStorage r target "storage.metadata" false rw in
  attempt signer := signer_for target "metadata" rw in
  attempt get := supported "metadata" rw (as_Metadata signer) in
  do out := oracle (λ i, get i (pr_Bucket base) (pr_ObjectKey base)) in
  attempt out := provided rw out in
  ret (no_store (metadata_json out) rw).

Definition verify_route : Handler := λ r rw,
  attempt inp := decoded rw (Decode false (body_allowance r 262144) verification_decoders zero_verification (r_Body r)) in
  let intent := mkVerificationIntent (TrimSpace (vq_Target inp)) (TrimSpace (vq_ObjectKey inp))
                  (vq_ExpectedSize inp) (TrimSpace (vq_ExpectedContentType inp))
                  (range_entries (vq_ExpectedChecksums inp)) in
  attempt _ := checked rw (UploadVerificationIntent_Validate intent) in
  attempt base := validated rw (mkStorageRequest (vi_Target intent) "" "" (vi_ObjectKey intent) "" 0) in
  attempt _ := authorizeStorage r (vi_Target intent) "storage.metadata" false rw in
  attempt signer := signer_for (vi_Target intent) "metadata" rw in
  attempt get := supported "metadata" rw (as_Metadata signer) in
  do metadata := oracle (λ i, get i (pr_Bucket base) (pr_ObjectKey base)) in
  attempt metadata := provided rw metadata in
  match VerifyUpload intent metadata with
  | Err e => ret (writeJSON StatusBadRequest (error_json e) rw)
  | Ok res => ret (no_store (verification_json res) rw)
  end.

Definition reference_route : Handler := λ r rw,
  attempt (base, target) := storageRequestFromQuery r rw in
  attempt _ := authorizeStorage r target "storage.metadata" false rw in
  attempt signer := signer_for target "metadata" rw in
  attempt get := supported "metadata" rw (as_Metadata signer) in
  do out := oracle (λ i, get i (pr_Bucket base) (pr_ObjectKey base)) in
  attempt out := provided rw out in
  let ref := ReferenceFromMetadata target out in
  attempt _ := provided rw (StorageReference_Validate ref) in
  ret (no_store (reference_json ref) rw).

(** [registerMultipartRoutes] *)
Definition multipart_ops (target : string) (rw : RW) : M (Step MultipartOps) :=
  match storageSignerForTarget target with
  | None => ret (inl (providerUnavailable RoleStorage "multipart" rw))
  | Some signer => supported "multipart" rw (as_Multipart signer)
  end.

Definition multipart_decode (r : Request) (rw : RW) : M (Step multipartRequest) :=
  decoded rw (Decode false (body_allowance r 262144) multipart_decoders zero_multipart (r_Body r)).

Definition upload_id (inp : multipartRequest) (rw : RW) : M (Step string) :=
  let uploadID := TrimSpace (mr_UploadID inp) in
  if bool_decide (uploadID = "")
  then ret (inl (writeJSON StatusBadRequest (error_code "upload_id is required") rw))
  else ret (inr uploadID).

Definition valid_part_number (n : Z) : bool := negb ((n <? 1) || (10000 <? n)).

Definition multipart_json (u : MultipartUpload) : json :=
  JObj [("upload_id", JStr (mu_UploadID u)); ("bucket", JStr (mu_Bucket u));
        ("object_key", JStr (mu_ObjectKey u)); ("expires_at", JTime (mu_ExpiresAt u))].
Definition complete_json (c : MultipartCompleteResult) : json :=
  JObj (("etag", JStr (mc_ETag c)) :: str_fields [("version_id", mc_VersionID c); ("location", mc_Location c)]).

Definition multipart_initiate_route : Handler := λ r rw,
  attempt inp := multipart_decode r rw in
  attempt base := validated rw (mkStorageRequest (mr_Target inp) "" (mr_Bucket inp) (mr_ObjectKey inp)
                    (mr_ContentType inp) (mr_ExpiresInSeconds inp)) in
  attempt _ := authorizeStorage r (mr_Target inp) "storage.multipart" true rw in
  attempt ops := multipart_ops (mr_Target inp) rw in
  do out := oracle (λ i, InitiateMultipart ops i base) in
  attempt out := provided rw out in
  ret (no_store (multipart_json out) rw).

Definition multipart_part_route : Handler := λ r rw,
  attempt inp := multipart_decode r rw in
  attempt base := validated rw (mkStorageRequest (mr_Target inp) "" (mr_Bucket inp) (mr_ObjectKey inp)
                    "" (mr_ExpiresInSeconds inp)) in
  attempt uploadID := upload_id inp rw in
  if negb (valid_part_number (mr_PartNumber inp))
  then ret (writeJSON StatusBadRequest (error_code "part_number must be between 1 and 10000") rw) else
  attempt _ := authorizeStorage r (mr_Target inp) "storage.multipart" true rw in
  attempt ops := multipart_ops (mr_Target inp) rw in
  do op := oracle (λ i, PresignMultipartPart ops i (pr_Bucket base) (pr_ObjectKey base) uploadID
                          (mr_PartNumber inp) (pr_ExpiresIn base)) in
  ret (writeStorageResult op rw).

(** [validateCompletedParts]: the loop, with the part numbers seen so far *)
Fixpoint completed_parts (seen : list Z) (parts : list CompletedPart) : result (list CompletedPart) :=
  match parts with
  | [] => Ok []
  | part :: parts =>
      let n := part_PartNumber part in
      reject (n <? 1) || (10000 <? n) with errorf "part_number must be between 1 and 10000";;
      reject bool_decide (TrimSpace (part_ETag part) = "") with errorf "etag is required for every part";;
      reject bool_decide (n ∈ seen) with errorf "duplicate part_number";;
      let? out := completed_parts (n :: seen) parts in
      Ok (mkPart n (TrimSpace (part_ETag part)) :: out)
  end.
Definition validateCompletedParts (parts : list CompletedPart) : result (list CompletedPart) :=
  reject bool_decide (parts = []) with errorf "parts are required";;
  reject 10000 <? Z.of_nat (length parts) with errorf "too many parts";;
  completed_parts [] parts.

Definition multipart_complete_route : Handler := λ r rw,
  attempt inp := multipart_decode r rw in
  attempt base := validated rw (mkStorageRequest (mr_Target inp) "" (mr_Bucket inp) (mr_ObjectKey inp) "" 0) in
  attempt uploadID := upload_id inp rw in
  match validateCompletedParts (mr_Parts inp) with
  | Err e => ret (writeJSON StatusBadRequest (error_json e) rw)
  | Ok parts =>
      attempt _ := authorizeStorage r (mr_Target inp) "storage.multipart" true rw in
      attempt ops := multipart_ops (mr_Target inp) rw in
      do out := oracle (λ i, CompleteMultipart ops i (pr_Bucket base) (pr_ObjectKey base) uploadID parts) in
      attempt out := provided rw out in
      ret (writeJSON StatusOK (complete_json out) rw)
  end.

Definition multipart_abort_route : Handler := λ r rw,
  attempt inp := multipart_decode r rw in
  attempt base := validated rw (mkStorageRequest (mr_Target inp) "" (mr_Bucket inp) (mr_ObjectKey inp) "" 0) in
  attempt uploadID := upload_id inp rw in
  attempt _ := authorizeStorage r (mr_Target inp) "storage.multipart" true rw in
  attempt ops := multipart_ops (mr_Target inp) rw in
  do out := oracle (λ i, AbortMultipart ops i (pr_Bucket base) (pr_ObjectKey base) uploadID) in
  attempt _ := provided rw out in
  ret (push (WriteHeader StatusNoContent) rw).

(** [registerStorageCapability] *)
Definition storage_routes (c : string) : list (string * Handler) :=
  if bool_decide (c = "upload") then
    [("POST /storage/upload", upload_route); ("POST /storage/intents/upload", upload_intent_route)]
  else if bool_decide (c = "download") then
    [("GET /storage/download", download_route); ("POST /storage/intents/download", download_intent_route)]
  else if bool_decide (c = "presign") then [("POST /storage/presign", presign_route)]
  else if bool_decide (c = "multipart") then
    [("POST /storage/multipart/initiate", multipart_initiate_route);
     ("POST /storage/multipart/part", multipart_part_route);
     ("POST /storage/multipart/complete", multipart_complete_route);
     ("POST /storage/multipart/abort", multipart_abort_route)]
  else if bool_decide (c = "metadata") then
    [("GET /storage/metadata", metadata_route); ("POST /storage/intents/verify", verify_route);
     ("GET /storage/references/metadata", reference_route)]
  else [].

(** [routePattern] for the roles whose provider is external *)
Definition routePattern (role c : string) : string :=
  let table : list (string * string) :=
    if bool_decide (role = RoleStorage) then
      [("upload", "POST /storage/upload"); ("download", "GET /storage/download");
       ("multipart", "POST /storage/multipart"); ("presign", "POST /storage/presign");
       ("metadata", "GET /storage/metadata")]
    else if bool_decide (role = RoleStreaming) then
      [("playback", "POST /streaming/playback"); ("manifest", "GET /streaming/manifest");
       ("token", "POST /streaming/token"); ("origin-select", "POST /streaming/origin-select")]
    else if bool_decide (role = RoleWebSocket) then
      [("connect", "GET /websocket/connect"); ("publish", "POST /websocket/publish");
       ("subscribe", "POST /websocket/subscribe"); ("presence", "GET /websocket/presence");
       ("heartbeat", "POST /websocket/heartbeat")]
    else [] in
  default "" (first_value String.eqb c table).

Definition unavailable_routes (role c : string) : list (string * Handler) :=
  let pattern := routePattern role c in
  if bool_decide (pattern = "") then []
  else [(pattern, λ r rw, ret (providerUnavailable role c rw))].

(** [registerRole], over the capabilities of the role *)
Definition role_routes (role : string) (caps : list string) : list (string * Handler) :=
  concat ((λ c, if bool_decide (role = RoleStorage) then storage_routes c
                else unavailable_routes role c) <$> caps).

Definition hasCapability (selection : Selection) (role want : string) : bool :=
  existsb (λ c, bool_decide (c = want)) (caps_of (Capabilities selection) role).

Definition storageProviderRequired (selection : Selection) : bool :=
  existsb (λ c, bool_decide (c ∈ ["upload"; "download"; "presign"; "multipart"; "metadata"]))
    (caps_of (Capabilities selection) RoleStorage).

(** The checks of one signer in [validateStorageProvidersReady]. *)
Definition signer_ready (signer : StorageSigner) : result unit :=
  reject hasCapability (sel cfg) RoleStorage "multipart"
         && match as_Multipart signer with None => true | Some _ => false end
    with errorf "storage_multipart_not_supported";;
  reject hasCapability (sel cfg) RoleStorage "metadata"
         && match as_Metadata signer with None => true | Some _ => false end
    with errorf "storage_metadata_not_supported";;
  Ok tt.

(** The providers that the targets name, as a set. *)
Definition provider_names : gset string :=
  if bool_decide (StorageTargets cfg = ∅) then {["default"]}
  else list_to_set (tg_Provider ∘ snd <$> map_to_list (StorageTargets cfg)).

Fixpoint providers_ready (names : list string) : result unit :=
  match names with
  | [] => Ok tt
  | name :: names =>
      match Provider_Resolve (StorageProviders cfg) name with
      | Some (Some signer) => let? _ := signer_ready signer in providers_ready names
      | _ => Err (errorf "storage_provider_not_configured")
      end
  end.

(** [validateStorageProvidersReady]; [order] lists the set [providerNames] in
    the order of the iteration. *)
Definition validateStorageProvidersReady (order : gset string → list string) : result unit :=
  if bool_decide (StorageProviders cfg = ∅) then
    match StorageSigner_ cfg with
    | None => Err (errorf "storage_signer_not_configured")
    | Some signer => signer_ready signer
    end
  else providers_ready (order provider_names).

Definition not_ready (reason : json) (rw : RW) : RW :=
  writeJSON StatusServiceUnavailable (JObj [("reason", reason); ("status", JStr "not_ready")]) rw.

Definition roles_json : json := JArr (JStr <$> RoleNames (sel cfg)).

(** [GET /health/ready] *)
Definition ready_route (order : gset string → list string) : Handler := λ r rw,
  let storage := HasRole (sel cfg) RoleStorage in
  if storage && WorkloadAuthRequired cfg && match WorkloadVerifier cfg with None => true | Some _ => false end
  then ret (not_ready (JStr "workload_auth_not_configured") rw)
  else if storage && has_targets && match StorageAccessPolicy cfg with None => true | Some _ => false end
  then ret (not_ready (JStr "storage_access_policy_not_configured") rw)
  else
  match (if storage && storageProviderRequired (sel cfg) then validateStorageProvidersReady order else Ok tt) with
  | Err e => ret (not_ready (JErrText e) rw)
  | Ok _ => ret (writeJSON StatusOK (JObj [("roles", roles_json); ("status", JStr "ready")]) rw)
  end.

(** [GET /health/live] and [GET /runtime] *)
Definition live_route : Handler := λ r rw,
  ret (writeJSON StatusOK (JObj [("roles", roles_json); ("status", JStr "ok")]) rw).
Definition is_some {A} (o : option A) : bool := match o with Some _ => true | None => false end.
Definition runtime_route : Handler := λ r rw,
  ret (writeJSON StatusOK
    (JObj [("capabilities", JObj ((λ '(k, l), (k, JArr (JStr <$> l))) <$> map_entries (Capabilities (sel cfg))));
           ("providers", JObj [("storage_access_policy", JBool (is_some (StorageAccessPolicy cfg)));
                               ("storage_provider_count", JNum (Z.of_nat (size (StorageProviders cfg))));
                               ("storage_signer", JBool (is_some (StorageSigner_ cfg)))]);
           ("roles", roles_json)]) rw).

(** [registerSystem] and the loop of [Run]: everything the runtime serves. *)
Definition runtime_routes (order : gset string → list string) : list (string * Handler) :=
  [("GET /health/live", live_route); ("GET /health/ready", ready_route order); ("GET /runtime", runtime_route)]
  ++ concat ((λ role, role_routes role (caps_of (Capabilities (sel cfg)) role)) <$> Roles (sel cfg)).
End storage.

Create HintDb storage.

(** ** Lemmas *)
Section lemmas.
Context `{UnicodeCase} `{RangeOrder} (cfg : Config).

(** What must have happened for a storage request on a configured target to be
    served: the target exists, is writable if the action writes, the caller is
    an authenticated workload when a verifier is configured, the actor is named
    and the access policy has allowed the actor this action on this target, with
    the verified service in its context. *)
Definition access_granted (r : Request) (targetName action : string) (write : bool) : Prop :=
  ∃ target policy who i d,
    StorageTargets cfg !! TrimSpace targetName = Some target ∧
    (write = true → tg_ReadOnly target = false) ∧
    StorageAccessPolicy cfg = Some policy ∧
    ri_Actor who = ri_Actor (Extract r "" "" (StorageSubjectHeader cfg)) ∧ TrimSpace (ri_Actor who) ≠ "" ∧
    match WorkloadVerifier cfg with
    | Some verifier => ∃ j tok p, BearerToken r = Ok tok ∧ verifier j tok = Ok p ∧ ri_Service who = pp_Service p
    | None => WorkloadAuthRequired cfg = false
    end ∧
    policy i (mkPolicyRequest (ri_Actor who) action (TrimSpace targetName) (PolicyContext who)) = Ok d ∧
    pd_Allow d = true.

(** The members of an error page: no address, no metadata. *)
Definition error_body (v : json) : bool :=
  match v with
  | JObj ms => forallb (λ m, bool_decide (m.1 ∈ ["error"; "reason"; "capability"; "message"; "role"; "status"])) ms
  | _ => false
  end.
(** An answer that is exactly an error page. *)
Definition refused (rw : RW) : Prop :=
  ∃ st v, 400 ≤ st ∧ rw_log rw = [WriteHeader st; Write (BJson v)] ∧ error_body v = true.

Lemma writeJSON_refused st v rw :
  rw_log rw = [] → 400 ≤ st → error_body v = true → refused (writeJSON st v rw).
Proof. intros Hl Hs Hv. exists st, v. split; [done|]. by rewrite writeJSON_log, Hl. Qed.
Lemma refused_status rw : refused rw → ∃ st, rw_status rw = Some st ∧ 400 ≤ st.
Proof. intros (st & v & Hst & Hl & _). exists st. unfold rw_status. by rewrite Hl. Qed.

Lemma workload_identity_cases r rw who w s w' :
  rw_log rw = [] → workload_identity cfg r rw who w = (s, w') →
  match s with
  | inl rw' => refused rw'
  | inr who' => ri_Actor who' = ri_Actor who ∧
      match WorkloadVerifier cfg with
      | Some verifier => ∃ j tok p, BearerToken r = Ok tok ∧ verifier j tok = Ok p ∧ ri_Service who' = pp_Service p
      | None => WorkloadAuthRequired cfg = false
      end
  end.
Proof.
  intros Hl. unfold workload_identity. destruct (WorkloadVerifier cfg) as [v|].
  - destruct (BearerToken r) as [tok|] eqn:Hb.
    + intros (p & w1 & Hv & Hk)%bind_inv. unfold oracle in Hv. injection Hv as Hv _.
      destruct p as [p|]; m_inv; [|by apply writeJSON_refused].
      simpl. split; [done|]. eauto 8.
    + intros [= <- _]. by apply writeJSON_refused.
  - destruct (WorkloadAuthRequired cfg); intros [= <- _]; [|done].
    by apply writeJSON_refused.
Qed.

Lemma authorizeStorage_cases r t action write rw w s w' :
  rw_log rw = [] → has_targets cfg = true → authorizeStorage cfg r t action write rw w = (s, w') →
  match s with inl rw' => refused rw' | inr _ => access_granted r t action write end.
Proof.
  intros Hl Ht. unfold authorizeStorage. rewrite Ht. simpl.
  assert (∀ st v, 400 ≤ st → error_body v = true → refused (writeJSON st v rw)) as Hr
    by (intros; by apply writeJSON_refused).
  unfold Target_Resolve. rewrite TrimSpace_idemp.
  destruct (StorageTargets cfg !! TrimSpace t) as [target|] eqn:Htarget; [|intros [= <- _]; by apply Hr].
  destruct (write && tg_ReadOnly target) eqn:Hro; [intros [= <- _]; by apply Hr|].
  destruct (StorageAccessPolicy cfg) as [policy|] eqn:Hpol; [|intros [= <- _]; by apply Hr].
  intros (who & w1 & Hid & Hk)%bind_inv. apply workload_identity_cases in Hid; [|done].
  destruct who as [rw1|who]; [by m_inv|]. destruct Hid as [Hactor Hwl].
  unfold ValidateActor in Hk. destruct (bool_decide _) eqn:Ha; simpl in Hk; bool_inv;
    [injection Hk as <- _; by apply Hr|].
  apply bind_inv in Hk as (d & w2 & Hd & Hk). unfold oracle in Hd. injection Hd as Hd _.
  destruct d as [d|]; [|injection Hk as <- _; by apply Hr].
  destruct (pd_Allow d) eqn:Hallow; simpl in Hk; [|injection Hk as <- _; by apply Hr].
  injection Hk as <- _. exists target, policy, who, (w_tick w1), d.
  split; [done|]. split; [by intros ->|]. by repeat split.
Qed.

(** *** Routes end refused, or after access was granted *)

(** Every run of [m] ends in an error page or establishes [P]. *)
Definition refuses_or (P : Prop) (m : M RW) : Prop := ∀ w, refused (m w).1 ∨ P.
(** A step that answers only with error pages, and goes on only with values that
    satisfy [Q]. *)
Definition yields {A} (m : M (Step A)) (Q : A → Prop) : Prop :=
  ∀ w, match (m w).1 with inl rw => refused rw | inr a => Q a end.

Lemma refuses_or_yields {A} P (m : M (Step A)) Q k :
  yields m Q → (∀ a, Q a → refuses_or P (k a)) → refuses_or P (step_bind m k).
Proof.
  intros Hm Hk w. unfold step_bind, bind. specialize (Hm w). destruct (m w) as [[rw|a] w1]; simpl in *; [by left|].
  by apply Hk.
Qed.

(** The bodies that the POST routes decode. *)
Definition storage_body (r : Request) : result storageRequest :=
  Decode false (body_allowance r 65536) storage_decoders zero_storage (r_Body r).
Definition verification_body (r : Request) : result verificationRequest :=
  Decode false (body_allowance r 262144) verification_decoders zero_verification (r_Body r).
Definition multipart_body (r : Request) : result multipartRequest :=
  Decode false (body_allowance r 262144) multipart_decoders zero_multipart (r_Body r).

Section routes.
Context (r : Request) (rw : RW) (Hlog : rw_log rw = []).

Lemma yields_validated inp : yields (validated cfg rw inp) (λ req, validateStorageRequest cfg inp = Ok req).
Proof. intros w. unfold validated. destruct (validateStorageRequest cfg inp); [done|]. by apply writeJSON_refused. Qed.
Lemma yields_decoded {A} (v : result A) : yields (decoded rw v) (λ a, v = Ok a).
Proof. intros w. destruct v; [done|]. by apply writeJSON_refused. Qed.
Lemma yields_checked v : yields (checked rw v) (λ _, v = Ok tt).
Proof. intros w. destruct v as [[]|]; [done|]. by apply writeJSON_refused. Qed.
Lemma yields_upload_id inp : yields (upload_id inp rw) (λ id, id = TrimSpace (mr_UploadID inp)).
Proof. intros w. unfold upload_id. case_bool_decide; [|done]. by apply writeJSON_refused. Qed.
Lemma yields_decode :
  yields (decodeStorageRequest cfg r rw)
    (λ p, ∃ inp, storage_body r = Ok inp ∧ p.2 = TrimSpace (sr_Target inp)).
Proof.
  intros w. unfold decodeStorageRequest, decoded, validated, bind, ret. fold (storage_body r).
  destruct (storage_body r) as [inp|]; [|by apply writeJSON_refused].
  destruct (validateStorageRequest cfg inp); [by exists inp|]. by apply writeJSON_refused.
Qed.
Lemma yields_query : yields (storageRequestFromQuery cfg r rw) (λ p, p.2 = TrimSpace (query_get r "target")).
Proof.
  intros w. unfold storageRequestFromQuery, validated, bind, ret.
  destruct (if bool_decide _ then _ else _) as [n|e]; [|by apply writeJSON_refused].
  destruct (validateStorageRequest cfg _); [done|]. by apply writeJSON_refused.
Qed.

(** After the authorisation nothing is left to show. *)
Lemma refuses_or_authorized (P : Prop) t action write k :
  has_targets cfg = true → (access_granted r t action write → P) →
  refuses_or P (step_bind (authorizeStorage cfg r t action write rw) k).
Proof.
  intros Ht HP w. unfold step_bind, bind.
  destruct (authorizeStorage cfg r t action write rw w) as [s w1] eqn:Ha.
  apply authorizeStorage_cases in Ha; [|done..]. destruct s as [rw1|u]; [by left|]. right. by apply HP.
Qed.
Lemma refuses_or_error P st v : 400 ≤ st → error_body v = true → refuses_or P (ret (writeJSON st v rw)).
Proof. intros Hs Hv w. left. by apply writeJSON_refused. Qed.
End routes.

(** What a request to a route asks for: the target it names, in its query or in
    its body, the action, and whether that writes. *)
Definition route_access (pattern : string) (r : Request) : option (string * string * bool) :=
  if bool_decide (pattern ∈ ["POST /storage/upload"; "POST /storage/intents/upload"])
  then inp ← to_option (storage_body r); Some (TrimSpace (sr_Target inp), "storage.upload", true)
  else if bool_decide (pattern = "GET /storage/download")
  then Some (TrimSpace (query_get r "target"), "storage.download", false)
  else if bool_decide (pattern = "POST /storage/intents/download")
  then inp ← to_option (storage_body r); Some (TrimSpace (sr_Target inp), "storage.download", false)
  else if bool_decide (pattern = "POST /storage/presign")
  then inp ← to_option (storage_body r);
    if bool_decide (ToLower (TrimSpace (sr_Operation inp)) ∈ ["put"; "upload"])
    then Some (TrimSpace (sr_Target inp), "storage.upload", true)
    else Some (TrimSpace (sr_Target inp), "storage.download", false)
  else if bool_decide (pattern ∈ ["POST /storage/multipart/initiate"; "POST /storage/multipart/part";
                                  "POST /storage/multipart/complete"; "POST /storage/multipart/abort"])
  then inp ← to_option (multipart_body r); Some (TrimSpace (mr_Target inp), "storage.multipart", true)
  else if bool_decide (pattern ∈ ["GET /storage/metadata"; "GET /storage/references/metadata"])
  then Some (TrimSpace (query_get r "target"), "storage.metadata", false)
  else if bool_decide (pattern = "POST /storage/intents/verify")
  then inp ← to_option (verification_body r); Some (TrimSpace (vq_Target inp), "storage.metadata", false)
  else None.

(** Access to the target that the request names, for what the route does. *)
Definition granted_for (pattern : string) (r : Request) : Prop :=
  ∃ t action write, route_access pattern r = Some (t, action, write) ∧ access_granted r t action write.

Lemma access_granted_trim r t action write :
  access_granted r t action write → access_granted r (TrimSpace t) action write.
Proof. unfold access_granted. by rewrite TrimSpace_idemp. Qed.

Lemma granted_for_intro pattern r t action write :
  route_access pattern r = Some (TrimSpace t, action, write) →
  access_granted r t action write → granted_for pattern r.
Proof. intros Ha Hg. exists (TrimSpace t), action, write. split; [done|]. by apply access_granted_trim. Qed.
End lemmas.

#[export] Hint Resolve yields_validated yields_decoded yields_checked yields_upload_id
  yields_decode yields_query : storage.

(** What a route asks for, from what it has decoded. *)
Ltac asks :=
  unfold route_access, storage_body, multipart_body, verification_body in *; simpl in *; subst;
  repeat match goal with
  | E : ?body = Ok _ |- context [to_option ?body] => rewrite E; simpl
  | E : bool_decide (?p) = ?b |- context [bool_decide ?p] => rewrite E
  end; rewrite ?TrimSpace_idemp; reflexivity.

(** Walk through a route up to its authorisation. *)
Ltac route :=
  repeat first
    [ eapply refuses_or_yields; [solve [eauto with storage]|cbv beta; intros ? ?]
    | apply refuses_or_authorized; [done|done|intros; eapply granted_for_intro; [|eassumption]; asks]
    | apply refuses_or_error; [done|done|done]
    | progress destruct_and?
    | match goal with E : ∃ _, _ |- _ => destruct E as (? & ? & ?) end
    | case_match ].

Section route_lemmas.
Context `{UnicodeCase} `{RangeOrder} (cfg : Config) (r : Request) (rw : RW).
Context (Hlog : rw_log rw = []) (Ht : has_targets cfg = true).

Lemma upload_routes_guarded :
  refuses_or (granted_for cfg "POST /storage/upload" r) (upload_route cfg r rw) ∧
  refuses_or (granted_for cfg "POST /storage/intents/upload" r) (upload_intent_route cfg r rw).
Proof. unfold upload_route, upload_intent_route. split; route. Qed.

Lemma download_routes_guarded :
  refuses_or (granted_for cfg "GET /storage/download" r) (download_route cfg r rw) ∧
  refuses_or (granted_for cfg "POST /storage/intents/download" r) (download_intent_route cfg r rw).
Proof. unfold download_route, download_intent_route. split; route. Qed.

Lemma presign_route_guarded :
  refuses_or (granted_for cfg "POST /storage/presign" r) (presign_route cfg r rw).
Proof. unfold presign_route. route. Qed.

Lemma multipart_routes_guarded :
  refuses_or (granted_for cfg "POST /storage/multipart/initiate" r) (multipart_initiate_route cfg r rw) ∧
  refuses_or (granted_for cfg "POST /storage/multipart/part" r) (multipart_part_route cfg r rw) ∧
  refuses_or (granted_for cfg "POST /storage/multipart/complete" r) (multipart_complete_route cfg r rw) ∧
  refuses_or (granted_for cfg "POST /storage/multipart/abort" r) (multipart_abort_route cfg r rw).
Proof.
  unfold multipart_initiate_route, multipart_part_route, multipart_complete_route, multipart_abort_route,
    multipart_decode. repeat split; route.
Qed.

Lemma metadata_routes_guarded :
  refuses_or (granted_for cfg "GET /storage/metadata" r) (metadata_route cfg r rw) ∧
  refuses_or (granted_for cfg "POST /storage/intents/verify" r) (verify_route cfg r rw) ∧
  refuses_or (granted_for cfg "GET /storage/references/metadata" r) (reference_route cfg r rw).
Proof. unfold metadata_route, verify_route, reference_route. repeat split; route. Qed.
End route_lemmas.

Lemma storage_route_guarded `{UnicodeCase} `{RangeOrder} cfg c pattern h r rw :
  (pattern, h) ∈ storage_routes cfg c → rw_log rw = [] → has_targets cfg = true →
  refuses_or (granted_for cfg pattern r) (h r rw).
Proof.
  intros Hin Hlog Ht. unfold storage_routes in Hin.
  repeat (case_bool_decide; [rewrite !elem_of_cons in Hin|]); try set_solver.
  - destruct (upload_routes_guarded cfg r rw) as (? & ?); naive_solver set_solver.
  - destruct (download_routes_guarded cfg r rw) as (? & ?); naive_solver set_solver.
  - pose proof (presign_route_guarded cfg r rw); naive_solver set_solver.
  - destruct (multipart_routes_guarded cfg r rw) as (? & ? & ? & ?); naive_solver set_solver.
  - destruct (metadata_routes_guarded cfg r rw) as (? & ? & ?); naive_solver set_solver.
Qed.

(** ** Properties *)
Section properties.
Context `{UnicodeCase} `{RangeOrder} (cfg : Config).

(** Every storage route fails closed.  With storage targets configured, a
    request is answered with anything but an error (status 400 or more) only
    after the target was found, a write was not on a read-only target, the
    workload token was verified when a verifier is configured (and none was
    required when it is not), the actor was named, and the access policy allowed
    that actor an action of this very route on this target, seeing the verified
    service identity and not the one in the request's header. *)
Theorem storage_routes_fail_closed c pattern h r rw w :
  (pattern, h) ∈ storage_routes cfg c → rw_log rw = [] → has_targets cfg = true →
  (∀ st, rw_status (h r rw w).1 = Some st → st < 400) →
  granted_for cfg pattern r.
Proof.
  intros Hin Hlog Ht Hst. destruct (storage_route_guarded cfg c pattern h r rw Hin Hlog Ht w) as [Href|?];
    [|done]. apply refused_status in Href as (st & Hs & Hge). apply Hst in Hs. lia.
Qed.

(** C34: a request that passes validation is bounded: the life time of the
    presigned operation is positive and at most the configured maximum, whatever
    64-bit number of seconds was asked for; the object key is a non-empty relative
    key without "..", backslash or surrounding space; and with targets configured
    the bucket is the one of the named target, never the caller's. *)
Theorem storage_request_bounded inp req :
  validateStorageRequest cfg inp = Ok req →
  0 < pr_ExpiresIn req ≤ max_ttl cfg ∧
  pr_ObjectKey req ≠ "" ∧ HasPrefix (pr_ObjectKey req) "/" = false ∧
  Contains (pr_ObjectKey req) ".." = false ∧ Contains (pr_ObjectKey req) "\" = false ∧
  TrimSpace (pr_ObjectKey req) = pr_ObjectKey req ∧
  (has_targets cfg = true →
     ∃ t, StorageTargets cfg !! TrimSpace (sr_Target inp) = Some t ∧ pr_Bucket req = tg_Bucket t).
Proof.
  unfold validateStorageRequest. intros (bucket & Hb & Hr)%result_bind_ok. ok_inv. bool_inv.
  split; [lia|]. split; [done|]. repeat (split; [done|]). split; [apply TrimSpace_idemp|].
  intros Ht. unfold request_bucket in Hb. rewrite Ht in Hb. ok_inv.
  unfold Target_Resolve in Hb. rewrite TrimSpace_idemp in Hb.
  destruct (StorageTargets cfg !! TrimSpace (sr_Target inp)) as [t|]; [|done]. ok_inv. by exists t.
Qed.

Lemma completed_parts_ok seen parts out :
  completed_parts seen parts = Ok out →
  out = (λ p, mkPart (part_PartNumber p) (TrimSpace (part_ETag p))) <$> parts ∧
  Forall (λ p, 1 ≤ part_PartNumber p ≤ 10000 ∧ part_ETag p ≠ "") out ∧
  NoDup (part_PartNumber <$> out) ∧ (∀ n, n ∈ part_PartNumber <$> out → n ∉ seen).
Proof.
  revert seen out. induction parts as [|p parts IH]; intros seen out; simpl.
  { intros [= <-]. split; [done|]. split; [done|]. split; [constructor|set_solver]. }
  intros Hc. ok_inv. bool_inv. rename select (completed_parts _ _ = Ok _) into Hrec.
  apply IH in Hrec as (-> & Hall & Hnd & Hfresh). split; [done|]. split; [constructor; [|done]; simpl; split; [lia|done]|].
  split; [simpl; apply list.NoDup_cons; split; [|done]|].
  - intros Hin. apply (Hfresh (part_PartNumber p)); [done|set_solver].
  - intros n. simpl. rewrite elem_of_cons. intros [->|Hn]; [done|]. apply Hfresh in Hn. set_solver.
Qed.

(** The parts that complete a multipart upload are handed to the provider
    as given, up to the space around ETags, and only when there are between one
    and ten thousand of them, with distinct part numbers between 1 and 10000 and
    non-empty ETags. *)
Theorem completed_parts_valid parts out :
  validateCompletedParts parts = Ok out →
  out = (λ p, mkPart (part_PartNumber p) (TrimSpace (part_ETag p))) <$> parts ∧
  1 ≤ Z.of_nat (length out) ≤ 10000 ∧ NoDup (part_PartNumber <$> out) ∧
  Forall (λ p, 1 ≤ part_PartNumber p ≤ 10000 ∧ part_ETag p ≠ "") out.
Proof.
  unfold validateCompletedParts. intros Hv. ok_inv. bool_inv.
  apply completed_parts_ok in Hv as (-> & ? & ? & _). split; [done|]. rewrite length_fmap.
  split; [|done]. destruct parts; [done|]. simpl in *. lia.
Qed.

Lemma providers_ready_ok names :
  providers_ready cfg names = Ok tt →
  ∀ name, name ∈ names →
    ∃ signer, Provider_Resolve (StorageProviders cfg) name = Some (Some signer) ∧ signer_ready cfg signer = Ok tt.
Proof.
  induction names as [|n names IH]; simpl; intros Hr name Hin; [set_solver|].
  destruct (Provider_Resolve (StorageProviders cfg) n) as [[signer|]|] eqn:Hp; [|done..]. ok_inv.
  rename select (signer_ready _ _ = Ok _) into Hs. apply elem_of_cons in Hin as [->|Hin]; [|by apply IH].
  exists signer. split; [done|]. by destruct x.
Qed.

(** C36: readiness means the storage routes have their providers: once
    /health/ready answers 200 with the storage role and a capability that needs
    a provider, every configured target (or the single default provider) resolves
    to a signer, and that signer supports multipart and metadata if these
    capabilities are selected.  It does not depend on the iteration order of the
    provider set. *)
Theorem readiness_sound order r rw w :
  (∀ s n, n ∈ order s ↔ n ∈ s) → rw_log rw = [] →
  HasRole (sel cfg) RoleStorage = true → storageProviderRequired (sel cfg) = true →
  rw_status (ready_route cfg order r rw w).1 = Some StatusOK →
  (has_targets cfg = true → StorageAccessPolicy cfg ≠ None) ∧
  (WorkloadAuthRequired cfg = true → WorkloadVerifier cfg ≠ None) ∧
  ∀ t, (has_targets cfg = true → is_Some (StorageTargets cfg !! TrimSpace t)) →
    ∃ signer, storageSignerForTarget cfg t = Some signer ∧
      (hasCapability (sel cfg) RoleStorage "multipart" = true → as_Multipart signer ≠ None) ∧
      (hasCapability (sel cfg) RoleStorage "metadata" = true → as_Metadata signer ≠ None).
Proof.
  intros Horder Hlog Hrole Hreq. unfold ready_route. rewrite Hrole, Hreq. simpl.
  assert (∀ v, rw_status (not_ready v rw) = Some StatusServiceUnavailable) as Hnot.
  { intros v. by apply writeJSON_status. }
  destruct (WorkloadAuthRequired cfg && _) eqn:Hwl; simpl; [by rewrite Hnot|].
  destruct (has_targets cfg && _) eqn:Hpol; simpl; [by rewrite Hnot|].
  destruct (validateStorageProvidersReady cfg order) as [[]|e] eqn:Hv; simpl; [|by rewrite Hnot].
  intros _. split; [|split].
  - intros Ht. rewrite Ht in Hpol. by destruct (StorageAccessPolicy cfg).
  - intros Hw. rewrite Hw in Hwl. by destruct (WorkloadVerifier cfg).
  - intros t Htarget.
    assert (∃ signer, storageSignerForTarget cfg t = Some signer ∧ signer_ready cfg signer = Ok tt)
      as (signer & Hs & Hrdy).
    { unfold validateStorageProvidersReady in Hv. unfold storageSignerForTarget.
      case_bool_decide as Hemp; [destruct (StorageSigner_ cfg) as [s|]; [by exists s|done]|].
      unfold provider_names, has_targets in *. unfold Target_Resolve. rewrite TrimSpace_idemp.
      destruct (bool_decide (StorageTargets cfg = ∅)) eqn:Hempty; simpl in *.
      - edestruct (providers_ready_ok _ Hv "default") as (s & -> & Hs); [apply Horder; set_solver|]. by exists s.
      - destruct (Htarget eq_refl) as [target Hlk]. rewrite Hlk. simpl.
        edestruct (providers_ready_ok _ Hv (tg_Provider target)) as (s & -> & Hs); [|by exists s].
        apply Horder, elem_of_list_to_set, list_elem_of_fmap. exists (TrimSpace t, target).
        split; [done|]. by apply elem_of_map_to_list. }
    exists signer. split; [done|]. unfold signer_ready in Hrdy.
    apply reject_if_ok in Hrdy as [Hm1 Hrdy]. apply reject_if_ok in Hrdy as [Hm2 _].
    split; intros Hcap; [rewrite Hcap in Hm1; by destruct (as_Multipart signer)|].
    rewrite Hcap in Hm2. by destruct (as_Metadata signer).
Qed.

(** Without storage targets no workload token is looked at, even when workload
    authentication is required. *)
Lemma no_targets_no_workload_auth r t action write rw w :
  StorageTargets cfg = ∅ → authorizeStorage cfg r t action write rw w = (inr tt, w).
Proof. intros Ht. unfold authorizeStorage, has_targets. by rewrite Ht. Qed.
End properties.

(** ** Witnesses *)
Section witnesses.
#[local] Instance sample_case : UnicodeCase := ascii_case.
#[local] Instance sample_range : RangeOrder := sample_order.

Definition sample_multipart : MultipartOps := {|
  InitiateMultipart _ req := Ok (mkMultipartUpload "u1" (pr_Bucket req) (pr_ObjectKey req) 0);
  PresignMultipartPart _ b k u n _ := Ok (mkOperation (b +:+ "/" +:+ k) "PUT" 0 []);
  CompleteMultipart _ _ _ _ _ := Ok (mkComplete "etag" "" "");
  AbortMultipart _ _ _ _ := Ok tt;
|}.
Definition sample_signer : StorageSigner := {|
  PresignPut _ req := Ok (mkOperation (pr_Bucket req +:+ "/" +:+ pr_ObjectKey req) "PUT" 0 []);
  PresignGet _ req := Ok (mkOperation (pr_Bucket req +:+ "/" +:+ pr_ObjectKey req) "GET" 0 []);
  as_Multipart := Some sample_multipart;
  as_Metadata := None;
|}.
Definition alice_only : AccessEvaluator := λ _ q, Ok (mkPolicyDecision (String.eqb (pq_Subject q) "alice") "").
Definition one_token : Verifier := λ _ tok,
  if String.eqb tok "good" then Ok (mkPrincipal "asset-api" "svc" "iss") else Err (errorf "bad signature").

Definition sample_config : Config :=
  mkConfig "/" (mkSelection [RoleStorage] {[RoleStorage := ["upload"; "multipart"]]})
    None {["default" := Some sample_signer]} 0 0
    {["asset" := mkTarget "default" "bucket-1" false]}
    (Some alice_only) "" (Some one_token) true.
Definition upload_request : Request :=
  mkRequest "POST" (path_url "/storage/upload") "10.0.0.1:1"
    [("Authorization", "Bearer good"); ("X-Actor-Subject", "alice"); ("X-Service-Identity", "spoofed")]
    [] []
    (quoted "{'target': 'asset', 'object_key': 'a/b.txt', 'content_type': 'text/plain', 'expires_in_seconds': 60}")
    [] background.

Lemma storage_routes_fail_closed_witness :
  rw_status (upload_route sample_config upload_request fresh_rw empty_world).1 = Some 200 ∧
  granted_for sample_config "POST /storage/upload" upload_request.
Proof.
  split; [run|].
  apply (storage_routes_fail_closed sample_config "upload" _ (upload_route sample_config) _ fresh_rw empty_world).
  - unfold storage_routes. rewrite bool_decide_eq_true_2 by reflexivity. constructor.
  - reflexivity.
  - run.
  - intros st. vm_compute. intros [= <-]. reflexivity.
Defined.

Definition sample_inp : storageRequest := mkStorageRequest " asset " "" "ignored" " a/b.txt " "text/plain" 60.
Lemma storage_request_bounded_witness :
  0 < 60 * Second ≤ max_ttl sample_config ∧
  "a/b.txt" ≠ "" ∧ HasPrefix "a/b.txt" "/" = false ∧ Contains "a/b.txt" ".." = false ∧
  Contains "a/b.txt" "\" = false ∧ TrimSpace "a/b.txt" = "a/b.txt" ∧
  (has_targets sample_config = true →
     ∃ t, StorageTargets sample_config !! TrimSpace (sr_Target sample_inp) = Some t ∧ "bucket-1" = tg_Bucket t).
Proof.
  apply (storage_request_bounded sample_config sample_inp
    (mkPresigned "bucket-1" "a/b.txt" "text/plain" (60 * Second))). run.
Defined.

Lemma completed_parts_valid_witness :
  [mkPart 2 "b"; mkPart 1 "a"] =
    ((λ p, mkPart (part_PartNumber p) (TrimSpace (part_ETag p))) <$> [mkPart 2 " b"; mkPart 1 "a"]) ∧
  1 ≤ 2 ≤ 10000 ∧ NoDup (part_PartNumber <$> [mkPart 2 "b"; mkPart 1 "a"]) ∧
  Forall (λ p, 1 ≤ part_PartNumber p ≤ 10000 ∧ part_ETag p ≠ "") [mkPart 2 "b"; mkPart 1 "a"].
Proof. apply (completed_parts_valid [mkPart 2 " b"; mkPart 1 "a"]). run. Defined.

Lemma readiness_sound_witness :
  (has_targets sample_config = true → StorageAccessPolicy sample_config ≠ None) ∧
  (WorkloadAuthRequired sample_config = true → WorkloadVerifier sample_config ≠ None) ∧
  ∀ t, (has_targets sample_config = true → is_Some (StorageTargets sample_config !! TrimSpace t)) →
    ∃ signer, storageSignerForTarget sample_config t = Some signer ∧
      (hasCapability (sel sample_config) RoleStorage "multipart" = true → as_Multipart signer ≠ None) ∧
      (hasCapability (sel sample_config) RoleStorage "metadata" = true → as_Metadata signer ≠ None).
Proof.
  apply (readiness_sound sample_config elements upload_request fresh_rw empty_world).
  - intros s n. apply elem_of_elements.
  - reflexivity.
  - run.
  - run.
  - run.
Defined.

(** The number of seconds is multiplied modulo 2^64 before the bound is checked:
    a request for 585 years is granted with a life time of 0.29 s. *)
Example ttl_multiplication_wraps :
  validateStorageRequest sample_config (mkStorageRequest "asset" "" "" "a" "" 18446744074) =
    Ok (mkPresigned "bucket-1" "a" "" 290448384).
Proof. run. Qed.
End witnesses.
