(* ===== verification/AppConfig.v ===== *)
(** * The process configuration: internal/app/config.go

    [LoadConfig] reads the environment variables, [Validate] checks the result,
    and [PublicEndpoint] computes the addresses that are given to the identity
    provider.  The environment is a finite map; decoding of the JSON variables is
    the class [ConfigCodec], the order in which Go ranges over a map the class
    [RangeOrder].  The declarative specification of [Validate] is
    [valid_config]. *)

From S2P Require Import Prelude GoStrings GoURL RuntimeCfg World GoNumbers GoJSON GoStruct StorageContract StorageRole.
Import RuntimeCfg.
Open Scope Z_scope.

Module AppConfig.

Record TelemetryConfig := mkTelemetry {
  MetricsEnabled : bool;
  AuditEnabled : bool;
  AccessLogEnabled : bool;
  TraceEnabled : bool;
}.
Record LimitsConfig := mkLimits {
  MaxRequestBodyBytes : Z;
  MaxConcurrency : Z;
  RatePerSecond : float64;
  RateBurst : Z;
  RateMaxEntries : Z;
  AuthRatePerSecond : float64;
  AuthRateBurst : Z;
}.
Record HTTPConfig := mkHTTP {
  Addr : string;
  BasePath : string;
  PublicURL : string;
  TrustedProxyCIDRs : list string;
}.
Record StoreConfig := mkStore { Backend : string; RedisURL : string; RedisPrefix : string }.
Record OIDCConfig := mkOIDC {
  Issuer : string;
  ClientID : string;
  ClientSecret : string;
  Scopes : list string;
}.
(** [StorageProviderConfig] has the one field [SignerBaseURL]. *)
Record StorageProviderConfig := mkProvider { pc_SignerBaseURL : string }.
Record StorageWorkloadAuthConfig := mkWorkloadAuth {
  wa_Mode : string;
  wa_Issuer : string;
  wa_Audience : string;
  wa_Required : bool;
}.
Record StorageRoleConfig := mkStorage {
  SignerBaseURL : string;
  SignerTimeout : Duration;
  Providers : gmap string StorageProviderConfig;
  DefaultTTL : Duration;
  MaxTTL : Duration;
  Targets : TargetRegistry;
  AccessPolicyURL : string;
  AccessPolicyTimeout : Duration;
  SubjectHeader : string;
  WorkloadAuth : StorageWorkloadAuthConfig;
}.
Record SessionConfig := mkSessionConfig {
  MaxLifetime : Duration;
  IdleTimeout : Duration;
  TouchInterval : Duration;
}.
Record PolicyConfig := mkPolicy {
  Provider : string;
  RolePermissions : gmap string (list string);
  RoleCapabilities : gmap string (list string);
}.
Record Config := mkConfig {
  Runtime : Selection;
  HTTP : HTTPConfig;
  Telemetry : TelemetryConfig;
  Limits : LimitsConfig;
  OIDC : OIDCConfig;
  Store : StoreConfig;
  Policy : PolicyConfig;
  Session : SessionConfig;
  Storage : StorageRoleConfig;
}.

(** json.Unmarshal into the two map types (a JSON null is the empty map). *)
Definition provider_decoders : decoders StorageProviderConfig :=
  [("signer_base_url", dec_string (λ _ x, mkProvider x))].
Definition unmarshal_providers : string → result (gmap string StorageProviderConfig) :=
  Unmarshal_map (decode_struct false provider_decoders) (mkProvider "").
Definition unmarshal_slice_map : string → result (gmap string (list string)) := Unmarshal_map strings_value [].

(** ** The base path and the public address *)

Fixpoint dot_segment (segments : list string) : bool :=
  match segments with
  | [] => false
  | segment :: segments => bool_decide (segment = ".." ∨ segment = ".") || dot_segment segments
  end.

Definition normalizeBasePath (v : string) : result string :=
  if bool_decide (v = "" ∨ v = "/") then Ok "" else
  reject negb (HasPrefix v "/") with errorf "http base path must start with /";;
  reject dot_segment (Split v "/") with errorf "http base path must not contain dot segments";;
  let cleaned := path_Clean v in
  if bool_decide (cleaned = "." ∨ cleaned = "/") then Ok "" else
  Ok (TrimRight cleaned "/").

Definition NormalizedBasePath (c : HTTPConfig) : string :=
  match normalizeBasePath (BasePath c) with Ok p => p | Err _ => "" end.

Section endpoint.
Context `{UnicodeCase} `{IPLiteral}.

Definition with_Path (u : URL) (p : string) : URL :=
  mkURL (u_Scheme u) (u_Opaque u) (u_User u) (u_Host u) p (u_RawPath u) (u_OmitHost u)
    (u_ForceQuery u) (u_RawQuery u) (u_Fragment u) (u_RawFragment u).

(** [base, _ := url.Parse(...)] ignores the error; [None] is the nil dereference
    that follows when there is one. *)
Definition PublicEndpoint (c : HTTPConfig) (route : string) : option string :=
  match Parse (TrimRight (PublicURL c) "/") with
  | Err _ => None
  | Ok base =>
      let p := path_Join [u_Path base; NormalizedBasePath c; route] in
      let p := if HasSuffix route "/" && negb (HasSuffix p "/") then p +:+ "/" else p in
      Some (URL_String (with_Path base p))
  end.

(** ** Validate *)

(** [u, err := url.Parse(raw); err == nil && u.Scheme != "" && u.Host != ""] *)
Definition absolute (raw : string) : bool :=
  match Parse raw with
  | Err _ => false
  | Ok u => negb (bool_decide (u_Scheme u = "") || bool_decide (u_Host u = ""))
  end.

Definition validate_http (c : HTTPConfig) : result unit :=
  reject bool_decide (Addr c = "") with errorf "http addr is required";;
  let? _ := normalizeBasePath (BasePath c) in
  match Parse (PublicURL c) with
  | Err _ => Err (errorf "http public URL must be absolute")
  | Ok u =>
      reject bool_decide (u_Scheme u = "") || bool_decide (u_Host u = "")
        with errorf "http public URL must be absolute";;
      reject negb (bool_decide (u_RawQuery u = "")) || negb (bool_decide (u_Fragment u = ""))
        with errorf "http public URL must not contain query or fragment";;
      Ok tt
  end.

Definition validate_limits (l : LimitsConfig) : result unit :=
  reject MaxRequestBodyBytes l <? 0 with errorf "max request body bytes must be >= 0";;
  reject (MaxConcurrency l <? 0) || f64_lt (RatePerSecond l) (f64_of_Z 0) || (RateBurst l <? 0)
         || (RateMaxEntries l <? 0) || f64_lt (AuthRatePerSecond l) (f64_of_Z 0) || (AuthRateBurst l <? 0)
    with errorf "limits must be >= 0";;
  Ok tt.

Definition validate_oidc (c : OIDCConfig) : result unit :=
  let issuerSet := negb (bool_decide (TrimSpace (Issuer c) = "")) in
  let clientSet := negb (bool_decide (TrimSpace (ClientID c) = "")) in
  reject negb (Bool.eqb issuerSet clientSet) with errorf "oidc issuer and client id must be configured together";;
  Ok tt.

Definition validate_store (c : StoreConfig) : result unit :=
  if bool_decide (Backend c = "memory") then Ok tt else
  if bool_decide (Backend c = "redis") then
    reject bool_decide (TrimSpace (RedisURL c) = "")
      with errorf "redis URL is required when store backend is redis";;
    Ok tt
  else Err (ErrMsg "unsupported store backend %q" [Backend c]).

Definition validate_session (c : SessionConfig) : result unit :=
  if negb (MaxLifetime c =? 0) || negb (IdleTimeout c =? 0) || negb (TouchInterval c =? 0) then
    reject MaxLifetime c <=? 0 with errorf "session max lifetime must be positive";;
    reject (IdleTimeout c <=? 0) || (MaxLifetime c <? IdleTimeout c)
      with errorf "session idle timeout must be positive and <= max lifetime";;
    reject (TouchInterval c <=? 0) || (IdleTimeout c <? TouchInterval c)
      with errorf "session touch interval must be positive and <= idle timeout";;
    Ok tt
  else Ok tt.

Definition storageConfigured (c : Config) : bool :=
  HasRole (Runtime c) RoleStorage
  || negb (bool_decide (SignerBaseURL (Storage c) = ""))
  || negb (bool_decide (Providers (Storage c) = ∅))
  || negb (SignerTimeout (Storage c) =? 0)
  || negb (DefaultTTL (Storage c) =? 0)
  || negb (MaxTTL (Storage c) =? 0)
  || negb (bool_decide (Targets (Storage c) = ∅))
  || negb (bool_decide (AccessPolicyURL (Storage c) = "")).

(** [for name, provider := range c.Storage.Providers] *)
Fixpoint validate_providers (entries : list (string * StorageProviderConfig)) : result unit :=
  match entries with
  | [] => Ok tt
  | (name, provider) :: entries =>
      let name := TrimSpace name in
      reject bool_decide (name = "") with errorf "storage provider name is required";;
      reject negb (absolute (TrimSpace (pc_SignerBaseURL provider)))
        with ErrMsg "storage provider %q signer base URL must be absolute" [name];;
      validate_providers entries
  end.

(** [for targetName, target := range c.Storage.Targets] *)
Fixpoint validate_target_providers (providers : gmap string StorageProviderConfig)
    (entries : list (string * Target)) : result unit :=
  match entries with
  | [] => Ok tt
  | (targetName, target) :: entries =>
      match providers !! tg_Provider target with
      | None => Err (ErrMsg "storage target %q references unconfigured provider %q" [targetName; tg_Provider target])
      | Some _ => validate_target_providers providers entries
      end
  end.

Definition validate_workload_auth (w : StorageWorkloadAuthConfig) : result unit :=
  if bool_decide (wa_Mode w = "" ∨ wa_Mode w = "disabled") then
    reject wa_Required w with errorf "storage workload auth cannot be required when mode is disabled";;
    Ok tt
  else if bool_decide (wa_Mode w = "oidc") then
    reject bool_decide (TrimSpace (wa_Issuer w) = "") || bool_decide (TrimSpace (wa_Audience w) = "")
      with errorf "storage workload OIDC issuer and audience are required";;
    reject negb (absolute (wa_Issuer w)) with errorf "storage workload OIDC issuer must be absolute";;
    Ok tt
  else Err (ErrMsg "unsupported storage workload auth mode %q" [wa_Mode w]).

(** The map's order only picks the entry named in the message. *)
Definition validate_storage (s : StorageRoleConfig) : result unit :=
  reject SignerTimeout s <=? 0 with errorf "storage signer timeout must be positive";;
  reject (DefaultTTL s <=? 0) || (MaxTTL s <=? 0) || (MaxTTL s <? DefaultTTL s)
    with errorf "storage presign TTLs must be positive and default <= max";;
  reject negb (bool_decide (SignerBaseURL s = "")) && negb (absolute (SignerBaseURL s))
    with errorf "storage signer base URL must be absolute";;
  let? _ := validate_providers (map_to_list (Providers s)) in
  let? _ := if negb (bool_decide (Providers s = ∅))
            then validate_target_providers (Providers s) (map_to_list (Targets s)) else Ok tt in
  reject AccessPolicyTimeout s <=? 0 with errorf "storage access policy timeout must be positive";;
  reject bool_decide (TrimSpace (SubjectHeader s) = "") with errorf "storage subject header is required";;
  reject negb (bool_decide (Targets s = ∅)) && bool_decide (AccessPolicyURL s = "")
    with errorf "storage access policy URL is required when storage targets are configured";;
  reject negb (bool_decide (AccessPolicyURL s = "")) && negb (absolute (AccessPolicyURL s))
    with errorf "storage access policy URL must be absolute";;
  validate_workload_auth (WorkloadAuth s).

Definition Validate (c : Config) : result unit :=
  let? _ := if bool_decide (Roles (Runtime c) = []) then Ok tt else
            match RuntimeCfg.Validate (Runtime c) with
            | Err e => Err (ErrWrap "runtime selection" e)
            | Ok _ => Ok tt
            end in
  let? _ := validate_http (HTTP c) in
  let? _ := validate_limits (Limits c) in
  let? _ := validate_oidc (OIDC c) in
  let? _ := validate_store (Store c) in
  let? _ := validate_session (Session c) in
  let? _ := if storageConfigured c then validate_storage (Storage c) else Ok tt in
  if bool_decide (Provider (Policy c) = "" ∨ Provider (Policy c) = "static") then Ok tt
  else Err (ErrMsg "unsupported policy provider %q" [Provider (Policy c)]).
End endpoint.

(** ** LoadConfig *)

Section load.
Context `{UnicodeCase} `{IPLiteral} `{FloatText} `{RangeOrder} (env : gmap string string).

Definition Getenv (name : string) : string := default "" (env !! name).
Definition envOr (name fallback : string) : string := default fallback (env !! name).

Fixpoint keep_items (items : list string) : list string :=
  match items with
  | [] => []
  | item :: items =>
      let item := TrimSpace item in
      if bool_decide (item = "") then keep_items items else item :: keep_items items
  end.
Definition splitCSV (v : string) : list string := keep_items (Split v ",").

(** One iteration of the loop of [parseStorageProviders]. *)
Definition normalize_provider (out : gmap string StorageProviderConfig) (name : string)
    : result (gmap string StorageProviderConfig) :=
  match out !! name with
  | None => Ok out
  | Some provider =>
      let trimmed := TrimSpace name in
      reject bool_decide (trimmed = "") with errorf "storage provider name is required";;
      let provider := mkProvider (TrimSpace (pc_SignerBaseURL provider)) in
      reject bool_decide (pc_SignerBaseURL provider = "")
        with ErrMsg "storage provider %q signer_base_url is required" [trimmed];;
      if negb (bool_decide (trimmed = name)) then Ok (<[trimmed := provider]> (delete name out))
      else Ok (<[name := provider]> out)
  end.
Fixpoint normalize_providers (out : gmap string StorageProviderConfig) (names : list string)
    : result (gmap string StorageProviderConfig) :=
  match names with
  | [] => Ok out
  | name :: names => let? out := normalize_provider out name in normalize_providers out names
  end.
Definition parseStorageProviders (v : string) : result (gmap string StorageProviderConfig) :=
  if bool_decide (TrimSpace v = "") then Ok ∅ else
  match unmarshal_providers v with
  | Err e => Err (ErrWrap "parse storage providers" e)
  | Ok out => normalize_providers out (range_keys out)
  end.

Definition parseStringSliceMap (v : string) : result (gmap string (list string)) :=
  if bool_decide (TrimSpace v = "") then Ok ∅ else unmarshal_slice_map v.

(** [fmt.Errorf("%s: %w", name, err)] *)
Definition wrap {A} (context : string) (r : result A) : result A :=
  match r with Err e => Err (ErrWrap context e) | Ok a => Ok a end.

Definition durationEnv (name : string) (fallback : Duration) : result Duration :=
  wrap name (ParseDuration (envOr name (Duration_String fallback))).
Definition intEnv (name : string) (fallback : Z) : result Z :=
  wrap name (Atoi (TrimSpace (envOr name (Itoa fallback)))).
Definition int64Env (name : string) (fallback : Z) : result Z :=
  wrap name (ParseInt (TrimSpace (envOr name (FormatInt fallback)))).
Definition floatEnv (name : string) (fallback : float64) : result float64 :=
  wrap name (ParseFloat (TrimSpace (envOr name (FormatFloat fallback)))).
Definition boolEnv (name : string) (fallback : bool) : result bool :=
  wrap name (ParseBool (TrimSpace (envOr name (FormatBool fallback)))).

Definition load_runtime : result Selection :=
  let? roles := wrap "runtime roles" (ParseRoles (Getenv "GATEWAY_ROLE")) in
  let? capabilities := wrap "runtime capabilities" (ParseCapabilities roles (Getenv "GATEWAY_CAPABILITIES")) in
  let runtimeSelection := mkSelection roles capabilities in
  let? _ := wrap "runtime selection" (RuntimeCfg.Validate runtimeSelection) in
  Ok runtimeSelection.

Definition load_telemetry : result TelemetryConfig :=
  let? metricsEnabled := boolEnv "BFF_METRICS_ENABLED" true in
  let? auditEnabled := boolEnv "BFF_AUDIT_ENABLED" true in
  let? accessLogEnabled := boolEnv "BFF_ACCESS_LOG_ENABLED" true in
  let? traceEnabled := boolEnv "BFF_TRACE_ENABLED" true in
  Ok (mkTelemetry metricsEnabled auditEnabled accessLogEnabled traceEnabled).

Definition load_session : result SessionConfig :=
  let? maxLifetime := durationEnv "BFF_SESSION_MAX_LIFETIME" (8 * Hour) in
  let? idleTimeout := durationEnv "BFF_SESSION_IDLE_TIMEOUT" (30 * Minute) in
  let? touchInterval := durationEnv "BFF_SESSION_TOUCH_INTERVAL" Minute in
  Ok (mkSessionConfig maxLifetime idleTimeout touchInterval).

Definition load_workload_auth : StorageWorkloadAuthConfig :=
  mkWorkloadAuth
    (ToLower (TrimSpace (envOr "STORAGE_WORKLOAD_AUTH_MODE" "disabled")))
    (TrimSpace (Getenv "STORAGE_WORKLOAD_OIDC_ISSUER"))
    (TrimSpace (Getenv "STORAGE_WORKLOAD_OIDC_AUDIENCE"))
    (EqualFold (TrimSpace (envOr "STORAGE_WORKLOAD_AUTH_REQUIRED" "false")) "true").

Definition load_storage : result StorageRoleConfig :=
  let? storageSignerTimeout := durationEnv "STORAGE_SIGNER_TIMEOUT" (5 * Second) in
  let? storageDefaultTTL := durationEnv "STORAGE_PRESIGN_DEFAULT_TTL" (15 * Minute) in
  let? storageMaxTTL := durationEnv "STORAGE_PRESIGN_MAX_TTL" Hour in
  let? storageAccessPolicyTimeout := durationEnv "STORAGE_ACCESS_POLICY_TIMEOUT" (3 * Second) in
  let? storageTargets := Target_Parse range_keys (Getenv "STORAGE_TARGETS_JSON") in
  let? storageProviders := parseStorageProviders (Getenv "STORAGE_PROVIDERS_JSON") in
  Ok (mkStorage (TrimSpace (Getenv "STORAGE_SIGNER_BASE_URL")) storageSignerTimeout storageProviders
        storageDefaultTTL storageMaxTTL storageTargets (TrimSpace (Getenv "STORAGE_ACCESS_POLICY_URL"))
        storageAccessPolicyTimeout (envOr "STORAGE_SUBJECT_HEADER" "X-Auth-Subject") load_workload_auth).

Definition load_limits : result LimitsConfig :=
  let? maxBody := int64Env "BFF_LIMIT_MAX_REQUEST_BODY_BYTES" (2 ^ 20) in
  let? maxConcurrency := intEnv "BFF_LIMIT_MAX_CONCURRENCY" 256 in
  let? ratePerSecond := floatEnv "BFF_LIMIT_RATE_PER_SECOND" (f64_of_Z 50) in
  let? rateBurst := intEnv "BFF_LIMIT_RATE_BURST" 100 in
  let? rateMaxEntries := intEnv "BFF_LIMIT_RATE_MAX_ENTRIES" 10000 in
  let? authRatePerSecond := floatEnv "BFF_LIMIT_AUTH_RATE_PER_SECOND" (f64_div (f64_of_Z 1) (f64_of_Z 5)) in
  let? authRateBurst := intEnv "BFF_LIMIT_AUTH_RATE_BURST" 10 in
  Ok (mkLimits maxBody maxConcurrency ratePerSecond rateBurst rateMaxEntries authRatePerSecond authRateBurst).

Definition load_http : HTTPConfig :=
  mkHTTP (envOr "BFF_HTTP_ADDR" ":8080") (envOr "BFF_HTTP_BASE_PATH" "")
    (envOr "BFF_HTTP_PUBLIC_URL" "http://localhost:8080") (splitCSV (Getenv "BFF_TRUSTED_PROXY_CIDRS")).
Definition load_store : StoreConfig :=
  mkStore (envOr "BFF_STORE_BACKEND" "memory") (Getenv "BFF_REDIS_URL") (envOr "BFF_REDIS_PREFIX" "rebff").
Definition load_oidc : OIDCConfig :=
  mkOIDC (Getenv "BFF_OIDC_ISSUER") (Getenv "BFF_OIDC_CLIENT_ID") (Getenv "BFF_OIDC_CLIENT_SECRET")
    (splitCSV (envOr "BFF_OIDC_SCOPES" "openid,profile,email")).

Definition LoadConfig : result Config :=
  let? runtimeSelection := load_runtime in
  let? telemetry := load_telemetry in
  let? session := load_session in
  let? storage := load_storage in
  let? limits := load_limits in
  let? rolePermissions :=
    wrap "policy role permissions" (parseStringSliceMap (Getenv "BFF_POLICY_ROLE_PERMISSIONS")) in
  let? roleCapabilities :=
    wrap "policy role capabilities" (parseStringSliceMap (Getenv "BFF_POLICY_ROLE_CAPABILITIES")) in
  let cfg := mkConfig runtimeSelection load_http telemetry limits load_oidc load_store
               (mkPolicy (envOr "BFF_POLICY_PROVIDER" "static") rolePermissions roleCapabilities)
               session storage in
  let? _ := Validate cfg in
  Ok cfg.
End load.

(** ** The base path *)

(** "/a/b" from the segments a and b; "" from none *)
Definition rooted (segs : list string) : string :=
  foldr (λ seg acc, "/" +:+ seg +:+ acc) "" segs.
Definition nonempty_segments (v : string) : list string := filter (.≠ "") (Split v "/").

Lemma dot_segment_false segs : dot_segment segs = false ↔ Forall (λ s, s ≠ "." ∧ s ≠ "..") segs.
Proof.
  induction segs as [|s segs IH]; simpl; [by split|].
  rewrite orb_false_iff, bool_decide_eq_false, IH, list.Forall_cons. naive_solver.
Qed.

Lemma good_segments v : dot_segment (Split v "/") = false → Forall good_segment (nonempty_segments v).
Proof.
  rewrite dot_segment_false. intros Hd. apply list.Forall_forall. intros s Hs.
  apply list_elem_of_filter in Hs as [Hne Hs]. rewrite list.Forall_forall in Hd. destruct (Hd s Hs) as [? ?].
  repeat split; [done..|]. unfold Split in Hs. apply list_elem_of_fmap in Hs as (w & -> & Hw).
  rewrite bytes_of_bytes. by eapply split_bytes_no_sep.
Qed.

Lemma rooted_Join segs : segs ≠ [] → "/" +:+ Join segs "/" = rooted segs.
Proof.
  induction segs as [|s [|s' segs] IH]; [done|by intros _; apply bytes_inj; simpl; autorewrite with go_str; rewrite app_nil_r|].
  intros _. change (Join (s :: s' :: segs) "/") with (s +:+ "/" +:+ Join (s' :: segs) "/"). by rewrite IH.
Qed.

Lemma bytes_rooted_cons seg segs : bytes (rooted (seg :: segs)) = "/"%char :: bytes seg ++ bytes (rooted segs).
Proof. change (bytes (rooted (seg :: segs))) with ("/"%char :: bytes (seg +:+ rooted segs)). by rewrite bytes_app. Qed.

Lemma Split_rooted segs : Forall good_segment segs → Split (rooted segs) "/" = "" :: segs.
Proof.
  intros Hg. unfold Split. induction Hg as [|s segs (_&_&_&Hs) Hg IH]; [done|].
  rewrite bytes_rooted_cons. cbn [split_bytes Ascii.eqb Bool.eqb]. rewrite (split_bytes_first _ _ _ Hs).
  destruct (split_bytes "/" (bytes (rooted segs))) as [|w ws]; [discriminate IH|].
  rewrite !fmap_cons in IH |- *. injection IH as Hw Hws. apply (f_equal bytes) in Hw. rewrite bytes_of_bytes in Hw.
  simpl in Hw. subst w. rewrite fmap_cons, app_nil_r, Hws. by rewrite of_bytes_bytes.
Qed.

Lemma rooted_last segs : segs ≠ [] → Forall good_segment segs → ∃ l a, bytes (rooted segs) = l ++ [a] ∧ a ≠ "/"%char.
Proof.
  induction segs as [|s segs IH]; [done|]. intros _ [(Hs&_&_&Hns) Hg]%list.Forall_cons.
  rewrite bytes_rooted_cons. destruct segs as [|s' segs].
  - destruct (bytes s) as [|b l _] eqn:Hb using rev_ind; [by apply bytes_nil in Hb|].
    exists ("/"%char :: l), b. simpl. rewrite app_nil_r. split; [done|]. set_solver.
  - destruct IH as (l & a & -> & Ha); [done..|]. exists ("/"%char :: bytes s ++ l), a. split; [|done].
    simpl. by rewrite app_assoc.
Qed.

(** The normal form of an accepted base path. *)
Lemma normalizeBasePath_eq v :
  (v = "" ∨ HasPrefix v "/" = true) → dot_segment (Split v "/") = false →
  normalizeBasePath v = Ok (rooted (nonempty_segments v)).
Proof.
  intros Hv Hd. unfold normalizeBasePath. case_bool_decide as H0; [by destruct H0 as [->| ->]|].
  destruct Hv as [->|Hv]; [naive_solver|]. rewrite Hv, Hd. simpl.
  assert (path_Clean v = "/" +:+ Join (nonempty_segments v) "/") as ->.
  { unfold path_Clean. rewrite bool_decide_eq_false_2 by naive_solver. rewrite Hv.
    rewrite clean_fold by by apply dot_segment_false. by rewrite app_nil_r, rev_involutive. }
  destruct (decide (nonempty_segments v = [])) as [->|Hne]; [done|].
  pose proof (good_segments v Hd) as Hg. rewrite rooted_Join by done.
  destruct (rooted_last _ Hne Hg) as (l & a & Hl & Ha). rewrite bool_decide_eq_false_2.
  - f_equal. by eapply TrimRight_stop.
  - intros [He|He].
    + destruct (nonempty_segments v); [done|]. apply (f_equal bytes) in He. by rewrite bytes_rooted_cons in He.
    + rewrite He in Hl. by destruct l as [|? [|??]]; simplify_eq/=.
Qed.

Lemma normalizeBasePath_ok v r :
  normalizeBasePath v = Ok r → (v = "" ∨ HasPrefix v "/" = true) ∧ dot_segment (Split v "/") = false.
Proof.
  unfold normalizeBasePath. case_bool_decide as H0; [by destruct H0 as [->| ->]; auto|].
  intros Hr. apply reject_if_ok in Hr as [Hp Hr]. apply reject_if_ok in Hr as [Hd _]. bool_inv. auto.
Qed.

(** A base path is accepted exactly when it is empty or starts with a slash
    and has no dot segment; the result is "" or a path of the same segments, each
    preceded by exactly one slash, with none at the end, and normalising it again
    changes nothing. *)
Theorem base_path_normalized v r :
  normalizeBasePath v = Ok r ↔
  (v = "" ∨ HasPrefix v "/" = true) ∧ Forall (λ s, s ≠ "." ∧ s ≠ "..") (Split v "/") ∧
  r = rooted (nonempty_segments v) ∧ Forall good_segment (nonempty_segments v) ∧ normalizeBasePath r = Ok r.
Proof.
  split.
  - intros Hn. pose proof (normalizeBasePath_ok v r Hn) as [Hv Hd]. split; [done|].
    split; [by apply dot_segment_false|]. rewrite normalizeBasePath_eq in Hn by done. injection Hn as <-.
    pose proof (good_segments v Hd) as Hg. split; [done|]. split; [done|].
    assert (Split (rooted (nonempty_segments v)) "/" = "" :: nonempty_segments v) as Hs by by apply Split_rooted.
    rewrite normalizeBasePath_eq.
    + do 2 f_equal. unfold nonempty_segments at 1. rewrite Hs, filter_cons_False by naive_solver.
      apply list_filter_filter_l. done.
    + destruct (nonempty_segments v) as [|s segs]; [by left|right]. unfold HasPrefix. by rewrite bytes_rooted_cons.
    + rewrite Hs. simpl. apply dot_segment_false. eapply list.Forall_impl; [done|]. by intros ? (?&?&?&?).
  - intros (Hv & Hd & -> & _). apply normalizeBasePath_eq; [done|by apply dot_segment_false].
Qed.

(** ** What Validate promises *)

Section valid.
Context `{UnicodeCase} `{IPLiteral}.

(** A URL with a scheme and a host. *)
Definition absolute_url (raw : string) : Prop :=
  ∃ u, Parse raw = Ok u ∧ u_Scheme u ≠ "" ∧ u_Host u ≠ "".

Record valid_http (c : HTTPConfig) : Prop := {
  vh_addr : Addr c ≠ "";
  vh_base : BasePath c = "" ∨ HasPrefix (BasePath c) "/" = true;
  vh_dots : Forall (λ s, s ≠ "." ∧ s ≠ "..") (Split (BasePath c) "/");
  vh_public : ∃ u, Parse (PublicURL c) = Ok u ∧ u_Scheme u ≠ "" ∧ u_Host u ≠ "" ∧
                u_RawQuery u = "" ∧ u_Fragment u = "";
}.

Record valid_limits (l : LimitsConfig) : Prop := {
  vl_body : 0 ≤ MaxRequestBodyBytes l;
  vl_concurrency : 0 ≤ MaxConcurrency l;
  vl_rate : f64_lt (RatePerSecond l) (f64_of_Z 0) = false;
  vl_burst : 0 ≤ RateBurst l;
  vl_entries : 0 ≤ RateMaxEntries l;
  vl_auth_rate : f64_lt (AuthRatePerSecond l) (f64_of_Z 0) = false;
  vl_auth_burst : 0 ≤ AuthRateBurst l;
}.

Definition valid_store (c : StoreConfig) : Prop :=
  Backend c = "memory" ∨ Backend c = "redis" ∧ TrimSpace (RedisURL c) ≠ "".

Definition valid_session (c : SessionConfig) : Prop :=
  (MaxLifetime c = 0 ∧ IdleTimeout c = 0 ∧ TouchInterval c = 0) ∨
  0 < TouchInterval c ≤ IdleTimeout c ∧ IdleTimeout c ≤ MaxLifetime c.

Definition valid_workload_auth (w : StorageWorkloadAuthConfig) : Prop :=
  (wa_Mode w = "" ∨ wa_Mode w = "disabled") ∧ wa_Required w = false ∨
  wa_Mode w = "oidc" ∧ TrimSpace (wa_Issuer w) ≠ "" ∧ TrimSpace (wa_Audience w) ≠ "" ∧ absolute_url (wa_Issuer w).

Record valid_storage (s : StorageRoleConfig) : Prop := {
  vr_timeout : 0 < SignerTimeout s;
  vr_ttl : 0 < DefaultTTL s ≤ MaxTTL s;
  vr_signer : SignerBaseURL s ≠ "" → absolute_url (SignerBaseURL s);
  vr_providers : ∀ name p, Providers s !! name = Some p →
    TrimSpace name ≠ "" ∧ absolute_url (TrimSpace (pc_SignerBaseURL p));
  vr_targets : Providers s ≠ ∅ → ∀ name t, Targets s !! name = Some t → is_Some (Providers s !! tg_Provider t);
  vr_policy_timeout : 0 < AccessPolicyTimeout s;
  vr_subject : TrimSpace (SubjectHeader s) ≠ "";
  vr_policy : Targets s ≠ ∅ → AccessPolicyURL s ≠ "";
  vr_policy_url : AccessPolicyURL s ≠ "" → absolute_url (AccessPolicyURL s);
  vr_workload : valid_workload_auth (WorkloadAuth s);
}.

Record valid_config (c : Config) : Prop := {
  vc_runtime : Roles (Runtime c) ≠ [] → valid_selection (Runtime c);
  vc_http : valid_http (HTTP c);
  vc_limits : valid_limits (Limits c);
  vc_oidc : TrimSpace (Issuer (OIDC c)) = "" ↔ TrimSpace (ClientID (OIDC c)) = "";
  vc_store : valid_store (Store c);
  vc_session : valid_session (Session c);
  vc_storage : storageConfigured c = true → valid_storage (Storage c);
  vc_policy : Provider (Policy c) = "" ∨ Provider (Policy c) = "static";
}.

Lemma absolute_spec raw : absolute raw = true ↔ absolute_url raw.
Proof.
  unfold absolute, absolute_url. destruct (Parse raw) as [u|e]; [|split; [done|naive_solver]].
  rewrite negb_true_iff, orb_false_iff, !bool_decide_eq_false. naive_solver.
Qed.

Lemma validate_http_spec c : validate_http c = Ok tt ↔ valid_http c.
Proof.
  unfold validate_http. rewrite reject_if_ok, bool_decide_eq_false, result_bind_ok. split.
  - intros (Ha & r & Hb & Hu). apply normalizeBasePath_ok in Hb as [Hb Hd]. apply dot_segment_false in Hd.
    destruct (Parse (PublicURL c)) as [u|] eqn:Hp; [|done]. ok_inv. bool_inv.
    split; [done..|]. exists u. naive_solver.
  - intros [Ha Hb Hd (u & -> & Hs & Hh & Hq & Hf)]. split; [done|]. eexists. split.
    + apply normalizeBasePath_eq; [done|by apply dot_segment_false].
    + rewrite !reject_if_ok, !orb_false_iff, !negb_false_iff, !bool_decide_eq_false, !bool_decide_eq_true. done.
Qed.

Lemma validate_limits_spec l : validate_limits l = Ok tt ↔ valid_limits l.
Proof.
  unfold validate_limits. rewrite !reject_if_ok, !orb_false_iff, !Z.ltb_ge.
  split; [by intros (?&(((((?&?)&?)&?)&?)&?)&_)|by intros []].
Qed.

Lemma validate_oidc_spec c :
  validate_oidc c = Ok tt ↔ (TrimSpace (Issuer c) = "" ↔ TrimSpace (ClientID c) = "").
Proof.
  unfold validate_oidc. rewrite reject_if_ok, negb_false_iff, Bool.eqb_true_iff.
  do 2 case_bool_decide; naive_solver.
Qed.

Lemma validate_store_spec c : validate_store c = Ok tt ↔ valid_store c.
Proof.
  unfold validate_store, valid_store. case_bool_decide as Hm; [by split; [left|]|].
  case_bool_decide as Hr; [|naive_solver]. rewrite reject_if_ok, bool_decide_eq_false. naive_solver.
Qed.

Lemma validate_session_spec c : validate_session c = Ok tt ↔ valid_session c.
Proof.
  unfold validate_session, valid_session. destruct (_ || _) eqn:Hz.
  - rewrite !reject_if_ok, !orb_false_iff, !Z.ltb_ge, !Z.leb_gt.
    rewrite !orb_true_iff, !negb_true_iff, !Z.eqb_neq in Hz. split; [right; lia|].
    intros Hv. repeat split; lia.
  - bool_inv. rewrite !Z.eqb_eq in *. split; [by left|done].
Qed.

Lemma validate_workload_auth_spec w : validate_workload_auth w = Ok tt ↔ valid_workload_auth w.
Proof.
  unfold validate_workload_auth, valid_workload_auth. case_bool_decide as Hd; [|case_bool_decide as Ho].
  - rewrite reject_if_ok. split; [by intros [? _]; left|]. intros [[_ ?]|[Hm _]]; [done|].
    rewrite Hm in Hd. naive_solver.
  - rewrite !reject_if_ok, orb_false_iff, !bool_decide_eq_false, negb_false_iff, absolute_spec. naive_solver.
  - naive_solver.
Qed.

Lemma validate_providers_spec entries :
  validate_providers entries = Ok tt ↔
  ∀ name p, (name, p) ∈ entries → TrimSpace name ≠ "" ∧ absolute_url (TrimSpace (pc_SignerBaseURL p)).
Proof.
  induction entries as [|[name p] entries IH]; simpl; [set_solver|].
  rewrite !reject_if_ok, bool_decide_eq_false, negb_false_iff, absolute_spec, IH. set_solver.
Qed.

Lemma validate_target_providers_spec providers entries :
  validate_target_providers providers entries = Ok tt ↔
  ∀ name t, (name, t) ∈ entries → is_Some (providers !! tg_Provider t).
Proof.
  induction entries as [|[name t] entries IH]; simpl; [set_solver|].
  destruct (providers !! tg_Provider t) eqn:Hp.
  - rewrite IH. split; [|set_solver]. intros Hall n t' [[= -> ->]|Hin]%elem_of_cons; [by eexists|eauto].
  - split; [done|]. intros Hall. destruct (Hall name t) as [? ?]; [left|]. congruence.
Qed.

Lemma configured_absolute raw :
  negb (bool_decide (raw = "")) && negb (absolute raw) = false ↔ (raw ≠ "" → absolute_url raw).
Proof. rewrite <-absolute_spec. case_bool_decide; destruct (absolute raw); naive_solver. Qed.

Lemma validate_storage_spec s : validate_storage s = Ok tt ↔ valid_storage s.
Proof.
  unfold validate_storage.
  rewrite !reject_if_ok, !result_bind_check, !reject_if_ok, !configured_absolute, !orb_false_iff,
    !Z.ltb_ge, !Z.leb_gt, bool_decide_eq_false, validate_workload_auth_spec, validate_providers_spec.
  setoid_rewrite elem_of_map_to_list.
  assert ((if negb (bool_decide (Providers s = ∅))
           then validate_target_providers (Providers s) (map_to_list (Targets s)) else Ok tt) = Ok tt ↔
          (Providers s ≠ ∅ → ∀ name t, Targets s !! name = Some t → is_Some (Providers s !! tg_Provider t))) as ->.
  { case_bool_decide; simpl; [naive_solver|]. rewrite validate_target_providers_spec.
    setoid_rewrite elem_of_map_to_list. naive_solver. }
  assert (negb (bool_decide (Targets s = ∅)) && bool_decide (AccessPolicyURL s = "") = false ↔
          (Targets s ≠ ∅ → AccessPolicyURL s ≠ "")) as ->.
  { do 2 case_bool_decide; simpl; naive_solver. }
  split.
  - intros (?&[[? ?] ?]&?&?&?&?&?&?&?&?). by split.
  - intros []. split_and!; try done; lia.
Qed.

Lemma Config_Validate_spec c : Validate c = Ok tt ↔ valid_config c.
Proof.
  unfold Validate. rewrite !result_bind_check, validate_http_spec, validate_limits_spec, validate_oidc_spec,
    validate_store_spec, validate_session_spec.
  assert ((if bool_decide (Roles (Runtime c) = []) then Ok tt else
           match RuntimeCfg.Validate (Runtime c) with Err e => Err (ErrWrap "runtime selection" e) | Ok _ => Ok tt end)
          = Ok tt ↔ (Roles (Runtime c) ≠ [] → valid_selection (Runtime c))) as ->.
  { rewrite <-RuntimeCfg.Validate_spec. case_bool_decide; [naive_solver|].
    destruct (RuntimeCfg.Validate _) as [[]|]; naive_solver. }
  assert ((if storageConfigured c then validate_storage (Storage c) else Ok tt) = Ok tt ↔
          (storageConfigured c = true → valid_storage (Storage c))) as ->.
  { rewrite <-validate_storage_spec. destruct (storageConfigured c); naive_solver. }
  assert (∀ e : goerr, (if bool_decide (Provider (Policy c) = "" ∨ Provider (Policy c) = "static") then Ok tt
           else Err e) = Ok tt ↔ (Provider (Policy c) = "" ∨ Provider (Policy c) = "static")) as Hp.
  { intros e. by case_bool_decide. }
  rewrite Hp. split; [by intros (?&?&?&?&?&?&?&?)|by intros []].
Qed.

(** C21: [Validate] accepts exactly the configurations that satisfy the
    declarative [valid_config]: its early returns, loops and switches together
    say that the public URL is absolute, that life times are ordered, that every
    storage target names a configured provider and is guarded by an access
    policy, and that workload authentication is required only when it is on. *)
Theorem config_accepted_iff_valid c : Validate c = Ok tt ↔ valid_config c.
Proof. apply Config_Validate_spec. Qed.

(** ** The public address *)

Lemma HasPrefix_app s t p : HasPrefix s p = true → HasPrefix (s +:+ t) p = true.
Proof. rewrite !HasPrefix_spec. intros [k ->]. exists (k +:+ t). by rewrite str_app_assoc. Qed.

Lemma escape_nonempty m s : s ≠ "" → escape m s ≠ "".
Proof. unfold escape. destruct s as [|c s]; [done|]. intros _. simpl. unfold escape_byte. by case_match. Qed.

Lemma EscapedPath_nonempty u : u_Path u ≠ "" → EscapedPath u ≠ "".
Proof.
  intros Hp. unfold EscapedPath. destruct (negb _ && _ && _) eqn:Hraw; [by bool_inv|].
  destruct (bool_decide (u_Path u = "*")); [done|]. by apply escape_nonempty.
Qed.

Lemma URL_String_split u p :
  u_Scheme u ≠ "" → u_Host u ≠ "" → u_Opaque u = "" → p ≠ "" →
  ∃ tail, URL_String (with_Path u p) = u_Scheme u +:+ ":" +:+ authority_string u +:+ tail ∧ HasPrefix tail "/" = true.
Proof.
  intros Hs Hh Ho Hp. unfold URL_String. simpl u_Scheme. simpl u_Opaque. rewrite Ho.
  rewrite (bool_decide_eq_false_2 (u_Scheme u = "")) by done. rewrite (bool_decide_eq_true_2 ("" = "")) by done.
  cbn [negb].
  assert (authority_string (with_Path u p) = authority_string u) as ->.
  { unfold authority_string. simpl. by rewrite !(bool_decide_eq_false_2 (u_Host u = "")) by done. }
  pose proof (EscapedPath_nonempty (with_Path u p) Hp) as Hne. set (path := EscapedPath (with_Path u p)) in *.
  simpl u_Host. rewrite !(bool_decide_eq_false_2 (path = "")), (bool_decide_eq_false_2 (u_Host u = "")) by done.
  cbn [negb andb]. rewrite andb_true_r.
  assert (∀ x, bool_decide ((u_Scheme u +:+ ":") +:+ x = "") = false) as Hno.
  { intros x. apply bool_decide_eq_false. by destruct (u_Scheme u). }
  rewrite Hno. cbn [andb]. eexists. split; [by rewrite !str_app_assoc|].
  destruct (HasPrefix path "/") eqn:Hpre; [|done].
  match goal with |- HasPrefix (_ +:+ _ +:+ ?t) _ = _ => change (HasPrefix t "/" = true) end.
  by apply HasPrefix_app.
Qed.

Lemma path_Join_nonempty a b c : c ≠ "" → path_Join [a; b; c] ≠ "".
Proof.
  intros Hc. unfold path_Join. case_bool_decide as Hb.
  - exfalso. simpl in Hb. repeat case_bool_decide; by destruct c as [|? ?], a as [|? ?], b as [|? ?].
  - unfold path_Clean. repeat (case_match; try done); by case_bool_decide.
Qed.

(** C38: for a configuration that [Validate] accepts, [PublicEndpoint] never
    dereferences a nil URL, and the address it returns for a route consists of the
    scheme, user info and host of the configured public URL followed by a path
    that starts with a slash: redirect addresses stay on the configured server. *)
Theorem public_endpoint_keeps_origin c route :
  Validate c = Ok tt → route ≠ "" →
  ∃ u tail, Parse (PublicURL (HTTP c)) = Ok u ∧
    PublicEndpoint (HTTP c) route = Some (u_Scheme u +:+ "://" +:+
      match u_User u with Some ui => Userinfo_String ui +:+ "@" | None => "" end +:+
      escape encodeHost (u_Host u) +:+ tail) ∧
    HasPrefix tail "/" = true.
Proof.
  intros Hv Hr. apply Config_Validate_spec, vc_http, vh_public in Hv as (u & Hu & Hs & Hh & _).
  exists u. destruct (Parse_TrimRight _ _ Hu Hs Hh) as (w & Hw & Hws & Hwu & Hwh).
  assert (u_Opaque w = "") as Hwo by (eapply Parse_opaque; [done|congruence..]).
  unfold PublicEndpoint. rewrite Hw. set (p := path_Join _).
  set (p' := if _ && _ then _ else _).
  assert (p' ≠ "") as Hp.
  { unfold p'. case_match; [by destruct p|]. by apply path_Join_nonempty. }
  destruct (URL_String_split w p') as (tail & -> & Ht); [congruence..|].
  exists tail. split; [done|]. split; [|done]. f_equal. unfold authority_string.
  rewrite !(bool_decide_eq_false_2 (u_Host w = "")), Hws, Hwu, Hwh by congruence.
  rewrite !andb_false_r. simpl. by rewrite !str_app_assoc.
Qed.

End valid.

(** ** Loading *)

Section loaded.
Context `{UnicodeCase} `{IPLiteral} `{FloatText} `{RangeOrder}.

Lemma wrap_ok {A} context (r : result A) a : wrap context r = Ok a → r = Ok a.
Proof. by destruct r. Qed.

(** What [LoadConfig] returns was checked, and its roles are known and have
    capabilities. *)
Lemma LoadConfig_valid env c : LoadConfig env = Ok c → valid_config c ∧ valid_selection (Runtime c).
Proof.
  unfold LoadConfig. intros Hl.
  apply result_bind_ok in Hl as (rt & Hrt & Hl).
  do 6 apply result_bind_ok in Hl as (? & _ & Hl).
  apply result_bind_check in Hl as [Hv [= <-]]. split; [by apply Config_Validate_spec|].
  unfold load_runtime in Hrt. ok_inv. apply RuntimeCfg.Validate_spec.
  match goal with H : wrap "runtime selection" _ = Ok ?u |- _ => apply wrap_ok in H; by destruct u end.
Qed.

(** ... and no role has a capability twice. *)
Lemma LoadConfig_caps_NoDup env c r : LoadConfig env = Ok c → NoDup (caps_of (Capabilities (Runtime c)) r).
Proof.
  unfold LoadConfig. intros (rt & Hrt & Hl)%result_bind_ok.
  do 6 apply result_bind_ok in Hl as (? & _ & Hl). apply result_bind_check in Hl as [_ [= <-]].
  unfold load_runtime in Hrt. apply result_bind_ok in Hrt as (roles & Hr & Hrt).
  apply result_bind_ok in Hrt as (caps & Hc & Hrt). apply result_bind_ok in Hrt as (? & _ & [= <-]).
  apply wrap_ok in Hr, Hc. by eapply parsed_caps_NoDup.
Qed.
End loaded.

(** *** The defaults *)

(** Decimal text of the two float defaults, and no JSON. *)
Definition sample_float : FloatText := {|
  ParseFloat s := if bool_decide (s = "50") then Ok (f64_of_Z 50)
                  else if bool_decide (s = "0.2") then Ok (f64_div (f64_of_Z 1) (f64_of_Z 5))
                  else if bool_decide (s = "NaN") then Ok SpecFloat.S754_nan
                  else Err (errorf "invalid syntax");
  FormatFloat f := if SpecFloat.SFeqb f (f64_of_Z 50) then "50" else "0.2";
|}.
Definition sample_targets : TargetRegistry := {["media" := mkTarget "default" "bucket-1" true]}.
Definition default_config : Config :=
  mkConfig (mkSelection ["rebff"] {["rebff" := rebff_caps]})
    (mkHTTP ":8080" "" "http://localhost:8080" [])
    (mkTelemetry true true true true)
    (mkLimits 1048576 256 (f64_of_Z 50) 100 10000 (f64_div (f64_of_Z 1) (f64_of_Z 5)) 10)
    (mkOIDC "" "" "" ["openid"; "profile"; "email"])
    (mkStore "memory" "" "rebff")
    (mkPolicy "static" ∅ ∅)
    (mkSessionConfig (8 * Hour) (30 * Minute) Minute)
    (mkStorage "" (5 * Second) ∅ (15 * Minute) Hour ∅ "" (3 * Second) "X-Auth-Subject"
       (mkWorkloadAuth "disabled" "" "" false)).

Abbreviation sample_load := (@LoadConfig ascii_case no_literal sample_float sample_order) (only parsing).

(** An empty environment gives the documented defaults. *)
Example default_configuration : sample_load ∅ = Ok default_config.
Proof. run. Qed.

(** A rate that is not a number passes the check [< 0]. *)
Example nan_rate_accepted :
  is_ok (sample_load {["BFF_LIMIT_RATE_PER_SECOND" := "NaN"]}) = true.
Proof. run. Qed.

Lemma public_endpoint_keeps_origin_witness :
  ∃ u tail, @Parse ascii_case no_literal "http://localhost:8080" = Ok u ∧
    @PublicEndpoint ascii_case no_literal (HTTP default_config) "/auth/callback" = Some (u_Scheme u +:+ "://" +:+
      match u_User u with Some ui => Userinfo_String ui +:+ "@" | None => "" end +:+
      escape encodeHost (u_Host u) +:+ tail) ∧
    HasPrefix tail "/" = true.
Proof.
  apply (@public_endpoint_keeps_origin ascii_case no_literal default_config "/auth/callback"); [run|done].
Defined.

Example public_endpoint_example :
  @PublicEndpoint ascii_case no_literal (mkHTTP ":1" "/portal/" "https://u@example.com/x/" []) "/" =
    Some "https://u@example.com/x/portal/".
Proof. run. Qed.

End AppConfig.
