(* ===== verification/Outbound.v ===== *)
(** * Outbound calls: internal/outbound

    [Client.DoJSON] with its retries, the classification of errors, and
    [ProtectedClient]: the bulkhead and the circuit breaker.  The upstream
    service is a computation given as an argument.  Concurrent use of a
    [ProtectedClient] is a step relation over the requests in flight. *)

From S2P Require Import Prelude GoStrings World Session Middleware.
Open Scope Z_scope.

(** ** errors.go *)
Definition IsKind (err : goerr) (kind : ErrorKind) : bool :=
  match errors_As err with Some (k, _, _) => bool_decide (k = kind) | None => false end.

Definition normalizeStatus (status : Z) : ErrorKind :=
  if status =? 400 then ErrBadRequest else if status =? 401 then ErrUnauthorized
  else if status =? 403 then ErrForbidden else if status =? 404 then ErrNotFound
  else if status =? 409 then ErrConflict else if status =? 429 then ErrRateLimited
  else if (status =? 502) || (status =? 503) || (status =? 504) then ErrUnavailable
  else ErrUpstream.

(** ** client.go *)
Module Client.

Record OutRequest := mkOutRequest {
  o_Method : string;
  o_Path : string;
  o_Body : string;
  o_RequestID : string;
  o_TraceID : string;
  o_Authorization : option string;
}.
(** A response: the status, the bytes of the body and the error that ends it,
    if it breaks off. *)
Record Response := mkResponse {
  resp_StatusCode : Z;
  resp_Body : string;
  resp_ReadErr : option goerr;
}.

Record Client := mkClient {
  BasePath : string;
  Tokens : option (string → M (result string));
  MaxRetries : Z;
  RetryBackoff : Duration;
  MaxBodyBytes : Z;
}.

(** What a call depends on besides the client: the upstream service, the end of
    the caller's context, and the ids in it. *)
Record CallEnv := mkCallEnv {
  HTTP_Do : OutRequest → M (result Response);
  ctx_Err : nat → option goerr;
  ctx_RequestID : string;
  ctx_TraceID : string;
}.

Definition isIdempotent (method : string) : bool :=
  bool_decide (method ∈ ["GET"; "HEAD"; "OPTIONS"]).
Definition retryableResponse (status : Z) : bool :=
  (status =? 502) || (status =? 503) || (status =? 504).

Section client.
Context `{Env} (c : Client) (e : CallEnv).

Definition newRequest (sessionID method route body : string) : M (result OutRequest) :=
  let path := TrimRight (BasePath c) "/" +:+ "/" +:+ TrimLeft route "/" in
  try auth :=
    match Tokens c with
    | Some tokens =>
        if bool_decide (sessionID = "") then ret (Ok None) else
        try token := tokens sessionID in ret (Ok (Some ("Bearer " +:+ token)))
    | None => ret (Ok None)
    end in
  ret (Ok (mkOutRequest method path body (ctx_RequestID e) (ctx_TraceID e) auth)).

(** [io.ReadAll(io.LimitReader(resp.Body, limit+1))] *)
Definition read_limited (limit : Z) (r : Response) : result string :=
  if limit <? len (resp_Body r) then Ok (of_bytes (take (Z.to_nat (limit + 1)) (bytes (resp_Body r))))
  else match resp_ReadErr r with Some err => Err err | None => Ok (resp_Body r) end.

Definition body_limit : Z := if MaxBodyBytes c <=? 0 then 2 ^ 20 else MaxBodyBytes c.

(** [out] is [Some] of the decoder of the result type, [None] for nil. *)
Definition handleResponse {T} (out : option (string → result T)) (resp : Response) : result (option T) :=
  let? body := read_limited body_limit resp in
  reject body_limit <? len body with ErrMsg "outbound response exceeds %d bytes" [];;
  reject (resp_StatusCode resp <? 200) || (300 <=? resp_StatusCode resp)
    with ErrOutbound (normalizeStatus (resp_StatusCode resp)) (resp_StatusCode resp)
           (StatusText (resp_StatusCode resp));;
  match out with
  | None => Ok None
  | Some decode =>
      if bool_decide (body = "") then Ok None else
      match decode body with
      | Err err => Err (ErrWrap "decode outbound response" err)
      | Ok v => Ok (Some v)
      end
  end.

(** [waitBackoff]: the context may end before the timer fires. *)
Definition waitBackoff : M (option goerr) := oracle (ctx_Err e).

Definition attempts (method : string) : nat :=
  if isIdempotent method && (0 <? MaxRetries c) then S (Z.to_nat (MaxRetries c)) else 1.

(** The loop of [DoJSON], with the number of attempts left. *)
Fixpoint attempt_loop {T} (n : nat) (sessionID method path body : string) (out : option (string → result T))
    : M (result (option T)) :=
  match n with
  | O => ret (Err (errorf "unreachable: no attempt"))
  | S more =>
      try req := newRequest sessionID method path body in
      do resp := HTTP_Do e req in
      match resp with
      | Err err =>
          do done_ := oracle (ctx_Err e) in
          match done_ with
          | Some ce => ret (Err (ErrWrap "outbound request" ce))
          | None =>
              match more with
              | O => ret (Err (ErrWrap "outbound request" err))
              | S _ =>
                  do w := waitBackoff in
                  match w with
                  | Some we => ret (Err (ErrWrap "outbound request" we))
                  | None => attempt_loop more sessionID method path body out
                  end
              end
          end
      | Ok resp =>
          match handleResponse out resp with
          | Ok v => ret (Ok v)
          | Err err =>
              match more with
              | O => ret (Err err)
              | S _ =>
                  if negb (retryableResponse (resp_StatusCode resp)) then ret (Err err) else
                  do w := waitBackoff in
                  match w with
                  | Some we => ret (Err we)
                  | None => attempt_loop more sessionID method path body out
                  end
              end
          end
      end
  end.

(** [DoJSON]; [body] is the marshalled input, or the error of json.Marshal. *)
Definition DoJSON {T} (sessionID method path : string) (body : result string)
    (out : option (string → result T)) : M (result (option T)) :=
  match body with
  | Err err => ret (Err err)
  | Ok body => attempt_loop (attempts method) sessionID method path body out
  end.

(** *** Properties *)

Lemma handleResponse_ok {T} (out : option (string → result T)) resp v :
  handleResponse out resp = Ok v →
  200 ≤ resp_StatusCode resp < 300 ∧ len (resp_Body resp) ≤ body_limit ∧ resp_ReadErr resp = None ∧
  match v with
  | Some x => ∃ decode, out = Some decode ∧ decode (resp_Body resp) = Ok x
  | None => out = None ∨ resp_Body resp = ""
  end.
Proof.
  unfold handleResponse, read_limited. intros Hh. apply result_bind_ok in Hh as (body & Hb & Hh).
  apply reject_if_ok in Hh as [Hlen Hh]. apply reject_if_ok in Hh as [Hst Hh].
  assert (0 < body_limit) as Hpos by (unfold body_limit; destruct (Z.leb_spec (MaxBodyBytes c) 0); lia).
  destruct (Z.ltb_spec body_limit (len (resp_Body resp))).
  { exfalso. injection Hb as <-. unfold len in *. bool_inv.
    rewrite <-bytes_length, bytes_of_bytes, length_take, bytes_length in Hlen. lia. }
  destruct (resp_ReadErr resp); [done|]. injection Hb as <-.
  split; [lia|]. split; [lia|]. split; [done|].
  destruct out as [decode|]; [|injection Hh as <-; by left].
  destruct (bool_decide (resp_Body resp = "")) eqn:Hempty; bool_inv; [injection Hh as <-; by right|].
  destruct (decode (resp_Body resp)) as [x|] eqn:Hd; [|done]. injection Hh as <-. eauto.
Qed.

(** A counter of upstream calls: one more for each, and nothing else moves it. *)
Definition counts (calls : World → nat) : Prop :=
  (∀ req w, calls (HTTP_Do e req w).2 = S (calls w)) ∧ (∀ w, calls (tick w) = calls w) ∧
  (∀ tokens sid, Tokens c = Some tokens → Keeps (same calls) (tokens sid)).

Lemma newRequest_keeps calls sid m p b : counts calls → Keeps (same calls) (newRequest sid m p b).
Proof. intros (_ & _ & Ht). unfold newRequest. keeps; by apply Ht. Qed.

Lemma attempt_loop_calls {T} calls n sid m p b (out : option (string → result T)) w r w' :
  counts calls → attempt_loop n sid m p b out w = (r, w') → (calls w ≤ calls w' ≤ calls w + n)%nat.
Proof.
  intros Hc. pose proof Hc as (Hdo & Htick & _).
  revert w. induction n as [|n IH]; intros w; simpl; [unfold ret; intros [= _ <-]; lia|].
  intros [(err & Hn & _)|(req & w1 & Hn & Hk)]%bind_ok_inv;
    apply (keeps_run (same calls)) in Hn; try (by apply newRequest_keeps); unfold same in Hn; [lia|].
  apply bind_inv in Hk as (resp & w2 & Hd & Hk). specialize (Hdo req w1). rewrite Hd in Hdo. simpl in Hdo.
  destruct resp as [resp|err].
  - destruct (handleResponse out resp); [unfold ret in Hk; simplify_eq; lia|].
    destruct n as [|n]; [unfold ret in Hk; simplify_eq; lia|].
    destruct (negb _); [unfold ret in Hk; simplify_eq; lia|].
    apply bind_inv in Hk as (we & w3 & [= <- <-] & Hk).
    destruct (ctx_Err e _); [unfold ret in Hk; simplify_eq; rewrite Htick; lia|].
    apply IH in Hk. rewrite Htick in Hk. lia.
  - apply bind_inv in Hk as (ce & w3 & [= <- <-] & Hk).
    destruct (ctx_Err e _); [unfold ret in Hk; simplify_eq; rewrite Htick; lia|].
    destruct n as [|n]; [unfold ret in Hk; simplify_eq; rewrite Htick; lia|].
    apply bind_inv in Hk as (we & w4 & [= <- <-] & Hk).
    destruct (ctx_Err e _); [unfold ret in Hk; simplify_eq; rewrite !Htick; lia|].
    apply IH in Hk. rewrite !Htick in Hk. lia.
Qed.

(** C26: a call with side effects is never repeated: whatever the upstream
    service answers, a request whose method is not GET, HEAD or OPTIONS reaches it
    at most once, and an idempotent one at most 1 + MaxRetries times. *)
Theorem outbound_attempts_bounded {T} calls sid m p b (out : option (string → result T)) w r w' :
  counts calls → DoJSON sid m p b out w = (r, w') →
  (calls w' - calls w ≤ (if isIdempotent m then S (Z.to_nat (MaxRetries c)) else 1))%nat.
Proof.
  intros Hc. unfold DoJSON. destruct b as [b|]; [|unfold ret; intros [= _ <-]; destruct (isIdempotent m); lia].
  intros Hrun%(attempt_loop_calls calls); [|done]. unfold attempts in Hrun.
  destruct (isIdempotent m), (0 <? MaxRetries c); simpl in Hrun; lia.
Qed.
End client.
End Client.

(** *** Witness *)
Section client_witness.
#[local] Instance sample_outbound_env : Env := sample_env.
Definition flaky : Client.CallEnv := {|
  Client.HTTP_Do _ := do _ := modify (add_metric (RecordRejected "call")) in
    ret (Ok (Client.mkResponse 503 "" None));
  Client.ctx_Err _ := None;
  Client.ctx_RequestID := "";
  Client.ctx_TraceID := "";
|}.
Definition sample_client : Client.Client := Client.mkClient "/api" None 2 0 0.
Definition flaky_calls (w : World) : nat := length (w_metrics w).

Lemma outbound_attempts_bounded_witness :
  flaky_calls (Client.DoJSON (T := unit) sample_client flaky "" "GET" "/x" (Ok "") None empty_world).2 = 3%nat ∧
  (flaky_calls (Client.DoJSON (T := unit) sample_client flaky "" "POST" "/x" (Ok "") None empty_world).2
   - flaky_calls empty_world ≤ 1)%nat.
Proof.
  split; [run|].
  apply (Client.outbound_attempts_bounded (T := unit) sample_client flaky flaky_calls "" "POST" "/x" (Ok "") None
    empty_world (Client.DoJSON (T := unit) sample_client flaky "" "POST" "/x" (Ok "") None empty_world).1).
  - split; [|split; [done|done]]. intros req w. unfold flaky_calls. simpl. rewrite length_app. simpl. lia.
  - apply surjective_pairing.
Defined.
End client_witness.

(** ** observed.go *)
Definition outboundMetricOutcome (err : option goerr) : string :=
  match err with
  | None => "success"
  | Some err =>
      if IsKind err ErrRateLimited then "rate_limited"
      else if IsKind err ErrUnavailable then "unavailable"
      else if IsKind err ErrUnauthorized then "unauthorized"
      else if IsKind err ErrForbidden then "forbidden"
      else "error"
  end.

(** [ObservedClient.DoJSON] around any call *)
Definition Observed_DoJSON `{Env} {T} (metrics : bool) (service method : string) (next : M (result T)) : M (result T) :=
  do start := now in
  do r := next in
  if negb metrics then ret r else
  do t := now in
  do _ := modify (add_metric (RecordOutbound service method
            (outboundMetricOutcome (match r with Ok _ => None | Err e => Some e end)) (Sub t start))) in
  ret r.

(** ** protected.go *)
Module Protected.

Record ProtectedConfig := mkProtected {
  MaxConcurrent : Z;
  FailureThreshold : Z;
  OpenFor : Duration;
}.

(** [init]: the defaults. *)
Definition threshold (c : ProtectedConfig) : Z := if FailureThreshold c <=? 0 then 5 else FailureThreshold c.
Definition open_for (c : ProtectedConfig) : Duration := if OpenFor c <=? 0 then 15 * Second else OpenFor c.

(** The fields guarded by the mutex are the record [breaker] of World.v. *)
Definition closed : breaker := mkBreaker 0 0 false.

Definition unavailable (message : string) : goerr := ErrOutbound ErrUnavailable 503 message.

(** A nil error is [None]. *)
Definition isCircuitFailure (err : option goerr) : bool :=
  match err with
  | None => false
  | Some err =>
      if errors_Is err ContextCanceled then false
      else if IsKind err ErrUnavailable then true
      else match errors_As err with Some _ => false | None => true end
  end.

Section breaker.
Context (c : ProtectedConfig).

(** [beforeRequest] at the time [now] *)
Definition beforeRequest (now : Time) (b : breaker) : result breaker :=
  if IsZero (openedAt b) then Ok b
  else if Sub now (openedAt b) <? open_for c then Err (unavailable "circuit open")
  else if halfOpen b then Err (unavailable "circuit half-open")
  else Ok (mkBreaker (failures b) (openedAt b) true).

(** [afterResult] at the time [now] *)
Definition afterResult (now : Time) (err : option goerr) (b : breaker) : breaker :=
  if negb (isCircuitFailure err) then closed
  else if halfOpen b then mkBreaker (threshold c) now false
  else
    let n := failures b + 1 in
    mkBreaker n (if threshold c <=? n then now else openedAt b) (halfOpen b).

(** *** Concurrent calls of [DoJSON] *)

(** Where a call is: before the semaphore, between acquiring it and
    [beforeRequest], inside [Next.DoJSON], on its way out, or returned. *)
Inductive call :=
  | Entering
  | Holding
  | InFlight (probe : bool)
  | Leaving (res : option goerr)
  | Returned (res : option goerr).

(** The semaphore holds one slot per call between acquire and release. *)
Definition holds_slot (k : call) : bool :=
  match k with Holding | InFlight _ | Leaving _ => true | _ => false end.
Definition in_flight (k : call) : bool := match k with InFlight _ => true | _ => false end.

Record state := mkState {
  st_breaker : breaker;
  (** slots taken; without a limit there is no semaphore and this only counts *)
  st_sem : Z;
  st_calls : list call;
  (** ghost: the results seen by [afterResult], latest first *)
  st_history : list (option goerr);
}.

Definition limited : bool := 0 <? MaxConcurrent c.

Inductive step : state → state → Prop :=
  | step_full i s :
      st_calls s !! i = Some Entering → limited = true → MaxConcurrent c ≤ st_sem s →
      step s (mkState (st_breaker s) (st_sem s)
                (<[i := Returned (Some (unavailable "bulkhead full"))]> (st_calls s)) (st_history s))
  | step_acquire i s :
      st_calls s !! i = Some Entering → (limited = true → st_sem s < MaxConcurrent c) →
      step s (mkState (st_breaker s) (st_sem s + 1) (<[i := Holding]> (st_calls s)) (st_history s))
  | step_reject i now e s :
      st_calls s !! i = Some Holding → beforeRequest now (st_breaker s) = Err e →
      step s (mkState (st_breaker s) (st_sem s) (<[i := Leaving (Some e)]> (st_calls s)) (st_history s))
  | step_admit i now b s :
      st_calls s !! i = Some Holding → beforeRequest now (st_breaker s) = Ok b →
      step s (mkState b (st_sem s) (<[i := InFlight (halfOpen b)]> (st_calls s)) (st_history s))
  | step_result i probe now res s :
      now ≠ 0 → st_calls s !! i = Some (InFlight probe) →
      step s (mkState (afterResult now res (st_breaker s)) (st_sem s)
                (<[i := Leaving res]> (st_calls s)) (res :: st_history s))
  | step_release i res s :
      st_calls s !! i = Some (Leaving res) →
      step s (mkState (st_breaker s) (st_sem s - 1) (<[i := Returned res]> (st_calls s)) (st_history s)).

(** One call of [DoJSON] that no other call overlaps, on the mutable fields. *)
Definition DoJSON `{Env} {T} (metrics : bool) (service : string) (next : M (result T)) (b : breaker) (sem : Z)
    : M (result T * breaker * Z) :=
  if limited && (MaxConcurrent c <=? sem) then
    do _ := record_if metrics (RecordOutboundRejected service "bulkhead") in
    ret (Err (unavailable "bulkhead full"), b, sem)
  else
  do t := if IsZero (openedAt b) then ret 0 else now in
  match beforeRequest t b with
  | Err e =>
      do _ := record_if metrics (RecordOutboundRejected service "circuit") in
      ret (Err e, b, sem)
  | Ok b =>
      do r := next in
      let err := match r with Ok _ => None | Err e => Some e end in
      do t := if isCircuitFailure err && (halfOpen b || (threshold c <=? failures b + 1)) then now else ret 1 in
      ret (r, afterResult t err b, sem)
  end.

Definition initial (n : nat) : state := mkState closed 0 (replicate n Entering) [].

(** *** Invariants *)
Definition slots : list call → Z := count holds_slot.
Definition flying : list call → Z := count in_flight.

(** The number of failures since the last success. *)
Fixpoint trailing_failures (h : list (option goerr)) : Z :=
  match h with
  | [] => 0
  | r :: h => if isCircuitFailure r then trailing_failures h + 1 else 0
  end.

Lemma trailing_nonneg h : 0 <= trailing_failures h.
Proof. induction h as [|r h IH]; simpl; [lia|]. destruct (isCircuitFailure r); lia. Qed.

Lemma threshold_pos : 0 < threshold c.
Proof. unfold threshold. destruct (Z.leb_spec (FailureThreshold c) 0); lia. Qed.

Lemma flying_le_slots l : flying l ≤ slots l.
Proof. unfold flying, slots. induction l as [|k l IH]; simpl; [lia|]. destruct k; simpl; lia. Qed.

(** The semaphore counts the calls that hold a slot. *)
Definition sem_inv (s : state) : Prop :=
  st_sem s = slots (st_calls s) ∧ (limited = true → st_sem s ≤ MaxConcurrent c).

(** The breaker against the results it has seen. *)
Definition breaker_inv (b : breaker) (h : list (option goerr)) : Prop :=
  (openedAt b ≠ 0 ↔ threshold c ≤ trailing_failures h) ∧
  (openedAt b = 0 → failures b = trailing_failures h ∧ halfOpen b = false) ∧
  (openedAt b ≠ 0 → threshold c ≤ failures b).

Lemma sem_inv_step s s' : step s s' → sem_inv s → sem_inv s'.
Proof.
  intros Hstep [Hsem Hbound].
  destruct Hstep as [i s Hi Hl Hfull|i s Hi Hl|i now e s Hi Hb|i now b s Hi Hb|i probe now res s Hnow Hi|i res s Hi];
    split; simpl; unfold slots in *; rewrite ?(count_insert _ _ _ _ _ Hi); simpl;
    try (intros Hlim; specialize (Hbound Hlim)); try lia.
  specialize (Hl Hlim). lia.
Qed.

Lemma beforeRequest_inv now b b' h :
  beforeRequest now b = Ok b' → breaker_inv b h → breaker_inv b' h.
Proof.
  unfold beforeRequest, breaker_inv. destruct (IsZero (openedAt b)) eqn:Hz; [by intros [= <-]|].
  apply Z.eqb_neq in Hz. destruct (_ <? _); [done|]. destruct (halfOpen b); [done|]. intros [= <-]. simpl.
  intros (Hopen & _ & Hfail). split; [done|]. split; [done|done].
Qed.

Lemma afterResult_inv now res b h :
  now ≠ 0 → breaker_inv b h → breaker_inv (afterResult now res b) (res :: h).
Proof.
  intros Hnow (Hopen & Hclosed & Hfail). unfold breaker_inv, afterResult. simpl. pose proof threshold_pos.
  destruct (isCircuitFailure res); simpl; [|repeat split; lia].
  destruct (halfOpen b) eqn:Hh; simpl.
  { assert (openedAt b ≠ 0) by (intros [_ ?]%Hclosed; congruence). repeat split; lia. }
  assert (openedAt b = 0 → failures b + 1 = trailing_failures h + 1) as Hcnt by (intros [-> _]%Hclosed; lia).
  destruct (Z.leb_spec (threshold c) (failures b + 1)); simpl.
  - destruct (decide (openedAt b = 0)) as [Hz|Hz]; [apply Hcnt in Hz|apply Hopen in Hz]; repeat split; lia.
  - destruct (decide (openedAt b = 0)) as [Hz|Hz]; [|apply Hfail in Hz; lia].
    pose proof (Hcnt Hz). by repeat split; lia.
Qed.

Lemma reachable_inv n s :
  rtc step (initial n) s → sem_inv s ∧ breaker_inv (st_breaker s) (st_history s).
Proof.
  intros Hr. assert (sem_inv (initial n) ∧ breaker_inv closed []) as Hinit.
  { split; [split; simpl; [symmetry; by apply count_replicate|unfold limited; lia]|].
    pose proof threshold_pos. unfold breaker_inv. simpl. repeat split; lia. }
  change closed with (st_breaker (initial n)) in Hinit.
  change [] with (st_history (initial n)) in Hinit.
  revert Hinit. induction Hr as [s|s1 s2 s3 Hstep _ IH]; [done|]. intros [Hsem Hb]. apply IH.
  split; [by eapply sem_inv_step|].
  destruct Hstep; simpl; [done..|by eapply beforeRequest_inv|by eapply afterResult_inv|done].
Qed.

(** C25: the bulkhead: whatever the interleaving and the outcomes, at most
    MaxConcurrent calls are inside the upstream client at a time, and a slot is
    given back on every path: when all calls have returned none is taken. *)
Theorem bulkhead_bounded n s :
  rtc step (initial n) s →
  (0 < MaxConcurrent c → flying (st_calls s) ≤ MaxConcurrent c) ∧
  (Forall (λ k, match k with Returned _ => True | _ => False end) (st_calls s) → st_sem s = 0).
Proof.
  intros [[Hsem Hbound] _]%reachable_inv. split.
  - intros Hpos. pose proof (flying_le_slots (st_calls s)). unfold limited in Hbound. lia.
  - rewrite Hsem. unfold slots. clear. induction 1 as [|k l Hk _ IH]; simpl; [done|]. rewrite IH. by destruct k.
Qed.

(** C24: the circuit opens exactly on consecutive failures.  In every reachable
    state of any number of concurrent calls the circuit is open or half-open if
    and only if the last FailureThreshold results, or more, were all failures in
    the sense of [isCircuitFailure] (an unavailable upstream, and every error that
    is no answer of it, a missing token included; not a 4xx, not a cancelled
    call).  A call is let through if and only if the circuit is closed, or OpenFor
    has passed since it was last opened and no call is marked as probing, and in
    the second case it sets that mark.  The mark does not make the probe the only
    call in flight: see [two_probes_in_flight]. *)
Theorem circuit_opens_on_consecutive_failures n s :
  rtc step (initial n) s →
  (openedAt (st_breaker s) ≠ 0 ↔ threshold c ≤ trailing_failures (st_history s)) ∧
  (∀ now, (∃ b, beforeRequest now (st_breaker s) = Ok b) ↔
    trailing_failures (st_history s) < threshold c ∨
    (open_for c ≤ Sub now (openedAt (st_breaker s)) ∧ halfOpen (st_breaker s) = false)) ∧
  (∀ now b, beforeRequest now (st_breaker s) = Ok b → threshold c ≤ trailing_failures (st_history s) →
    open_for c ≤ Sub now (openedAt (st_breaker s)) ∧ halfOpen (st_breaker s) = false ∧ halfOpen b = true).
Proof.
  intros [_ (Hopen & Hclosed & _)]%reachable_inv. split; [done|].
  unfold beforeRequest. destruct (IsZero (openedAt (st_breaker s))) eqn:Hz.
  - apply Z.eqb_eq in Hz. assert (trailing_failures (st_history s) < threshold c) as Hlt.
    { apply Z.lt_nge. intros Hge. by apply Hopen in Hge. }
    split; [|lia]. intros now. split; [by left|]. eauto.
  - apply Z.eqb_neq in Hz. apply Hopen in Hz. split.
    + intros now. destruct (Z.ltb_spec (Sub now (openedAt (st_breaker s))) (open_for c)).
      * split; [by intros [b [=]]|lia].
      * destruct (halfOpen (st_breaker s)); [split; [by intros [b [=]]|]; intros [?|[_ [=]]]; lia|].
        split; [by right|]. eauto.
    + intros now b Hb _. destruct (Z.ltb_spec (Sub now (openedAt (st_breaker s))) (open_for c)); [done|].
      destruct (halfOpen (st_breaker s)); [done|]. by injection Hb as <-.
Qed.

(** A non-failure, a 4xx answer or a cancelled call included, closes the
    circuit, whoever made the call. *)
Lemma non_failure_closes now res b : isCircuitFailure res = false → afterResult now res b = closed.
Proof. unfold afterResult. by intros ->. Qed.
(** The error of a result, nil for none. *)
Definition err_of {T} (r : result T) : option goerr := match r with Ok _ => None | Err e => Some e end.

(** C14: the executable call refines the step relation.  Whatever the upstream
    service does, a call of DoJSON that no other call overlaps takes the bulkhead
    and the circuit breaker through steps of the concurrent model, from a state in
    which the call is about to enter to one in which it has returned the same
    error, with the breaker and the slots that the code leaves behind; so the
    theorems about all interleavings hold of the code that runs. *)
Theorem protected_call_refines `{Env} {T} metrics service (next : M (result T)) w r b' sem' w' i s :
  (∀ j, clock j ≠ 0) →
  DoJSON metrics service next (st_breaker s) (st_sem s) w = (r, b', sem', w') →
  st_calls s !! i = Some Entering →
  ∃ s', rtc step s s' ∧ st_calls s' = <[i := Returned (err_of r)]> (st_calls s) ∧
    st_breaker s' = b' ∧ st_sem s' = sem'.
Proof.
  intros Hclock Hrun Hi. unfold DoJSON in Hrun.
  assert (i < length (st_calls s))%nat as Hlen by by eapply lookup_lt_Some.
  assert (∀ k, <[i := k]> (st_calls s) !! i = Some k) as Hat by (intros k; by apply list_lookup_insert_eq).
  destruct (limited && (MaxConcurrent c <=? st_sem s)) eqn:Hfull.
  { apply andb_true_iff in Hfull as [Hl Hm]. apply Z.leb_le in Hm.
    apply bind_inv in Hrun as (? & ? & _ & [= <- <- <- <-]).
    eexists. split; [apply rtc_once; by eapply step_full|]. done. }
  assert (limited = true → st_sem s < MaxConcurrent c) as Hfree.
  { intros Hl. rewrite Hl in Hfull. simpl in Hfull. by apply Z.leb_gt in Hfull. }
  pose proof (step_acquire i s Hi Hfree) as Hacq. set (s1 := mkState _ _ _ _) in Hacq.
  apply bind_inv in Hrun as (t & w1 & _ & Hrun).
  destruct (beforeRequest t (st_breaker s)) as [b|e] eqn:Hb.
  - apply bind_inv in Hrun as (res & w2 & _ & Hrun). apply bind_inv in Hrun as (t' & w3 & Ht & [= <- <- <- <-]).
    assert (t' ≠ 0) as Ht'.
    { clear Hfull. destruct (isCircuitFailure _ && _); unfold now, oracle, ret in Ht; [injection Ht as <- _; apply Hclock|by injection Ht as <- _]. }
    eexists. split.
    + eapply rtc_l; [exact Hacq|]. eapply rtc_l; [by eapply (step_admit i t b s1); [apply Hat|]|].
      eapply rtc_l; [eapply (step_result i _ t' (err_of res)); [done|]; unfold s1; cbn [st_calls]; rewrite list_insert_insert_eq; apply Hat|].
      eapply rtc_l; [eapply (step_release i (err_of res)); unfold s1; cbn [st_calls]; rewrite !list_insert_insert_eq; apply Hat|].
      apply rtc_refl.
    + unfold s1. cbn [st_calls st_breaker st_sem]. rewrite !list_insert_insert_eq. split; [done|]. split; [done|lia].
  - apply bind_inv in Hrun as (? & w2 & _ & [= <- <- <- <-]).
    eexists. split.
    + eapply rtc_l; [exact Hacq|]. eapply rtc_l; [by eapply (step_reject i t e s1); [apply Hat|]|].
      eapply rtc_l; [eapply (step_release i (Some e)); unfold s1; cbn [st_calls]; rewrite list_insert_insert_eq; apply Hat|].
      apply rtc_refl.
    + unfold s1. cbn [st_calls st_breaker st_sem]. rewrite !list_insert_insert_eq. split; [done|]. split; [done|lia].
Qed.
End breaker.

(** *** Witnesses and examples *)
Section witnesses.
Definition sample_protected : ProtectedConfig := mkProtected 2 1 (10 * Second).
Definition upstream_error : goerr := errorf "connection refused".
(** One call that fails and opens the circuit. *)
Definition opened : state :=
  mkState (mkBreaker 1 5 false) 0 [Returned (Some upstream_error)] [Some upstream_error].

Lemma opened_reachable : rtc (step sample_protected) (initial 1) opened.
Proof.
  eapply rtc_l; [by apply (step_acquire _ 0)|]. eapply rtc_l; [by apply (step_admit _ 0 5 closed)|].
  eapply rtc_l; [by apply (step_result _ 0 false 5 (Some upstream_error))|].
  eapply rtc_l; [by apply (step_release _ 0 (Some upstream_error))|]. apply rtc_refl.
Qed.

Lemma bulkhead_bounded_witness :
  (0 < 2 → flying (st_calls opened) ≤ 2) ∧
  (Forall (λ k, match k with Returned _ => True | _ => False end) (st_calls opened) → st_sem opened = 0).
Proof. apply (bulkhead_bounded sample_protected 1 opened). apply opened_reachable. Defined.

Lemma circuit_opens_on_consecutive_failures_witness :
  (openedAt (st_breaker opened) ≠ 0 ↔ threshold sample_protected ≤ trailing_failures (st_history opened)) ∧
  (∀ now, (∃ b, beforeRequest sample_protected now (st_breaker opened) = Ok b) ↔
    trailing_failures (st_history opened) < threshold sample_protected ∨
    (open_for sample_protected ≤ Sub now (openedAt (st_breaker opened)) ∧ halfOpen (st_breaker opened) = false)) ∧
  (∀ now b, beforeRequest sample_protected now (st_breaker opened) = Ok b →
    threshold sample_protected ≤ trailing_failures (st_history opened) →
    open_for sample_protected ≤ Sub now (openedAt (st_breaker opened)) ∧
    halfOpen (st_breaker opened) = false ∧ halfOpen b = true).
Proof. apply (circuit_opens_on_consecutive_failures sample_protected 1 opened). apply opened_reachable. Defined.

#[local] Instance protected_env : Env := sample_env.
Lemma protected_call_refines_witness :
  ∃ s', rtc (step sample_protected) (initial 1) s' ∧
    st_calls s' = <[0%nat := Returned (Some upstream_error)]> (st_calls (initial 1)) ∧
    st_breaker s' = mkBreaker 1 (clock 0) false ∧ st_sem s' = 0.
Proof.
  apply (protected_call_refines (T := unit) sample_protected false "svc" (ret (Err upstream_error)) empty_world
    (Err upstream_error) (mkBreaker 1 (clock 0) false) 0 (tick empty_world) 0 (initial 1)).
  - apply sample_clock_nonzero.
  - reflexivity.
  - reflexivity.
Defined.

(** Two probes at once: the failure of a call admitted before the circuit
    opened clears the half-open mark while the first probe is still in flight, and
    a second probe is let through. *)
Theorem two_probes_in_flight :
  ∃ s, rtc (step (mkProtected 0 1 10)) (initial 4) s ∧
       length (List.filter (λ k, match k with InFlight true => true | _ => false end) (st_calls s)) = 2%nat.
Proof.
  eexists. split.
  - eapply rtc_l; [by apply (step_acquire _ 0)|]. eapply rtc_l; [by apply (step_acquire _ 1)|].
    eapply rtc_l; [by apply (step_acquire _ 2)|]. eapply rtc_l; [by apply (step_acquire _ 3)|].
    eapply rtc_l; [by apply (step_admit _ 0 1 closed)|]. eapply rtc_l; [by apply (step_admit _ 1 1 closed)|].
    eapply rtc_l; [by apply (step_result _ 0 false 5 (Some upstream_error))|].
    eapply rtc_l; [by apply (step_admit _ 2 20 (mkBreaker 1 5 true))|].
    eapply rtc_l; [by apply (step_result _ 1 false 21 (Some upstream_error))|].
    eapply rtc_l; [by apply (step_admit _ 3 40 (mkBreaker 1 21 true))|]. apply rtc_refl.
  - reflexivity.
Qed.

(** A caller without a usable token counts against the upstream service. *)
Example token_error_is_circuit_failure :
  isCircuitFailure (Some (ErrIs TokenNotFound)) = true ∧ isCircuitFailure (Some (ErrIs RefreshUnavailable)) = true.
Proof. by vm_compute. Qed.
End witnesses.
End Protected.
