(* ===== verification/Signer.v ===== *)
(** * Remote parties of the storage role: internal/storage/remote_signer.go

    [RemoteSigner] implements the storage interfaces of StorageContract.v by JSON
    calls through the outbound client of Outbound.v, and [accesspolicy.Remote]
    the access policy.  The upstream service answers each event as it likes
    ([Upstream]); payloads and responses are JSON as GoJSON.v and GoStruct.v have
    it.  The storage routes see a signer as a function of the
    event at which it is called; [at_event] runs the client's code there, and
    [at_event_run] shows that this is what the code computes. *)

From S2P Require Import Prelude GoStrings World GoNumbers GoJSON GoTime GoStruct StorageContract StorageRole Outbound.
Open Scope Z_scope.

(** ** The payloads *)
Record presignPayload := mkPresignPayload {
  ps_Bucket : string;
  ps_ObjectKey : string;
  ps_ContentType : string;
  ps_ExpiresIn : Z;
}.
Record presignResponse := mkPresignResponse {
  pe_URL : string;
  pe_Method : string;
  pe_ExpiresAt : Time;
  pe_Headers : list (string * string);
}.
(** [multipartInitiatePayload] *)
Record multipartInitiatePayload := mkInitiatePayload {
  ip_Bucket : string;
  ip_ObjectKey : string;
  ip_ContentType : string;
  ip_ExpiresIn : Z;
}.
Record multipartInitiateResponse := mkInitiateResponse {
  ir_UploadID : string;
  ir_Bucket : string;
  ir_ObjectKey : string;
  ir_ExpiresAt : Time;
}.
Record multipartPartPayload := mkPartPayload {
  mp_Bucket : string;
  mp_ObjectKey : string;
  mp_UploadID : string;
  mp_PartNumber : Z;
  mp_ExpiresIn : Z;
}.
Record multipartCompletePayload := mkCompletePayload {
  cp_Bucket : string;
  cp_ObjectKey : string;
  cp_UploadID : string;
  cp_Parts : list CompletedPart;
}.
Record multipartCompleteResponse := mkCompleteResponse {
  cr_ETag : string;
  cr_VersionID : string;
  cr_Location : string;
}.
Record multipartAbortPayload := mkAbortPayload {
  ap_Bucket : string;
  ap_ObjectKey : string;
  ap_UploadID : string;
}.
Record metadataPayload := mkMetadataPayload { mt_Bucket : string; mt_ObjectKey : string }.

(** Zero values: what [out] holds when the response has no body. *)
Definition zero_presign : presignResponse := mkPresignResponse "" "" 0 [].
Definition zero_initiate : multipartInitiateResponse := mkInitiateResponse "" "" "" 0.
Definition zero_complete : multipartCompleteResponse := mkCompleteResponse "" "" "".
Definition zero_metadata : StorageMetadata := mkMetadata false "" "" 0 "" "" "" 0 [] [].
Definition zero_decision : PolicyDecision := mkPolicyDecision false "".

(** ** json.Marshal of the payloads *)
Definition marshal_presign (p : presignPayload) : result string :=
  Ok (Marshal (VObj ([("bucket", json_string (ps_Bucket p)); ("object_key", json_string (ps_ObjectKey p))]
    ++ opt_string "content_type" (ps_ContentType p) ++ [("expires_in_seconds", json_int (ps_ExpiresIn p))]))).
Definition marshal_initiate (p : multipartInitiatePayload) : result string :=
  Ok (Marshal (VObj ([("bucket", json_string (ip_Bucket p)); ("object_key", json_string (ip_ObjectKey p))]
    ++ opt_string "content_type" (ip_ContentType p) ++ [("expires_in_seconds", json_int (ip_ExpiresIn p))]))).
Definition marshal_part (p : multipartPartPayload) : result string :=
  Ok (Marshal (VObj [("bucket", json_string (mp_Bucket p)); ("object_key", json_string (mp_ObjectKey p));
    ("upload_id", json_string (mp_UploadID p)); ("part_number", json_int (mp_PartNumber p));
    ("expires_in_seconds", json_int (mp_ExpiresIn p))])).
Definition marshal_complete (p : multipartCompletePayload) : result string :=
  Ok (Marshal (VObj [("bucket", json_string (cp_Bucket p)); ("object_key", json_string (cp_ObjectKey p));
    ("upload_id", json_string (cp_UploadID p));
    ("parts", match cp_Parts p with
              | [] => VNull
              | ps => VArr ((λ x, VObj [("part_number", json_int (part_PartNumber x));
                                        ("etag", json_string (part_ETag x))]) <$> ps)
              end)])).
Definition marshal_abort (p : multipartAbortPayload) : result string :=
  Ok (Marshal (VObj [("bucket", json_string (ap_Bucket p)); ("object_key", json_string (ap_ObjectKey p));
    ("upload_id", json_string (ap_UploadID p))])).
Definition marshal_metadata (p : metadataPayload) : result string :=
  Ok (Marshal (VObj [("bucket", json_string (mt_Bucket p)); ("object_key", json_string (mt_ObjectKey p))])).
(** accesspolicy.Request *)
Definition marshal_policy (p : PolicyRequest) : result string :=
  Ok (Marshal (VObj ([("subject", json_string (pq_Subject p)); ("action", json_string (pq_Action p));
    ("target", json_string (pq_Target p))] ++ opt_map "context" (map_entries (pq_Context p))))).

(** ** json.Unmarshal of the responses *)
Section responses.
Context `{Zone}.

Definition presign_decoders : decoders presignResponse :=
  [("url", dec_string (λ p x, mkPresignResponse x (pe_Method p) (pe_ExpiresAt p) (pe_Headers p)));
   ("method", dec_string (λ p x, mkPresignResponse (pe_URL p) x (pe_ExpiresAt p) (pe_Headers p)));
   ("expires_at", dec_time (λ p x, mkPresignResponse (pe_URL p) (pe_Method p) x (pe_Headers p)));
   ("headers", dec_entries_of pe_Headers (λ p x, mkPresignResponse (pe_URL p) (pe_Method p) (pe_ExpiresAt p) x))].
Definition unmarshal_presign : string → result presignResponse := Unmarshal presign_decoders zero_presign.

Definition initiate_decoders : decoders multipartInitiateResponse :=
  [("upload_id", dec_string (λ p x, mkInitiateResponse x (ir_Bucket p) (ir_ObjectKey p) (ir_ExpiresAt p)));
   ("bucket", dec_string (λ p x, mkInitiateResponse (ir_UploadID p) x (ir_ObjectKey p) (ir_ExpiresAt p)));
   ("object_key", dec_string (λ p x, mkInitiateResponse (ir_UploadID p) (ir_Bucket p) x (ir_ExpiresAt p)));
   ("expires_at", dec_time (λ p x, mkInitiateResponse (ir_UploadID p) (ir_Bucket p) (ir_ObjectKey p) x))].
Definition unmarshal_initiate : string → result multipartInitiateResponse := Unmarshal initiate_decoders zero_initiate.

Definition complete_decoders : decoders multipartCompleteResponse :=
  [("etag", dec_string (λ p x, mkCompleteResponse x (cr_VersionID p) (cr_Location p)));
   ("version_id", dec_string (λ p x, mkCompleteResponse (cr_ETag p) x (cr_Location p)));
   ("location", dec_string (λ p x, mkCompleteResponse (cr_ETag p) (cr_VersionID p) x))].
Definition unmarshal_complete : string → result multipartCompleteResponse := Unmarshal complete_decoders zero_complete.

(** capability.StorageMetadata *)
Definition metadata_decoders : decoders StorageMetadata :=
  [("exists", dec_bool (λ m x, mkMetadata x (sm_Bucket m) (sm_ObjectKey m) (sm_Size m) (sm_ContentType m)
      (sm_ETag m) (sm_VersionID m) (sm_LastModified m) (sm_Checksums m) (sm_Metadata m)));
   ("bucket", dec_string (λ m x, mkMetadata (sm_Exists m) x (sm_ObjectKey m) (sm_Size m) (sm_ContentType m)
      (sm_ETag m) (sm_VersionID m) (sm_LastModified m) (sm_Checksums m) (sm_Metadata m)));
   ("object_key", dec_string (λ m x, mkMetadata (sm_Exists m) (sm_Bucket m) x (sm_Size m) (sm_ContentType m)
      (sm_ETag m) (sm_VersionID m) (sm_LastModified m) (sm_Checksums m) (sm_Metadata m)));
   ("size", dec_int64 (λ m x, mkMetadata (sm_Exists m) (sm_Bucket m) (sm_ObjectKey m) x (sm_ContentType m)
      (sm_ETag m) (sm_VersionID m) (sm_LastModified m) (sm_Checksums m) (sm_Metadata m)));
   ("content_type", dec_string (λ m x, mkMetadata (sm_Exists m) (sm_Bucket m) (sm_ObjectKey m) (sm_Size m) x
      (sm_ETag m) (sm_VersionID m) (sm_LastModified m) (sm_Checksums m) (sm_Metadata m)));
   ("etag", dec_string (λ m x, mkMetadata (sm_Exists m) (sm_Bucket m) (sm_ObjectKey m) (sm_Size m)
      (sm_ContentType m) x (sm_VersionID m) (sm_LastModified m) (sm_Checksums m) (sm_Metadata m)));
   ("version_id", dec_string (λ m x, mkMetadata (sm_Exists m) (sm_Bucket m) (sm_ObjectKey m) (sm_Size m)
      (sm_ContentType m) (sm_ETag m) x (sm_LastModified m) (sm_Checksums m) (sm_Metadata m)));
   ("last_modified", dec_time (λ m x, mkMetadata (sm_Exists m) (sm_Bucket m) (sm_ObjectKey m) (sm_Size m)
      (sm_ContentType m) (sm_ETag m) (sm_VersionID m) x (sm_Checksums m) (sm_Metadata m)));
   ("checksums", dec_entries_of sm_Checksums (λ m x, mkMetadata (sm_Exists m) (sm_Bucket m) (sm_ObjectKey m)
      (sm_Size m) (sm_ContentType m) (sm_ETag m) (sm_VersionID m) (sm_LastModified m) x (sm_Metadata m)));
   ("metadata", dec_entries_of sm_Metadata (λ m x, mkMetadata (sm_Exists m) (sm_Bucket m) (sm_ObjectKey m)
      (sm_Size m) (sm_ContentType m) (sm_ETag m) (sm_VersionID m) (sm_LastModified m) (sm_Checksums m) x))].
Definition unmarshal_metadata : string → result StorageMetadata := Unmarshal metadata_decoders zero_metadata.

(** accesspolicy.Decision *)
Definition decision_decoders : decoders PolicyDecision :=
  [("allow", dec_bool (λ d x, mkPolicyDecision x (pd_Reason d)));
   ("reason", dec_string (λ d x, mkPolicyDecision (pd_Allow d) x))].
Definition unmarshal_decision : string → result PolicyDecision := Unmarshal decision_decoders zero_decision.
End responses.

(** ** The upstream service *)
Record Upstream := mkUpstream {
  up_Do : nat → Client.OutRequest → result Client.Response;
  up_ctx_Err : nat → option goerr;
  up_RequestID : string;
  up_TraceID : string;
}.
Definition call_env (u : Upstream) : Client.CallEnv :=
  Client.mkCallEnv (λ req, oracle (λ i, up_Do u i req)) (up_ctx_Err u) (up_RequestID u) (up_TraceID u).

Record RemoteSigner := mkRemoteSigner {
  rs_HTTP : option (Client.Client * Upstream);
  (** [SessionID(ctx)] when the function is not nil *)
  rs_SessionID : option string;
}.

Section signer.
Context `{Zone} (s : RemoteSigner).

Definition sessionID : string := default "" (rs_SessionID s).

Definition unconfigured : goerr := errorf "remote signer client is not configured".

(** The common part of the operations: the nil check and the call. *)
Definition call {T} (route : string) (body : result string) (out : option (string → result T)) : M (result (option T)) :=
  match rs_HTTP s with
  | None => ret (Err unconfigured)
  | Some (client, up) => Client.DoJSON client (call_env up) sessionID "POST" route body out
  end.

Definition seconds (d : Duration) : Z := Z.quot d Second.

Definition to_operation (out : option presignResponse) : PresignedOperation :=
  let out := default zero_presign out in
  mkOperation (pe_URL out) (pe_Method out) (pe_ExpiresAt out) (pe_Headers out).

Definition presign (route : string) (req : PresignedRequest) : M (result PresignedOperation) :=
  try out := call route (marshal_presign (mkPresignPayload (pr_Bucket req) (pr_ObjectKey req)
               (pr_ContentType req) (seconds (pr_ExpiresIn req)))) (Some unmarshal_presign) in
  ret (Ok (to_operation out)).

Definition PresignPut (req : PresignedRequest) : M (result PresignedOperation) :=
  presign "/api/storage/presign/put" req.
Definition PresignGet (req : PresignedRequest) : M (result PresignedOperation) :=
  presign "/api/storage/presign/get" req.

Definition InitiateMultipart (req : PresignedRequest) : M (result MultipartUpload) :=
  try out := call "/api/storage/multipart/initiate" (marshal_initiate (mkInitiatePayload (pr_Bucket req)
               (pr_ObjectKey req) (pr_ContentType req) (seconds (pr_ExpiresIn req)))) (Some unmarshal_initiate) in
  let out := default zero_initiate out in
  ret (Ok (mkMultipartUpload (ir_UploadID out) (ir_Bucket out) (ir_ObjectKey out) (ir_ExpiresAt out))).

Definition PresignMultipartPart (bucket objectKey uploadID : string) (partNumber : Z) (expiresIn : Duration)
    : M (result PresignedOperation) :=
  try out := call "/api/storage/multipart/part"
               (marshal_part (mkPartPayload bucket objectKey uploadID partNumber (seconds expiresIn)))
               (Some unmarshal_presign) in
  ret (Ok (to_operation out)).

Definition CompleteMultipart (bucket objectKey uploadID : string) (parts : list CompletedPart)
    : M (result MultipartCompleteResult) :=
  try out := call "/api/storage/multipart/complete"
               (marshal_complete (mkCompletePayload bucket objectKey uploadID parts)) (Some unmarshal_complete) in
  let out := default zero_complete out in
  ret (Ok (mkComplete (cr_ETag out) (cr_VersionID out) (cr_Location out))).

Definition AbortMultipart (bucket objectKey uploadID : string) : M (result unit) :=
  try _ := call (T := unit) "/api/storage/multipart/abort" (marshal_abort (mkAbortPayload bucket objectKey uploadID)) None in
  ret (Ok tt).

Definition GetMetadata (bucket objectKey : string) : M (result StorageMetadata) :=
  try out := call "/api/storage/metadata" (marshal_metadata (mkMetadataPayload bucket objectKey))
               (Some unmarshal_metadata) in
  ret (Ok (default zero_metadata out)).
End signer.

(** [accesspolicy.Remote]: the POST to /v1/authorize of [Remote_Authorize]. *)
Definition authorize_call (client : Client.Client) (up : Upstream) (req : PolicyRequest)
    : M (result PolicyDecision) :=
  try out := Client.DoJSON client (call_env up) "" "POST" "/v1/authorize" (marshal_policy req) (Some unmarshal_decision) in
  ret (Ok (default zero_decision out)).

(** ** As the interfaces of the storage role *)

Definition world_at (i : nat) : World := mkWorld ∅ ∅ ∅ ∅ ∅ [] [] [] ∅ [] ∅ 0 ∅ i.
Definition at_event {A} (i : nat) (m : M A) : A := (m (world_at i)).1.

Definition as_signer `{Zone} (s : RemoteSigner) : StorageSigner := {|
  StorageContract.PresignPut i req := at_event i (PresignPut s req);
  StorageContract.PresignGet i req := at_event i (PresignGet s req);
  as_Multipart := Some {|
    StorageContract.InitiateMultipart i req := at_event i (InitiateMultipart s req);
    StorageContract.PresignMultipartPart i b k u n d := at_event i (PresignMultipartPart s b k u n d);
    StorageContract.CompleteMultipart i b k u ps := at_event i (CompleteMultipart s b k u ps);
    StorageContract.AbortMultipart i b k u := at_event i (AbortMultipart s b k u);
  |};
  as_Metadata := Some (λ i b k, at_event i (GetMetadata s b k));
|}.

Definition as_evaluator (client : Client.Client) (up : Upstream) : AccessEvaluator :=
  Remote_Authorize (Some (λ i req, at_event i (authorize_call client up req))).

(** ** Properties *)

(** Computations whose result and number of events depend on the event number
    only. *)
Definition timed {A} (m : M A) : Prop :=
  ∃ f : nat → A, ∃ g : nat → nat, ∀ w, (m w).1 = f (w_tick w) ∧ w_tick (m w).2 = g (w_tick w).

Lemma timed_ret {A} (a : A) : timed (ret a).
Proof. by exists (λ _, a), id. Qed.
Lemma timed_oracle {A} (f : nat → A) : timed (oracle f).
Proof. by exists f, S. Qed.
Lemma timed_bind {A B} (m : M A) (k : A → M B) : timed m → (∀ a, timed (k a)) → timed (bind m k).
Proof.
  intros (f & g & Hm) Hk.
  exists (λ i, (bind m k (world_at i)).1), (λ i, w_tick (bind m k (world_at i)).2). intros w.
  unfold bind. pose proof (Hm w) as [H1 H2]. pose proof (Hm (world_at (w_tick w))) as [H3 H4].
  destruct (m w) as [a w1], (m (world_at (w_tick w))) as [a' w1']. simpl in *.
  assert (a' = a) as -> by congruence. destruct (Hk a) as (f' & g' & Hka).
  pose proof (Hka w1) as [-> ->]. pose proof (Hka w1') as [-> ->]. rewrite H2, H4. done.
Qed.
Lemma timed_bind_ok {A B} (m : M (result A)) (k : A → M (result B)) :
  timed m → (∀ a, timed (k a)) → timed (bind_ok m k).
Proof. intros Hm Hk. apply timed_bind; [done|]. intros [a|e]; [done|apply timed_ret]. Qed.
Lemma at_event_run {A} (m : M A) w : timed m → (m w).1 = at_event (w_tick w) m.
Proof.
  intros (f & g & Hm). unfold at_event. destruct (Hm w) as [-> _], (Hm (world_at (w_tick w))) as [-> _]. done.
Qed.
Create HintDb timed.
#[export] Hint Resolve timed_ret timed_oracle timed_bind timed_bind_ok : timed.

Lemma attempt_loop_timed {T} c up n sid m p b (out : option (string → result T)) :
  Client.Tokens c = None → timed (Client.attempt_loop c (call_env up) n sid m p b out).
Proof.
  intros Hc. induction n as [|n IH]; simpl; [auto with timed|].
  apply timed_bind_ok.
  { unfold Client.newRequest. rewrite Hc. auto with timed. }
  intros req. apply timed_bind; [simpl; auto with timed|]. intros [resp|err].
  - destruct (Client.handleResponse c out resp); [auto with timed|]. destruct n; [auto with timed|].
    destruct (negb _); [auto with timed|]. apply timed_bind; [apply timed_oracle|].
    intros [we|]; [auto with timed|done].
  - apply timed_bind; [apply timed_oracle|]. intros [ce|]; [auto with timed|]. destruct n; [auto with timed|].
    apply timed_bind; [apply timed_oracle|]. intros [we|]; [auto with timed|done].
Qed.
