(* ===== verification/OIDC.v ===== *)
(** * The OpenID Connect adapter: internal/auth/oidc

    [oidc.Provider] implements the identity provider of Auth.v and the refresher
    of Token.v with the libraries go-oidc and oauth2, which are the class
    [OIDCLib]: discovery, the verification of an ID token, the exchange of a code
    and of a refresh token, each an event of its own.  The theorems show that an
    identity is taken only from an ID token that was verified and carries the
    nonce of the login, also through the whole callback of Auth.v, and that the
    logout address carries its parameters. *)

From S2P Require Import Prelude GoStrings GoURL GoQuery World Session Token Auth StorageContract Outbound Signer.
Open Scope Z_scope.

(** ** config.go *)
Record Config := mkConfig {
  Issuer : string;
  ClientID : string;
  ClientSecret : string;
  Scopes : list string;
}.

Definition Validate (c : Config) : result unit :=
  reject bool_decide (TrimSpace (Issuer c) = "") with errorf "oidc issuer is required" ;;
  reject bool_decide (TrimSpace (ClientID c) = "") with errorf "oidc client id is required" ;;
  Ok tt.

(** [seen] holds exactly the scopes of [out]. *)
Definition add_scope (out : list string) (scope : string) : list string :=
  let scope := TrimSpace scope in
  if bool_decide (scope = "") then out else append_unseen out scope.
Definition NormalizeScopes (scopes : list string) : list string := fold_left add_scope scopes ["openid"].

(** ** The libraries *)

(** [oauth2.Token]; [Extra] holds the fields of the response that are strings. *)
Record OAuthToken := mkOAuthToken {
  ot_AccessToken : string;
  ot_RefreshToken : string;
  ot_Expiry : Time;
  ot_Extra : string → option string;
}.
Record idClaims := mkClaims {
  cl_Subject : string;
  cl_Issuer : string;
  cl_Name : string;
  cl_PreferredUsername : string;
  cl_Email : string;
  cl_Roles : list string;
}.
(** [coreoidc.IDToken]; [Claims] decodes its payload. *)
Record IDToken := mkIDToken {
  it_Nonce : string;
  it_Expiry : Time;
  it_Claims : result idClaims;
}.
(** Options of a request: [coreoidc.Nonce], [oauth2.SetAuthURLParam]. *)
Inductive AuthOption := Nonce (nonce : string) | AuthURLParam (key value : string).

Class OIDCLib := {
  Discovery : Type;
  OAuthEndpoint : Type;
  NewProvider : nat → string → result Discovery;
  (** the claim end_session_endpoint of the discovery document *)
  Discovery_Claims : Discovery → result string;
  Endpoint : Discovery → OAuthEndpoint;
  (** [Verifier(&Config{ClientID}).Verify(ctx, raw)] *)
  Verify : nat → Discovery → string → string → result IDToken;
  AuthCodeURL : string → string → OAuthEndpoint → list string → string → string → list AuthOption → string;
  OAuth_Exchange : nat → string → string → OAuthEndpoint → list string → string → string → list AuthOption → result OAuthToken;
  (** [TokenSource(ctx, &Token{RefreshToken}).Token()] *)
  OAuth_Refresh : nat → string → string → OAuthEndpoint → list string → string → result OAuthToken;
}.

Section provider.
Context `{Env} `{UnicodeCase} `{IPLiteral} `{OIDCLib}.

(** ** provider.go *)
Record Provider := mkOIDCProvider {
  p_provider : Discovery;
  p_ClientID : string;
  p_ClientSecret : string;
  p_Endpoint : OAuthEndpoint;
  p_Scopes : list string;
  p_endSessionEndpoint : string;
}.

Definition New (cfg : Config) : M (result Provider) :=
  match Validate cfg with
  | Err e => ret (Err e)
  | Ok _ =>
      do discovered := oracle (λ i, NewProvider i (TrimRight (Issuer cfg) "/")) in
      match discovered with
      | Err e => ret (Err (ErrWrap "oidc discovery" e))
      | Ok discovered =>
          match Discovery_Claims discovered with
          | Err e => ret (Err (ErrWrap "oidc discovery claims" e))
          | Ok endSession =>
              ret (Ok (mkOIDCProvider discovered (ClientID cfg) (ClientSecret cfg) (Endpoint discovered)
                         (NormalizeScopes (Scopes cfg)) endSession))
          end
      end
  end.

Definition AuthorizationURL (p : Provider) (state nonce codeChallenge redirectURI : string) : M (result string) :=
  ret (Ok (AuthCodeURL (p_ClientID p) (p_ClientSecret p) (p_Endpoint p) (p_Scopes p) redirectURI state
    [Nonce nonce; AuthURLParam "code_challenge" codeChallenge; AuthURLParam "code_challenge_method" "S256"])).

Definition Exchange (p : Provider) (code codeVerifier redirectURI expectedNonce : string)
    : M (result ExchangeResult) :=
  do oauthToken := oracle (λ i, OAuth_Exchange i (p_ClientID p) (p_ClientSecret p) (p_Endpoint p) (p_Scopes p)
    redirectURI code [AuthURLParam "code_verifier" codeVerifier]) in
  match oauthToken with
  | Err e => ret (Err (ErrWrap "oidc token exchange" e))
  | Ok oauthToken =>
      let rawIDToken := default "" (ot_Extra oauthToken "id_token") in
      if bool_decide (rawIDToken = "") then ret (Err (errorf "oidc token response missing id_token")) else
      do idToken := oracle (λ i, Verify i (p_provider p) (p_ClientID p) rawIDToken) in
      match idToken with
      | Err e => ret (Err (ErrWrap "oidc verify id_token" e))
      | Ok idToken =>
          if bool_decide (expectedNonce = "") || negb (bool_decide (it_Nonce idToken = expectedNonce))
          then ret (Err (errorf "oidc nonce mismatch")) else
          match it_Claims idToken with
          | Err e => ret (Err (ErrWrap "oidc decode claims" e))
          | Ok claims =>
              let displayName :=
                if bool_decide (cl_Name claims = "") then cl_PreferredUsername claims else cl_Name claims in
              let refreshToken := default "" (ot_Extra oauthToken "refresh_token") in
              let refreshToken :=
                if bool_decide (refreshToken = "") then ot_RefreshToken oauthToken else refreshToken in
              do expiry :=
                if IsZero (ot_Expiry oauthToken) then
                  do t := now in
                  ret (if After (it_Expiry idToken) t then it_Expiry idToken else ot_Expiry oauthToken)
                else ret (ot_Expiry oauthToken) in
              ret (Ok (mkExchange
                (mkIdentity (cl_Subject claims) (cl_Issuer claims) (cl_PreferredUsername claims) displayName
                   (cl_Email claims) (cl_Roles claims))
                (mkAuthTokens (ot_AccessToken oauthToken) refreshToken rawIDToken expiry)))
          end
      end
  end.

Definition set_query (q : string) (u : URL) : URL :=
  mkURL (u_Scheme u) (u_Opaque u) (u_User u) (u_Host u) (u_Path u) (u_RawPath u) (u_OmitHost u)
    (u_ForceQuery u) q (u_Fragment u) (u_RawFragment u).

(** The parameters of the logout address. *)
Definition logout_params (idTokenHint postLogoutRedirectURI : string) (q : Values) : Values :=
  let q := if bool_decide (idTokenHint = "") then q else Values_Set "id_token_hint" idTokenHint q in
  if bool_decide (postLogoutRedirectURI = "") then q
  else Values_Set "post_logout_redirect_uri" postLogoutRedirectURI q.

Definition EndSessionURL (p : Provider) (idTokenHint postLogoutRedirectURI : string) : M (result string) :=
  if bool_decide (p_endSessionEndpoint p = "") then ret (Ok postLogoutRedirectURI) else
  match Parse (p_endSessionEndpoint p) with
  | Err e => ret (Err (ErrWrap "oidc end_session_endpoint" e))
  | Ok u =>
      let q := logout_params idTokenHint postLogoutRedirectURI (ParseQuery (u_RawQuery u)) in
      ret (Ok (URL_String (set_query (Values_Encode q) u)))
  end.

(** ** refresh.go *)
Definition RefreshTokens (p : Provider) (refreshToken : string) : M (result TokenSet) :=
  if bool_decide (refreshToken = "") then ret (Err (errorf "refresh token is required")) else
  do refreshed := oracle (λ i, OAuth_Refresh i (p_ClientID p) (p_ClientSecret p) (p_Endpoint p) (p_Scopes p)
    refreshToken) in
  match refreshed with
  | Err e => ret (Err (ErrWrap "oidc token refresh" e))
  | Ok refreshed =>
      if bool_decide (ot_AccessToken refreshed = "")
      then ret (Err (errorf "oidc token refresh missing access token")) else
      let nextRefresh :=
        if bool_decide (ot_RefreshToken refreshed = "") then refreshToken else ot_RefreshToken refreshed in
      let rawIDToken := default "" (ot_Extra refreshed "id_token") in
      if IsZero (ot_Expiry refreshed) then ret (Err (errorf "oidc token refresh missing expiry")) else
      ret (Ok (mkTokenSet (ot_AccessToken refreshed) nextRefresh rawIDToken (Unix (ot_Expiry refreshed))))
  end.

(** ** As the interfaces of Auth.v and Token.v *)
Definition as_provider (p : Provider) : IdentityProvider := {|
  Auth.AuthorizationURL i s n c r := at_event i (AuthorizationURL p s n c r);
  Auth.Exchange i c v r n := at_event i (Exchange p c v r n);
  Auth.EndSessionURL i h r := at_event i (EndSessionURL p h r);
|}.
Definition as_refresher (p : Provider) : Refresher := λ i t, at_event i (RefreshTokens p t).

(** What the interfaces compute is what the code computes. *)
Lemma Exchange_timed p c v r n : timed (Exchange p c v r n).
Proof.
  unfold Exchange, now. apply timed_bind; [apply timed_oracle|]. intros [t|e]; [|apply timed_ret].
  case_bool_decide; [apply timed_ret|]. apply timed_bind; [apply timed_oracle|]. intros [it|e]; [|apply timed_ret].
  destruct (_ || _); [apply timed_ret|]. destruct (it_Claims it); [|apply timed_ret].
  apply timed_bind; [|intros ?; apply timed_ret]. destruct (IsZero _); auto with timed.
Qed.
Lemma RefreshTokens_timed p t : timed (RefreshTokens p t).
Proof.
  unfold RefreshTokens. case_bool_decide; [apply timed_ret|]. apply timed_bind; [apply timed_oracle|].
  intros [r|e]; [|apply timed_ret]. case_bool_decide; [apply timed_ret|]. destruct (IsZero _); apply timed_ret.
Qed.

(** ** Lemmas *)
Lemma Exchange_ok p code verifier redirect nonce w res w' :
  Exchange p code verifier redirect nonce w = (Ok res, w') →
  ∃ i j tok idt claims,
    OAuth_Exchange i (p_ClientID p) (p_ClientSecret p) (p_Endpoint p) (p_Scopes p) redirect code
      [AuthURLParam "code_verifier" verifier] = Ok tok ∧
    at_IDToken (ex_Tokens res) ≠ "" ∧ ot_Extra tok "id_token" = Some (at_IDToken (ex_Tokens res)) ∧
    Verify j (p_provider p) (p_ClientID p) (at_IDToken (ex_Tokens res)) = Ok idt ∧
    it_Nonce idt = nonce ∧ nonce ≠ "" ∧ it_Claims idt = Ok claims ∧
    id_Subject (ex_Identity res) = cl_Subject claims ∧ id_Issuer (ex_Identity res) = cl_Issuer claims ∧
    id_Roles (ex_Identity res) = cl_Roles claims ∧
    at_AccessToken (ex_Tokens res) = ot_AccessToken tok.
Proof.
  unfold Exchange. intros ([tok|e] & w1 & Ht & Hk)%bind_inv; [|by unfold ret in Hk].
  unfold oracle in Ht. injection Ht as Ht _. case_bool_decide as Hraw; [by unfold ret in Hk|].
  destruct (ot_Extra tok "id_token") as [raw|] eqn:Hex; cbn [default] in *; [|done].
  apply bind_inv in Hk as ([idt|e] & w2 & Hv & Hk); [|by unfold ret in Hk].
  unfold oracle in Hv. injection Hv as Hv _.
  destruct (bool_decide (nonce = "") || _) eqn:Hn; [by unfold ret in Hk|]. bool_inv.
  destruct (it_Claims idt) as [claims|e] eqn:Hc; [|by unfold ret in Hk].
  apply bind_inv in Hk as (exp & w3 & _ & [= <- <-]).
  exists (w_tick w), (w_tick w1), tok, idt, claims. by repeat split.
Qed.

Lemma NormalizeScopes_spec scopes out :
  out = NormalizeScopes scopes →
  NoDup out ∧ head out = Some "openid" ∧
  ∀ s, s ∈ out ↔ s = "openid" ∨ (s ≠ "" ∧ ∃ t, t ∈ scopes ∧ s = TrimSpace t).
Proof.
  intros ->. unfold NormalizeScopes.
  assert (∀ scopes acc, NoDup acc → head acc = Some "openid" →
    NoDup (fold_left add_scope scopes acc) ∧ head (fold_left add_scope scopes acc) = Some "openid" ∧
    ∀ s, s ∈ fold_left add_scope scopes acc ↔ s ∈ acc ∨ (s ≠ "" ∧ ∃ t, t ∈ scopes ∧ s = TrimSpace t)) as Hgen.
  { clear. induction scopes as [|t scopes IH]; intros acc Hnd Hh; cbn [fold_left].
    { split; [done|]. split; [done|]. set_solver. }
    assert (head (add_scope acc t) = Some "openid" ∧ NoDup (add_scope acc t)) as [Hh' Hnd'].
    { unfold add_scope. case_bool_decide; [done|]. split; [|by apply append_unseen_NoDup].
      unfold append_unseen. case_bool_decide; [done|]. by destruct acc. }
    destruct (IH _ Hnd' Hh') as (? & ? & Hin). split; [done|]. split; [done|].
    intros s. rewrite Hin. unfold add_scope. case_bool_decide as He.
    - set_solver.
    - rewrite elem_of_append_unseen. set_solver. }
  destruct (Hgen scopes ["openid"]) as (? & ? & Hin); [apply NoDup_singleton|done|].
  split; [done|]. split; [done|]. intros s. by rewrite Hin, list_elem_of_singleton.
Qed.

(** Parsed values are never empty lists. *)
Lemma logout_params_nonempty h r q :
  map_Forall (λ _ vs, vs ≠ []) q → map_Forall (λ _ vs, vs ≠ []) (logout_params h r q).
Proof.
  intros Hq. unfold logout_params, Values_Set.
  repeat case_bool_decide; try done; repeat apply map_Forall_insert_2; done.
Qed.

Lemma lookup_logout_params h r q k :
  logout_params h r q !! k =
    if bool_decide (k = "post_logout_redirect_uri" ∧ r ≠ "") then Some [r]
    else if bool_decide (k = "id_token_hint" ∧ h ≠ "") then Some [h] else q !! k.
Proof.
  unfold logout_params, Values_Set.
  repeat case_bool_decide; try tauto;
    rewrite ?lookup_insert; repeat case_decide; try done; exfalso; subst; intuition congruence.
Qed.

(** ** Properties *)

(** C13: who is logged in.  When a callback through this provider succeeds, a
    login had been started with that state and had not expired; the ID token
    obtained for its code verifier was verified and carries the nonce of that
    login; and the session stored under the new id is that of the token's
    subject, with the token's issuer and roles. *)
Theorem oidc_login_verified p cfg tokens redirect logout ft st state code w r w' :
  (∀ i, clock i ≠ 0) → TokenKeeps tokens (same w_sessions) →
  CompleteCallback (service (as_provider p) cfg tokens redirect logout ft st) state code w = (Ok r, w') →
  ∃ f i j tok raw idt claims s,
    w_flows w !! state = Some f ∧ clock (w_tick w) < flow_ExpiresAt f ∧
    OAuth_Exchange i (p_ClientID p) (p_ClientSecret p) (p_Endpoint p) (p_Scopes p) redirect code
      [AuthURLParam "code_verifier" (flow_CodeVerifier f)] = Ok tok ∧ ot_Extra tok "id_token" = Some raw ∧
    Verify j (p_provider p) (p_ClientID p) raw = Ok idt ∧ it_Nonce idt = flow_Nonce f ∧ flow_Nonce f ≠ "" ∧
    it_Claims idt = Ok claims ∧ cl_Subject claims ≠ "" ∧ cl_Issuer claims ≠ "" ∧
    w_sessions w' !! cb_SessionID r = Some s ∧ ses_Subject s = cl_Subject claims ∧
    ses_Issuer s = cl_Issuer claims ∧ ses_Roles s = cl_Roles claims.
Proof.
  intros Hclock Htok Hc. apply CompleteCallback_cases in Hc as [(e&[=]&_)|Hc]; [|done].
  destruct Hc as (f & q & ss & ts & res & i & Hf & Hlt & [= <-] & [= <-] & [= <-] & Hex & Hs & Hi & _ & Hst).
  apply store_login_cases in Hst as [(e&[=]&_)|(sid & t & k & w1 & w2 & [= ->] & _ & -> & _ & -> & Hput & ->)]; [|done..].
  simpl in Hex. unfold at_event in Hex.
  destruct (Exchange p code (flow_CodeVerifier f) redirect (flow_Nonce f) (world_at i)) as [r' w3] eqn:Hrun.
  simpl in Hex. subst r'.
  apply Exchange_ok in Hrun as (i' & j & tok & idt & claims & Htk & Hne & Hx & Hv & Hn & Hnn & Hcl & Hsub & Hiss & Hrol & _).
  apply (keeps_run (same w_sessions)) in Hput; [|apply keeps_ts_Put].
  exists f, i', j, tok, (at_IDToken (ex_Tokens res)), idt, claims.
  eexists. repeat (split; [first [done|congruence]|]). simpl. rewrite Hput. simpl. rewrite lookup_insert_eq.
  split; [done|]. rewrite <-Hsub, <-Hiss, <-Hrol. unfold Lifecycle.cap_expiry. by repeat case_match.
Qed.

(** The address of a global logout carries its parameters: if the
    provider has an end-session endpoint, the result is that address with a
    query that parses to the endpoint's own parameters, changed only in that
    id_token_hint and post_logout_redirect_uri hold the given values when they
    are not empty. *)
Theorem end_session_url_params p hint redirect w url w' :
  p_endSessionEndpoint p ≠ "" →
  EndSessionURL p hint redirect w = (Ok url, w') →
  ∃ u query, Parse (p_endSessionEndpoint p) = Ok u ∧ url = URL_String (set_query query u) ∧
    ∀ k, ParseQuery query !! k =
      if bool_decide (k = "post_logout_redirect_uri" ∧ redirect ≠ "") then Some [redirect]
      else if bool_decide (k = "id_token_hint" ∧ hint ≠ "") then Some [hint]
      else ParseQuery (u_RawQuery u) !! k.
Proof.
  intros Hne. unfold EndSessionURL. rewrite bool_decide_eq_false_2 by done.
  destruct (Parse (p_endSessionEndpoint p)) as [u|e]; [|by intros [=]]. intros [= <- <-].
  eexists u, _. split; [done|]. split; [done|]. intros k. rewrite ParseQuery_Encode.
  - apply lookup_logout_params.
  - apply logout_params_nonempty, ParseQuery_nonempty.
Qed.
End provider.

(** ** Witnesses *)
Section witnesses.
#[local] Instance sample : Env := sample_env.
#[local] Instance sample_case : UnicodeCase := ascii_case.
#[local] Instance sample_ip : IPLiteral := no_literal.

Definition sample_claims : idClaims := mkClaims "alice" "https://idp" "" "alice" "a@example" ["user"].
(** A provider whose ID tokens carry the second random value drawn. *)
#[local] Instance sample_lib : OIDCLib := {|
  Discovery := unit;
  OAuthEndpoint := unit;
  NewProvider _ _ := Ok tt;
  Discovery_Claims _ := Ok "https://idp/logout?realm=a";
  Endpoint _ := tt;
  Verify _ _ _ raw :=
    if bool_decide (raw = "raw") then Ok (mkIDToken (base64url (replicate 32 (ascii_of_nat 1))) 0 (Ok sample_claims))
    else Err (errorf "bad signature");
  AuthCodeURL _ _ _ _ _ state _ := "https://idp/authorize?state=" +:+ state;
  OAuth_Exchange _ _ _ _ _ _ code _ :=
    if bool_decide (code = "good")
    then Ok (mkOAuthToken "at" "rt" (unix_time 1700003600) (λ k, if bool_decide (k = "id_token") then Some "raw" else None))
    else Err (errorf "invalid_grant");
  OAuth_Refresh _ _ _ _ _ _ := Err (errorf "invalid_grant");
|}.
Definition sample_config : Config := mkConfig "https://idp/" "client" "secret" ["profile"; " email "; "openid"].
Definition sample_oidc : Provider :=
  match (New sample_config empty_world).1 with
  | Ok p => p
  | Err _ => mkOIDCProvider tt "" "" tt [] ""
  end.
Example sample_scopes : p_Scopes sample_oidc = ["openid"; "profile"; "email"].
Proof. run. Qed.

Definition oidc_service : Service :=
  service (as_provider sample_oidc) sample_lifecycle MemoryToken.store "https://app/cb" "/" 0 0.
Definition w_started : World := (StartLogin oidc_service "/app" empty_world).2.
Definition r_completed := CompleteCallback oidc_service login_state "good" w_started.
Definition completed : CallbackResult :=
  match r_completed.1 with Ok r => r | Err _ => mkCallbackResult "" "" "" "" 0 end.

Lemma oidc_login_verified_witness :
  ∃ f i j tok raw idt claims s,
    w_flows w_started !! login_state = Some f ∧ clock (w_tick w_started) < flow_ExpiresAt f ∧
    OAuth_Exchange i (p_ClientID sample_oidc) (p_ClientSecret sample_oidc) (p_Endpoint sample_oidc)
      (p_Scopes sample_oidc) "https://app/cb" "good" [AuthURLParam "code_verifier" (flow_CodeVerifier f)] = Ok tok ∧
    ot_Extra tok "id_token" = Some raw ∧ Verify j (p_provider sample_oidc) (p_ClientID sample_oidc) raw = Ok idt ∧ it_Nonce idt = flow_Nonce f ∧
    flow_Nonce f ≠ "" ∧ it_Claims idt = Ok claims ∧ cl_Subject claims ≠ "" ∧ cl_Issuer claims ≠ "" ∧
    w_sessions r_completed.2 !! cb_SessionID completed = Some s ∧ ses_Subject s = cl_Subject claims ∧
    ses_Issuer s = cl_Issuer claims ∧ ses_Roles s = cl_Roles claims.
Proof.
  apply (oidc_login_verified sample_oidc sample_lifecycle MemoryToken.store "https://app/cb" "/" 0 0
    login_state "good").
  - apply sample_clock_nonzero.
  - by apply memory_token_keeps; intros ? ? [=].
  - run.
Defined.

Definition logout_url : string :=
  match (EndSessionURL sample_oidc "raw" "https://app/bye?x=1" empty_world).1 with Ok u => u | Err _ => "" end.

Lemma end_session_url_params_witness :
  logout_url = "https://idp/logout?id_token_hint=raw&post_logout_redirect_uri=https%3A%2F%2Fapp%2Fbye%3Fx%3D1&realm=a" ∧
  ∃ u query, Parse (p_endSessionEndpoint sample_oidc) = Ok u ∧ logout_url = URL_String (set_query query u) ∧
    ∀ k, ParseQuery query !! k =
      if bool_decide (k = "post_logout_redirect_uri" ∧ "https://app/bye?x=1" ≠ "") then Some ["https://app/bye?x=1"]
      else if bool_decide (k = "id_token_hint" ∧ "raw" ≠ "") then Some ["raw"]
      else ParseQuery (u_RawQuery u) !! k.
Proof.
  split; [run|].
  apply (end_session_url_params sample_oidc "raw" "https://app/bye?x=1" empty_world logout_url empty_world).
  - discriminate.
  - run.
Defined.
End witnesses.
