(* ===== verification/AppAPI.v ===== *)
(** * The application API: internal/appapi, internal/domainapi

    The two routes that the gateway offers to browsers itself: reading a managed
    item from the domain service and presigning an upload.  Both sit behind the
    permission check of Middleware.v; the domain service is called through the
    outbound client with the user's token. *)

From S2P Require Import Prelude GoStrings GoURL GoQuery World GoNumbers GoJSON GoTime GoStruct Session Policy Http.
From S2P Require Import Middleware StorageContract StorageRole Outbound.
Open Scope Z_scope.

(** [type JSONDoer interface]: session id, method, path, the marshalled input and
    the decoder of the output ([None] for nil). *)
Definition JSONDoer : Type :=
  ∀ T, string → string → string → result string → option (string → result T) → M (result (option T)).

(** ** handler.go *)
Record ManagedItem := mkItem { it_ID : string; it_Name : string }.
(** [type DomainAPI interface] *)
Abbreviation DomainAPI := (string → string → M (result ManagedItem)).

Record AppHandler := mkAppHandler {
  ah_Sessions : SessionStore;
  ah_Policy : option Evaluator;
  ah_Domain : option DomainAPI;
  ah_Storage : option StorageSigner;
  ah_Audit : option AuditSink;
  ah_Metrics : bool;
  ah_UploadBucket : string;
  ah_UploadPrefixes : list string;
  ah_MaxPresignTTL : Duration;
}.

(** [string(oe.Kind)] *)
Definition kind_text (k : ErrorKind) : string :=
  match k with
  | ErrBadRequest => "bad_request" | ErrUnauthorized => "unauthorized" | ErrForbidden => "forbidden"
  | ErrNotFound => "not_found" | ErrConflict => "conflict" | ErrRateLimited => "rate_limited"
  | ErrUnavailable => "unavailable" | ErrUpstream => "upstream_error"
  end.

Definition outboundHTTPStatus (err : goerr) : Z :=
  match errors_As err with
  | None => StatusBadGateway
  | Some (kind, _, _) =>
      match kind with
      | ErrBadRequest => StatusBadRequest
      | ErrUnauthorized => StatusUnauthorized
      | ErrForbidden => StatusForbidden
      | ErrNotFound => StatusNotFound
      | ErrConflict => StatusConflict
      | ErrRateLimited => StatusTooManyRequests
      | ErrUnavailable => StatusServiceUnavailable
      | ErrUpstream => StatusBadGateway
      end
  end.

Definition writeError (status : Z) (code : string) (rw : RW) : RW := writeJSON status (error_code code) rw.
Definition writeOutboundError (err : goerr) (rw : RW) : RW :=
  writeError (outboundHTTPStatus err)
    (match errors_As err with None => "upstream_error" | Some (kind, _, _) => kind_text kind end) rw.

Definition sessionID (r : Request) : option string :=
  match cookie_get r "__Host-bff_session" with
  | Some v => if bool_decide (v = "") then None else Some v
  | None => None
  end.

(** The loop over the configured prefixes. *)
Fixpoint under_prefix (cleaned : string) (prefixes : list string) : bool :=
  match prefixes with
  | [] => false
  | prefix :: prefixes =>
      let prefix := Trim (TrimSpace prefix) "/" in
      if negb (bool_decide (prefix = "")) &&
         (bool_decide (cleaned = prefix) || HasPrefix cleaned (prefix +:+ "/"))
      then true else under_prefix cleaned prefixes
  end.

Definition validateObjectKey (raw : string) (prefixes : list string) : option string :=
  let raw := TrimSpace raw in
  if bool_decide (raw = "") || HasPrefix raw "/" || Contains raw "\" then None else
  let cleaned := path_Clean raw in
  if bool_decide (cleaned = ".") || bool_decide (cleaned = "..") || HasPrefix cleaned "../"
     || negb (bool_decide (cleaned = raw)) then None else
  match prefixes with
  | [] => None
  | _ => if under_prefix cleaned prefixes then Some cleaned else None
  end.

Record uploadRequest := mkUploadRequest {
  ur_ObjectKey : string;
  ur_ContentType : string;
  ur_ExpiresIn : Z;
}.
Definition upload_decoders : decoders uploadRequest :=
  [("object_key", dec_string (λ u x, mkUploadRequest x (ur_ContentType u) (ur_ExpiresIn u)));
   ("content_type", dec_string (λ u x, mkUploadRequest (ur_ObjectKey u) x (ur_ExpiresIn u)));
   ("expires_in_seconds", dec_int64 (λ u x, mkUploadRequest (ur_ObjectKey u) (ur_ContentType u) x))].
Definition decode_upload (r : Request) : result uploadRequest :=
  Decode true (body_allowance r 32768) upload_decoders (mkUploadRequest "" "" 0) (r_Body r).

Definition item_json (i : ManagedItem) : json := JObj [("id", JStr (it_ID i)); ("name", JStr (it_Name i))].
(** capability.PresignedOperation has no tags; a nil map of headers is null. *)
Definition operation_json (op : PresignedOperation) : json :=
  JObj [("URL", JStr (op_URL op)); ("Method", JStr (op_Method op)); ("ExpiresAt", JTime (op_ExpiresAt op));
        ("Headers", match op_Headers op with [] => JNull | h => headers_json h end)].

Section handler.
Context `{Env} (h : AppHandler).

Definition emit (r : Request) (action target resourceID outcome : string) (status : Z)
    (attrs : gmap string string) : M unit :=
  match ah_Audit h with
  | None => ret tt
  | Some sink =>
      do e := NewEvent action target outcome in
      let e := match AuthenticatedSession (r_Context r) with
               | Some s => with_actor (ses_Subject s) (ses_Username s) e
               | None => e
               end in
      let e := EnrichAuditEvent r (with_status status (with_resource resourceID e)) in
      do _ := sink (with_attributes (λ _, attrs) e) in
      ret tt
  end.

Definition getManagedItem (domain : DomainAPI) : Handler := λ r rw,
  let id := TrimSpace (path_value r "id") in
  if bool_decide (id = "") || Contains id "/" then
    do _ := emit r "managed-item.read" "managed-item" id "deny" StatusBadRequest {["reason" := "invalid_id"]} in
    ret (writeError StatusBadRequest "invalid_id" rw)
  else
  match sessionID r with
  | None => ret (writeError StatusUnauthorized "unauthorized" rw)
  | Some sid =>
      do item := domain sid id in
      match item with
      | Err err =>
          do _ := emit r "managed-item.read" "managed-item" id "failure" (outboundHTTPStatus err) ∅ in
          ret (writeOutboundError err rw)
      | Ok item =>
          do _ := emit r "managed-item.read" "managed-item" id "success" StatusOK ∅ in
          ret (writeJSON StatusOK (item_json item) rw)
      end
  end.

(** The life time that is asked for and the longest one allowed. *)
Definition upload_ttl (inp : uploadRequest) : Duration :=
  let ttl := int64_wrap (ur_ExpiresIn inp * Second) in
  if ttl <=? 0 then 5 * Minute else ttl.
Definition max_presign : Duration := if ah_MaxPresignTTL h <=? 0 then 15 * Minute else ah_MaxPresignTTL h.

Definition presignUpload (storage : StorageSigner) : Handler := λ r rw,
  match decode_upload r with
  | Err _ =>
      do _ := emit r "storage.presign_put" "object" "" "deny" StatusBadRequest {["reason" := "invalid_request"]} in
      ret (writeError StatusBadRequest "invalid_request" rw)
  | Ok inp =>
      let key := validateObjectKey (ur_ObjectKey inp) (ah_UploadPrefixes h) in
      match (if bool_decide (TrimSpace (ah_UploadBucket h) = "") then None else key) with
      | None =>
          do _ := emit r "storage.presign_put" "object" "" "deny" StatusBadRequest
                    {["reason" := "invalid_object_key"]} in
          ret (writeError StatusBadRequest "invalid_object_key" rw)
      | Some key =>
          let ttl := upload_ttl inp in
          if max_presign <? ttl then
            do _ := emit r "storage.presign_put" "object" key "deny" StatusBadRequest
                      {["reason" := "expiry_too_long"]} in
            ret (writeError StatusBadRequest "expiry_too_long" rw)
          else
          do op := oracle (λ i, PresignPut storage i
                     (mkPresigned (ah_UploadBucket h) key (TrimSpace (ur_ContentType inp)) ttl)) in
          match op with
          | Err err =>
              do _ := emit r "storage.presign_put" "object" key "failure" (outboundHTTPStatus err) ∅ in
              ret (writeOutboundError err rw)
          | Ok op =>
              do _ := emit r "storage.presign_put" "object" key "success" StatusOK
                        {["bucket" := ah_UploadBucket h; "object_key" := key]} in
              ret (writeJSON StatusOK (operation_json op) (set_header "Cache-Control" "no-store" rw))
          end
      end
  end.

Definition managed_item_pattern : string := "GET /api/managed-items/{id}".
Definition upload_url_pattern : string := "POST /api/storage/upload-url".

(** The routes that [Register] adds to the mux. *)
Definition Register : list (string * Handler) :=
  match ah_Domain h with
  | Some domain =>
      [(managed_item_pattern, RequirePermissionWithAudit "managed-item.read"
          (ah_Sessions h) (ah_Policy h) (ah_Audit h) (ah_Metrics h) (getManagedItem domain))]
  | None => []
  end ++
  match ah_Storage h with
  | Some storage =>
      [(upload_url_pattern, RequirePermissionWithAudit "storage.upload"
          (ah_Sessions h) (ah_Policy h) (ah_Audit h) (ah_Metrics h) (presignUpload storage))]
  | None => []
  end.
End handler.

(** ** internal/domainapi: client.go and adapter.go *)
Definition item_decoders : decoders ManagedItem :=
  [("id", dec_string (λ i x, mkItem x (it_Name i))); ("name", dec_string (λ i x, mkItem (it_ID i) x))].

(** [Client.GetManagedItem] and the adapter's *)
Definition GetManagedItem (HTTP : JSONDoer) : DomainAPI := λ sid id,
  try out := HTTP ManagedItem sid "GET" ("/api/managed-items/" +:+ id) (Ok "")
               (Some (Unmarshal item_decoders (mkItem "" ""))) in
  ret (Ok (default (mkItem "" "") out)).

(** ** Object keys *)

(** What [path.Clean] keeps of a relative path: segments without "/" that are
    neither empty nor ".", the ".." ones in front. *)
Definition kept (stack : list string) : Prop :=
  Forall (λ s, s ≠ "" ∧ s ≠ "." ∧ "/"%char ∉ bytes s) stack ∧
  ∀ l k, stack = l ++ ".." :: k → Forall (.= "..") k.

Lemma clean_push_kept stack seg : "/"%char ∉ bytes seg → kept stack → kept (clean_push false stack seg).
Proof.
  intros Hs [Hall Hdots]. unfold clean_push. case_bool_decide as Hdot; [done|].
  assert (seg ≠ "" ∧ seg ≠ "." ∧ "/"%char ∉ bytes seg) as Hseg by naive_solver.
  case_bool_decide as Hdd.
  - rewrite Hdd in Hseg. destruct stack as [|top rest].
    + split; [apply list.Forall_singleton; exact Hseg|]. intros l k Hl. destruct l as [|x l]; simplify_eq/=; [done|].
      by destruct l.
    + apply list.Forall_cons in Hall as [Htop Hrest]. case_bool_decide as Ht; subst.
      * split; [by repeat apply list.Forall_cons_2|]. intros [|x l] k Hk; simplify_eq/=.
        -- constructor; [done|]. by apply (Hdots []).
        -- by apply (Hdots l).
      * split; [done|]. intros l k ->. by apply (Hdots (top :: l)).
  - split; [by apply list.Forall_cons_2|].
    intros [|x l] k Hk; simplify_eq/=. by apply (Hdots l).
Qed.

Lemma clean_fold_kept segs stack :
  Forall (λ s, "/"%char ∉ bytes s) segs → kept stack → kept (fold_left (clean_push false) segs stack).
Proof.
  intros Hs. revert stack. induction Hs as [|s segs Hs _ IH]; intros stack Hk; [done|].
  apply IH. by apply clean_push_kept.
Qed.

Lemma Split_no_sep s sep : Forall (λ seg, sep ∉ bytes seg) (Split s sep).
Proof.
  apply list.Forall_forall. intros seg Hseg. unfold Split in Hseg.
  apply list_elem_of_fmap in Hseg as (w & -> & Hw). rewrite bytes_of_bytes. by eapply split_bytes_no_sep.
Qed.

(** A relative path that [path.Clean] does not change and that does not lead
    upwards is one with proper segments only. *)
Lemma clean_fixed raw :
  raw ≠ "" → HasPrefix raw "/" = false →
  (path_Clean raw = raw ∧ raw ≠ "." ∧ raw ≠ ".." ∧ HasPrefix raw "../" = false) ↔
  Forall good_segment (Split raw "/").
Proof.
  intros Hne Hroot. split.
  - intros (Hclean & Hdot & Hdd & Hup). unfold path_Clean in Hclean.
    rewrite bool_decide_eq_false_2, Hroot in Hclean by done.
    destruct (clean_fold_kept (Split raw "/") [] (Split_no_sep _ _)) as [Hall Hdots].
    { split; [done|]. by intros []. }
    set (stack := fold_left _ _ _) in *. case_bool_decide as Hb; [congruence|].
    assert (Split raw "/" = rev stack) as Hsplit.
    { rewrite <-Hclean at 1. apply Split_Join; [by intros Hr; rewrite Hr in Hb|].
      apply Forall_rev. eapply list.Forall_impl; [exact Hall|]. naive_solver. }
    rewrite Hsplit. apply Forall_rev. apply list.Forall_forall. intros s Hs.
    rewrite list.Forall_forall in Hall. destruct (Hall s Hs) as (? & ? & ?). repeat split; [done..| |done].
    intros ->. apply list_elem_of_split in Hs as (l & k & Hstack).
    pose proof (Hdots l k Hstack) as Hk. rewrite Hstack, rev_app_distr in Hclean. simpl in Hclean.
    assert (∃ rest, rev k ++ [".."] = ".." :: rest) as [rest Hrest].
    { destruct (rev k) as [|x k'] eqn:Hrk; [by exists []|]. apply Forall_rev in Hk. rewrite Hrk in Hk.
      apply list.Forall_cons in Hk as [-> _]. by eexists. }
    rewrite Hrest in Hclean. cbn [app] in Hclean. destruct (rest ++ rev l) as [|y more].
    + by apply Hdd.
    + assert (HasPrefix raw "../" = true); [|congruence]. rewrite <-Hclean.
      apply HasPrefix_spec. by exists (Join (y :: more) "/").
  - intros Hg. assert (Forall (λ s, s ≠ "." ∧ s ≠ "..") (Split raw "/")) as Hd
      by (eapply list.Forall_impl; [exact Hg|]; unfold good_segment; naive_solver).
    assert (filter (.≠ "") (Split raw "/") = Split raw "/") as Hf.
    { clear -Hg. induction Hg as [|s l Hs _ IH]; [done|]. rewrite filter_cons_True by apply Hs. by rewrite IH. }
    assert (path_Clean raw = raw) as Hclean.
    { unfold path_Clean. rewrite bool_decide_eq_false_2, Hroot by done.
      rewrite clean_fold, Hf, app_nil_r, rev_involutive by done.
      rewrite (Join_Split raw "/"). by rewrite bool_decide_eq_false_2. }
    split; [done|]. split; [|split].
    + intros ->. apply list.Forall_cons in Hg as [Hg _]. by destruct Hg as (_ & ? & _).
    + intros ->. apply list.Forall_cons in Hg as [Hg _]. by destruct Hg as (_ & _ & ? & _).
    + destruct (HasPrefix raw "../") eqn:Hp; [|done]. apply HasPrefix_spec in Hp as [t ->].
      change ("../" +:+ t) with (".." +:+ String "/" t) in Hg. rewrite Split_app in Hg.
      apply list.Forall_cons in Hg as [Hg _]. by destruct Hg as (_ & _ & ? & _).
Qed.

Lemma under_prefix_spec key prefixes :
  under_prefix key prefixes = true ↔
  ∃ p, p ∈ prefixes ∧ Trim (TrimSpace p) "/" ≠ "" ∧
    (key = Trim (TrimSpace p) "/" ∨ ∃ rest, key = Trim (TrimSpace p) "/" +:+ "/" +:+ rest).
Proof.
  assert (∀ p, (negb (bool_decide (p = "")) && (bool_decide (key = p) || HasPrefix key (p +:+ "/"))) = true ↔
    p ≠ "" ∧ (key = p ∨ ∃ rest, key = p +:+ "/" +:+ rest)) as Hone.
  { intros p. rewrite andb_true_iff, orb_true_iff, negb_true_iff, bool_decide_eq_false, bool_decide_eq_true.
    rewrite HasPrefix_spec.
    assert (∀ rest, (p +:+ "/") +:+ rest = p +:+ "/" +:+ rest) as Ha
      by (intros rest; apply bytes_inj; by rewrite !bytes_app, <-app_assoc).
    setoid_rewrite Ha. done. }
  induction prefixes as [|p ps IH]; cbn [under_prefix].
  { split; [done|]. by intros (p & Hp%not_elem_of_nil & _). }
  specialize (Hone (Trim (TrimSpace p) "/")). destruct (_ && _).
  - split; [intros _|done]. exists p. split; [by left|]. by apply Hone.
  - rewrite IH. split.
    + intros (q & Hq & HP). exists q. split; [by right|done].
    + intros (q & [->|Hq]%elem_of_cons & HP); [|eauto]. by apply Hone in HP.
Qed.

(** The keys that may be uploaded to. *)
Definition key_allowed (prefixes : list string) (key : string) : Prop :=
  Forall good_segment (Split key "/") ∧ Contains key "\" = false ∧
  ∃ p, p ∈ prefixes ∧ Trim (TrimSpace p) "/" ≠ "" ∧
    (key = Trim (TrimSpace p) "/" ∨ ∃ rest, key = Trim (TrimSpace p) "/" +:+ "/" +:+ rest).

Lemma good_relative key : Forall good_segment (Split key "/") → key ≠ "" ∧ HasPrefix key "/" = false.
Proof.
  intros Hg. split.
  - intros ->. apply list.Forall_cons in Hg as [(? & _) _]. done.
  - destruct (HasPrefix key "/") eqn:Hp; [|done]. apply HasPrefix_spec in Hp as [t ->].
    change ("/" +:+ t) with ("" +:+ String "/" t) in Hg. rewrite Split_app in Hg.
    apply list.Forall_cons in Hg as [(? & _) _]. done.
Qed.

Lemma validateObjectKey_spec raw prefixes key :
  validateObjectKey raw prefixes = Some key ↔ key = TrimSpace raw ∧ key_allowed prefixes key.
Proof.
  unfold validateObjectKey, key_allowed. set (k := TrimSpace raw). rewrite <-under_prefix_spec. split.
  - destruct (_ || Contains k _) eqn:H1; [done|]. bool_inv.
    destruct (_ || negb _) eqn:H2; [done|]. bool_inv.
    destruct prefixes as [|p ps]; [done|]. destruct (under_prefix _ _) eqn:Hu; [|done]. intros [= <-].
    assert (path_Clean k = k) as Hc by done. rewrite Hc in *. split; [done|]. split; [|done].
    apply clean_fixed; [done|done|]. done.
  - intros [-> (Hg & Hb & Hu)]. destruct (good_relative k Hg) as [Hne Hr].
    destruct (clean_fixed k Hne Hr) as [_ Hfix]. destruct (Hfix Hg) as (Hc & H1 & H2 & H3).
    rewrite bool_decide_eq_false_2, Hr, Hb by done. cbn [orb]. rewrite Hc, H3.
    rewrite !bool_decide_eq_false_2, bool_decide_eq_true_2 by done. cbn [orb negb].
    destruct prefixes; [done|]. by rewrite Hu.
Qed.

(** ** Properties *)
Section properties.
Context `{Env} (h : AppHandler).

Lemma outboundHTTPStatus_error err : 400 ≤ outboundHTTPStatus err.
Proof. unfold outboundHTTPStatus. destruct (errors_As err) as [[[[] ?] ?]|]; done. Qed.

Lemma emit_audit r action target id outcome st attrs w u w' :
  ah_Audit h = Some MemorySink → emit h r action target id outcome st attrs w = (u, w') →
  ∃ e, w_audit w' = w_audit w ++ [e] ∧ ev_Action e = action ∧ ev_ResourceID e = id ∧ ev_Outcome e = outcome ∧
    ev_HTTPStatus e = st ∧ ev_Attributes e = attrs.
Proof.
  intros Ha. unfold emit, NewEvent, rand_or_zero. rewrite Ha. unfold MemorySink. intros He. m_inv.
  eexists. split; [reflexivity|]. by destruct (AuthenticatedSession (r_Context r)).
Qed.

Lemma upload_ttl_pos inp : 0 < upload_ttl inp.
Proof. unfold upload_ttl. destruct (Z.leb_spec (int64_wrap (ur_ExpiresIn inp * Second)) 0); [done|lia]. Qed.

(** A refusal with its audit event. *)
Definition refused_with_event (action : string) (w : World) (run : RW * World) : Prop :=
  ∃ e, w_audit run.2 = w_audit w ++ [e] ∧ ev_Action e = action ∧ ev_Outcome e ≠ "success" ∧
    rw_status run.1 = Some (ev_HTTPStatus e) ∧ 400 ≤ ev_HTTPStatus e ∧
    ∃ code, rw_body run.1 = [BJson (error_code code)].

Lemma refuse_run r action target id outcome st attrs code rw w0 w run :
  bind (emit h r action target id outcome st attrs) (λ _, ret (writeError st code rw)) w0 = run →
  ah_Audit h = Some MemorySink → rw_log rw = [] → w_audit w0 = w_audit w → outcome ≠ "success" → 400 ≤ st →
  refused_with_event action w run.
Proof.
  intros (u & w1 & He & <-)%bind_inv Ha Hlog Hw Ho Hst.
  apply emit_audit in He as (e & Hau & Hact & _ & Hout & Hs & _); [|done].
  exists e. cbn [fst snd ret]. rewrite Hau, Hw, Hout, Hs. do 3 (split; [done|]).
  split; [by apply writeJSON_status|]. split; [done|]. exists code. unfold rw_body, writeError.
  by rewrite writeJSON_log, Hlog.
Qed.

(** An answer of at least 400. *)
Definition error_status (rw : RW) : Prop := ∃ st, rw_status rw = Some st ∧ 400 ≤ st.

(** Keeps the kernel from evaluating the limit of the body. *)
#[local] Opaque decode_upload.

(** C28: an upload URL is confined.  A request for one is answered with an
    operation only if the body decodes strictly, the object key has no empty, "."
    or ".." segment and no backslash and lies under one of the configured
    prefixes, the bucket is configured, and the life time is positive and within
    the maximum; the operation is then what the signer returned for exactly that
    bucket, key and life time.  Anything else is answered with an error code only,
    with a status of at least 400.
    Either way one audit event records the outcome and the status, for a grant
    with bucket and key. *)
Theorem upload_url_confined (storage : StorageSigner) r rw w :
  ah_Audit h = Some MemorySink → rw_log rw = [] →
  let run := presignUpload h storage r rw w in
  refused_with_event "storage.presign_put" w run ∨
  ∃ e inp key op, w_audit run.2 = w_audit w ++ [e] ∧ ev_Action e = "storage.presign_put" ∧
    ev_Outcome e = "success" ∧ ev_ResourceID e = key ∧
    ev_Attributes e = {["bucket" := ah_UploadBucket h; "object_key" := key]} ∧
    decode_upload r = Ok inp ∧ key = TrimSpace (ur_ObjectKey inp) ∧
    key_allowed (ah_UploadPrefixes h) key ∧ TrimSpace (ah_UploadBucket h) ≠ "" ∧
    0 < upload_ttl inp ≤ max_presign h ∧
    PresignPut storage (w_tick w) (mkPresigned (ah_UploadBucket h) key (TrimSpace (ur_ContentType inp))
      (upload_ttl inp)) = Ok op ∧
    rw_status run.1 = Some StatusOK ∧ rw_body run.1 = [BJson (operation_json op)].
Proof.
  intros Ha Hlog run. subst run.
  destruct (presignUpload h storage r rw w) as [rw' w'] eqn:Hrun. unfold presignUpload in Hrun.
  destruct (decode_upload r) as [inp|e]; [|left; by eapply refuse_run].
  destruct (bool_decide (TrimSpace (ah_UploadBucket h) = "")) eqn:Hb; [left; by eapply refuse_run|].
  apply bool_decide_eq_false in Hb.
  destruct (validateObjectKey _ _) as [key|] eqn:Hk; [|left; by eapply refuse_run].
  apply validateObjectKey_spec in Hk as [Hkey Hallowed].
  destruct (Z.ltb_spec (max_presign h) (upload_ttl inp)) as [|Hmax]; [left; by eapply refuse_run|].
  apply bind_inv in Hrun as ([op|err] & w1 & Hp & Hrun).
  2: { left. injection Hp as _ <-. by eapply refuse_run; [exact Hrun|..|apply outboundHTTPStatus_error]. }
  right. injection Hp as Hop <-. apply bind_inv in Hrun as (u & w2 & He & [= <- <-]).
  apply emit_audit in He as (e & Hau & Hact & Hid & Hout & Hs & Hattr); [|done].
  exists e, inp, key, op. cbn [fst snd]. do 9 (split; [done|]). split.
  { split; [apply upload_ttl_pos|done]. }
  split; [done|]. split; [by apply writeJSON_status|].
  unfold rw_body. by rewrite writeJSON_log; cbn [rw_log set_header]; rewrite Hlog.
Qed.

#[local] Transparent decode_upload.

(** A managed item is read for the user who was authorised.  The registered
    route answers with an item only if the request's session cookie names a
    session in the store, the policy allows that session's subject
    "managed-item.read", and the domain service, asked with this very session id
    and a non-empty item id without "/", returned that item; otherwise the answer
    is an error of at least 400. *)
Theorem managed_item_session_bound (domain : DomainAPI) (route : Handler) r rw w :
  ah_Domain h = Some domain → (managed_item_pattern, route) ∈ Register h → rw_log rw = [] →
  error_status (route r rw w).1 ∨
  ∃ sid s ev wa wb w1 w2 item,
    cookie_get r "__Host-bff_session" = Some sid ∧ sid ≠ "" ∧ ss_Get (ah_Sessions h) sid w = (Ok s, wa) ∧
    ah_Policy h = Some ev ∧
    ev_Allowed ev (mkSubject (ses_Subject s) (ses_Roles s)) "managed-item.read" wa = (Ok true, wb) ∧
    TrimSpace (path_value r "id") ≠ "" ∧ Contains (TrimSpace (path_value r "id")) "/" = false ∧
    domain sid (TrimSpace (path_value r "id")) w1 = (Ok item, w2) ∧
    rw_status (route r rw w).1 = Some StatusOK ∧ rw_body (route r rw w).1 = [BJson (item_json item)].
Proof.
  intros Hd Hin Hlog. unfold Register in Hin. rewrite Hd in Hin.
  assert (route = RequirePermissionWithAudit "managed-item.read" (ah_Sessions h) (ah_Policy h) (ah_Audit h)
    (ah_Metrics h) (getManagedItem h domain)) as ->.
  { apply elem_of_app in Hin as [Hin|Hin]; [by apply list_elem_of_singleton in Hin; injection Hin|].
    destruct (ah_Storage h); [apply list_elem_of_singleton in Hin; discriminate Hin|by apply not_elem_of_nil in Hin]. }
  unfold RequirePermissionWithAudit.
  destruct (permission_cases "managed-item.read" "__Host-bff_session" (ah_Sessions h) (ah_Policy h) (ah_Audit h)
    (ah_Metrics h) (getManagedItem h domain) r rw w)
    as [(sid & s & ev & wa & wb & w1 & Hck & Hne & Hget & Hev & Hall & Hrun)|(text & st & w1 & Hst & Hrun)].
  2: { left. rewrite Hrun. exists st. split; [by apply http_Error_status|]. unfold denied_statuses in Hst. set_unfold. unfold StatusUnauthorized, StatusForbidden, StatusServiceUnavailable in Hst. lia. }
  rewrite Hrun. clear Hrun.
  destruct (getManagedItem h domain (with_session r s) rw w1) as [rw' w'] eqn:Hrun. unfold getManagedItem in Hrun.
  change (path_value (with_session r s) "id") with (path_value r "id") in Hrun.
  assert (AppAPI.sessionID (with_session r s) = Some sid) as Hsid.
  { unfold sessionID. change (cookie_get (with_session r s) "__Host-bff_session") with (cookie_get r "__Host-bff_session").
    by rewrite Hck, bool_decide_eq_false_2. }
  destruct (_ || Contains _ "/") eqn:Hid.
  { left. apply bind_inv in Hrun as (u & w2 & _ & [= <- _]). exists StatusBadRequest. split; [by apply writeJSON_status|done]. }
  apply orb_false_iff in Hid as [Hid1 Hid2]. bool_inv. rewrite Hsid in Hrun.
  apply bind_inv in Hrun as ([item|err] & w2 & Hdom & Hrun).
  - right. apply bind_inv in Hrun as (u & w3 & _ & [= <- _]).
    exists sid, s, ev, wa, wb, w1, w2, item. do 8 (split; [done|]). cbn [fst].
    split; [by apply writeJSON_status|]. unfold rw_body. by rewrite writeJSON_log, Hlog.
  - left. apply bind_inv in Hrun as (u & w3 & _ & [= <- _]).
    exists (outboundHTTPStatus err). split; [by apply writeJSON_status|]. apply outboundHTTPStatus_error.
Qed.
End properties.

(** ** Witnesses *)
Section witnesses.
#[local] Instance sample_api_env : Env := sample_env.

Definition sample_item_policy : StaticPolicy.Static :=
  StaticPolicy.mkStatic {["user" := ["managed-item.read"]]} ∅.
Definition sample_domain : DomainAPI := λ sid id,
  ret (if bool_decide (sid = "sid") then Ok (mkItem id "Item") else Err (ErrOutbound ErrForbidden 403 "")).
Definition sample_api : AppHandler :=
  mkAppHandler MemorySession.store (Some (StaticPolicy.evaluator sample_item_policy)) (Some sample_domain)
    (Some sample_signer) (Some MemorySink) true "uploads" [" /incoming/ "] (10 * Minute).
Definition item_request : Request :=
  mkRequest "GET" (path_url "/api/managed-items/ 7 ") "10.0.0.1:1" [] [("__Host-bff_session", "sid")]
    [("id", " 7 ")] "" [] background.
Definition upload_url_request : Request :=
  mkRequest "POST" (path_url "/api/storage/upload-url") "10.0.0.1:1" [] [] []
    (quoted "{'object_key': 'incoming/a.txt', 'expires_in_seconds': 60}") [] background.

Lemma upload_url_confined_witness :
  let run := presignUpload sample_api sample_signer upload_url_request fresh_rw empty_world in
  rw_status run.1 = Some 200 ∧
  (refused_with_event "storage.presign_put" empty_world run ∨
   ∃ e inp key op, w_audit run.2 = w_audit empty_world ++ [e] ∧ ev_Action e = "storage.presign_put" ∧
    ev_Outcome e = "success" ∧ ev_ResourceID e = key ∧
    ev_Attributes e = {["bucket" := "uploads"; "object_key" := key]} ∧
    decode_upload upload_url_request = Ok inp ∧ key = TrimSpace (ur_ObjectKey inp) ∧
    key_allowed [" /incoming/ "] key ∧ TrimSpace "uploads" ≠ "" ∧
    0 < upload_ttl inp ≤ max_presign sample_api ∧
    PresignPut sample_signer 0 (mkPresigned "uploads" key (TrimSpace (ur_ContentType inp)) (upload_ttl inp)) = Ok op ∧
    rw_status run.1 = Some StatusOK ∧ rw_body run.1 = [BJson (operation_json op)]).
Proof.
  split; [run|]. apply (upload_url_confined sample_api sample_signer upload_url_request fresh_rw empty_world); reflexivity.
Defined.

Lemma managed_item_session_bound_witness :
  let route := RequirePermissionWithAudit "managed-item.read" (ah_Sessions sample_api) (ah_Policy sample_api)
                 (ah_Audit sample_api) (ah_Metrics sample_api) (getManagedItem sample_api sample_domain) in
  rw_status (route item_request fresh_rw sample_world).1 = Some 200 ∧
  (error_status (route item_request fresh_rw sample_world).1 ∨
   ∃ sid s ev wa wb w1 w2 item,
    cookie_get item_request "__Host-bff_session" = Some sid ∧ sid ≠ "" ∧
    ss_Get MemorySession.store sid sample_world = (Ok s, wa) ∧
    Some (StaticPolicy.evaluator sample_item_policy) = Some ev ∧
    ev_Allowed ev (mkSubject (ses_Subject s) (ses_Roles s)) "managed-item.read" wa = (Ok true, wb) ∧
    TrimSpace (path_value item_request "id") ≠ "" ∧ Contains (TrimSpace (path_value item_request "id")) "/" = false ∧
    sample_domain sid (TrimSpace (path_value item_request "id")) w1 = (Ok item, w2) ∧
    rw_status (route item_request fresh_rw sample_world).1 = Some StatusOK ∧
    rw_body (route item_request fresh_rw sample_world).1 = [BJson (item_json item)]).
Proof.
  split; [run|].
  apply (managed_item_session_bound sample_api sample_domain _ item_request fresh_rw sample_world).
  - reflexivity.
  - apply elem_of_cons. left. reflexivity.
  - reflexivity.
Defined.

(** The id ".." passes the check for "/", and the domain service is asked for the
    parent of the collection. *)
Example dotdot_item_id_accepted :
  let r := mkRequest "GET" (path_url "/api/managed-items/..") "10.0.0.1:1" [] [("__Host-bff_session", "sid")]
             [("id", "..")] "" [] background in
  let HTTP : JSONDoer := λ T sid method path body out,
    do _ := modify (add_refresh path) in ret (Ok None) in
  let run := getManagedItem sample_api (GetManagedItem HTTP) r fresh_rw empty_world in
  rw_status run.1 = Some 200 ∧ w_refreshes run.2 = ["/api/managed-items/.."].
Proof. by vm_compute. Qed.
End witnesses.
