(* ===== verification/App.v ===== *)
(** * Starting the storage role: internal/app/app.go

    [RunWith] up to the start of the role runtime: the outbound clients, the
    remote signers, the workload verifier and the access policy are built from
    the loaded configuration and handed to StorageRole.v.  The network behind a
    client is the class [Network], the discovery of an identity provider an
    argument.  The last part shows that a configuration accepted by [LoadConfig]
    gives a runtime in which nothing that guards the storage routes is missing;
    Program.v says it of the start of the process. *)

From S2P Require Import Prelude GoStrings GoURL RuntimeCfg World GoJSON GoTime GoNumbers StorageContract StorageRole.
From S2P Require Import AppConfig Outbound Signer.
Import RuntimeCfg AppConfig.
Open Scope Z_scope.

(** ** outbound.New *)
Record OutboundClient := mkOutbound {
  oc_BaseURL : URL;
  oc_Timeout : Duration;
  oc_Client : Client.Client;
}.

(** The services behind the base URLs. *)
Class Network := { reach : URL → Duration → Upstream }.

(** [NewProvider] of go-oidc and the claims of a token it verified. *)
Class Discovery := {
  oidc_token : Type;
  new_provider : string → result (string → nat → string → result oidc_token);
  token_claims : oidc_token → result claims;
}.

Section app.
Context `{UnicodeCase} `{IPLiteral} `{Zone} `{Network} `{Discovery} `{RangeOrder}.

Definition New (baseURL : string) (timeout : Duration) : result OutboundClient :=
  match Parse (TrimRight baseURL "/") with
  | Err _ => Err (errorf "outbound base URL must be absolute")
  | Ok u =>
      reject bool_decide (u_Scheme u = "") || bool_decide (u_Host u = "")
        with errorf "outbound base URL must be absolute";;
      let timeout := if timeout <=? 0 then 5 * Second else timeout in
      Ok (mkOutbound u timeout (Client.mkClient (u_Path u) None 1 (50 * Millisecond) (2 ^ 20)))
  end.

Definition remote_signer (c : OutboundClient) : StorageSigner :=
  as_signer (mkRemoteSigner (Some (oc_Client c, reach (oc_BaseURL c) (oc_Timeout c))) None).
Definition remote_policy (c : OutboundClient) : AccessEvaluator :=
  as_evaluator (oc_Client c) (reach (oc_BaseURL c) (oc_Timeout c)).

(** ** workloadauth.NewOIDC *)
Definition NewOIDC (issuer audience : string) : result Verifier :=
  let issuer := TrimSpace issuer in
  let audience := TrimSpace audience in
  reject bool_decide (issuer = "") || bool_decide (audience = "")
    with errorf "workload oidc issuer and audience are required";;
  match new_provider (TrimRight issuer "/") with
  | Err e => Err (ErrWrap "workload oidc discovery" e)
  | Ok provider => Ok (OIDC_Verify (provider audience) token_claims)
  end.

(** ** RunWith, the storage role *)

(** [for name, providerCfg := range cfg.Storage.Providers] *)
Fixpoint build_providers (cfg : StorageRoleConfig) (out : ProviderRegistry) (names : list string)
    : result ProviderRegistry :=
  match names with
  | [] => Ok out
  | name :: names =>
      match Providers cfg !! name with
      | None => build_providers cfg out names
      | Some providerCfg =>
          let? client := wrap "initialize storage provider %q signer client"
                           (New (pc_SignerBaseURL providerCfg) (SignerTimeout cfg)) in
          build_providers cfg (<[name := Some (remote_signer client)]> out) names
      end
  end.

(** [if cond { v, err := ...; if err != nil { return err } }] *)
Definition when {A} (cond : bool) (r : result A) : result (option A) :=
  if cond then let? a := r in Ok (Some a) else Ok None.

(** The configuration passed to [roleruntime.Run]. *)
Definition role_config (cfg : Config) : result StorageRole.Config :=
  let storage := HasRole (Runtime cfg) RoleStorage in
  let st := Storage cfg in
  let? storageSigner :=
    when (storage && negb (bool_decide (SignerBaseURL st = "")))
      (let? client := wrap "initialize storage signer client" (New (SignerBaseURL st) (SignerTimeout st)) in
       Ok (remote_signer client)) in
  let? storageProviders :=
    if storage then build_providers st ∅ (range_keys (Providers st)) else Ok ∅ in
  let? storageWorkloadVerifier :=
    when (storage && bool_decide (wa_Mode (WorkloadAuth st) = "oidc"))
      (wrap "initialize storage workload verifier"
         (NewOIDC (wa_Issuer (WorkloadAuth st)) (wa_Audience (WorkloadAuth st)))) in
  let? storageAccessPolicy :=
    when (storage && negb (bool_decide (AccessPolicyURL st = "")))
      (let? client := wrap "initialize storage access policy client"
                        (New (AccessPolicyURL st) (AccessPolicyTimeout st)) in
       Ok (remote_policy client)) in
  Ok (StorageRole.mkConfig (NormalizedBasePath (HTTP cfg)) (Runtime cfg) storageSigner storageProviders
        (DefaultTTL st) (MaxTTL st) (Targets st) storageAccessPolicy (SubjectHeader st)
        storageWorkloadVerifier (wa_Required (WorkloadAuth st))).

(** ** Lemmas *)

Lemma New_absolute base timeout : absolute_url base → ∃ c, New base timeout = Ok c.
Proof.
  intros (u & Hu & Hs & Hh). destruct (Parse_TrimRight _ _ Hu Hs Hh) as (w & Hw & Hws & _ & Hwh).
  unfold New. rewrite Hw. rewrite !bool_decide_eq_false_2 by congruence. by eexists.
Qed.

(** The providers of a loaded configuration have trimmed names and addresses. *)
Definition trimmed_provider (name : string) (p : StorageProviderConfig) : Prop :=
  TrimSpace name = name ∧ TrimSpace (pc_SignerBaseURL p) = pc_SignerBaseURL p.

Lemma normalize_provider_trimmed out name out' (todo : list string) :
  (∀ k p, out !! k = Some p → k = name ∨ k ∈ todo ∨ trimmed_provider k p) →
  normalize_provider out name = Ok out' →
  ∀ k p, out' !! k = Some p → k ∈ todo ∨ trimmed_provider k p.
Proof.
  intros Hinv. unfold normalize_provider. destruct (out !! name) as [pr|] eqn:Hn.
  - intros Hk. apply reject_if_ok in Hk as [_ Hk]. apply reject_if_ok in Hk as [_ Hk]. simpl in Hk.
    assert (∀ k m p, (∀ j, m !! j = if decide (j = name) then None else out !! j) ∨
        (m = out ∧ TrimSpace name = name) →
      <[TrimSpace name := mkProvider (TrimSpace (pc_SignerBaseURL pr))]> m !! k = Some p →
      k ∈ todo ∨ trimmed_provider k p) as Hins.
    { intros k m p Hm [(<- & <-)|(Hne & Hm')]%lookup_insert_Some.
      - right. split; simpl; apply TrimSpace_idemp.
      - destruct Hm as [Hm|[-> Ht]].
        + rewrite Hm in Hm'. case_decide; [done|]. destruct (Hinv k p Hm') as [?|?]; [done|done].
        + destruct (Hinv k p Hm') as [->|?]; [by rewrite Ht in Hne|done]. }
    destruct (negb _) eqn:Hd; bool_inv; injection Hk as <-; intros k p.
    + apply Hins. left. intros j. case_decide as Hj; [subst j; apply lookup_delete_eq|].
      by rewrite lookup_delete_ne by congruence.
    + intros Hp. apply (Hins k out p); [by right|]. by rewrite Hd.
  - intros [= <-] k p Hp. destruct (Hinv k p Hp) as [->|?]; [congruence|done].
Qed.

Lemma normalize_providers_trimmed names out out' :
  (∀ k p, out !! k = Some p → k ∈ names ∨ trimmed_provider k p) →
  normalize_providers out names = Ok out' →
  ∀ k p, out' !! k = Some p → trimmed_provider k p.
Proof.
  revert out; induction names as [|name names IH]; intros out Hinv; simpl.
  - intros [= <-] k p Hp. by destruct (Hinv k p Hp) as [?%elem_of_nil|?].
  - intros (out1 & Hn & Hrest)%result_bind_ok. eapply IH; [|done].
    eapply normalize_provider_trimmed; [|done]. set_solver.
Qed.

Lemma build_providers_ok st names out :
  (∀ k p, Providers st !! k = Some p → absolute_url (pc_SignerBaseURL p)) →
  ∃ out', build_providers st out names = Ok out' ∧
    ∀ k, (k ∈ names ∧ is_Some (Providers st !! k) → ∃ c, out' !! k = Some (Some (remote_signer c))) ∧
         (k ∉ names ∨ Providers st !! k = None → out' !! k = out !! k).
Proof.
  intros Habs. revert out; induction names as [|name names IH]; intros out; simpl.
  { eexists. split; [done|]. intros k. split; [by intros [?%elem_of_nil _]|done]. }
  destruct (Providers st !! name) as [p|] eqn:Hp.
  - destruct (New_absolute (pc_SignerBaseURL p) (SignerTimeout st)) as [c ->]; [by eapply Habs|]. simpl.
    destruct (IH (<[name := Some (remote_signer c)]> out)) as (out' & -> & Hout). exists out'. split; [done|].
    intros k. destruct (Hout k) as [Hin Hnot]. split.
    + intros [[->|Hk]%elem_of_cons Hs]; [|by apply Hin].
      destruct (decide (name ∈ names)) as [?|Hn]; [by apply Hin|].
      exists c. rewrite Hnot by by left. apply lookup_insert_eq.
    + intros Hk. rewrite Hnot by set_solver. apply lookup_insert_ne. intros ->. destruct Hk; [set_solver|congruence].
  - destruct (IH out) as (out' & -> & Hout). exists out'. split; [done|]. intros k. destruct (Hout k) as [Hin Hnot].
    split; [|intros Hk; apply Hnot; set_solver].
    intros [[->|Hk]%elem_of_cons Hs]; [by destruct Hs; congruence|by apply Hin].
Qed.
End app.

(** ** A loaded configuration *)
Section start.
Context `{UnicodeCase} `{IPLiteral} `{Zone} `{Network} `{Discovery} `{RangeOrder} `{FloatText}.

Lemma loaded_providers_trimmed env c :
  LoadConfig env = Ok c → ∀ k p, Providers (Storage c) !! k = Some p → trimmed_provider k p.
Proof.
  unfold LoadConfig. intros Hl. do 3 apply result_bind_ok in Hl as (? & _ & Hl).
  apply result_bind_ok in Hl as (st & Hst & Hl). do 3 apply result_bind_ok in Hl as (? & _ & Hl).
  apply result_bind_check in Hl as [_ [= <-]]. simpl. unfold load_storage in Hst.
  do 5 apply result_bind_ok in Hst as (? & _ & Hst). apply result_bind_ok in Hst as (prov & Hp & [= <-]). simpl.
  unfold parseStorageProviders in Hp. case_bool_decide; [by simplify_eq|].
  destruct (unmarshal_providers _) as [out|]; [|done].
  eapply normalize_providers_trimmed; [|done]. intros k p Hk. left. apply range_keys_spec. by eexists.
Qed.

(** What guards the storage routes is in place. *)
Record complete_role (c : Config) (cfg : StorageRole.Config) : Prop := {
  cr_policy : has_targets cfg = true → StorageAccessPolicy cfg ≠ None;
  cr_verifier : WorkloadAuthRequired cfg = true → WorkloadVerifier cfg ≠ None;
  cr_ttl : 0 < StorageDefaultTTL cfg ≤ StorageMaxTTL cfg;
  cr_signers : Providers (Storage c) ≠ ∅ ∨ SignerBaseURL (Storage c) ≠ "" →
    ∀ t, has_targets cfg = true → is_Some (StorageTargets cfg !! TrimSpace t) →
    ∃ signer, storageSignerForTarget cfg t = Some signer ∧
      as_Multipart signer ≠ None ∧ as_Metadata signer ≠ None;
}.

(** The identity provider of the workloads cannot be discovered, and [e] says so. *)
Definition discovery_failed (w : StorageWorkloadAuthConfig) (e : goerr) : Prop :=
  wa_Mode w = "oidc" ∧
  ∃ e', new_provider (TrimRight (TrimSpace (wa_Issuer w)) "/") = Err e' ∧
    e = ErrWrap "initialize storage workload verifier" (ErrWrap "workload oidc discovery" e').

Lemma NewOIDC_valid w :
  valid_workload_auth w → wa_Mode w = "oidc" →
  (∃ e, new_provider (TrimRight (TrimSpace (wa_Issuer w)) "/") = Err e ∧
        NewOIDC (wa_Issuer w) (wa_Audience w) = Err (ErrWrap "workload oidc discovery" e)) ∨
  ∃ v, NewOIDC (wa_Issuer w) (wa_Audience w) = Ok v.
Proof.
  intros [[[Hm|Hm] _]|(_ & Hi & Ha & _)] Hmode; [congruence..|]. unfold NewOIDC.
  rewrite !bool_decide_eq_false_2 by done. simpl. destruct (new_provider _); eauto.
Qed.

Lemma signer_resolves (c : Config) cfg out t target :
  valid_storage (Storage c) →
  (∀ k p, Providers (Storage c) !! k = Some p → trimmed_provider k p) →
  (∀ k, is_Some (Providers (Storage c) !! k) → ∃ oc, out !! k = Some (Some (remote_signer oc))) →
  StorageProviders cfg = out → StorageTargets cfg = Targets (Storage c) → Providers (Storage c) ≠ ∅ →
  StorageTargets cfg !! TrimSpace t = Some target →
  ∃ oc, storageSignerForTarget cfg t = Some (remote_signer oc).
Proof.
  intros Hv Htrim Hout <- Htg Hne Ht.
  destruct (vr_targets _ Hv Hne (TrimSpace t) target) as [p Hp]; [by rewrite <-Htg|].
  destruct (Hout (tg_Provider target)) as [oc Hoc]; [by eexists|]. exists oc.
  assert (has_targets cfg = true) as Hht.
  { unfold has_targets. apply negb_true_iff, bool_decide_eq_false. intros He. by rewrite He in Ht. }
  unfold storageSignerForTarget. rewrite bool_decide_eq_false_2 by (intros He; by rewrite He in Hoc).
  rewrite Hht. unfold Target_Resolve. rewrite TrimSpace_idemp, Ht. simpl. unfold Provider_Resolve.
  destruct (Htrim _ _ Hp) as [-> _]. by rewrite Hoc.
Qed.

Lemma when_ok {A} cond (r : result A) :
  (cond = true → ∃ a, r = Ok a) → ∃ o, when cond r = Ok o ∧ (cond = true → ∃ a, r = Ok a ∧ o = Some a).
Proof.
  intros Hr. destruct cond; simpl; [|by exists None].
  destruct Hr as [a ->]; [done|]. simpl. eauto.
Qed.

Lemma client_for base timeout context :
  (base ≠ "" → absolute_url base) → negb (bool_decide (base = "")) = true →
  ∃ oc, wrap context (New base timeout) = Ok oc.
Proof.
  intros Habs Hb. apply negb_true_iff, bool_decide_eq_false in Hb.
  destruct (New_absolute base timeout (Habs Hb)) as [oc ->]. by exists oc.
Qed.

Lemma signer_part st :
  valid_storage st → ∃ sg,
  when (negb (bool_decide (SignerBaseURL st = "")))
    (let? client := wrap "initialize storage signer client" (New (SignerBaseURL st) (SignerTimeout st)) in
     Ok (remote_signer client)) = Ok sg ∧
  (SignerBaseURL st ≠ "" → ∃ oc, sg = Some (remote_signer oc)).
Proof.
  intros Hv. destruct (when_ok (negb (bool_decide (SignerBaseURL st = "")))
    (let? client := wrap "initialize storage signer client" (New (SignerBaseURL st) (SignerTimeout st)) in
     Ok (remote_signer client))) as (sg & Hsg & Hsg').
  - intros Hb. destruct (client_for _ (SignerTimeout st) "initialize storage signer client" (vr_signer _ Hv) Hb)
      as [oc ->]. by eexists.
  - exists sg. split; [done|]. intros Hb. destruct Hsg' as (a & Ha & ->); [by apply negb_true_iff, bool_decide_eq_false|].
    apply result_bind_ok in Ha as (oc & _ & [= <-]). by exists oc.
Qed.

Lemma policy_part st :
  valid_storage st → ∃ ap,
  when (negb (bool_decide (AccessPolicyURL st = "")))
    (let? client := wrap "initialize storage access policy client"
                      (New (AccessPolicyURL st) (AccessPolicyTimeout st)) in
     Ok (remote_policy client)) = Ok ap ∧
  (Targets st ≠ ∅ → ap ≠ None).
Proof.
  intros Hv. destruct (when_ok (negb (bool_decide (AccessPolicyURL st = "")))
    (let? client := wrap "initialize storage access policy client"
                      (New (AccessPolicyURL st) (AccessPolicyTimeout st)) in
     Ok (remote_policy client))) as (ap & Hap & Hap').
  - intros Hb. destruct (client_for _ (AccessPolicyTimeout st) "initialize storage access policy client"
      (vr_policy_url _ Hv) Hb) as [oc ->]. by eexists.
  - exists ap. split; [done|]. intros Ht. destruct Hap' as (a & _ & ->); [|done].
    apply negb_true_iff, bool_decide_eq_false. by apply (vr_policy _ Hv).
Qed.

Lemma verifier_part w :
  valid_workload_auth w →
  (∃ e, discovery_failed w e ∧ when (bool_decide (wa_Mode w = "oidc"))
          (wrap "initialize storage workload verifier" (NewOIDC (wa_Issuer w) (wa_Audience w))) = Err e) ∨
  ∃ wv, when (bool_decide (wa_Mode w = "oidc"))
          (wrap "initialize storage workload verifier" (NewOIDC (wa_Issuer w) (wa_Audience w))) = Ok wv ∧
        (wa_Required w = true → wv ≠ None).
Proof.
  intros Hw. case_bool_decide as Hm; simpl.
  - destruct (NewOIDC_valid w Hw Hm) as [(e & He & ->)|[v ->]]; [left|right; simpl; by eexists].
    eexists. split; [|done]. split; [done|]. by exists e.
  - right. exists None. split; [done|]. destruct Hw as [[_ ->]|[? _]]; done.
Qed.

Lemma role_config_complete c :
  valid_storage (Storage c) → HasRole (Runtime c) RoleStorage = true →
  (∀ k p, Providers (Storage c) !! k = Some p → trimmed_provider k p) →
  (∃ e, discovery_failed (WorkloadAuth (Storage c)) e ∧ role_config c = Err e) ∨
  ∃ cfg, role_config c = Ok cfg ∧ complete_role c cfg.
Proof.
  intros Hv Hrole Htrim. set (st := Storage c) in *.
  destruct (signer_part _ Hv) as (sg & Hsg & Hsigner), (policy_part _ Hv) as (ap & Hap & Hpol).
  destruct (build_providers_ok st (range_keys (Providers st)) ∅) as (prov & Hprov & Hlook).
  { intros k p Hp. destruct (Htrim k p Hp) as [_ <-]. by apply (vr_providers _ Hv k p Hp). }
  destruct (verifier_part _ (vr_workload _ Hv)) as [(e & Hfail & Hwv)|(wv & Hwv & Hreq)].
  { left. exists e. split; [done|]. unfold role_config. rewrite Hrole. cbn [andb]. fold st. rewrite Hsg.
    cbn [result_bind]. rewrite Hprov. cbn [result_bind]. by rewrite Hwv. }
  right. eexists. split.
  { unfold role_config. rewrite Hrole. cbn [andb]. fold st. rewrite Hsg. cbn [result_bind]. rewrite Hprov.
    cbn [result_bind]. rewrite Hwv. cbn [result_bind]. rewrite Hap. done. }
  split.
  - unfold has_targets. simpl. intros ?%negb_true_iff%bool_decide_eq_false. by apply Hpol.
  - done.
  - apply (vr_ttl _ Hv).
  - intros Hsome t Ht [target Htarget]. destruct (decide (Providers st = ∅)) as [He|Hne].
    + destruct Hsome as [?|Hb]; [done|]. destruct (Hsigner Hb) as [oc ->]. exists (remote_signer oc).
      split; [|done]. unfold storageSignerForTarget. simpl. rewrite bool_decide_eq_true_2; [done|].
      apply map_eq. intros k. destruct (Hlook k) as [_ ->]; [done|]. right. by rewrite He.
    + destruct (signer_resolves c (StorageRole.mkConfig (NormalizedBasePath (HTTP c)) (Runtime c) sg prov
        (DefaultTTL st) (MaxTTL st) (Targets st) ap (SubjectHeader st) wv (wa_Required (WorkloadAuth st)))
        prov t target) as [oc Hoc]; try done; [|by exists (remote_signer oc)].
      intros k Hk. apply Hlook. split; [by apply range_keys_spec|done].
Qed.

Lemma loaded_role_complete env c :
  LoadConfig env = Ok c → HasRole (Runtime c) RoleStorage = true →
  (∃ e, discovery_failed (WorkloadAuth (Storage c)) e ∧ role_config c = Err e) ∨
  ∃ cfg, role_config c = Ok cfg ∧ complete_role c cfg.
Proof.
  intros Hl Hrole. apply role_config_complete; [|done|by eapply loaded_providers_trimmed].
  apply LoadConfig_valid in Hl as [Hv _]. apply (vc_storage _ Hv). unfold storageConfigured. by rewrite Hrole.
Qed.
End start.

(** *** A sample environment *)
Section start_witness.
#[local] Instance start_case : UnicodeCase := ascii_case.
#[local] Instance start_ip : IPLiteral := no_literal.
#[local] Instance start_float : FloatText := sample_float.
#[local] Instance start_order : RangeOrder := sample_order.
#[local] Instance start_network : Network :=
  {| reach _ _ := mkUpstream (λ _ _, Err (errorf "connection refused")) (λ _, None) "" "" |}.
#[local] Instance start_discovery : Discovery :=
  {| oidc_token := unit; new_provider _ := Err (errorf "unreachable"); token_claims _ := Err (errorf "no claims") |}.
#[local] Instance start_zone : Zone := utc.

Definition storage_env : gmap string string :=
  list_to_map [("GATEWAY_ROLE", "storage"); ("STORAGE_TARGETS_JSON",
                 quoted "{'media': {'bucket': ' bucket-1 ', 'read_only': true}}");
               ("STORAGE_SIGNER_BASE_URL", "https://signer.example/"); ("STORAGE_ACCESS_POLICY_URL", "https://policy.example")].
Definition storage_config : Config :=
  match LoadConfig storage_env with Ok c => c | Err _ => default_config end.
End start_witness.
