(* ===== verification/RoleServer.v ===== *)
(** * The server of the specialised roles: internal/roleruntime [Run]

    The routes of StorageRole.v behind a mux, below the base path.  The theorem
    says of every request, whatever its path, what StorageRole.v says of the
    storage routes one by one. *)

From S2P Require Import Prelude GoStrings GoURL RuntimeCfg World GoNumbers Http Middleware Mux Limits Router.
From S2P Require Import StorageContract StorageRole.
Import RuntimeCfg.
Open Scope Z_scope.

Section server.
Context `{UnicodeCase} `{RangeOrder} `{MuxVersion}.

(** The handler that [Run] listens with; an error is the panic of a registration. *)
Definition Run (cfg : Config) (order : gset string → list string) : result Handler :=
  let? _ := register [] (runtime_routes cfg order) in
  mount (BasePath cfg) (mux (runtime_routes cfg order)).

(** *** Registration *)

(** The routes that say how the runtime is, and touch no object. *)
Definition status_patterns : list string := ["GET /health/live"; "GET /health/ready"; "GET /runtime"].

(** The patterns of a capability of a role, and of all those of a selection. *)
Definition bare_config : Config := mkConfig "" (mkSelection [] ∅) None ∅ 0 0 ∅ None "" None false.
Definition cap_texts (k : string * string) : list string :=
  (if bool_decide (k.1 = RoleStorage) then storage_routes bare_config k.2 else unavailable_routes k.1 k.2).*1.
Definition cap_keys (roles : list (string * list string)) : list (string * string) :=
  concat ((λ rc : string * list string, pair rc.1 <$> rc.2) <$> roles).
Definition selected (s : Selection) : list (string * list string) :=
  (λ role : string, (role, caps_of (Capabilities s) role)) <$> Roles s.

Lemma role_routes_texts cfg role caps :
  (role_routes cfg role caps).*1 = concat (cap_texts <$> (pair role <$> caps)).
Proof.
  unfold role_routes. induction caps as [|c caps IH]; [done|]. rewrite !fmap_cons. cbn [concat].
  rewrite fmap_app, IH. f_equal. unfold cap_texts. cbn [fst snd].
  case_bool_decide; [|done]. unfold storage_routes. repeat case_bool_decide; done.
Qed.

Lemma runtime_routes_texts cfg order :
  (runtime_routes cfg order).*1 = status_patterns ++ concat (cap_texts <$> cap_keys (selected (sel cfg))).
Proof.
  unfold runtime_routes. rewrite fmap_app. f_equal. unfold selected, cap_keys.
  induction (Roles (sel cfg)) as [|role roles IH]; [done|]. rewrite !fmap_cons. cbn [concat].
  by rewrite fmap_app, role_routes_texts, IH, fmap_app, concat_app.
Qed.

(** Every capability that [runtimecfg] allows, with its role. *)
Definition all_keys : list (string * string) :=
  cap_keys [(RoleREBFF, rebff_caps); (RoleStorage, storage_caps); (RoleStreaming, streaming_caps);
            (RoleWebSocket, websocket_caps)].
Definition role_pool : list string := status_patterns ++ concat (cap_texts <$> all_keys).

Lemma role_pool_compatible : compatible role_pool = true.
Proof. vm_compute. reflexivity. Qed.
Lemma role_pool_NoDup : NoDup role_pool.
Proof. apply (bool_decide_eq_true_1 _). vm_compute. reflexivity. Qed.

Lemma elem_of_concat_fmap {A B} (f : A → list B) ks x : x ∈ concat (f <$> ks) ↔ ∃ k, k ∈ ks ∧ x ∈ f k.
Proof.
  rewrite list_elem_of_In, in_concat. setoid_rewrite <-list_elem_of_In. setoid_rewrite list_elem_of_fmap. naive_solver.
Qed.

(** Choosing among the chunks of a list without duplicates, each chunk once, gives a
    list without duplicates. *)
Lemma NoDup_concat_chosen {A B} (f : A → list B) (all ks : list A) :
  NoDup (concat (f <$> all)) → NoDup ks → ks ⊆ all → NoDup (concat (f <$> ks)).
Proof.
  intros Hall. induction ks as [|k ks IH]; intros Hnd Hsub; [apply NoDup_nil_2|].
  apply list.NoDup_cons in Hnd as [Hk Hnd]. rewrite fmap_cons. cbn [concat].
  assert (k ∈ all) as (l1 & l2 & Heq)%list_elem_of_split by set_solver.
  pose proof Hall as Hparts. rewrite Heq, fmap_app, fmap_cons, concat_app in Hparts. cbn [concat] in Hparts.
  apply list.NoDup_app in Hparts as (_ & Hd1 & (Hf & Hd2 & _)%list.NoDup_app).
  apply list.NoDup_app. split; [done|]. split; [|apply IH; [done|set_solver]].
  intros x Hx (k' & Hk' & Hin)%elem_of_concat_fmap. assert (k' ∈ l1 ∨ k' ∈ l2) as [Hl|Hl] by set_solver.
  - apply (Hd1 x); [apply elem_of_concat_fmap; eauto|set_solver].
  - apply (Hd2 x Hx). apply elem_of_concat_fmap; eauto.
Qed.

Lemma cap_keys_NoDup roles :
  NoDup roles.*1 → (∀ role caps, (role, caps) ∈ roles → NoDup caps) → NoDup (cap_keys roles).
Proof.
  unfold cap_keys. induction roles as [|[role caps] roles IH]; intros Hnd Hcaps; [apply NoDup_nil_2|].
  apply list.NoDup_cons in Hnd as [Hr Hnd]. rewrite fmap_cons. cbn [concat].
  apply list.NoDup_app. split; [|split].
  - apply NoDup_fmap_2; [|by apply (Hcaps role); left]. by intros ?? [= ->].
  - intros x (c & -> & _)%list_elem_of_fmap ([role' caps'] & Hin & Hx)%elem_of_concat_fmap.
    apply list_elem_of_fmap in Hx as (c' & [= -> ->] & _). apply Hr. by apply (list_elem_of_fmap_2 fst _ _ Hin).
  - apply IH; [done|]. intros r cs Hin. apply (Hcaps r). by right.
Qed.

Lemma allowed_keys role c : c ∈ allowed_for role → (role, c) ∈ all_keys.
Proof.
  unfold allowed_for. destruct (allowed !! role) as [x|] eqn:Hx; cbn [default]; [|by intros ?%elem_of_empty].
  unfold allowed in Hx. apply elem_of_list_to_map_2 in Hx. rewrite !elem_of_cons, elem_of_nil in Hx.
  intros Hc. unfold all_keys, cap_keys. apply elem_of_concat_fmap.
  destruct Hx as [Hx|[Hx|[Hx|[Hx|[]]]]]; apply pair_eq in Hx as [-> ->]; apply elem_of_list_to_set in Hc;
    (eexists (_, _); split; [|by apply list_elem_of_fmap_2]); set_solver.
Qed.

(** The routes of a validated selection register. *)
Lemma runtime_routes_register cfg order :
  valid_selection (sel cfg) → (∀ r, NoDup (caps_of (Capabilities (sel cfg)) r)) →
  register [] (runtime_routes cfg order) = Ok tt.
Proof.
  intros Hv Hcaps. set (keys := cap_keys (selected (sel cfg))).
  assert (keys ⊆ all_keys) as Hsub.
  { intros [role c] ([role' caps] & Hin & Hc)%elem_of_concat_fmap.
    apply list_elem_of_fmap in Hin as (r & [= -> ->] & Hr), Hc as (c' & [= -> ->] & Hc).
    apply allowed_keys. by apply (vs_caps_allowed _ Hv). }
  assert (NoDup keys) as Hkeys.
  { apply cap_keys_NoDup.
    - unfold selected. rewrite <-list_fmap_compose. rewrite (list_fmap_ext _ id) by done. rewrite list_fmap_id.
      apply (vs_nodup _ Hv).
    - intros role caps (r & [= -> ->] & _)%list_elem_of_fmap. apply Hcaps. }
  pose proof role_pool_NoDup as (Hs & Hd & Hall)%list.NoDup_app.
  apply (register_pool role_pool []); [exact role_pool_compatible| |]; cbn [app]; rewrite runtime_routes_texts; fold keys.
  - apply list.NoDup_app. split; [done|]. split; [|by eapply NoDup_concat_chosen].
    intros x Hx (k & Hk & Hin)%elem_of_concat_fmap. apply (Hd x Hx). apply elem_of_concat_fmap. eauto.
  - unfold role_pool. intros x [Hx|(k & Hk & Hin)%elem_of_concat_fmap]%elem_of_app; apply elem_of_app; [by left|right].
    apply elem_of_concat_fmap. eauto.
Qed.

Lemma unavailable_refused role c rw : rw_log rw = [] → refused (providerUnavailable role c rw).
Proof. intros Hlog. unfold providerUnavailable. by apply writeJSON_refused. Qed.

(** Every route reports the state, answers that its provider is missing, or is one
    of the storage routes. *)
Lemma runtime_routes_cases cfg order text h :
  (text, h) ∈ runtime_routes cfg order →
  text ∈ status_patterns ∨ (∃ role c, h = λ r rw, ret (providerUnavailable role c rw)) ∨
  ∃ c, (text, h) ∈ storage_routes cfg c.
Proof.
  unfold runtime_routes. rewrite elem_of_app. intros [Hin|Hin].
  - left. unfold status_patterns. rewrite !elem_of_cons in Hin. set_solver.
  - right. apply list_elem_of_In, in_concat in Hin as (l & Hl & Hin). apply list_elem_of_In in Hl, Hin.
    apply list_elem_of_fmap in Hl as (role & -> & _). unfold role_routes in Hin.
    apply list_elem_of_In, in_concat in Hin as (l & Hl & Hin). apply list_elem_of_In in Hl, Hin.
    apply list_elem_of_fmap in Hl as (c & -> & _). case_bool_decide; [right; by exists c|left].
    unfold unavailable_routes in Hin. case_bool_decide; [by apply elem_of_nil in Hin|].
    apply list_elem_of_singleton in Hin as [= _ ->]. by exists role, c.
Qed.

(** C3: with storage targets configured, no request to the server of the storage role
    gets past the guards, whatever its method and path.  It is answered with a
    redirect or error page of the mux or with an error page of a route, which carry
    no address and no metadata; or by one of the three routes that report the state
    of the runtime; or it matches, below the base path, a storage route and has been
    granted access to the target that it names itself, in its body or its query, for
    the action of that route: the target is known and writable if need be, the
    workload token is verified, the actor is named and the access policy has allowed
    the action on that target.  Without targets the guards are off (StorageRole.v,
    [no_targets_no_workload_auth]). *)
Theorem role_server_fails_closed cfg order h r rw w :
  Run cfg order = Ok h → has_targets cfg = true → rw_log rw = [] →
  let rw' := (h r rw w).1 in
  own_page (rw_log rw') ∨ refused rw' ∨
  ∃ pattern r1 vs, same_message r r1 ∧ u_Path (r_URL r) = mount_base (BasePath cfg) +:+ u_Path (r_URL r1) ∧
    serves (pattern_of pattern) (r_Method r) ∧
    matches_segments (pt_Segments (pattern_of pattern)) (segments_of (EscapedPath (r_URL r1))) vs ∧
    (pattern ∈ status_patterns ∨ granted_for cfg pattern r1).
Proof.
  intros Hrun Ht Hlog rw'. apply result_bind_ok in Hrun as (u & _ & Hm).
  destruct (mount_passes _ _ _ Hm r rw w) as [(r1 & rw1 & w1 & [[Hsame _] Hp] & Hl1 & _ & Heq)|[_ (log & Hpage & Hl)]].
  2: { left. unfold rw'. by rewrite Hl, Hlog. }
  fold rw' in Heq. clearbody rw'. rewrite Hlog in Hl1.
  destruct (mux_answers (runtime_routes cfg order) r1 rw1 w1)
    as [(k & r2 & (text & vs & Hin & Hs & Hmt & ->) & Hh)|[_ (log & Hpage & Hl)]].
  2: { left. by rewrite Heq, Hl, Hl1. }
  rewrite Hh in Heq. clear Hh. set (r2 := with_path_values _ _) in *. right.
  assert (same_message r r2) as Hm2 by exact Hsame.
  assert (serves (pattern_of text) (r_Method r)) as Hs' by (destruct Hsame as [<- _]; exact Hs).
  destruct (runtime_routes_cases _ _ _ _ Hin) as [Hsys|[(role & c & ->)|[c Hc]]].
  - right. exists text, r2, vs. by repeat (split; [done|]); left.
  - left. rewrite Heq. by apply unavailable_refused.
  - rewrite Heq. destruct (storage_route_guarded cfg c text k r2 rw1 Hc Hl1 Ht w1) as [Hr|Hg]; [by left|right].
    exists text, r2, vs. by repeat (split; [done|]); right.
Qed.
End server.

(** ** Witness *)
Section witnesses.
#[local] Instance server_case : UnicodeCase := ascii_case.
#[local] Instance server_range : RangeOrder := sample_order.
#[local] Instance server_mux : MuxVersion := sample_mux_version.

Definition mounted_config : Config :=
  mkConfig "/gw/" (sel sample_config) (StorageSigner_ sample_config) (StorageProviders sample_config) 0 0
    (StorageTargets sample_config) (Some alice_only) "" (Some one_token) true.
Definition upload_below (path : string) (headers : list (string * string)) : Request :=
  mkRequest "POST" (path_url path) "10.0.0.1:1" headers [] [] (r_Body upload_request) [] background.
Definition sent (r : Request) : option Z :=
  h ← to_option (Run mounted_config elements); rw_status (h r fresh_rw empty_world).1.

(** Served below the base path with token and actor; refused without the token,
    redirected when the path is not clean, unknown elsewhere. *)
Example role_server_answers :
  (sent (upload_below "/gw/storage/upload" (r_Header upload_request)), sent (upload_below "/gw/storage/upload" []),
   sent (upload_below "/gw/x/../storage/upload" (r_Header upload_request)),
   sent (upload_below "/storage/upload" (r_Header upload_request))) = (Some 200, Some 401, Some 301, Some 404).
Proof. by vm_compute. Qed.

Lemma role_server_fails_closed_witness :
  let r := upload_below "/gw/storage/upload" (r_Header upload_request) in
  match Run mounted_config elements with
  | Ok h =>
      let rw' := (h r fresh_rw empty_world).1 in
      rw_status rw' = Some 200 ∧
      (own_page (rw_log rw') ∨ refused rw' ∨
       ∃ pattern r1 vs, same_message r r1 ∧ u_Path (r_URL r) = mount_base "/gw/" +:+ u_Path (r_URL r1) ∧
         serves (pattern_of pattern) "POST" ∧
         matches_segments (pt_Segments (pattern_of pattern)) (segments_of (EscapedPath (r_URL r1))) vs ∧
         (pattern ∈ status_patterns ∨ granted_for mounted_config pattern r1))
  | Err _ => False
  end.
Proof.
  intros r.
  assert (match Run mounted_config elements with
          | Ok h => rw_status (h r fresh_rw empty_world).1 = Some 200 | Err _ => False end) as Hst by (by vm_compute).
  destruct (Run mounted_config elements) as [h|e] eqn:Hrun; [|exact Hst]. split; [exact Hst|].
  apply (role_server_fails_closed mounted_config elements h r fresh_rw empty_world Hrun).
  - by vm_compute.
  - reflexivity.
Defined.

(** A base path that [Validate] accepts and the mux does not. *)
Example malformed_role_base_path :
  is_ok (Run (mkConfig "/{x" (sel sample_config) None ∅ 0 0 ∅ None "" None false) elements) = false.
Proof. by vm_compute. Qed.
End witnesses.
