(* ===== verification/Gateway.v ===== *)
(** * The browser-facing gateway: internal/app/app.go, core/core.go

    [RunWith] for the role rebff: the identity provider, the policy, the stores of
    the configured backend, the session life times, the login service, the user
    context, metrics, audit and the token manager are built from the configuration
    and handed to [NewRouter]; and package core, through which an application adds
    its routes and calls upstream services.  The last part composes everything:
    what a request must show before the application's code sees it. *)

From S2P Require Import Prelude GoStrings GoURL GoQuery RuntimeCfg World GoNumbers GoJSON GoTime GoStruct Session.
From S2P Require Import Token Auth Policy Metrics Http Middleware Mux AuthHTTP Redis RedisCodec Limits Router.
From S2P Require Import StorageContract StorageRole AppConfig Outbound Signer OIDC AppAPI App.
Open Scope Z_scope.

Module Cfg := AppConfig.AppConfig.

(** ** internal/app/app.go *)

(** [type RouteDeps struct] *)
Record RouteDeps := mkRouteDeps {
  rt_Sessions : SessionStore;
  rt_Policy : option Evaluator;
  rt_Audit : AuditSink;
  rt_Metrics : bool;
  rt_Tokens : string → M (result string);
  rt_SessionCookieName : string;
}.
(** [Options.BuildAppRoutes]: [None] for nil *)
Abbreviation BuildAppRoutes := (option (RouteDeps → result routes)).

(** The Redis client library at start: the parsing of URLs and PING. *)
Class RedisStart := {
  RedisOptions : Type;
  redis_ParseURL : string → result RedisOptions;
  redis_Ping : M (result unit);
}.

Record Stores := mkStores {
  st_Flows : FlowStore;
  st_Sessions : SessionStore;
  st_Tokens : TokenStore;
  st_Cache : Cache;
  st_Locker : RefreshLocker;
  st_Readiness : option (M (result unit));
}.

Section gateway.
Context `{Env} `{Net} `{UnicodeCase} `{IPLiteral} `{MuxVersion} `{WireSize} `{Registry.PrintTable} `{FloatText}.
Context `{Zone} `{Redis} `{RedisStart} `{OIDCLib} `{Host}.
(** The end of the contexts of requests, and how long a wait for the refresh lock
    is followed. *)
Context (ctx_err : nat → goerr) (ctx_done : nat → option goerr) (fuel : nat).

(** [switch cfg.Store.Backend]; [None] where the stores stay nil, which no
    validated configuration allows. *)
Definition build_stores (cfg : Cfg.StoreConfig) : M (result (option Stores)) :=
  if bool_decide (Cfg.Backend cfg = "memory") then
    ret (Ok (Some (mkStores MemoryFlow.store MemorySession.store MemoryToken.store memory_cache
                     (MemoryLocker.locker ctx_err) None)))
  else if bool_decide (Cfg.Backend cfg = "redis") then
    match Redis.New redis_ParseURL (Cfg.RedisURL cfg) (Cfg.RedisPrefix cfg) with
    | Err e => ret (Err (ErrWrap "initialize redis store" e))
    | Ok (_, client) =>
        do pong := redis_Ping in
        match pong with
        | Err e => ret (Err (ErrWrap "redis ping" e))
        | Ok _ =>
            ret (Ok (Some (mkStores (RedisFlow.store client) (RedisSession.store client) (RedisToken.store client)
                             (RedisCache.cache client) (RedisLocker.locker client ctx_done fuel) (Some redis_Ping))))
        end
    end
  else ret (Ok None).

(** The identity provider, with the refresher that the token manager finds in it by
    type assertion. *)
Definition build_provider (cfg : Cfg.OIDCConfig) : M (result (IdentityProvider * option Refresher)) :=
  if bool_decide (Cfg.Issuer cfg = "") then ret (Ok (UnconfiguredProvider, None)) else
  do p := OIDC.New (OIDC.mkConfig (Cfg.Issuer cfg) (Cfg.ClientID cfg) (Cfg.ClientSecret cfg) (Cfg.Scopes cfg)) in
  match p with
  | Err e => ret (Err (ErrWrap "initialize oidc provider" e))
  | Ok p => ret (Ok (as_provider p, Some (as_refresher p)))
  end.

Definition build_policy (cfg : Cfg.PolicyConfig) : option Evaluator :=
  if bool_decide (Cfg.Provider cfg = "static")
  then Some (StaticPolicy.evaluator (StaticPolicy.mkStatic (Cfg.RolePermissions cfg) (Cfg.RoleCapabilities cfg)))
  else None.

Definition lifecycle_config (cfg : Cfg.SessionConfig) : Lifecycle.Config :=
  Lifecycle.mkConfig (Cfg.MaxLifetime cfg) (Cfg.IdleTimeout cfg) (Cfg.TouchInterval cfg).

(** A nil dereference. *)
Definition nil_pointer : goerr := errorf "nil pointer dereference".

(** A panic while the routes are registered. *)
Definition panicking {A} (r : result A) : result A :=
  match r with Ok a => Ok a | Err e => Err (ErrWrap "panic" e) end.

(** The dependencies of the router, or the error with which [RunWith] ends before
    it listens. *)
Definition build_deps (build : BuildAppRoutes) (cfg : Cfg.Config) : M (result RouterDeps) :=
  if 1 <? Z.of_nat (length (RuntimeCfg.Roles (Cfg.Runtime cfg)))
  then ret (Err (errorf "rebff cannot be combined with specialized roles in v0.1.0")) else
  match ParseTrustedProxyCIDRs (Cfg.TrustedProxyCIDRs (Cfg.HTTP cfg)) with
  | Err e => ret (Err (ErrWrap "trusted proxy CIDRs" e))
  | Ok trustedProxy =>
  try (provider, refresher) := build_provider (Cfg.OIDC cfg) in
  let evaluator := build_policy (Cfg.Policy cfg) in
  try stores := build_stores (Cfg.Store cfg) in
  match stores, Parse (Cfg.PublicURL (Cfg.HTTP cfg)),
        Cfg.PublicEndpoint (Cfg.HTTP cfg) "/auth/callback", Cfg.PublicEndpoint (Cfg.HTTP cfg) "/" with
  | Some stores, Ok publicURL, Some callbackURL, Some logoutURL =>
      let sessions := Lifecycle.store (st_Sessions stores) (lifecycle_config (Cfg.Session cfg)) in
      let service := mkService (Some provider) (Some (st_Flows stores)) (Some sessions) (Some (st_Tokens stores))
                       callbackURL logoutURL 0 (Cfg.MaxLifetime (Cfg.Session cfg)) in
      let resolver := UserContext.CachedResolver (UserContext.SessionResolver sessions evaluator)
                        (Some (st_Cache stores)) UserContext.DefaultTTL in
      let metrics := Cfg.MetricsEnabled (Cfg.Telemetry cfg) in
      let auditSink : AuditSink :=
        if Cfg.AuditEnabled (Cfg.Telemetry cfg) then Slog_Append (mkSlogSink "" "" "") else NoopSink in
      let manager := Manager.mkManager (Some (st_Tokens stores)) (Some sessions) refresher (Some (st_Locker stores)) 0 0 in
      let secure := bool_decide (u_Scheme publicURL = "https") in
      match (match build with
             | None => Ok []
             | Some build => build (mkRouteDeps sessions evaluator auditSink metrics (Manager.AccessToken manager)
                                      (SessionCookieNameFor secure))
             end) with
      | Err e => ret (Err (ErrWrap "build application routes" e))
      | Ok appRoutes =>
          let limits := Cfg.Limits cfg in
          ret (Ok (mkRouterDeps _
            (mkAuthHandler (Some service) (Some resolver) (Some (st_Cache stores)) (Some auditSink) metrics secure
               (SessionCookieNameFor secure))
            appRoutes (st_Readiness stores) (Cfg.PublicURL (Cfg.HTTP cfg)) secure trustedProxy metrics
            (Cfg.MaxRequestBodyBytes limits) (Cfg.MaxConcurrency limits) (Cfg.RatePerSecond limits)
            (Cfg.RateBurst limits) (Cfg.RateMaxEntries limits) (Cfg.AuthRatePerSecond limits)
            (Cfg.AuthRateBurst limits) (Cfg.AccessLogEnabled (Cfg.Telemetry cfg))
            (Cfg.TraceEnabled (Cfg.Telemetry cfg)) (SessionCookieNameFor secure) (CSRFCookieNameFor secure)))
      end
  | _, _, _, _ => ret (Err nil_pointer)
  end
  end.

(** The handler that the server listens with; a panic ends the process as well. *)
Definition gateway (build : BuildAppRoutes) (cfg : Cfg.Config) : M (result Handler) :=
  try deps := build_deps build cfg in
  ret (panicking (NewRouter (Cfg.NormalizedBasePath (Cfg.HTTP cfg)) deps)).
End gateway.

(** ** core/core.go *)
Section core.
Context `{Env} `{UnicodeCase} `{IPLiteral} `{Network}.

(** [type Router struct] *)
Record CoreRouter := mkCore {
  co_deps : RouteDeps;
  co_routes : routes;
}.
(** [type Application interface]: [Register] on the router it is given *)
Abbreviation Application := (CoreRouter → result CoreRouter).

(** What [Handle] registers for a handler. *)
Definition guarded (deps : RouteDeps) (permission : string) (handler : Handler) : Handler :=
  if bool_decide (permission = "") then handler else
  let '(targetType, _, _) := Cut permission "." in
  RequirePermissionWithAuditCookie permission (rt_SessionCookieName deps) (rt_Sessions deps) (rt_Policy deps)
    (Some (rt_Audit deps)) (rt_Metrics deps) (BusinessAudit permission targetType (Some (rt_Audit deps)) handler).

Definition Handle (pattern permission : string) (handler : Handler) (r : CoreRouter) : CoreRouter :=
  mkCore (co_deps r) (co_routes r ++ [(pattern, guarded (co_deps r) permission handler)]).
Definition HandleFunc (pattern permission : string) (handler : Handler) (r : CoreRouter) : CoreRouter :=
  Handle pattern permission handler r.
(** [Register]: the routes added to the mux *)
Definition core_Register (r : CoreRouter) : routes := co_routes r.

(** [Run]: the options that it passes to [RunWith] *)
Definition core_options (application : option Application) : BuildAppRoutes := Some (λ deps,
  let r := mkCore deps [] in
  match application with
  | None => Ok (core_Register r)
  | Some register => let? r := register r in Ok (core_Register r)
  end).

Record ClientOptions := mkClientOptions {
  opt_Timeout : Duration;
  opt_MaxConcurrent : Z;
  opt_FailureThreshold : Z;
  opt_OpenFor : Duration;
}.
(** [JSONClient]: the outbound client inside the metrics inside the protection,
    which has a breaker and slots of its own. *)
Record JSONClient := mkJSONClient {
  jc_Client : OutboundClient;
  jc_Metrics : bool;
  jc_Service : string;
  jc_Protection : Protected.ProtectedConfig;
}.
Definition NewJSONClient (r : CoreRouter) (serviceName baseURL : string) (opts : ClientOptions) : result JSONClient :=
  let? client := App.New baseURL (opt_Timeout opts) in
  let c := oc_Client client in
  let client := mkOutbound (oc_BaseURL client) (oc_Timeout client)
    (Client.mkClient (Client.BasePath c) (Some (rt_Tokens (co_deps r))) (Client.MaxRetries c) (Client.RetryBackoff c)
       (Client.MaxBodyBytes c)) in
  Ok (mkJSONClient client (rt_Metrics (co_deps r)) serviceName
        (Protected.mkProtected (opt_MaxConcurrent opts) (opt_FailureThreshold opts) (opt_OpenFor opts))).

(** [JSONClient.DoJSON] on the state of its protection, which World.v keeps under the
    name of the service: no two clients of an application have the same name. *)
Definition JSONClient_DoJSON {T} (c : JSONClient) (sessionID method path : string) (body : result string)
    (out : option (string → result T)) : M (result (option T)) :=
  let client := jc_Client c in
  do state := gets (λ w, default (Protected.closed, 0) (w_breakers w !! jc_Service c)) in
  do res := Protected.DoJSON (jc_Protection c) (jc_Metrics c) (jc_Service c)
    (Observed_DoJSON (jc_Metrics c) (jc_Service c) method
       (Client.DoJSON (oc_Client client) (call_env (reach (oc_BaseURL client) (oc_Timeout client)))
          sessionID method path body out)) state.1 state.2 in
  let '(r, b, sem) := res in
  do _ := modify (set_breakers (insert (jc_Service c) (b, sem))) in
  ret r.
Definition as_doer (c : JSONClient) : JSONDoer :=
  λ T sessionID method path body out, JSONClient_DoJSON c sessionID method path body out.

(** The first of two cookies that is not empty. *)
Definition nonempty_cookie (r : Request) (name : string) : option string :=
  match cookie_get r name with
  | Some v => if bool_decide (v = "") then None else Some v
  | None => None
  end.
Definition SessionID (r : Request) : option string :=
  match nonempty_cookie r SessionCookieName with
  | Some v => Some v
  | None => nonempty_cookie r InsecureSessionCookieName
  end.

Definition HTTPStatus (err : option goerr) : Z :=
  match err with
  | None => StatusOK
  | Some err =>
      match errors_As err with
      | None => StatusBadGateway
      | Some (_, statusCode, _) =>
          if IsKind err ErrUnauthorized then StatusUnauthorized
          else if IsKind err ErrForbidden then StatusForbidden
          else if IsKind err ErrRateLimited then StatusTooManyRequests
          else if IsKind err ErrUnavailable then StatusServiceUnavailable
          else if (400 <=? statusCode) && (statusCode <=? 599) then statusCode
          else StatusBadGateway
      end
  end.

Definition WriteJSON (status : Z) (value : json) (rw : RW) : RW :=
  push (Write (BJson value)) (push (WriteHeader status)
    (set_header "Cache-Control" "no-store" (set_header "Content-Type" "application/json" rw))).
Definition WriteError (err : option goerr) (rw : RW) : RW :=
  let status := HTTPStatus err in
  http_Error (StatusText status) status rw.
End core.

(** ** What a request must show before the application sees it *)

(** What an application registers: pattern, permission and handler. *)
Abbreviation registration := (string * string * Handler)%type.
Definition register_all `{Env} (r : CoreRouter) (regs : list registration) : CoreRouter :=
  fold_left (λ r '(pattern, permission, handler), Handle pattern permission handler r) regs r.
(** An application that chooses its registrations from the router it is given, from
    which it may have taken clients. *)
Definition application `{Env} (choose : CoreRouter → result (list registration))
    : CoreRouter → result CoreRouter :=
  λ r, let? regs := choose r in Ok (register_all r regs).

Lemma register_all_routes `{Env} regs r :
  co_routes (register_all r regs) =
    co_routes r ++ ((λ '(pattern, permission, handler), (pattern, guarded (co_deps r) permission handler)) <$> regs).
Proof.
  revert r. induction regs as [|[[p perm] h] regs IH]; intros r; [by rewrite app_nil_r|].
  change (register_all r ((p, perm, h) :: regs)) with (register_all (Handle p perm h r) regs).
  rewrite IH. cbn [Handle co_routes co_deps]. by rewrite <-app_assoc.
Qed.

(** Auditing does not change what is answered. *)
Lemma BusinessAudit_answers `{Env} action target sink next r rw w :
  (BusinessAudit action target sink next r rw w).1 = (next r rw w).1.
Proof.
  unfold BusinessAudit. destruct sink as [sink|]; [|done]. unfold bind.
  destruct (next r rw w) as [rw' w']. destruct (NewEvent _ _ _ w') as [e w2]. by destruct (sink _ w2).
Qed.

(** A session that the life time store returns was returned by the store below it
    and is within its life times. *)
Lemma lifecycle_Get_live `{Env} (Next : SessionStore) cfg id w s w' :
  Lifecycle.Get Next cfg id w = (Ok s, w') →
  ∃ v w1 i, ss_Get Next id w = (Ok v, w1) ∧ Lifecycle.same_session v s ∧
    Lifecycle.over_lifetime cfg v (clock i) = false ∧ Lifecycle.idle_too_long cfg v (clock i) = false.
Proof.
  unfold Lifecycle.Get. intros [(e & _ & [=])|(p & w2 & Hg & Hk)]%bind_ok_inv.
  unfold Lifecycle.Get_read in Hg. apply bind_ok_inv in Hg as [(e & _ & [=])|(v & w1 & Hv & Hg)].
  apply bind_inv in Hg as (t & w3 & Ht & Hg). unfold now, oracle in Ht. injection Ht as <- <-.
  exists v, w1, (w_tick w1). split; [done|].
  destruct (Lifecycle.over_lifetime _ _ _); [by apply bind_inv in Hg as (? & ? & _ & [=])|].
  destruct (Lifecycle.idle_too_long _ _ _); [by apply bind_inv in Hg as (? & ? & _ & [=])|].
  split; [|done]. injection Hg as <- <-. unfold Lifecycle.Get_write in Hk. cbn [snd fst] in Hk.
  destruct (Lifecycle.needs_touch _ _ _).
  - apply bind_ok_inv in Hk as [(e & _ & [=])|(u & w4 & _ & [= <- _])]. apply Lifecycle.same_session_touch.
  - by injection Hk as <- _.
Qed.

Section protection.
Context `{Env} `{Net} `{UnicodeCase} `{IPLiteral} `{MuxVersion} `{WireSize} `{Registry.PrintTable} `{FloatText}.
Context `{Zone} `{Redis} `{RedisStart} `{OIDCLib} `{Host}.
Context (ctx_err : nat → goerr) (ctx_done : nat → option goerr) (fuel : nat).
Context (cfg : Cfg.Config).

(** The request carries the session cookie of a session that the store below
    returns, that is within the configured life times, and that has a role to which
    the configuration maps the permission. *)
Definition authorised (sessions : SessionStore) (secure : bool) (r : Request) (permission : string) (s : Session)
    : Prop :=
  ∃ cookie v w1 w2 i role l,
    cookie_get r (SessionCookieNameFor secure) = Some cookie ∧ cookie ≠ "" ∧
    ss_Get sessions cookie w1 = (Ok v, w2) ∧ Lifecycle.same_session v s ∧
    Lifecycle.over_lifetime (lifecycle_config (Cfg.Session cfg)) v (clock i) = false ∧
    Lifecycle.idle_too_long (lifecycle_config (Cfg.Session cfg)) v (clock i) = false ∧
    role ∈ ses_Roles s ∧ Cfg.RolePermissions (Cfg.Policy cfg) !! role = Some l ∧ permission ∈ l.

(** The route dependencies that the configuration gives an application. *)
Definition configured (secure : bool) (stores : Stores) (d : RouteDeps) : Prop :=
  rt_Sessions d = Lifecycle.store (st_Sessions stores) (lifecycle_config (Cfg.Session cfg)) ∧
  rt_Policy d = build_policy (Cfg.Policy cfg) ∧ rt_SessionCookieName d = SessionCookieNameFor secure.

Lemma guarded_cases secure stores d permission handler r rw w :
  configured secure stores d → permission ≠ "" → rw_log rw = [] →
  own_page (rw_log (guarded d permission handler r rw w).1) ∨
  ∃ s w1, authorised (st_Sessions stores) secure r permission s ∧
    (guarded d permission handler r rw w).1 = (handler (with_session r s) rw w1).1.
Proof.
  intros (Hs & Hp & Hc) Hne Hlog. unfold guarded. rewrite bool_decide_false by done.
  destruct (Cut permission ".") as [[target rest] found]. rewrite Hs, Hp, Hc.
  destruct (permission_cases permission (SessionCookieNameFor secure)
    (Lifecycle.store (st_Sessions stores) (lifecycle_config (Cfg.Session cfg))) (build_policy (Cfg.Policy cfg))
    (Some (rt_Audit d)) (rt_Metrics d) (BusinessAudit permission target (Some (rt_Audit d)) handler) r rw w)
    as [(cookie & s & ev & wa & wb & w1 & Hck & Hnc & Hget & Hev & Hal & ->)|(text & st & w1 & Hst & ->)].
  - right. exists s, w1. split; [|apply BusinessAudit_answers].
    apply lifecycle_Get_live in Hget as (v & w2 & i & Hget & Hsame & Ho & Hi).
    unfold build_policy in Hev. case_bool_decide; [|done]. injection Hev as <-.
    apply (f_equal fst) in Hal. cbn [ev_Allowed StaticPolicy.evaluator ret fst] in Hal.
    apply StaticPolicy.static_allowed_iff in Hal as (role & l & Hrole & Hl & Hin).
    by exists cookie, v, w, w2, i, role, l.
  - left. exists st, (BText text). split; [|cbn [fst ret]; by rewrite http_Error_log, Hlog].
    unfold denied_statuses in Hst. set_unfold.
    unfold StatusUnauthorized, StatusForbidden, StatusServiceUnavailable in Hst. lia.
Qed.

(** What a successful start hands to the router. *)
Lemma build_deps_routes choose deps w w' :
  build_deps ctx_err ctx_done fuel (core_options (Some (application choose))) cfg w = (Ok deps, w') →
  ∃ u stores d regs wa wb, Parse (Cfg.PublicURL (Cfg.HTTP cfg)) = Ok u ∧
    build_stores ctx_err ctx_done fuel (Cfg.Store cfg) wa = (Ok (Some stores), wb) ∧
    let secure := bool_decide (u_Scheme u = "https") in
    configured secure stores d ∧ choose (mkCore d []) = Ok regs ∧
    csrf_config deps = mkCSRF (Cfg.PublicURL (Cfg.HTTP cfg)) secure (CSRFCookieNameFor secure) ∧
    rd_AppRoutes deps = (λ '(pattern, permission, handler), (pattern, guarded d permission handler)) <$> regs.
Proof.
  unfold build_deps. destruct (_ <? _); [done|]. destruct (ParseTrustedProxyCIDRs _) as [proxy|]; [|done].
  intros [(e & _ & [=])|([provider refresher] & w1 & _ & Hk)]%bind_ok_inv.
  apply bind_ok_inv in Hk as [(e & _ & [=])|(stores & w2 & Hst & Hk)].
  destruct stores as [stores|]; [|done]. destruct (Parse _) as [u|] eqn:Hu; [|done].
  destruct (Cfg.PublicEndpoint _ "/auth/callback") as [cb|]; [|done].
  destruct (Cfg.PublicEndpoint _ "/") as [lo|]; [|done]. cbv zeta in Hk. unfold core_options in Hk.
  set (d := mkRouteDeps _ _ _ _ _ _) in Hk. unfold application in Hk.
  destruct (choose (mkCore d [])) as [regs|] eqn:Hregs; [|done].
  injection Hk as <- <-. exists u, stores, d, regs, w1, w2. split; [done|]. split; [done|].
  split; [done|]. split; [done|]. split; [done|]. cbn [rd_AppRoutes core_Register]. by rewrite register_all_routes.
Qed.

(** What the server does with a request. *)
Lemma gateway_cases choose deps w0 w0' h0 r rw w :
  build_deps ctx_err ctx_done fuel (core_options (Some (application choose))) cfg w0 = (Ok deps, w0') →
  NewRouter (Cfg.NormalizedBasePath (Cfg.HTTP cfg)) deps = Ok h0 →
  (∀ i l, rand_read i 16 = Ok l → length l = 16%nat) → rw_log rw = [] →
  let rw' := (h0 r rw w).1 in
  ∃ u stores d regs wa wb, Parse (Cfg.PublicURL (Cfg.HTTP cfg)) = Ok u ∧
    build_stores ctx_err ctx_done fuel (Cfg.Store cfg) wa = (Ok (Some stores), wb) ∧
    let secure := bool_decide (u_Scheme u = "https") in
    choose (mkCore d []) = Ok regs ∧
    (own_page (rw_log rw') ∨
     (∃ text h r1 rw1 w1, rw' = (h r1 rw1 w1).1 ∧
        (text, h) ∈ RegisterSystemRoutes (rd_Readiness deps) (if rd_Metrics deps then Some metrics_handler else None)
                    ++ auth_routes (rd_Auth deps)) ∨
     ∃ pattern permission handler r1 rw1 w1,
       (pattern, permission, handler) ∈ regs ∧ rw' = (handler r1 rw1 w1).1 ∧ rw_log rw1 = [] ∧ secured rw1 ∧
       same_message r r1 ∧ serves (pattern_of pattern) (r_Method r) ∧
       csrf_passes (mkCSRF (Cfg.PublicURL (Cfg.HTTP cfg)) secure (CSRFCookieNameFor secure)) r ∧
       (permission ≠ "" → ∃ s, authorised (st_Sessions stores) secure r permission s ∧
                              AuthenticatedSession (r_Context r1) = Some s)).
Proof.
  intros Hb Hn Hrand Hlog rw'. apply build_deps_routes in Hb as (u & stores & d & regs & wa & wb & Hu & Hst & Hd & Hregs & Hcs & Happ).
  exists u, stores, d, regs, wa, wb. split; [done|]. split; [done|]. split; [done|].
  destruct (router_cases (Cfg.NormalizedBasePath (Cfg.HTTP cfg)) deps h0 r rw w Hn Hrand Hlog) as [[_ Hown]|Hr]; [by left|].
  fold rw' in Hr. clearbody rw'.
  destruct Hr as (h & r1 & rw1 & w1 & (Hcsrf & Hmsg & Hl1 & Hsec & _ & _ & text & vs & Hin & Hserves & _) & ->).
  rewrite Hcs in Hcsrf. unfold app_routes in Hin. rewrite app_assoc, elem_of_app in Hin.
  destruct Hin as [Hin|Hin]; [right; left; by exists text, h, r1, rw1, w1|].
  rewrite Happ in Hin. apply list_elem_of_fmap in Hin as ([[pattern permission] handler] & [= -> ->] & Hreg).
  destruct (decide (permission = "")) as [->|Hne].
  - right; right. exists pattern, "", handler, r1, rw1, w1. repeat (split; [done|]). done.
  - destruct (guarded_cases _ _ _ permission handler r1 rw1 w1 Hd Hne Hl1) as [Hden|(s & w2 & Hauth & ->)]; [by left|].
    right; right. exists pattern, permission, handler, (with_session r1 s), rw1, w2.
    do 7 (split; [done|]). intros _. exists s. split; [|done].
    unfold authorised, cookie_get in *. destruct Hmsg as (_ & _ & <- & _). exact Hauth.
Qed.

(** C10: from the configuration to the application's code.  A server started by
    [Run] answers a request itself with a redirect or an error page and nothing
    else, or with one of the health, metrics and authentication routes, or with a
    handler that the
    application registered.  A handler registered under a permission runs only for
    a request that passes the CSRF check for the configured public address and
    carries the cookie of a session that the configured store returns, that is
    within the configured life times and that has a role to which the configuration
    maps this permission; that session is the one the handler finds in the context,
    and the handler's answer is what the client gets. *)
Theorem gateway_protects_application choose deps w0 w0' h0 r rw w :
  build_deps ctx_err ctx_done fuel (core_options (Some (application choose))) cfg w0 = (Ok deps, w0') →
  NewRouter (Cfg.NormalizedBasePath (Cfg.HTTP cfg)) deps = Ok h0 →
  (∀ i l, rand_read i 16 = Ok l → length l = 16%nat) → rw_log rw = [] →
  let rw' := (h0 r rw w).1 in
  ∃ u stores d regs wa wb, Parse (Cfg.PublicURL (Cfg.HTTP cfg)) = Ok u ∧
    build_stores ctx_err ctx_done fuel (Cfg.Store cfg) wa = (Ok (Some stores), wb) ∧
    let secure := bool_decide (u_Scheme u = "https") in
    choose (mkCore d []) = Ok regs ∧
    (own_page (rw_log rw') ∨
     (∃ text h r1 rw1 w1, rw' = (h r1 rw1 w1).1 ∧
        (text, h) ∈ RegisterSystemRoutes (rd_Readiness deps) (if rd_Metrics deps then Some metrics_handler else None)
                    ++ auth_routes (rd_Auth deps)) ∨
     ∃ pattern permission handler r1 rw1 w1,
       (pattern, permission, handler) ∈ regs ∧ rw' = (handler r1 rw1 w1).1 ∧ rw_log rw1 = [] ∧ secured rw1 ∧
       same_message r r1 ∧ serves (pattern_of pattern) (r_Method r) ∧
       csrf_passes (mkCSRF (Cfg.PublicURL (Cfg.HTTP cfg)) secure (CSRFCookieNameFor secure)) r ∧
       (permission ≠ "" → ∃ s, authorised (st_Sessions stores) secure r permission s ∧
                              AuthenticatedSession (r_Context r1) = Some s)).
Proof. apply gateway_cases. Qed.

(** *** Starting *)

(** The server's own patterns register before those of the application. *)
Definition own_patterns (metrics : bool) : list string :=
  ["GET /health/live"; "GET /health/ready"] ++ (if metrics then ["GET /metrics"] else [])
  ++ ["GET /auth/login"; "GET /auth/callback"; "POST /auth/logout"; "GET /api/me"].

Lemma own_patterns_compatible metrics : compatible (own_patterns metrics) = true ∧ NoDup (own_patterns metrics).
Proof. destruct metrics; (split; [|apply (bool_decide_eq_true_1 _)]; vm_compute; reflexivity). Qed.

Lemma app_routes_register deps e :
  register [] (app_routes deps) = Err e →
  bad_pattern (pattern_of <$> own_patterns (rd_Metrics deps)) (rd_AppRoutes deps) e.
Proof.
  unfold app_routes. rewrite app_assoc.
  set (own := RegisterSystemRoutes (rd_Readiness deps) (if rd_Metrics deps then Some metrics_handler else None)
              ++ auth_routes (rd_Auth deps)).
  assert (own.*1 = own_patterns (rd_Metrics deps)) as Hown by (unfold own; by destruct (rd_Metrics deps)).
  destruct (own_patterns_compatible (rd_Metrics deps)) as [Hc Hn].
  intros He. apply register_err. rewrite <-Hown, <-list_fmap_compose.
  change (register ([] ++ (pattern_of ∘ fst <$> own)) (rd_AppRoutes deps) = Err e).
  rewrite <-(register_app [] own); [done|].
  apply (register_pool (own_patterns (rd_Metrics deps)) []); cbn [app]; by rewrite ?Hown.
Qed.

Lemma NormalizedBasePath_rooted h :
  Cfg.NormalizedBasePath h = "" ∨ HasPrefix (Cfg.NormalizedBasePath h) "/" = true.
Proof.
  unfold Cfg.NormalizedBasePath. destruct (Cfg.normalizeBasePath _) as [p|] eqn:Hp; [|by left].
  pose proof Hp as [Hv Hd]%Cfg.normalizeBasePath_ok. rewrite (Cfg.normalizeBasePath_eq _ Hv Hd) in Hp.
  injection Hp as <-. destruct (Cfg.nonempty_segments _) as [|seg segs]; [by left|right].
  apply HasPrefix_spec. by eexists.
Qed.

(** A base path that the configuration accepts and the mux does not: it has a blank
    or a brace in it. *)
Definition malformed_base (base : string) (e : goerr) : Prop :=
  (∃ c, c ∈ bytes base ∧ pattern_syntax c = true) ∧
  ∃ e', parsePattern (TrimRight base "/" +:+ "/") = Err e' ∧
    e = ErrWrap "panic" (ErrWrap ("parsing " +:+ TrimRight base "/" +:+ "/") e').

Lemma mount_panics h k e :
  mount (Cfg.NormalizedBasePath h) k = Err e → malformed_base (Cfg.NormalizedBasePath h) (ErrWrap "panic" e).
Proof.
  destruct (NormalizedBasePath_rooted h) as [Hb|Hb]; [by rewrite Hb|]. intros Hm.
  destruct (mount_err _ _ _ Hb Hm) as [Hc (e' & He' & ->)]. split; [done|]. by exists e'.
Qed.

Lemma build_provider_err o w e w' :
  build_provider o w = (Err e, w') → Cfg.Issuer o ≠ "" ∧ ∃ e' w1 w2,
    OIDC.New (OIDC.mkConfig (Cfg.Issuer o) (Cfg.ClientID o) (Cfg.ClientSecret o) (Cfg.Scopes o)) w1 = (Err e', w2) ∧
    e = ErrWrap "initialize oidc provider" e'.
Proof.
  unfold build_provider. case_bool_decide as Hi; [done|]. intros (p & w1 & Hp & Hk)%bind_inv. split; [done|].
  destruct p as [p|e0]; [done|]. injection Hk as <- _. by eexists _, _, _.
Qed.

Lemma build_stores_err st w e w' :
  build_stores ctx_err ctx_done fuel st w = (Err e, w') →
  Cfg.Backend st = "redis" ∧ ∃ e',
    (Redis.New redis_ParseURL (Cfg.RedisURL st) (Cfg.RedisPrefix st) = Err e' ∧ e = ErrWrap "initialize redis store" e') ∨
    (∃ w1 w2, redis_Ping w1 = (Err e', w2) ∧ e = ErrWrap "redis ping" e').
Proof.
  unfold build_stores. case_bool_decide; [done|]. case_bool_decide; [|done]. intros Hb. split; [done|].
  destruct (Redis.New _ _ _) as [[o client]|e0].
  - apply bind_inv in Hb as (pong & w1 & Hpong & Hk). destruct pong as [u|e0]; [done|]. injection Hk as <- _.
    exists e0. right. by eexists _, _.
  - injection Hb as <- _. exists e0. by left.
Qed.

Lemma build_stores_none st w w' :
  Cfg.valid_store st → build_stores ctx_err ctx_done fuel st w ≠ (Ok None, w').
Proof.
  unfold build_stores. intros Hv. case_bool_decide as Hm; [done|]. case_bool_decide as Hr.
  - destruct (Redis.New _ _ _) as [[o client]|]; [|done]. unfold bind. destruct (redis_Ping w) as [[]]; done.
  - by destruct Hv as [?|[? _]].
Qed.

Lemma PublicEndpoint_some h route : Cfg.valid_http h → is_Some (Cfg.PublicEndpoint h route).
Proof.
  intros [_ _ _ (u & Hu & Hs & Hh & _)]. destruct (Parse_TrimRight _ _ Hu Hs Hh) as (b & Hb & _).
  unfold Cfg.PublicEndpoint. rewrite Hb. by eexists.
Qed.

(** The reasons for which the start may fail, each with its own error: more roles
    than rebff, a trusted proxy range that does not parse, an identity provider that
    cannot be discovered, a Redis server that cannot be configured or reached, an
    error of the application itself, or a panic: a pattern of the application that
    is malformed or in conflict, or a base path that is no pattern. *)
Definition start_error (build : BuildAppRoutes) (e : goerr) : Prop :=
  (1 < Z.of_nat (length (RuntimeCfg.Roles (Cfg.Runtime cfg))) ∧
     e = errorf "rebff cannot be combined with specialized roles in v0.1.0") ∨
  (∃ e', ParseTrustedProxyCIDRs (Cfg.TrustedProxyCIDRs (Cfg.HTTP cfg)) = Err e' ∧ e = ErrWrap "trusted proxy CIDRs" e') ∨
  (Cfg.Issuer (Cfg.OIDC cfg) ≠ "" ∧ ∃ e' w1 w2,
     OIDC.New (OIDC.mkConfig (Cfg.Issuer (Cfg.OIDC cfg)) (Cfg.ClientID (Cfg.OIDC cfg)) (Cfg.ClientSecret (Cfg.OIDC cfg))
       (Cfg.Scopes (Cfg.OIDC cfg))) w1 = (Err e', w2) ∧ e = ErrWrap "initialize oidc provider" e') ∨
  (Cfg.Backend (Cfg.Store cfg) = "redis" ∧ ∃ e',
     (Redis.New redis_ParseURL (Cfg.RedisURL (Cfg.Store cfg)) (Cfg.RedisPrefix (Cfg.Store cfg)) = Err e' ∧
        e = ErrWrap "initialize redis store" e') ∨
     (∃ w1 w2, redis_Ping w1 = (Err e', w2) ∧ e = ErrWrap "redis ping" e')) ∨
  (∃ b d e', build = Some b ∧ b d = Err e' ∧ e = ErrWrap "build application routes" e') ∨
  (∃ b d rs e', build = Some b ∧ b d = Ok rs ∧
     bad_pattern (pattern_of <$> own_patterns (Cfg.MetricsEnabled (Cfg.Telemetry cfg))) rs e' ∧ e = ErrWrap "panic" e') ∨
  malformed_base (Cfg.NormalizedBasePath (Cfg.HTTP cfg)) e.

Lemma build_deps_err build w e w' :
  Cfg.valid_config cfg → build_deps ctx_err ctx_done fuel build cfg w = (Err e, w') →
  e ≠ nil_pointer ∧ start_error build e.
Proof.
  intros Hv. unfold build_deps. destruct (_ <? _) eqn:Hr.
  { intros [= <- _]. split; [done|]. left. by split; [apply Z.ltb_lt|]. }
  destruct (ParseTrustedProxyCIDRs _) as [proxy|e0] eqn:Hp.
  2: { intros [= <- _]. split; [done|]. right; left. by eexists. }
  intros [(e1 & Hb & [= ->])|([provider refresher] & w1 & _ & Hk)]%bind_ok_inv.
  { apply build_provider_err in Hb as (? & e' & w1 & w2 & ? & ->). split; [done|]. do 2 right; left. eauto 10. }
  apply bind_ok_inv in Hk as [(e1 & Hb & [= ->])|(stores & w2 & Hst & Hk)].
  { apply build_stores_err in Hb as (? & e' & Hwhy). split; [by destruct Hwhy as [[_ ->]|(? & ? & _ & ->)]|].
    do 3 right; left. eauto. }
  destruct stores as [stores|]; [|by apply build_stores_none in Hst; [|apply Cfg.vc_store]].
  destruct (Cfg.vc_http _ Hv) as [_ _ _ (u & Hu & _)].
  destruct (PublicEndpoint_some (Cfg.HTTP cfg) "/auth/callback" (Cfg.vc_http _ Hv)) as [cb Hcb].
  destruct (PublicEndpoint_some (Cfg.HTTP cfg) "/" (Cfg.vc_http _ Hv)) as [lo Hlo].
  rewrite Hu, Hcb, Hlo in Hk. cbv zeta in Hk.
  destruct build as [b|]; [|done]. destruct (b _) as [rs|e'] eqn:Hbuild; [done|].
  injection Hk as <- _. split; [done|]. do 4 right; left.
  eexists b, _, e'. split; [done|]. split; [exact Hbuild|done].
Qed.

(** What the router is given of the application. *)
Lemma build_deps_app build w deps w' :
  build_deps ctx_err ctx_done fuel build cfg w = (Ok deps, w') →
  rd_Metrics deps = Cfg.MetricsEnabled (Cfg.Telemetry cfg) ∧
  (build = None ∧ rd_AppRoutes deps = [] ∨ ∃ b d, build = Some b ∧ b d = Ok (rd_AppRoutes deps)).
Proof.
  unfold build_deps. destruct (_ <? _); [done|]. destruct (ParseTrustedProxyCIDRs _) as [proxy|]; [|done].
  intros [(e & _ & [=])|([provider refresher] & w1 & _ & Hk)]%bind_ok_inv.
  apply bind_ok_inv in Hk as [(e & _ & [=])|(stores & w2 & Hst & Hk)].
  destruct stores as [stores|]; [|done]. destruct (Parse _) as [u|]; [|done].
  destruct (Cfg.PublicEndpoint _ "/auth/callback") as [cb|]; [|done].
  destruct (Cfg.PublicEndpoint _ "/") as [lo|]; [|done]. cbv zeta in Hk.
  destruct build as [b|]; [|injection Hk as <- _; by split; [|left]].
  destruct (b _) as [rs|] eqn:Hbuild; [|done]. injection Hk as <- _. split; [done|]. right. eauto.
Qed.

(** A configuration that [Validate] accepts never makes the start dereference a nil
    pointer, and the start fails for these reasons only. *)
Lemma gateway_start_errors build w e w' :
  Cfg.valid_config cfg → gateway ctx_err ctx_done fuel build cfg w = (Err e, w') →
  e ≠ nil_pointer ∧ start_error build e.
Proof.
  intros Hv. unfold gateway. intros [(e1 & Hb & [= ->])|(deps & w1 & Hb & Hk)]%bind_ok_inv.
  { by eapply build_deps_err. }
  unfold NewRouter, panicking in Hk. destruct (register [] (app_routes deps)) as [u|e0] eqn:Hr; cbn [result_bind] in Hk.
  - destruct (mount _ _) as [mounted|e0] eqn:Hm; cbn [result_bind] in Hk; [done|]. injection Hk as <- _.
    split; [done|]. do 6 right. by eapply mount_panics.
  - injection Hk as <- _. split; [done|]. do 5 right; left. apply app_routes_register in Hr.
    apply build_deps_app in Hb as [Hmet [[-> Hnil]|(b & d & -> & Hbd)]].
    + rewrite Hnil in Hr. by destruct Hr as (i & text & h & Hi & _).
    + exists b, d, (rd_AppRoutes deps), e0. rewrite <-Hmet. done.
Qed.
End protection.

(** ** Witnesses *)
Section witnesses.
#[local] Instance gateway_env : Env := sample_env.
#[local] Instance gateway_case : UnicodeCase := ascii_case.
#[local] Instance gateway_ip : IPLiteral := no_literal.
#[local] Instance gateway_mux : MuxVersion := sample_mux_version.
#[local] Instance gateway_size : WireSize := {| body_size _ := 0 |}.
#[local] Instance gateway_print : Registry.PrintTable := {| Registry.is_print _ := true |}.
#[local] Instance gateway_float : FloatText := Cfg.sample_float.
#[local] Instance gateway_net : Net := {|
  IP := string; IPNet := string; ParseIP s := Some s; IP_String s := s;
  ParseCIDR s := Ok s; IPNet_Contains _ _ := false; SplitHostPort s := Ok (s, "80") |}.
#[local] Instance gateway_zone : Zone := utc.
#[local] Instance gateway_host : Host := {| Hostname _ := Ok "host" |}.
(** A Redis server and an identity provider that cannot be reached. *)
#[local] Instance gateway_redis : Redis := {|
  rGet _ := ret (Err (errorf "refused")); rSet _ _ _ := ret (Err (errorf "refused"));
  rDel _ := ret (Err (errorf "refused")); rGetDel _ := ret (Err (errorf "refused"));
  rSetNX _ _ _ := ret (Err (errorf "refused")); rEval _ _ _ := ret (Err (errorf "refused")) |}.
#[local] Instance gateway_start : RedisStart := {|
  RedisOptions := unit; redis_ParseURL _ := Ok tt; redis_Ping := ret (Err (errorf "refused")) |}.
#[local] Instance gateway_oidc : OIDCLib := {|
  OIDC.Discovery := unit; OAuthEndpoint := unit; NewProvider _ _ := Err (errorf "refused");
  Discovery_Claims _ := Err (errorf "none"); Endpoint _ := tt; Verify _ _ _ _ := Err (errorf "none");
  AuthCodeURL _ _ _ _ _ _ _ := ""; OAuth_Exchange _ _ _ _ _ _ _ _ := Err (errorf "none");
  OAuth_Refresh _ _ _ _ _ _ := Err (errorf "none") |}.

Definition gateway_config (store : Cfg.StoreConfig) : Cfg.Config :=
  let c := Cfg.default_config in
  Cfg.mkConfig (Cfg.Runtime c) (Cfg.mkHTTP ":8080" "/app" "https://app.example" []) (Cfg.Telemetry c) (Cfg.Limits c)
    (Cfg.OIDC c) store (Cfg.mkPolicy "static" {["user" := ["items.read"]]} ∅) (Cfg.Session c) (Cfg.Storage c).
Definition memory_config : Cfg.Config := gateway_config (Cfg.mkStore "memory" "" "rebff").
Definition choose_items (r : CoreRouter) : result (list registration) :=
  Ok [("GET /items", "items.read", sample_handler)].
Abbreviation start := (build_deps (λ _, errorf "done") (λ _, None) 0 (core_options (Some (application choose_items)))).
Definition started (cfg : Cfg.Config) : option RouterDeps :=
  match (start cfg empty_world).1 with Ok deps => Some deps | Err _ => None end.
Definition item_request : Request :=
  mkRequest "GET" (path_url "/app/items") "10.0.0.1:1" [] [(SessionCookieName, "sid")] [] "" [] background.
Definition login_world (roles : list string) : World :=
  (MemorySession.Put (mkSession "sid" "alice" "iss" "alice" "" "" roles (clock 0) 0 (clock 0)) empty_world).2.

(** The request is answered by the handler, and refused without the role, without
    the cookie, or below another path. *)
Definition answer (cfg : Cfg.Config) (r : Request) (w : World) : option Z :=
  deps ← started cfg; h ← to_option (NewRouter (Cfg.NormalizedBasePath (Cfg.HTTP cfg)) deps);
  rw_status (h r fresh_rw w).1.
Example gateway_answers :
  (answer memory_config item_request (login_world ["user"]), answer memory_config item_request (login_world ["guest"]),
   answer memory_config item_request empty_world,
   answer memory_config (mkRequest "GET" (path_url "/items") "10.0.0.1:1" [] [] [] "" [] background) empty_world) =
  (Some 200, Some 403, Some 401, Some 404).
Proof. by vm_compute. Qed.
Lemma gateway_protects_application_witness :
  answer memory_config item_request (login_world ["user"]) = Some 200 ∧
  match (start memory_config empty_world).1 with
  | Ok deps => match NewRouter "/app" deps with Ok h0 =>
      let rw' := (h0 item_request fresh_rw (login_world ["user"])).1 in
      ∃ u stores d regs wa wb, Parse "https://app.example" = Ok u ∧
        build_stores (λ _, errorf "done") (λ _, None) 0 (Cfg.Store memory_config) wa = (Ok (Some stores), wb) ∧
        let secure := bool_decide (u_Scheme u = "https") in
        choose_items (mkCore d []) = Ok regs ∧
        (own_page (rw_log rw') ∨
         (∃ text h r1 rw1 w1, rw' = (h r1 rw1 w1).1 ∧
            (text, h) ∈ RegisterSystemRoutes (rd_Readiness deps) (if rd_Metrics deps then Some metrics_handler else None)
                        ++ auth_routes (rd_Auth deps)) ∨
         ∃ pattern permission handler r1 rw1 w1,
           (pattern, permission, handler) ∈ regs ∧ rw' = (handler r1 rw1 w1).1 ∧ rw_log rw1 = [] ∧ secured rw1 ∧
           same_message item_request r1 ∧ serves (pattern_of pattern) "GET" ∧
           csrf_passes (mkCSRF "https://app.example" secure (CSRFCookieNameFor secure)) item_request ∧
           (permission ≠ "" → ∃ s, authorised memory_config (st_Sessions stores) secure item_request permission s ∧
                                  AuthenticatedSession (r_Context r1) = Some s))
      | Err _ => False end
  | Err _ => False
  end.
Proof.
  split; [by vm_compute|].
  assert (match (start memory_config empty_world).1 with
          | Ok deps => is_ok (NewRouter "/app" deps) | Err _ => false end = true) as Hok by (by vm_compute).
  destruct (start memory_config empty_world) as [[deps|e] w] eqn:Hs; [|discriminate Hok]. cbn [fst] in Hok |- *.
  destruct (NewRouter "/app" deps) as [h0|e] eqn:Hn; [|discriminate Hok].
  apply (gateway_protects_application (λ _, errorf "done") (λ _, None) 0 memory_config choose_items deps empty_world w h0
           item_request fresh_rw (login_world ["user"]) Hs Hn).
  - intros i l [= <-]. reflexivity.
  - reflexivity.
Defined.

(** An application that takes a pattern of the server ends the start. *)
Example application_pattern_conflict :
  match (gateway (λ _, errorf "done") (λ _, None) 0
           (core_options (Some (application (λ _, Ok [("GET /api/{x}", "", sample_handler); ("GET /api/me", "", sample_handler)]))))
           memory_config empty_world).1 with Err e => Some e | Ok _ => None end =
  Some (ErrWrap "panic" (errorf "pattern GET /api/me conflicts")).
Proof. by vm_compute. Qed.

(** A Redis server that does not answer ends the start. *)
Example redis_unreachable :
  (start (gateway_config (Cfg.mkStore "redis" "redis://cache" "rebff")) empty_world).1 =
    Err (ErrWrap "redis ping" (errorf "refused")).
Proof. by vm_compute. Qed.
End witnesses.
