(* ===== verification/Program.v ===== *)
(** * The program: [RunWith] of internal/app/app.go, cmd/gateway-runtime

    The environment is loaded and the role it selects decides what the process
    serves: the gateway of Gateway.v or the role server of RoleServer.v.  A panic
    while the routes are registered ends the start as an error does.  What
    follows is the process life cycle, of which only the way the process ends is
    modelled. *)

From S2P Require Import Prelude GoStrings GoURL GoQuery RuntimeCfg World GoNumbers GoJSON GoTime GoStruct Session.
From S2P Require Import Token Auth Policy Metrics Http Middleware Mux AuthHTTP Redis Limits Router.
From S2P Require Import StorageContract StorageRole AppConfig Outbound Signer OIDC AppAPI App RoleServer Gateway.
Open Scope Z_scope.

Section program.
Context `{Env} `{Net} `{UnicodeCase} `{IPLiteral} `{MuxVersion} `{WireSize} `{Registry.PrintTable} `{FloatText}.
Context `{Zone} `{Redis} `{RedisStart} `{OIDCLib} `{Host} `{Network} `{App.Discovery} `{RangeOrder}.
Context (ctx_err : nat → goerr) (ctx_done : nat → option goerr) (fuel : nat) (order : gset string → list string).

(** The handler that the process listens with, or the error with which it ends. *)
Definition RunWith (build : BuildAppRoutes) (env : gmap string string) : M (result Handler) :=
  match Cfg.LoadConfig env with
  | Err e => ret (Err (ErrWrap "load config" e))
  | Ok cfg =>
      if negb (RuntimeCfg.HasRole (Cfg.Runtime cfg) RuntimeCfg.RoleREBFF) then
        match role_config cfg with
        | Err e => ret (Err e)
        | Ok role => ret (panicking (Run role order))
        end
      else gateway ctx_err ctx_done fuel build cfg
  end.
(** [Run] and main of cmd/gateway-runtime *)
Definition main : gmap string string → M (result Handler) := RunWith None.

(** *** Lemmas *)
Lemma role_config_other cfg :
  RuntimeCfg.HasRole (Cfg.Runtime cfg) RuntimeCfg.RoleStorage = false → ∃ role, role_config cfg = Ok role.
Proof. unfold role_config. intros ->. cbv zeta. cbn [andb when result_bind]. by eexists. Qed.

Lemma role_config_keeps cfg role :
  role_config cfg = Ok role → sel role = Cfg.Runtime cfg ∧ BasePath role = Cfg.NormalizedBasePath (Cfg.HTTP cfg).
Proof.
  unfold role_config. cbv zeta. intros Hr. do 4 apply result_bind_ok in Hr as (? & _ & Hr). by injection Hr as <-.
Qed.

(** The routes of a loaded configuration register; only the base path may not. *)
Lemma Run_err env cfg role e :
  Cfg.LoadConfig env = Ok cfg → role_config cfg = Ok role → Run role order = Err e →
  malformed_base (Cfg.NormalizedBasePath (Cfg.HTTP cfg)) (ErrWrap "panic" e).
Proof.
  intros Hl [Hsel Hbase]%role_config_keeps. destruct (Cfg.LoadConfig_valid _ _ Hl) as [_ Hv]. unfold Run.
  rewrite runtime_routes_register.
  - cbn [result_bind]. rewrite Hbase. apply mount_panics.
  - by rewrite Hsel.
  - rewrite Hsel. intros r. by eapply Cfg.LoadConfig_caps_NoDup.
Qed.

Lemma panicking_inv {A} (r r' : result A) :
  panicking r = r' → (∃ a, r = Ok a ∧ r' = Ok a) ∨ ∃ e, r = Err e ∧ r' = Err (ErrWrap "panic" e).
Proof. intros <-. destruct r; eauto. Qed.

(** Two roles make a list of more than one. *)
Lemma two_roles (l : list string) a b : a ∈ l → b ∈ l → a ≠ b → 1 < Z.of_nat (length l).
Proof.
  intros Ha Hb Hne. destruct l as [|x [|y l]]; [by apply elem_of_nil in Ha| |simpl; lia].
  apply list_elem_of_singleton in Ha, Hb. congruence.
Qed.

(** The process serves what the loaded configuration selects. *)
Definition served (build : BuildAppRoutes) (cfg : Cfg.Config) (h : Handler) : Prop :=
  if RuntimeCfg.HasRole (Cfg.Runtime cfg) RuntimeCfg.RoleREBFF
  then ∃ w deps w', build_deps ctx_err ctx_done fuel build cfg w = (Ok deps, w') ∧
         NewRouter (Cfg.NormalizedBasePath (Cfg.HTTP cfg)) deps = Ok h
  else ∃ role, role_config cfg = Ok role ∧ Run role order = Ok h.

(** Why a process with a loaded configuration ends. *)
Definition role_error (build : BuildAppRoutes) (cfg : Cfg.Config) (e : goerr) : Prop :=
  if RuntimeCfg.HasRole (Cfg.Runtime cfg) RuntimeCfg.RoleREBFF then start_error cfg build e
  else (RuntimeCfg.HasRole (Cfg.Runtime cfg) RuntimeCfg.RoleStorage = true ∧
          discovery_failed (Cfg.WorkloadAuth (Cfg.Storage cfg)) e) ∨
       malformed_base (Cfg.NormalizedBasePath (Cfg.HTTP cfg)) e.

(** The start of the specialised roles. *)
Lemma role_start env cfg r :
  Cfg.LoadConfig env = Ok cfg →
  match role_config cfg with Err e => Err e | Ok role => panicking (Run role order) end = r →
  match r with
  | Ok h => ∃ role, role_config cfg = Ok role ∧ Run role order = Ok h
  | Err e => (RuntimeCfg.HasRole (Cfg.Runtime cfg) RuntimeCfg.RoleStorage = true ∧
                discovery_failed (Cfg.WorkloadAuth (Cfg.Storage cfg)) e) ∨
             malformed_base (Cfg.NormalizedBasePath (Cfg.HTTP cfg)) e
  end.
Proof.
  intros Hl. destruct (role_config cfg) as [role|e] eqn:Hr.
  - intros [(h & Hh & ->)|(e & He & ->)]%panicking_inv; [eauto|]. right. by eapply Run_err.
  - intros <-. left. destruct (RuntimeCfg.HasRole _ RuntimeCfg.RoleStorage) eqn:Hst.
    2: { destruct (role_config_other cfg Hst) as [role Hok]. congruence. }
    split; [done|]. destruct (loaded_role_complete _ _ Hl Hst) as [(e' & Hd & He')|(role & Hok & _)]; congruence.
Qed.

Lemma RunWith_role build env cfg w :
  Cfg.LoadConfig env = Ok cfg → RuntimeCfg.HasRole (Cfg.Runtime cfg) RuntimeCfg.RoleREBFF = false →
  RunWith build env w = (match role_config cfg with Err e => Err e | Ok role => panicking (Run role order) end, w).
Proof. unfold RunWith. intros -> ->. cbn [negb]. by destruct (role_config cfg). Qed.

(** C27: the process never starts half configured.  For every environment it either
    serves the handler that the loaded configuration selects, the gateway's or the
    role server's, or ends before it listens, and every end has one of these
    reasons with its own error.  The environment is refused by [LoadConfig]; the
    base path has a blank or a brace in it and is no pattern, a panic that
    [Validate] does not prevent; for the specialised roles, the storage role is
    selected and its workload identity provider cannot be discovered; for the
    gateway, one of the reasons of [start_error]: other roles beside rebff, a trusted
    proxy range that does not parse, an identity provider that cannot be discovered,
    a Redis server that cannot be configured or reached, an error of the application
    or a panic over one of its patterns.  In no environment does the start
    dereference a nil pointer. *)
Theorem program_starts_or_explains build env w r w' :
  RunWith build env w = (r, w') →
  match r with
  | Ok h => ∃ cfg, Cfg.LoadConfig env = Ok cfg ∧ served build cfg h
  | Err e => e ≠ nil_pointer ∧
      ((∃ e', Cfg.LoadConfig env = Err e' ∧ e = ErrWrap "load config" e') ∨
       ∃ cfg, Cfg.LoadConfig env = Ok cfg ∧ role_error build cfg e)
  end.
Proof.
  destruct (Cfg.LoadConfig env) as [cfg|e] eqn:Hl.
  2: { unfold RunWith. rewrite Hl. intros [= <- _]. split; [done|]. left. by eexists. }
  destruct (Cfg.LoadConfig_valid _ _ Hl) as [Hv _]. unfold served, role_error.
  destruct (RuntimeCfg.HasRole (Cfg.Runtime cfg) RuntimeCfg.RoleREBFF) eqn:Hrebff.
  - unfold RunWith. rewrite Hl, Hrebff. cbn [negb]. intros Hg. destruct r as [h|e].
    + exists cfg. split; [done|]. rewrite Hrebff. unfold gateway in Hg.
      apply bind_ok_inv in Hg as [(e & _ & [=])|(deps & w1 & Hb & Hk)]. exists w, deps, w1. split; [done|].
      injection Hk as Hk _. apply panicking_inv in Hk as [(h' & -> & [= ->])|(e & _ & [=])]. done.
    + apply gateway_start_errors in Hg as [Hn Hs]; [|done]. split; [done|]. right. exists cfg. by rewrite Hrebff.
  - rewrite (RunWith_role build env cfg w Hl Hrebff). intros [= Hr _].
    pose proof (role_start env cfg r Hl Hr) as Hres. destruct r as [h|e]; [exists cfg; by rewrite Hrebff|].
    split; [by destruct Hres as [(_ & _ & e' & _ & ->)|(_ & e' & _ & ->)]|]. right. exists cfg. by rewrite Hrebff.
Qed.

(** C20: start-up with the storage role is complete.  Take any environment that
    [LoadConfig] accepts with the storage role selected.  Beside rebff the start
    always fails, with the error that says so.  Otherwise it fails only when the
    discovery of the workload identity provider fails or the base path is no
    pattern, with these errors; and when it succeeds, the server that runs has an
    access policy if it has targets, a token verifier if workload authentication is
    required, ordered positive life times, and, if it has targets and a signer or
    provider is configured at all, a signer with multipart and metadata support for
    every target. *)
Theorem storage_start_complete build env c w r w' :
  Cfg.LoadConfig env = Ok c → RuntimeCfg.HasRole (Cfg.Runtime c) RuntimeCfg.RoleStorage = true →
  RunWith build env w = (r, w') →
  if RuntimeCfg.HasRole (Cfg.Runtime c) RuntimeCfg.RoleREBFF
  then r = Err (errorf "rebff cannot be combined with specialized roles in v0.1.0")
  else match r with
       | Err e => discovery_failed (Cfg.WorkloadAuth (Cfg.Storage c)) e ∨
                  malformed_base (Cfg.NormalizedBasePath (Cfg.HTTP c)) e
       | Ok h => ∃ cfg, role_config c = Ok cfg ∧ Run cfg order = Ok h ∧ complete_role c cfg
       end.
Proof.
  intros Hl Hst. destruct (RuntimeCfg.HasRole _ RuntimeCfg.RoleREBFF) eqn:Hrebff.
  - unfold RunWith. rewrite Hl, Hrebff. cbn [negb]. unfold gateway, build_deps. apply RuntimeCfg.has_role_spec in Hrebff, Hst.
    pose proof (two_roles _ _ _ Hrebff Hst ltac:(done)) as Hlen. apply Z.ltb_lt in Hlen. rewrite Hlen. by intros [= <- _].
  - rewrite (RunWith_role build env c w Hl Hrebff). intros [= Hr _].
    pose proof (role_start env c r Hl Hr) as Hres. destruct r as [h|e]; [|naive_solver].
    destruct Hres as (role & Hok & Hrun). exists role. split; [done|]. split; [done|].
    destruct (loaded_role_complete _ _ Hl Hst) as [(e & _ & He)|(role' & Hok' & Hc)]; congruence.
Qed.
End program.

(** ** The end of the process *)

(** What the [select] of [RunWith] and of roleruntime's [Run] waits for: a signal,
    or the end of the server with its error. *)
Inductive ServerEvent := Signalled | Ended (err : option goerr).
(** http.ErrServerClosed *)
Definition server_closed : goerr := errorf "http: Server closed".
Definition await (event : ServerEvent) (shutdown : result unit) : result unit :=
  match event with
  | Signalled => shutdown
  | Ended None => Ok tt
  | Ended (Some e) => if bool_decide (e = server_closed) then Ok tt else Err (ErrWrap "http server" e)
  end.

(** ** Witness *)
Section witnesses.
#[local] Existing Instances gateway_env gateway_case gateway_ip gateway_mux gateway_size gateway_print gateway_float
  gateway_net gateway_zone gateway_host gateway_redis gateway_start gateway_oidc start_network start_discovery start_order.
Abbreviation boot := (RunWith (λ _, errorf "done") (λ _, None) 0 elements None).

(** The defaults start; the storage role with a provider that cannot be discovered,
    an unreachable Redis, a wrong number, two roles and a base path that is no
    pattern do not. *)
Definition oidc_workload_env : gmap string string :=
  list_to_map [("GATEWAY_ROLE", "storage"); ("STORAGE_WORKLOAD_AUTH_MODE", "oidc");
               ("STORAGE_WORKLOAD_OIDC_ISSUER", "https://idp"); ("STORAGE_WORKLOAD_OIDC_AUDIENCE", "storage")].
Definition two_roles_env : gmap string string := <["GATEWAY_ROLE" := "rebff,storage"]> storage_env.
Definition brace_env : gmap string string := {["BFF_HTTP_BASE_PATH" := "/{x"]}.
Example boot_results :
  (λ env, is_ok (boot env empty_world).1) <$>
    [∅; storage_env; oidc_workload_env; {["BFF_STORE_BACKEND" := "redis"; "BFF_REDIS_URL" := "redis://cache"]};
     {["BFF_SESSION_IDLE_TIMEOUT" := "soon"]}; two_roles_env; brace_env; <["BFF_HTTP_BASE_PATH" := "/a b"]> storage_env]
  = [true; true; false; false; false; false; false; false].
Proof. by vm_compute. Qed.

(** Those that the configuration accepts all the same. *)
Example accepted_environments :
  forallb (λ env, is_ok (Cfg.LoadConfig env))
    [oidc_workload_env; two_roles_env; brace_env; <["BFF_HTTP_BASE_PATH" := "/a b"]> storage_env] = true.
Proof. by vm_compute. Qed.

Lemma program_starts_or_explains_witness :
  match (boot brace_env empty_world).1 with
  | Ok _ => False
  | Err e => e ≠ nil_pointer ∧
      ((∃ e', Cfg.LoadConfig brace_env = Err e' ∧ e = ErrWrap "load config" e') ∨
       ∃ cfg, Cfg.LoadConfig brace_env = Ok cfg ∧ role_error None cfg e)
  end.
Proof.
  assert (is_ok (boot brace_env empty_world).1 = false) as Hf by (by vm_compute).
  destruct (boot brace_env empty_world) as [[h|e] w] eqn:Hb; [discriminate Hf|].
  apply (program_starts_or_explains (λ _, errorf "done") (λ _, None) 0 elements None brace_env empty_world (Err e) w Hb).
Defined.

Lemma storage_start_complete_witness :
  match (boot storage_env empty_world).1 with
  | Ok h => ∃ cfg, role_config storage_config = Ok cfg ∧ Run cfg elements = Ok h ∧ complete_role storage_config cfg
  | Err _ => False
  end.
Proof.
  assert (is_ok (boot storage_env empty_world).1 = true) as Hf by (by vm_compute).
  destruct (boot storage_env empty_world) as [[h|e] w] eqn:Hb; [|discriminate Hf].
  assert (Cfg.LoadConfig storage_env = Ok storage_config) as Hl by run.
  assert (RuntimeCfg.HasRole (Cfg.Runtime storage_config) RuntimeCfg.RoleStorage = true) as Hst by run.
  assert (RuntimeCfg.HasRole (Cfg.Runtime storage_config) RuntimeCfg.RoleREBFF = false) as Hno by run.
  pose proof (storage_start_complete (λ _, errorf "done") (λ _, None) 0 elements None storage_env storage_config
                empty_world (Ok h) w Hl Hst Hb) as Hs.
  rewrite Hno in Hs. exact Hs.
Defined.
End witnesses.
