(* ===== verification/Portal.v ===== *)
(** * The example application: examples/asset-portal

    An application of package core: it reads assets from one service and asks
    another one for upload addresses, both through protected JSON clients, with
    its routes registered under permissions.  The theorem follows a request
    through the whole gateway of Gateway.v into this application. *)

From S2P Require Import Prelude GoStrings GoURL GoQuery RuntimeCfg World GoNumbers GoJSON GoTime GoStruct Session.
From S2P Require Import Token Auth Policy Metrics Http Middleware Mux AuthHTTP Redis Limits Router.
From S2P Require Import StorageContract StorageRole AppConfig Outbound Signer OIDC AppAPI App Gateway.
Open Scope Z_scope.

(** ** internal/asset/client.go *)
Record Asset := mkAsset {
  as_ID : string;
  as_Name : string;
  as_Serial : string;
  as_Status : string;
  as_ProjectID : string;
}.
Definition zero_asset : Asset := mkAsset "" "" "" "" "".
Definition asset_decoders : decoders Asset :=
  [("id", dec_string (λ a x, mkAsset x (as_Name a) (as_Serial a) (as_Status a) (as_ProjectID a)));
   ("name", dec_string (λ a x, mkAsset (as_ID a) x (as_Serial a) (as_Status a) (as_ProjectID a)));
   ("serial", dec_string (λ a x, mkAsset (as_ID a) (as_Name a) x (as_Status a) (as_ProjectID a)));
   ("status", dec_string (λ a x, mkAsset (as_ID a) (as_Name a) (as_Serial a) x (as_ProjectID a)));
   ("project_id", dec_string (λ a x, mkAsset (as_ID a) (as_Name a) (as_Serial a) (as_Status a) x))].
Definition asset_json (a : Asset) : json :=
  JObj ([("id", JStr (as_ID a)); ("name", JStr (as_Name a)); ("serial", JStr (as_Serial a));
         ("status", JStr (as_Status a))]
        ++ if bool_decide (as_ProjectID a = "") then [] else [("project_id", JStr (as_ProjectID a))]).

Definition asset_Get (HTTP : JSONDoer) (sessionID id : string) : M (result Asset) :=
  try out := HTTP Asset sessionID "GET" ("/api/assets/" +:+ id) (Ok "") (Some (Unmarshal asset_decoders zero_asset)) in
  ret (Ok (default zero_asset out)).

(** ** internal/storage/client.go *)
Record UploadRequest := mkUpload {
  up_ObjectKey : string;
  up_ContentType : string;
  up_TTLSeconds : Z;
}.
Record UploadResponse := mkUploadResponse {
  us_Method : string;
  us_URL : string;
  us_ExpiresAt : string;
}.
Definition marshal_upload (u : UploadRequest) : result string :=
  Ok (Marshal (VObj [("object_key", json_string (up_ObjectKey u)); ("content_type", json_string (up_ContentType u));
                     ("ttl_seconds", json_int (up_TTLSeconds u))])).
Definition zero_response : UploadResponse := mkUploadResponse "" "" "".
Definition response_decoders : decoders UploadResponse :=
  [("method", dec_string (λ u x, mkUploadResponse x (us_URL u) (us_ExpiresAt u)));
   ("url", dec_string (λ u x, mkUploadResponse (us_Method u) x (us_ExpiresAt u)));
   ("expires_at", dec_string (λ u x, mkUploadResponse (us_Method u) (us_URL u) x))].
Definition response_json (u : UploadResponse) : json :=
  JObj [("method", JStr (us_Method u)); ("url", JStr (us_URL u)); ("expires_at", JStr (us_ExpiresAt u))].

Definition PresignUpload (HTTP : JSONDoer) (sessionID : string) (req : UploadRequest) : M (result UploadResponse) :=
  try out := HTTP UploadResponse sessionID "POST" "/api/presign/upload" (marshal_upload req)
               (Some (Unmarshal response_decoders zero_response)) in
  ret (Ok (default zero_response out)).

(** ** internal/routes/routes.go *)

(** [assetIDPattern.MatchString], the expression ^[A-Za-z0-9_-]{1,64}$ *)
Definition id_byte (c : ascii) : bool :=
  let n := nat_of_ascii c in
  ((65 <=? n) && (n <=? 90) || (97 <=? n) && (n <=? 122) || (48 <=? n) && (n <=? 57))%nat
  || Ascii.eqb c "_" || Ascii.eqb c "-".
Definition assetIDPattern (id : string) : bool :=
  (1 <=? len id) && (len id <=? 64) && forallb id_byte (bytes id).

Definition allowed_types : list string := ["application/pdf"; "image/jpeg"; "image/png"].
Definition allowedContentType (v : string) : bool := bool_decide (v ∈ allowed_types).

Record uploadInput := mkInput { in_Filename : string; in_ContentType : string }.
Definition input_decoders : decoders uploadInput :=
  [("filename", dec_string (λ i x, mkInput x (in_ContentType i)));
   ("content_type", dec_string (λ i x, mkInput (in_Filename i) x))].
(** The decoder reads the body as far as the middlewares allow. *)
Definition decode_input (r : Request) : result uploadInput :=
  Decode true (body_allowance r (len (r_Body r))) input_decoders (mkInput "" "") (r_Body r).

Definition object_key (id : string) (nanos : Z) (filename : string) : string :=
  "assets/" +:+ id +:+ "/attachments/" +:+ FormatInt nanos +:+ "-" +:+ filename.

Section routes.
Context `{Env} (assets storage : JSONDoer).

Definition asset_route : Handler := λ r rw,
  let id := path_value r "id" in
  if negb (assetIDPattern id) then ret (http_Error "invalid asset id" StatusBadRequest rw) else
  match SessionID r with
  | None => ret (http_Error "unauthorized" StatusUnauthorized rw)
  | Some sessionID =>
      do result := asset_Get assets sessionID id in
      match result with
      | Err err => ret (WriteError (Some err) rw)
      | Ok result => ret (WriteJSON StatusOK (asset_json result) rw)
      end
  end.

Definition attachment_route : Handler := λ r rw,
  let id := path_value r "id" in
  if negb (assetIDPattern id) then ret (http_Error "invalid asset id" StatusBadRequest rw) else
  match SessionID r with
  | None => ret (http_Error "unauthorized" StatusUnauthorized rw)
  | Some sessionID =>
      match decode_input r with
      | Err _ => ret (http_Error "invalid request" StatusBadRequest rw)
      | Ok inp =>
          if negb (allowedContentType (in_ContentType inp))
          then ret (http_Error "unsupported content type" StatusBadRequest rw) else
          let filename := path_Base (TrimSpace (in_Filename inp)) in
          if bool_decide (filename = "." ∨ filename = "/" ∨ filename = "") || (128 <? len filename)
          then ret (http_Error "invalid filename" StatusBadRequest rw) else
          do t := now in
          do result := PresignUpload storage sessionID
            (mkUpload (object_key id (UnixNano t) filename) (in_ContentType inp) 300) in
          match result with
          | Err err => ret (WriteError (Some err) rw)
          | Ok result => ret (WriteJSON StatusOK (response_json result) rw)
          end
      end
  end.
End routes.

Definition asset_pattern : string := "GET /api/assets/{id}".
Definition attachment_pattern : string := "POST /api/assets/{id}/attachments/upload-url".
Definition client_options (maxConcurrent : Z) : ClientOptions := mkClientOptions (3 * Second) maxConcurrent 5 (15 * Second).

(** [Register], as the registrations it makes on the router it is given *)
Definition portal_Register `{Env} `{UnicodeCase} `{IPLiteral} `{Network} (env : gmap string string) (r : CoreRouter)
    : result (list registration) :=
  let url name fallback := or_else (TrimSpace (Cfg.Getenv env name)) fallback in
  match NewJSONClient r "asset-api" (url "ASSET_API_URL" "http://127.0.0.1:19001") (client_options 64) with
  | Err e => Err (ErrWrap "asset client" e)
  | Ok assetHTTP =>
      match NewJSONClient r "storage-api" (url "STORAGE_API_URL" "http://127.0.0.1:19002") (client_options 32) with
      | Err e => Err (ErrWrap "storage client" e)
      | Ok storageHTTP =>
          Ok [(asset_pattern, "asset.read", asset_route (as_doer assetHTTP));
              (attachment_pattern, "storage.upload", attachment_route (as_doer storageHTTP))]
      end
  end.

(** ** Properties *)

(** Everything but nil is reported as an error. *)
Lemma HTTPStatus_error err : 400 ≤ HTTPStatus (Some err).
Proof.
  unfold HTTPStatus. destruct (errors_As err) as [[[kind st] msg]|]; [|done].
  repeat (case_match; [done|]). case_match; [|done]. bool_inv. lia.
Qed.
(** An error page, and nothing else. *)
Lemma page_own text st rw : rw_log rw = [] → 300 ≤ st → own_page (rw_log (http_Error text st rw)).
Proof. intros Hlog Hst. exists st, (BText text). by rewrite http_Error_log, Hlog. Qed.
Lemma WriteError_own err rw : rw_log rw = [] → own_page (rw_log (WriteError (Some err) rw)).
Proof. intros Hlog. apply page_own; [done|]. pose proof (HTTPStatus_error err). lia. Qed.
Lemma WriteJSON_answer v rw : rw_log rw = [] →
  rw_status (WriteJSON StatusOK v rw) = Some StatusOK ∧ rw_body (WriteJSON StatusOK v rw) = [BJson v].
Proof. intros Hlog. unfold WriteJSON, rw_status, rw_body, push, set_header. cbn [rw_log]. by rewrite Hlog. Qed.

Lemma path_Base_no_slash p : path_Base p ≠ "/" → "/"%char ∉ bytes (path_Base p).
Proof.
  unfold path_Base. case_bool_decide; [set_solver|]. case_bool_decide as Hb; [done|]. intros _.
  destruct (list.last (Split (TrimRight p "/") "/")) as [s|] eqn:Hl; cbn [default]; [|set_solver].
  apply list.last_Some_elem_of in Hl. pose proof (Split_no_sep (TrimRight p "/") "/") as Hall.
  rewrite list.Forall_forall in Hall. by apply Hall.
Qed.

Lemma digit_no_slash n : digit (n mod 10) ≠ "/"%char.
Proof.
  assert (0 ≤ n mod 10 < 10) as Hr by (apply Z.mod_pos_bound; lia). generalize dependent (n mod 10). intros k Hk.
  assert (∃ i : nat, k = Z.of_nat i ∧ (i < 10)%nat) as (i & -> & Hi) by (exists (Z.to_nat k); lia).
  do 10 (destruct i as [|i]; [done|]). lia.
Qed.
Lemma format_no_slash fuel n acc : "/"%char ∉ acc → "/"%char ∉ format_digits fuel n acc.
Proof.
  revert n acc. induction fuel as [|fuel IH]; intros n acc Hacc; [done|]. cbn [format_digits]. cbv zeta.
  assert ("/"%char ∉ digit (n mod 10) :: acc).
  { rewrite not_elem_of_cons. split; [|done]. intros Heq. by apply (digit_no_slash n). }
  destruct (n <? 10); [done|by apply IH].
Qed.
Lemma FormatInt_no_slash n : "/"%char ∉ bytes (FormatInt n).
Proof.
  unfold FormatInt, format_nat. rewrite bytes_of_bytes. destruct (n <? 0).
  - rewrite not_elem_of_cons. split; [done|]. apply format_no_slash. set_solver.
  - apply format_no_slash. set_solver.
Qed.

Lemma id_no_slash id : assetIDPattern id = true → good_segment id.
Proof.
  unfold assetIDPattern. rewrite !andb_true_iff, forallb_forall. intros [[Hlen _] Hall]. split.
  { intros ->. done. }
  assert (∀ c, c ∈ bytes id → id_byte c = true) as Hb by (intros c Hc; apply Hall; by apply list_elem_of_In).
  split; [intros ->; specialize (Hb "."%char ltac:(set_solver)); done|].
  split; [intros ->; specialize (Hb "."%char ltac:(set_solver)); done|].
  intros Hc. specialize (Hb _ Hc). done.
Qed.

(** The keys that the portal asks upload addresses for: below the attachments of
    the asset, one more segment, nothing that leads elsewhere. *)
Definition attachment_key (id key : string) : Prop :=
  ∃ last, Split key "/" = ["assets"; id; "attachments"; last] ∧ Forall good_segment (Split key "/").

Lemma object_key_confined id n filename :
  assetIDPattern id = true → "/"%char ∉ bytes filename → attachment_key id (object_key id n filename).
Proof.
  intros Hid Hf. apply id_no_slash in Hid. set (last := FormatInt n +:+ "-" +:+ filename).
  assert (good_segment last) as Hlast.
  { destruct (FormatInt_starts n) as (c & l & Hfmt & Hstart).
    assert (bytes last = c :: l ++ "-"%char :: bytes filename) as Hb.
    { unfold last. by rewrite !bytes_app, Hfmt. }
    assert (∀ s, bytes s = [] ∨ (∃ k, bytes s = "."%char :: k) → last ≠ s) as Hne.
    { intros s [Hs|[k Hs]] <-; rewrite Hb in Hs; [done|]. injection Hs as -> _. done. }
    repeat split; [apply Hne; by left|apply Hne; right; by eexists..|].
    unfold last. rewrite !bytes_app, !elem_of_app. intros [Hin|[Hin|Hin]]; [by apply FormatInt_no_slash in Hin| |done].
    set_solver. }
  assert (object_key id n filename = Join ["assets"; id; "attachments"; last] "/") as ->.
  { unfold object_key, last. apply bytes_inj. cbn [Join]. rewrite !bytes_app. reflexivity. }
  assert (Forall good_segment ["assets"; id; "attachments"; last]) as Hall.
  { repeat apply list.Forall_cons_2; try done; repeat split; try done; set_solver. }
  exists last. rewrite Split_Join; [done|done|]. eapply list.Forall_impl; [exact Hall|]. by intros s (_ & _ & _ & ?).
Qed.

Section routes_cases.
Context `{Env} (HTTP : JSONDoer) (r : Request) (rw : RW) (w : World) (Hlog : rw_log rw = []).

(** What [DoJSON] is asked for and what the client gets. *)
Definition asset_answer (id sid : string) (rw' : RW) : Prop :=
  ∃ out w1 w2, HTTP Asset sid "GET" ("/api/assets/" +:+ id) (Ok "") (Some (Unmarshal asset_decoders zero_asset)) w1 =
      (Ok out, w2) ∧
    rw_status rw' = Some StatusOK ∧ rw_body rw' = [BJson (asset_json (default zero_asset out))].
Definition upload_answer (id sid : string) (rw' : RW) : Prop :=
  ∃ key ct out w1 w2, attachment_key id key ∧ ct ∈ allowed_types ∧
    HTTP UploadResponse sid "POST" "/api/presign/upload" (marshal_upload (mkUpload key ct 300))
      (Some (Unmarshal response_decoders zero_response)) w1 = (Ok out, w2) ∧
    rw_status rw' = Some StatusOK ∧ rw_body rw' = [BJson (response_json (default zero_response out))].

Lemma asset_route_cases :
  let rw' := (asset_route HTTP r rw w).1 in
  own_page (rw_log rw') ∨
  ∃ sid, assetIDPattern (path_value r "id") = true ∧ SessionID r = Some sid ∧ asset_answer (path_value r "id") sid rw'.
Proof.
  unfold asset_route. destruct (assetIDPattern _) eqn:Hid; cbn [negb]; [|left; by apply page_own].
  destruct (SessionID r) as [sid|] eqn:Hsid; [|left; by apply page_own].
  unfold asset_Get, bind_ok, bind. destruct (HTTP _ _ _ _ _ _ w) as [[out|e] w1] eqn:Hcall.
  - right. exists sid. split; [done|]. split; [done|]. exists out, w, w1. split; [done|]. by apply WriteJSON_answer.
  - left. by apply WriteError_own.
Qed.

Lemma attachment_route_cases :
  let rw' := (attachment_route HTTP r rw w).1 in
  own_page (rw_log rw') ∨
  ∃ sid, assetIDPattern (path_value r "id") = true ∧ SessionID r = Some sid ∧ upload_answer (path_value r "id") sid rw'.
Proof.
  unfold attachment_route. destruct (assetIDPattern _) eqn:Hid; cbn [negb]; [|left; by apply page_own].
  destruct (SessionID r) as [sid|] eqn:Hsid; [|left; by apply page_own].
  destruct (decode_input r) as [inp|e]; [|left; by apply page_own].
  destruct (allowedContentType _) eqn:Hct; cbn [negb]; [|left; by apply page_own].
  apply bool_decide_eq_true in Hct. cbv zeta. set (filename := path_Base _).
  destruct (bool_decide _ || _) eqn:Hf; [left; by apply page_own|].
  apply orb_false_iff in Hf as [Hf _]. apply bool_decide_eq_false in Hf.
  unfold PresignUpload, now, oracle, bind_ok, bind.
  destruct (HTTP _ _ _ _ _ _ (tick w)) as [[out|e] w1] eqn:Hcall.
  - right. exists sid. split; [done|]. split; [done|]. eexists _, _, out, (tick w), w1.
    split; [|split; [exact Hct|split; [exact Hcall|by apply WriteJSON_answer]]].
    apply object_key_confined; [done|]. apply path_Base_no_slash. naive_solver.
  - left. by apply WriteError_own.
Qed.
End routes_cases.

Lemma portal_Register_ok `{Env} `{UnicodeCase} `{IPLiteral} `{Network} env r regs :
  portal_Register env r = Ok regs →
  ∃ assets storage, regs = [(asset_pattern, "asset.read", asset_route (as_doer assets));
                            (attachment_pattern, "storage.upload", attachment_route (as_doer storage))].
Proof.
  unfold portal_Register. cbv zeta. destruct (NewJSONClient r "asset-api" _ _) as [a|]; [|done].
  destruct (NewJSONClient r "storage-api" _ _) as [s|]; [|done]. intros [= <-]. by exists a, s.
Qed.

(** With secure cookies the session that handlers name to the upstream is the one
    in the cookie that the permission check reads. *)
Lemma SessionID_secure r sid cookie :
  SessionID r = Some sid → cookie_get r SessionCookieName = Some cookie → cookie ≠ "" → sid = cookie.
Proof.
  unfold SessionID, nonempty_cookie. intros Hs Hc Hne. rewrite Hc, bool_decide_eq_false_2 in Hs by done. congruence.
Qed.

Section portal.
Context `{Env} `{Net} `{UnicodeCase} `{IPLiteral} `{MuxVersion} `{WireSize} `{Registry.PrintTable} `{FloatText}.
Context `{Zone} `{Redis} `{RedisStart} `{OIDCLib} `{Host} `{Network}.
Context (ctx_err : nat → goerr) (ctx_done : nat → option goerr) (fuel : nat).
Context (cfg : Cfg.Config) (env : gmap string string).

(** C40: the example application, from the browser to the upstream services.  On a
    server started with it a request is answered with a redirect or an error page
    and nothing else, by a health, metrics or authentication route, or with what an
    upstream service returned.  The last happens only after the CSRF check, for a live
    session with a role that the configuration maps to the permission of the
    route, and for an asset id of the documented form; the upstream is called with
    the session of the request's cookie, the one whose permission was checked
    whenever the public address is https; and an upload address is asked for only
    for an allowed content type and a key directly below the attachments of that
    asset, whatever file name was sent. *)
Theorem portal_end_to_end deps w0 w0' h0 r rw w :
  build_deps ctx_err ctx_done fuel (core_options (Some (application (portal_Register env)))) cfg w0 = (Ok deps, w0') →
  NewRouter (Cfg.NormalizedBasePath (Cfg.HTTP cfg)) deps = Ok h0 →
  (∀ i l, rand_read i 16 = Ok l → length l = 16%nat) → rw_log rw = [] →
  let rw' := (h0 r rw w).1 in
  ∃ u stores wa wb, Parse (Cfg.PublicURL (Cfg.HTTP cfg)) = Ok u ∧
    build_stores ctx_err ctx_done fuel (Cfg.Store cfg) wa = (Ok (Some stores), wb) ∧
    let secure := bool_decide (u_Scheme u = "https") in
    (own_page (rw_log rw') ∨
     (∃ text h r1 rw1 w1, rw' = (h r1 rw1 w1).1 ∧
        (text, h) ∈ RegisterSystemRoutes (rd_Readiness deps) (if rd_Metrics deps then Some metrics_handler else None)
                    ++ auth_routes (rd_Auth deps)) ∨
     ∃ permission s sid id,
       csrf_passes (mkCSRF (Cfg.PublicURL (Cfg.HTTP cfg)) secure (CSRFCookieNameFor secure)) r ∧
       authorised cfg (st_Sessions stores) secure r permission s ∧
       SessionID r = Some sid ∧ (secure = true → cookie_get r (SessionCookieNameFor true) = Some sid) ∧
       assetIDPattern id = true ∧
       ((permission = "asset.read" ∧ ∃ assets, asset_answer (as_doer assets) id sid rw') ∨
        (permission = "storage.upload" ∧ ∃ storage, upload_answer (as_doer storage) id sid rw'))).
Proof.
  intros Hb Hn Hrand Hlog rw'.
  destruct (gateway_cases ctx_err ctx_done fuel cfg _ deps w0 w0' h0 r rw w Hb Hn Hrand Hlog)
    as (u & stores & d & regs & wa & wb & Hu & Hst & Hregs & Hcase).
  fold rw' in Hcase. clearbody rw'. exists u, stores, wa, wb. split; [done|]. split; [done|].
  set (secure := bool_decide (u_Scheme u = "https")) in *.
  destruct Hcase as [Hown|[Hsys|(pattern & permission & handler & r1 & rw1 & w1 & Hin & Hrw & Hl1 & _ & Hmsg & _ & Hcsrf & Hauth)]];
    [by left|by right; left|].
  destruct (portal_Register_ok _ _ _ Hregs) as (assets & storage & ->). destruct Hmsg as (_ & _ & Hck & _).
  assert (SessionID r1 = SessionID r) as Hsame by (unfold SessionID, nonempty_cookie, cookie_get; by rewrite Hck).
  assert (∀ s sid, authorised cfg (st_Sessions stores) secure r permission s → SessionID r = Some sid →
    secure = true → cookie_get r (SessionCookieNameFor true) = Some sid) as Hsid.
  { intros s sid (cookie & _ & _ & _ & _ & _ & _ & Hcookie & Hne & _) Hs Htrue. rewrite Htrue in Hcookie.
    rewrite Hcookie. f_equal. symmetry. by eapply SessionID_secure. }
  rewrite !elem_of_cons in Hin. destruct Hin as [[= -> -> ->]|[[= -> -> ->]|Hin%elem_of_nil]]; [| |done].
  - destruct (asset_route_cases (as_doer assets) r1 rw1 w1 Hl1) as [Hden|(sid & Hid & Hs & Hans)].
    + left. by rewrite Hrw.
    + right; right. rewrite <-Hrw in Hans. rewrite Hsame in Hs. destruct Hauth as (s & Hauth & _); [done|].
      exists "asset.read", s, sid, (path_value r1 "id"). split; [done|]. split; [done|]. split; [done|].
      split; [by eapply Hsid|]. split; [done|]. left. eauto.
  - destruct (attachment_route_cases (as_doer storage) r1 rw1 w1 Hl1) as [Hden|(sid & Hid & Hs & Hans)].
    + left. by rewrite Hrw.
    + right; right. rewrite <-Hrw in Hans. rewrite Hsame in Hs. destruct Hauth as (s & Hauth & _); [done|].
      exists "storage.upload", s, sid, (path_value r1 "id"). split; [done|]. split; [done|]. split; [done|].
      split; [by eapply Hsid|]. split; [done|]. right. eauto.
Qed.
End portal.

(** ** Witness *)
Section witnesses.
#[local] Existing Instances gateway_env gateway_case gateway_ip gateway_mux gateway_size gateway_print gateway_float
  gateway_net gateway_zone gateway_host gateway_redis gateway_start gateway_oidc.
(** Upstream services that answer every request. *)
#[local] Instance portal_network : Network := {|
  reach _ _ := mkUpstream
    (λ _ req, Ok (Client.mkResponse 200 (quoted "{'method': 'PUT', 'url': 'https://s.example/x', 'id': 'A1'}") None))
    (λ _, None) "" "" |}.

Definition portal_config (url : string) : Cfg.Config :=
  let c := memory_config in
  Cfg.mkConfig (Cfg.Runtime c) (Cfg.mkHTTP ":8080" "/app" url []) (Cfg.Telemetry c) (Cfg.Limits c) (Cfg.OIDC c)
    (Cfg.Store c) (Cfg.mkPolicy "static" {["user" := ["storage.upload"]]} ∅) (Cfg.Session c) (Cfg.Storage c).
Abbreviation portal_start := (build_deps (λ _, errorf "done") (λ _, None) 0
  (core_options (Some (application (portal_Register ∅))))).
(** A user who is logged in, with a token that does not expire. *)
Definition portal_world (roles : list string) : World :=
  set_tokens (insert "sid" (mkTokenEntry (mkTokenSet "at" "" "" 0) 0)) (login_world roles).
Definition portal_request (input : string) : Request :=
  mkRequest "POST" (path_url "/app/api/assets/A1/attachments/upload-url") "10.0.0.1:1"
    [("Origin", "https://app.example"); (CSRFHeaderName, "t")] [(SessionCookieName, "sid"); (CSRFCookieName, "t")] []
    (quoted input) [] background.
Definition portal_run (roles : list string) (input : string) : option Z :=
  match (portal_start (portal_config "https://app.example") empty_world).1 with
  | Ok deps => h ← to_option (NewRouter "/app" deps); rw_status (h (portal_request input) fresh_rw (portal_world roles)).1
  | Err _ => None
  end.
Definition good_input : string := "{'filename': '../../etc/a.pdf', 'content_type': 'application/pdf'}".

Example portal_answers :
  (portal_run ["user"] good_input, portal_run ["guest"] good_input,
   portal_run ["user"] "{'filename': 'a.exe', 'content_type': 'application/exe'}",
   portal_run ["user"] "{'filename': '/', 'content_type': 'image/png'}") = (Some 200, Some 403, Some 400, Some 400).
Proof. by vm_compute. Qed.

Lemma portal_end_to_end_witness :
  portal_run ["user"] good_input = Some 200 ∧
  match (portal_start (portal_config "https://app.example") empty_world).1 with
  | Ok deps => match NewRouter "/app" deps with Ok h0 =>
      let r := portal_request good_input in
      let rw' := (h0 r fresh_rw (portal_world ["user"])).1 in
      ∃ u stores wa wb, Parse "https://app.example" = Ok u ∧
        build_stores (λ _, errorf "done") (λ _, None) 0 (Cfg.mkStore "memory" "" "rebff") wa = (Ok (Some stores), wb) ∧
        let secure := bool_decide (u_Scheme u = "https") in
        (own_page (rw_log rw') ∨
         (∃ text h r1 rw1 w1, rw' = (h r1 rw1 w1).1 ∧
            (text, h) ∈ RegisterSystemRoutes (rd_Readiness deps) (if rd_Metrics deps then Some metrics_handler else None)
                        ++ auth_routes (rd_Auth deps)) ∨
         ∃ permission s sid id,
           csrf_passes (mkCSRF "https://app.example" secure (CSRFCookieNameFor secure)) r ∧
           authorised (portal_config "https://app.example") (st_Sessions stores) secure r permission s ∧
           SessionID r = Some sid ∧ (secure = true → cookie_get r (SessionCookieNameFor true) = Some sid) ∧
           assetIDPattern id = true ∧
           ((permission = "asset.read" ∧ ∃ assets, asset_answer (as_doer assets) id sid rw') ∨
            (permission = "storage.upload" ∧ ∃ storage, upload_answer (as_doer storage) id sid rw')))
      | Err _ => False end
  | Err _ => False
  end.
Proof.
  split; [by vm_compute|].
  assert (match (portal_start (portal_config "https://app.example") empty_world).1 with
          | Ok deps => is_ok (NewRouter "/app" deps) | Err _ => false end = true) as Hok by (by vm_compute).
  destruct (portal_start (portal_config "https://app.example") empty_world) as [[deps|e] w] eqn:Hs; [|discriminate Hok].
  cbn [fst] in Hok |- *. destruct (NewRouter "/app" deps) as [h0|e] eqn:Hn; [|discriminate Hok].
  apply (portal_end_to_end (λ _, errorf "done") (λ _, None) 0 (portal_config "https://app.example") ∅ deps empty_world w h0
           (portal_request good_input) fresh_rw (portal_world ["user"]) Hs Hn).
  - intros i l [= <-]. reflexivity.
  - reflexivity.
Defined.

(** With an http public address the permission is checked for the session of one
    cookie and the upstream is called for the session of another. *)
Example session_id_other_cookie :
  let r := mkRequest "GET" (path_url "/app/api/assets/A1") "10.0.0.1:1" []
             [(InsecureSessionCookieName, "checked"); (SessionCookieName, "other")] [] "" [] background in
  (cookie_get r (SessionCookieNameFor false), SessionID r) = (Some "checked", Some "other").
Proof. by vm_compute. Qed.
End witnesses.
